(* ===== verification/_CoqProject ===== *)
-Q . S2P
Prelude.v
Config.v
Message.v
RecentCache.v
GoRuntime.v
Subscriber.v
BufferManager.v
Throttler.v
Topic.v
TopicManager.v
Registry.v
Locking.v
Handlers.v
System.v
