(* ===== verification/Prelude.v ===== *)
(** * ClervLive: a verification development of the server

    ClervLive (src/) is a multi-tenant publish/subscribe server written
    in Go.  HTTP publishers post JSON events to [/publish]; WebSocket
    clients subscribe to one topic of one tenant on [/subscribe] and
    receive its events; [/health] and [/metrics] report counters.

    ** The parts and how they interact

    [main] (src/unnamed/part_001) loads the configuration, creates one
    buffer manager, one throttler and one topic manager, and hands the
    same objects to the handlers.  A publish request asks the throttler
    whether to slow down, builds a message and calls
    [TopicManager.Publish], which finds or creates the topic of
    ["tenant:name"], appends the message to the topic's ring buffer and
    offers it to every subscriber of a snapshot of the topic.  A
    subscribe request builds a subscriber whose inbox size the buffer
    manager chooses, registers it with the topic manager (which counts
    it in the buffer manager), starts its delivery goroutine and a
    catch-up goroutine that replays the last 50 messages, waits until
    its context is done and unsubscribes it.  A subscriber's delivery
    goroutine writes its inbox to the connection and pings it; a failed
    write or ping closes the subscriber.  Background goroutines push
    the subscriber counts into the throttler every second, recompute
    the buffer size, and disarm the throttle.  On a signal [main] shuts
    the topic manager down (closing every subscriber) and stops the
    buffer manager.

    ** Files, modules and the code they model

    - [Prelude.v]: this header; Go integers ([wrap], [int32], [int64],
      [go_div], [go_rem]), the [outcome] type of computations that may
      panic with its [let!] notation and setoid [oeq], list and string
      helpers ([lastn], [sumZ], [sum_values]), the hint databases
      [clerv] and [clerv_rw] and the shared tactics.
    - [Config.v], Module [Config]: config.go lines 1-37 ([getEnv],
      [getEnvInt] with the [fmt.Sscanf "%d"] scanner, [LoadConfig]).
    - [Message.v], Module [Message]: config.go lines 38-62 ([Message],
      [NewMessage], [GenerateId]); the clock is an argument.
    - [RecentCache.v], Module [RecentCache]: core/recent_cache.go (the
      ring buffer with Go's bounds and division checks); Module
      [CacheCopy]: the identical package cache/recent_cache.go.
    - [GoRuntime.v], Modules [Chan], [Conn]: the Go channel and the
      WebSocket connection the subscriber uses (library semantics).
    - [Subscriber.v], Module [Subscriber]: core/subscriber.go;
      [SendMessages] and [handleBackPressure], [Close], and [sendLoop]
      as the step relation [sendLoop_step] with one constructor per case
      of its [select].
    - [BufferManager.v], Module [BufferManager]: part_002 (package
      buffer), [int32] counts and [int64] arithmetic kept at width.
    - [Throttler.v], Module [Throttler]: part_003 (package throttle);
      [float64] as [Q], the disarm goroutines as pending timers, and
      concurrent [ShouldThrottle] calls as a check step followed later
      by the [StartThrottling] step.
    - [Topic.v], Module [Topic]: topic.go lines 1-167; the subscribers
      live in a shared store of pointers, reached through the typeclass
      [SubscriberApi] whose instance is Subscriber.v's subscriber.
    - [TopicManager.v], Module [TopicManager]: topic.go lines 179-387.
    - [Registry.v], Module [Registry]: the abstract specification of the
      manager's registry, a map from (tenant, topic) to subscriber IDs,
      and the simulation of [Publish], [Subscribe] and [Unsubscribe].
    - [Locking.v], Modules [RWMutex], [Locks], [LockSys]: the lock
      operations each [TopicManager] method performs on [tm.mu], run as
      goroutines over Go's [sync.RWMutex].
    - [Handlers.v], Modules [PublishHandler], [SubscribeHandler],
      [HealthHandler]: handlers/publish.go (publish and subscribe
      handlers) and handlers/health.go.
    - [System.v], Module [System]: the whole process as a step relation
      [sys_step] interleaving every goroutine [main] starts, with the
      executable scheduler [exec_all] and its soundness lemma.

    ** What the theorems show

    - Isolation: a publish changes no subscriber of another tenant
      ([TopicManager.tenant_isolation]); in every reachable state of the
      whole server every message written to a client or queued for it
      has the client's tenant and topic ([System.system_isolation]).
      Both assume tenant IDs without ':'; with a colon two tenants
      share a key ([publish_cross_tenant], [ledger_leak_on_collision]).
    - Invariants of each component and their preservation: the ring
      buffer's shape, the bounded inbox ([inbox_bounded]), the drop
      accounting ([drop_accounting]), the buffer size bounds, the
      registry invariant, and the subscriber
      count of the buffer manager against the registry, for the manager
      ([subscriber_ledger]) and for the reachable server
      ([System.health_ledger]).
    - Functional behaviour and refinement: [RecentCache.Add] and
      [GetLast] refine appending to and reading the suffix of the
      history; [Topic.sendRecentMessages] refines replaying the last 50;
      the flat ["tenant:name"] registry refines the two-level map of
      tenants and topics to subscriber IDs ([Registry.registry_refines]),
      and a subscription through the subscribe handler followed by its
      end leaves it as a publish does
      ([SubscribeHandler.subscription_lifecycle]); a publish answered
      200 leaves the message with the returned ID last in the inbox of
      every open subscriber of the topic
      ([PublishHandler.publish_roundtrip]);
      the fan-out's order does not matter; the per-branch behaviour of
      the enqueue protocol, [Close], the throttle decision and the
      buffer recalculation; the publish handler's answer to each
      request ([PublishHandler.publish_response_spec]).
    - Round trips: [getEnvInt] of a printed integer returns it; the
      cache returns the history it was fed.
    - Error behaviour and reachable failures: sends after [Close] panic;
      a write failure loses the message being written (the second case
      of [drop_accounting]); concurrent [ShouldThrottle] calls clear
      the throttle sooner than its duration
      ([Throttler.throttle_hysteresis_race]); the process
      panics in reachable runs ([System.reachable_crashes]); catch-up
      duplicates messages; [GetMetrics] deadlocks with a topic creation
      ([Locking.metrics_deadlock]) while every other use of the registry
      lock terminates ([Locking.methods_terminate]); the [int32]
      truncation of the buffer size; what [LoadConfig] makes of values
      with a suffix or without digits ([Config.LoadConfig_surprises]).

    ** Bounds and fuel

    No definition uses fuel except the decimal printer [Config.dec] of
    the round-trip theorem, given 19 digits, enough for every [int64].
    [RecentCache.get_loop] recurses on the number of slots copied.  The
    system model's runs are finite lists of events; its theorems hold
    for every finite interleaving.  Integers keep their Go widths where
    the code converts or wraps ([int32] counts, [int64] memory).

    ** Not modelled

    JSON decoding and encoding (the body is an input, the response a
    record), the WebSocket handshake and framing (a connection that
    records what was written and its close status), the wall clock and
    [runtime] statistics (inputs), [time.Time.Format] and
    [time.Duration.String] (section variables), the rounding of
    [float64] (rationals), non-ASCII white space in [Sscanf], logging,
    the HTTP server's timeouts, the /metrics and / renderings (their
    data and the lock behaviour of /metrics are modelled), the Docker
    build (src/Dockerfile, part_000) and the README. *)

From stdpp Require Export base list gmap strings.
From Stdlib Require Export ZArith Lia.

Declare Scope go_scope.
Delimit Scope go_scope with go.
Open Scope Z_scope.

(** ** Computations that may panic

    A Go runtime panic (index out of range, division by zero, send on a
    closed channel, close of a closed channel) aborts the goroutine and,
    unrecovered, the whole process.  Operations that can panic return an
    [outcome]. *)
Inductive outcome (A : Type) : Type :=
| Ret (a : A)
| Panic (why : string).
Arguments Ret {A} a.
Arguments Panic {A} why.

Definition obind {A B : Type} (m : outcome A) (k : A -> outcome B) : outcome B :=
  match m with
  | Ret a => k a
  | Panic w => Panic w
  end.

Notation "'let!' x ':=' m 'in' k" := (obind m (fun x => k))
  (at level 100, x name, m at level 99, k at level 100, right associativity) : go_scope.
Notation "'let!' ' p ':=' m 'in' k" := (obind m (fun p => k))
  (at level 100, p pattern, m at level 99, k at level 100, right associativity) : go_scope.
Open Scope go_scope.

Definition is_panic {A} (m : outcome A) : bool :=
  match m with Panic _ => true | Ret _ => false end.

Lemma is_panic_obind {A B} (m : outcome A) (k : A -> outcome B) :
  is_panic m = true -> is_panic (obind m k) = true.
Proof. by destruct m. Qed.

Lemma obind_ret {A B} (a : A) (k : A -> outcome B) : obind (Ret a) k = k a.
Proof. reflexivity. Qed.

Lemma obind_ret_inv {A B} (m : outcome A) (k : A -> outcome B) b :
  obind m k = Ret b -> exists a, m = Ret a /\ k a = Ret b.
Proof. destruct m; simpl; [eauto | discriminate]. Qed.

(** Two computations are equivalent when they return the same value or
    both panic: the panic message is not observable by the program. *)
Definition oeq {A} (m1 m2 : outcome A) : Prop :=
  match m1, m2 with
  | Ret a, Ret b => a = b
  | Panic _, Panic _ => True
  | _, _ => False
  end.
Infix "≈ₒ" := oeq (at level 70) : go_scope.

#[export] Instance oeq_equivalence {A} : Equivalence (@oeq A).
Proof.
  split.
  - intros [a|w]; done.
  - intros [a|w] [b|v]; simpl; done.
  - intros [a|w] [b|v] [c|u]; simpl; intros; subst; done.
Qed.

#[export] Instance obind_proper {A B} :
  Proper (oeq ==> pointwise_relation A oeq ==> @oeq B) obind.
Proof.
  intros [a|w] [b|v] Hm k1 k2 Hk; simpl in *; try done.
  subst. apply Hk.
Qed.

Lemma oeq_ret {A} (m : outcome A) a : m ≈ₒ Ret a <-> m = Ret a.
Proof. destruct m; simpl; split; intros; subst; done || congruence. Qed.

(** ** Go integers

    A Go [intW] holds values in [-2^(W-1), 2^(W-1)); a conversion
    [intW(x)] and every arithmetic operation wrap modulo [2^W]. *)
Definition wrap (w z : Z) : Z := (z + 2 ^ (w - 1)) mod 2 ^ w - 2 ^ (w - 1).
Definition int32 (z : Z) : Z := wrap 32 z.
Definition int64 (z : Z) : Z := wrap 64 z.
Definition in_int (w z : Z) : Prop := - 2 ^ (w - 1) <= z < 2 ^ (w - 1).

Lemma pow2_split w : 0 < w -> 2 ^ w = 2 * 2 ^ (w - 1).
Proof.
  intros Hw. replace w with (Z.succ (w - 1)) at 1 by lia.
  rewrite Z.pow_succ_r; lia.
Qed.

Lemma wrap_range w z : 0 < w -> in_int w (wrap w z).
Proof.
  intros Hw. unfold wrap, in_int. pose proof (pow2_split w Hw).
  assert (0 < 2 ^ (w - 1)) by (apply Z.pow_pos_nonneg; lia).
  pose proof (Z.mod_pos_bound (z + 2 ^ (w - 1)) (2 ^ w)). lia.
Qed.

Lemma wrap_small w z : 0 < w -> in_int w z -> wrap w z = z.
Proof.
  intros Hw Hz. unfold wrap, in_int in *. pose proof (pow2_split w Hw).
  rewrite Z.mod_small; lia.
Qed.

(** Go's [/] and [%] on integers truncate towards zero. *)
(** Wrapping after each product is wrapping once at the end. *)
Lemma wrap_mul w x k : 0 < w -> wrap w (wrap w x * k) = wrap w (x * k).
Proof.
  intros Hw. unfold wrap. f_equal. assert (Hm : 2 ^ w <> 0) by (apply Z.pow_nonzero; lia).
  rewrite (Z.mod_eq (x + 2 ^ (w - 1))) by done.
  replace (((x + 2 ^ (w - 1) - 2 ^ w * ((x + 2 ^ (w - 1)) / 2 ^ w)) - 2 ^ (w - 1)) * k + 2 ^ (w - 1))
    with ((x * k + 2 ^ (w - 1)) + (- ((x + 2 ^ (w - 1)) / 2 ^ w) * k) * 2 ^ w) by ring.
  apply Z_mod_plus_full.
Qed.

(** Wrapping before an addition is wrapping once at the end. *)
Lemma wrap_add w x k : 0 < w -> wrap w (wrap w x + k) = wrap w (x + k).
Proof.
  intros Hw. unfold wrap. f_equal. assert (Hm : 2 ^ w <> 0) by (apply Z.pow_nonzero; lia).
  replace ((x + 2 ^ (w - 1)) mod 2 ^ w - 2 ^ (w - 1) + k + 2 ^ (w - 1))
    with ((x + 2 ^ (w - 1)) mod 2 ^ w + k) by ring.
  rewrite Z.add_mod_idemp_l by done. f_equal. ring.
Qed.

Lemma int64_small z : - 2 ^ 63 <= z < 2 ^ 63 -> int64 z = z.
Proof. intros H. apply wrap_small; [lia|]. unfold in_int. exact H. Qed.

Lemma int32_small z : - 2 ^ 31 <= z < 2 ^ 31 -> int32 z = z.
Proof. intros H. apply wrap_small; [lia|]. unfold in_int. exact H. Qed.

Definition go_div (a b : Z) : Z := Z.quot a b.
Definition go_rem (a b : Z) : Z := Z.rem a b.

Lemma go_rem_mod a b : 0 <= a -> 0 < b -> go_rem a b = a mod b.
Proof. apply Z.rem_mod_nonneg. Qed.

Lemma go_div_nonneg a b : 0 <= a -> 0 < b -> go_div a b = a / b.
Proof. intros. unfold go_div. apply Z.quot_div_nonneg; lia. Qed.

(** ** Lists: the last [n] elements *)
Definition lastn {A} (n : nat) (l : list A) : list A := drop (length l - n) l.

Section lastn.
Context {A : Type}.
Implicit Types (l : list A) (x : A).

Lemma length_lastn n l : length (lastn n l) = min n (length l).
Proof. unfold lastn. rewrite length_drop. lia. Qed.

Lemma lastn_all n l : (length l <= n)%nat -> lastn n l = l.
Proof. intros H. unfold lastn. replace (length l - n)%nat with 0%nat by lia. done. Qed.

Lemma lookup_lastn n l j :
  lastn n l !! j = l !! (length l - n + j)%nat.
Proof. unfold lastn. by rewrite lookup_drop. Qed.

Lemma lastn_lastn n m l : lastn n (lastn m l) = lastn (min n m) l.
Proof.
  apply list_eq. intros j.
  rewrite !lookup_lastn, length_lastn. f_equal. lia.
Qed.

Lemma lastn_length_eq n l : (n = length l)%nat -> lastn n l = l.
Proof. intros ->. apply lastn_all. lia. Qed.

Lemma lastn_snoc n l x :
  lastn n (l ++ [x]) = lastn n (lastn n l ++ [x]).
Proof.
  assert (lastn n l ++ [x] = drop (length l - n) (l ++ [x])) as ->.
  { unfold lastn. rewrite drop_app_le by lia. done. }
  unfold lastn. rewrite drop_drop, length_drop, length_app. simpl. f_equal. lia.
Qed.

Lemma lastn_snoc_full n l x :
  length l = S n -> lastn (S n) (l ++ [x]) = drop 1 l ++ [x].
Proof.
  intros Hl. unfold lastn. rewrite length_app, Hl. simpl.
  rewrite drop_app_le by lia. f_equal. f_equal. lia.
Qed.

End lastn.

(** Two lists of the same length that agree below their length are equal. *)
Lemma Forall_sublist_of {A} (P : A -> Prop) l1 l2 : l1 `sublist_of` l2 -> Forall P l2 -> Forall P l1.
Proof. induction 1; inversion 1; subst; auto. Qed.

Lemma Forall_lastn {A} (P : A -> Prop) n l : Forall P l -> Forall P (lastn n l).
Proof. intros H. unfold lastn. by apply Forall_drop. Qed.

Lemma list_eq_lt {A} (l1 l2 : list A) :
  length l1 = length l2 -> (forall j, (j < length l1)%nat -> l1 !! j = l2 !! j) -> l1 = l2.
Proof.
  intros Hlen H. apply list_eq. intros j.
  destruct (decide (j < length l1)%nat) as [Hj|Hj]; [by apply H|].
  rewrite !lookup_ge_None_2; [done|lia|lia].
Qed.

(** ** Strings: [String.append] does not simplify by [simpl] *)
Lemma string_app_nil s : "" +:+ s = s.
Proof. reflexivity. Qed.

Lemma string_app_cons c s1 s2 : String c s1 +:+ s2 = String c (s1 +:+ s2).
Proof. reflexivity. Qed.

Lemma string_app_cons_ne s c s' : s +:+ String c s' <> "".
Proof. destruct s; discriminate. Qed.

(** ** Positions in a ring of [n] slots *)
Lemma ring_pos_ne i d n : 0 <= i < n -> 0 < d < n -> (i - d) mod n <> i.
Proof.
  intros Hi Hd. destruct (decide (d <= i)).
  - rewrite Z.mod_small; lia.
  - replace (i - d) with ((i - d + n) + (-1) * n) by lia.
    rewrite Z_mod_plus_full, Z.mod_small; lia.
Qed.

Lemma ring_pos_bound a n : 0 < n -> 0 <= a mod n < n.
Proof. apply Z.mod_pos_bound. Qed.

Lemma ring_pos_shift a b n : 0 < n -> (a mod n + b) mod n = (a + b) mod n.
Proof. intros. apply Z.add_mod_idemp_l. lia. Qed.


(** ** Sums of integer-valued functions over lists and maps, as the
    [total += f(x)] loops of the source compute them *)
Definition sumZ {A} (f : A -> Z) (l : list A) : Z := foldr (fun x total => f x + total) 0 l.

Lemma sumZ_perm {A} (f : A -> Z) l1 l2 : l1 ≡ₚ l2 -> sumZ f l1 = sumZ f l2.
Proof. unfold sumZ. induction 1; simpl; lia. Qed.

Lemma sumZ_app {A} (f : A -> Z) l1 l2 : sumZ f (l1 ++ l2) = sumZ f l1 + sumZ f l2.
Proof. unfold sumZ. induction l1; simpl; lia. Qed.

Lemma sumZ_nonneg {A} (f : A -> Z) l : (forall x, 0 <= f x) -> 0 <= sumZ f l.
Proof. intros Hf. unfold sumZ. induction l; simpl; [lia|]. specialize (Hf a). lia. Qed.

(** The sum over the values of a map, in its iteration order. *)
Definition sum_values `{Countable K} {A} (f : A -> Z) (m : gmap K A) : Z := sumZ f (map_to_list m).*2.

Lemma sum_values_insert_new `{Countable K} {A} (f : A -> Z) (m : gmap K A) k x :
  m !! k = None -> sum_values f (<[k := x]> m) = f x + sum_values f m.
Proof.
  intros Hk. unfold sum_values. rewrite (sumZ_perm _ _ ((k, x) :: map_to_list m).*2); [done|].
  apply fmap_Permutation. by apply map_to_list_insert.
Qed.

Lemma sum_values_insert `{Countable K} {A} (f : A -> Z) (m : gmap K A) k x y :
  m !! k = Some y -> sum_values f (<[k := x]> m) = sum_values f m - f y + f x.
Proof.
  intros Hk. rewrite <- (insert_delete_id m k y Hk) at 2.
  rewrite <- insert_delete_eq.
  rewrite !sum_values_insert_new by apply lookup_delete_eq. lia.
Qed.

(** ** Invariants of step relations *)

(** A property preserved by every step holds in every reachable state. *)
Lemma rtc_preserved {A} (R : relation A) (P : A -> Prop) x y :
  (forall a b, P a -> R a b -> P b) -> P x -> rtc R x y -> P y.
Proof. intros Hstep Hx Hxy. induction Hxy; eauto. Qed.

(** ** Automation shared by the component files *)
Create HintDb clerv discriminated.
Create Rewrite HintDb clerv_rw.
#[export] Hint Resolve wrap_range wrap_small : clerv.
#[export] Hint Rewrite @length_lastn @obind_ret : clerv_rw.

(** [invc H] inverts a hypothesis, substitutes and clears it. *)
Ltac invc H := inversion H; subst; clear H.

(** [go_cases] splits every [decide] of the goal and hypotheses. *)
Ltac go_cases :=
  repeat match goal with
         | |- context [decide ?p] => destruct (decide p)
         | H : context [decide ?p] |- _ => destruct (decide p)
         end.

(** [eval_decide] proves a decidable proposition about closed terms by
    evaluating its decision procedure. *)
Ltac eval_decide :=
  match goal with |- ?P => apply (bool_decide_unpack P); vm_compute; exact I end.
