(* ===== verification/Config.v ===== *)
(** * Config: loading the server configuration from the environment

    Models [Config], [getEnv], [getEnvInt] and [LoadConfig] of
    src/internal/config/config.go (lines 1-37).  The environment is a
    function from variable names to values, [""] standing for an unset
    variable as [os.Getenv] returns it.  [getEnvInt] parses with
    [fmt.Sscanf(value, "%d", &intValue)], whose behaviour on a string
    is written out in [scan_int] after Go's [fmt] scanner: skip leading
    white space (a newline is an error), an optional sign, the longest
    run of decimal digits (at least one), then [strconv.ParseInt] with
    its 64-bit range check; text after the digits is ignored.  On any
    error [Sscanf] does not store, so [intValue] keeps its zero value.
    White space outside ASCII (U+0085, U+00A0 and the other Unicode
    spaces) is not modelled: the model treats it as a non-digit. *)

From Stdlib Require Import Ascii.
From S2P Require Import Prelude.

Module Config.

(** [type Config struct]. *)
Record t : Type := mk {
  Address : string;
  MaxMemory : Z
}.

(** The process environment, as [os.Getenv] reads it. *)
Definition env : Type := string -> string.

(** [func getEnv(key, defaultValue string) string]. *)
Definition getEnv (e : env) (key defaultValue : string) : string :=
  if decide (e key <> "")%string then e key else defaultValue.

(** The scanner's errors. *)
Inductive scan_error : Type :=
| ErrUnexpectedNewline
| ErrUnexpectedEOF
| ErrExpectedInteger
| ErrRange.

(** [isSpace] of fmt/scan.go on ASCII. *)
Definition is_space (c : ascii) : bool :=
  bool_decide (c = " "%char \/ c = "009"%char \/ c = "010"%char \/ c = "011"%char \/ c = "012"%char \/
               c = "013"%char).

Definition is_digit (c : ascii) : bool :=
  bool_decide (48 <= nat_of_ascii c <= 57)%nat.

Definition digit_val (c : ascii) : Z := Z.of_nat (nat_of_ascii c) - 48.

(** [SkipSpace] as [Sscanf] calls it: newlines are not space. *)
Fixpoint skip_space (s : string) : string + scan_error :=
  match s with
  | EmptyString => inl EmptyString
  | String c s' =>
      if decide (c = "010"%char) then inr ErrUnexpectedNewline
      else if is_space c then skip_space s' else inl s
  end.

(** [scanNumber] with the decimal digits: the longest run of digits. *)
Fixpoint take_digits (s : string) : string * string :=
  match s with
  | String c s' =>
      if is_digit c then let '(d, r) := take_digits s' in (String c d, r) else (EmptyString, s)
  | EmptyString => (EmptyString, EmptyString)
  end.

(** [strconv.ParseInt(tok, 10, 64)] on a run of digits. *)
Fixpoint digits_value (acc : Z) (d : string) : Z :=
  match d with
  | EmptyString => acc
  | String c d' => digits_value (10 * acc + digit_val c) d'
  end.

(** [scanInt] of [fmt] for the verb [%d] with [bitSize = 64]. *)
Definition scan_int (v : string) : Z + scan_error :=
  match skip_space v with
  | inr err => inr err
  | inl EmptyString => inr ErrUnexpectedEOF
  | inl s =>
      let '(neg, s1) :=
        match s with
        | String "-"%char s' => (true, s')
        | String "+"%char s' => (false, s')
        | _ => (false, s)
        end in
      match take_digits s1 with
      | (EmptyString, _) => inr (if decide (s1 = EmptyString) then ErrUnexpectedEOF else ErrExpectedInteger)
      | (d, _) =>
          let n := digits_value 0 d in
          let n := if neg then - n else n in
          if decide (in_int 64 n) then inl n else inr ErrRange
      end
  end.

(** [func getEnvInt(key string, defaultValue int) int]. *)
Definition getEnvInt (e : env) (key : string) (defaultValue : Z) : Z :=
  let value := e key in
  if decide (value <> "")%string then
    match scan_int value with
    | inl intValue => intValue
    | inr _ => 0
    end
  else defaultValue.

(** [func LoadConfig() Config]: [int64(maxMemoryMB) * 1024 * 1024],
    each product wrapping at 64 bits. *)
Definition LoadConfig (e : env) : t :=
  let address := getEnv e "ADDRESS" ":8080" in
  let maxMemoryMB := getEnvInt e "MAX_MEMORY_MB" 2048 in
  mk address (int64 (int64 (int64 maxMemoryMB * 1024) * 1024)).

(** ** The decimal rendering of an integer *)

(** The digit [n] (for [0 <= n < 10]) as a character. *)
Definition digit_char (n : Z) : ascii := ascii_of_nat (Z.to_nat (48 + n)).

(** The decimal digits of [n >= 0], with [fuel] digits at most. *)
Fixpoint dec (fuel : nat) (n : Z) : string :=
  match fuel with
  | O => EmptyString
  | S f =>
      if decide (n < 10) then String (digit_char n) EmptyString
      else dec f (n / 10) +:+ String (digit_char (n mod 10)) EmptyString
  end.

(** How [strconv.Itoa] (or [fmt]'s [%d]) writes an [int64]: at most 19
    digits after the sign. *)
Definition itoa (n : Z) : string :=
  if decide (n < 0) then String "-"%char (dec 19 (- n)) else dec 19 n.

Fixpoint all_digits (s : string) : bool :=
  match s with
  | EmptyString => true
  | String c s' => is_digit c && all_digits s'
  end.

(** ** Lemmas *)

Lemma digit_char_spec n : 0 <= n < 10 -> is_digit (digit_char n) = true /\ digit_val (digit_char n) = n.
Proof.
  intros Hn. unfold is_digit, digit_val, digit_char.
  rewrite nat_ascii_embedding by lia. split; [apply bool_decide_eq_true; lia|lia].
Qed.

Lemma digit_not_space c : is_digit c = true -> is_space c = false /\ c <> "010"%char.
Proof.
  unfold is_digit, is_space. intros H%bool_decide_eq_true. split.
  - apply bool_decide_eq_false. intros Hc. repeat destruct Hc as [->|Hc]; [..|subst]; vm_compute in H; lia.
  - intros ->. vm_compute in H. lia.
Qed.

Lemma digits_value_app acc d1 d2 : digits_value acc (d1 +:+ d2) = digits_value (digits_value acc d1) d2.
Proof. revert acc. induction d1 as [|c d1 IH]; intros acc; [done|]. rewrite string_app_cons. apply IH. Qed.

Lemma all_digits_app d1 d2 : all_digits (d1 +:+ d2) = all_digits d1 && all_digits d2.
Proof. induction d1 as [|c d1 IH]; [done|]. rewrite string_app_cons. simpl. rewrite IH. apply andb_assoc. Qed.

Lemma take_digits_all s : all_digits s = true -> take_digits s = (s, EmptyString).
Proof.
  induction s as [|c s IH]; [done|]. simpl. intros [Hc Hs]%andb_prop. rewrite Hc, IH by done. done.
Qed.

Lemma dec_spec fuel n :
  (0 < fuel)%nat -> 0 <= n < 10 ^ Z.of_nat fuel ->
  all_digits (dec fuel n) = true /\ digits_value 0 (dec fuel n) = n /\ dec fuel n <> EmptyString.
Proof.
  revert n. induction fuel as [|f IH]; intros n Hf Hn; [lia|].
  rewrite Nat2Z.inj_succ, Z.pow_succ_r in Hn by lia. simpl.
  destruct (decide (n < 10)) as [Hlt|Hge].
  - destruct (digit_char_spec n) as [Hd Hv]; [lia|]. simpl. rewrite Hd, Hv. done.
  - destruct f as [|f']; [simpl Z.of_nat in Hn; rewrite Z.pow_0_r in Hn; lia|].
    destruct (IH (n / 10)) as (Had & Hval & _); [lia| |].
    { split; [apply Z.div_pos; lia|]. apply Z.div_lt_upper_bound; lia. }
    destruct (digit_char_spec (n mod 10)) as [Hd Hv]; [apply Z.mod_pos_bound; lia|].
    rewrite all_digits_app, digits_value_app, Had, Hval.
    split; [simpl; by rewrite Hd|]. split; [|apply string_app_cons_ne].
    simpl. rewrite Hv. pose proof (Z.div_mod n 10). lia.
Qed.

(** What may follow the digits of a number: nothing, or a character
    that is not a digit. *)
Definition first_not_digit (rest : string) : Prop :=
  match rest with String c _ => is_digit c = false | EmptyString => True end.

Lemma app_empty_r s : s +:+ "" = s.
Proof. induction s as [|c s IH]; [done|]. rewrite string_app_cons. by rewrite IH. Qed.

Lemma take_digits_app d rest :
  all_digits d = true -> first_not_digit rest -> take_digits (d +:+ rest) = (d, rest).
Proof.
  intros Had Hr. induction d as [|c d IH].
  - destruct rest as [|c rest]; [done|]. simpl in *. by rewrite Hr.
  - simpl in Had. apply andb_prop in Had as [Hc Hd]. rewrite string_app_cons. simpl. by rewrite Hc, IH.
Qed.

Lemma scan_digits_app d rest : all_digits d = true -> d <> EmptyString -> in_int 64 (digits_value 0 d) ->
  first_not_digit rest -> scan_int (d +:+ rest) = inl (digits_value 0 d).
Proof.
  intros Had Hne Hr Hrest. destruct d as [|c d']; [done|].
  pose proof Had as [Hc _]%andb_prop. destruct (digit_not_space c Hc) as [Hsp Hnl].
  unfold scan_int. rewrite string_app_cons. simpl. rewrite decide_False, Hsp by done.
  assert (Hsign : match String c (d' +:+ rest) with String "-"%char s' => (true, s')
                  | String "+"%char s' => (false, s') | _ => (false, String c (d' +:+ rest)) end
                  = (false, String c (d' +:+ rest))).
  { destruct (decide (c = "-"%char)) as [->|]; [done|]. destruct (decide (c = "+"%char)) as [->|]; [done|].
    repeat (case_match; try done; simplify_eq). }
  rewrite Hsign. rewrite <- string_app_cons, take_digits_app by done. by rewrite decide_True.
Qed.

(** The scanner reads back what [itoa] writes, whatever non-digit text
    follows it. *)
Lemma scan_int_itoa_app n rest : in_int 64 n -> first_not_digit rest -> scan_int (itoa n +:+ rest) = inl n.
Proof.
  intros Hr Hrest. unfold in_int in Hr. assert (Hb : 2 ^ (64 - 1) < 10 ^ Z.of_nat 19) by (vm_compute; reflexivity).
  unfold itoa. destruct (decide (n < 0)) as [Hn|Hn].
  - destruct (dec_spec 19 (- n)) as (Had & Hval & Hne); [lia|lia|].
    destruct (dec 19 (- n)) as [|c d'] eqn:Hd; [done|].
    rewrite !string_app_cons. unfold scan_int.
    change (skip_space (String "-"%char (String c (d' +:+ rest))))
      with (inl (B := scan_error) (String "-"%char (String c (d' +:+ rest)))).
    cbv beta iota zeta. rewrite <- string_app_cons, take_digits_app by done. cbv beta iota zeta.
    rewrite Hval, Z.opp_involutive. by rewrite decide_True.
  - destruct (dec_spec 19 n) as (Had & Hval & Hne); [lia|lia|].
    rewrite scan_digits_app, Hval; try done. by rewrite Hval.
Qed.

Lemma scan_int_itoa n : in_int 64 n -> scan_int (itoa n) = inl n.
Proof. intros Hr. rewrite <- (app_empty_r (itoa n)). by apply scan_int_itoa_app. Qed.

(** A value that starts with anything but a space, a sign or a digit is
    not a number. *)
Lemma scan_int_garbage c rest :
  is_digit c = false -> is_space c = false -> c <> "010"%char -> c <> "-"%char -> c <> "+"%char ->
  scan_int (String c rest) = inr ErrExpectedInteger.
Proof.
  intros Hd Hs Hnl Hm Hp. unfold scan_int. simpl. rewrite decide_False, Hs by done.
  assert (Hsign : match String c rest with String "-"%char s' => (true, s')
                  | String "+"%char s' => (false, s') | _ => (false, String c rest) end = (false, String c rest)).
  { repeat (case_match; try done; simplify_eq). }
  rewrite Hsign. simpl. by rewrite Hd.
Qed.

Lemma itoa_ne n : in_int 64 n -> itoa n <> EmptyString.
Proof.
  unfold in_int, itoa. intros Hr. assert (Hb : 2 ^ (64 - 1) < 10 ^ Z.of_nat 19) by (vm_compute; reflexivity).
  destruct (decide (n < 0)); [discriminate|]. apply dec_spec; lia.
Qed.

Lemma getEnvInt_itoa e key def n : in_int 64 n -> e key = itoa n -> getEnvInt e key def = n.
Proof.
  intros Hr He. unfold getEnvInt. rewrite He, decide_True by (apply itoa_ne; done).
  by rewrite scan_int_itoa.
Qed.

Lemma LoadConfig_MaxMemory_wrap e : (LoadConfig e).(MaxMemory) = int64 (getEnvInt e "MAX_MEMORY_MB" 2048 * 1048576).
Proof.
  unfold LoadConfig, int64. simpl. set (x := getEnvInt e "MAX_MEMORY_MB" 2048).
  rewrite (wrap_mul 64 x 1024), (wrap_mul 64 (x * 1024) 1024) by lia. f_equal. lia.
Qed.

(** C38: [getEnvInt] reads back every [int64] written in decimal:
    parsing the rendering of [n] with [Sscanf("%d")] gives [n]. *)
Theorem getEnvInt_roundtrip e key def n : in_int 64 n -> e key = itoa n -> getEnvInt e key def = n.
Proof. apply getEnvInt_itoa. Qed.

(** [LoadConfig] computes [MaxMemory] in bytes: [2048 MiB] when
    [MAX_MEMORY_MB] is unset, [mb MiB] for a decimal [mb] below [2^43],
    and in general the 64-bit wrap of [mb * 2^20]. *)
Theorem LoadConfig_MaxMemory e :
  (e "MAX_MEMORY_MB" = "" -> (LoadConfig e).(MaxMemory) = 2048 * 1048576) /\
  (forall mb, 0 <= mb < 2 ^ 43 -> e "MAX_MEMORY_MB" = itoa mb -> (LoadConfig e).(MaxMemory) = mb * 1048576) /\
  (forall mb, in_int 64 mb -> e "MAX_MEMORY_MB" = itoa mb -> (LoadConfig e).(MaxMemory) = int64 (mb * 1048576)).
Proof.
  rewrite LoadConfig_MaxMemory_wrap. split; [|split].
  - intros He. unfold getEnvInt. rewrite He. simpl. vm_compute. reflexivity.
  - intros mb Hmb He. rewrite (getEnvInt_itoa _ _ _ mb) by (unfold in_int; lia || done).
    apply int64_small. lia.
  - intros mb Hr He. by rewrite (getEnvInt_itoa _ _ _ mb).
Qed.

(** An environment with one variable set. *)
Definition env_with (k v : string) : env := fun k' => if decide (k' = k) then v else "".

(** C39: what [LoadConfig] makes of values of [MAX_MEMORY_MB] that are
    not plain numbers of MiB: a number followed by any text that does
    not start with a digit (["2GB"]) is read as that number, the text
    ignored; a value that starts with anything but a space, a sign or a
    digit (["abc"]) gives a budget of [0] rather than the default
    [2048 MiB]; and a number of MiB from [2^43] on wraps the byte count
    at 64 bits. *)
Theorem LoadConfig_surprises e :
  (forall mb rest, in_int 64 mb -> first_not_digit rest -> e "MAX_MEMORY_MB" = itoa mb +:+ rest ->
     (LoadConfig e).(MaxMemory) = int64 (mb * 1048576)) /\
  (forall c rest, is_digit c = false -> is_space c = false -> c <> "010"%char -> c <> "-"%char -> c <> "+"%char ->
     e "MAX_MEMORY_MB" = String c rest -> (LoadConfig e).(MaxMemory) = 0) /\
  (forall mb, 2 ^ 43 <= mb < 2 ^ 63 -> e "MAX_MEMORY_MB" = itoa mb ->
     (LoadConfig e).(MaxMemory) = mb * 1048576 - 2 ^ 64 * ((mb * 1048576 + 2 ^ 63) / 2 ^ 64)).
Proof.
  rewrite LoadConfig_MaxMemory_wrap. split; [|split].
  - intros mb rest Hr Hrest He. unfold getEnvInt. rewrite He.
    rewrite decide_True by (intros Hnil; apply (itoa_ne mb Hr); destruct (itoa mb); done).
    by rewrite scan_int_itoa_app.
  - intros c rest Hd Hs Hnl Hm Hp He. unfold getEnvInt. rewrite He, decide_True by done.
    by rewrite scan_int_garbage.
  - intros mb Hmb He. rewrite (getEnvInt_itoa _ _ _ mb) by (unfold in_int; lia || done).
    unfold int64, wrap. rewrite Z.mod_eq by lia. replace (64 - 1) with 63 by lia. lia.
Qed.

Lemma LoadConfig_surprises_witness :
  in_int 64 2 /\ first_not_digit "GB" /\ env_with "MAX_MEMORY_MB" "2GB" "MAX_MEMORY_MB" = itoa 2 +:+ "GB" /\
  (LoadConfig (env_with "MAX_MEMORY_MB" "2GB")).(MaxMemory) = int64 (2 * 1048576).
Proof.
  assert (H1 : in_int 64 2) by (unfold in_int; lia).
  assert (H2 : first_not_digit "GB") by reflexivity.
  assert (H3 : env_with "MAX_MEMORY_MB" "2GB" "MAX_MEMORY_MB" = itoa 2 +:+ "GB") by reflexivity.
  split; [exact H1|]. split; [exact H2|]. split; [exact H3|].
  exact (proj1 (LoadConfig_surprises (env_with "MAX_MEMORY_MB" "2GB")) 2 "GB" H1 H2 H3).
Defined.

Lemma getEnvInt_roundtrip_witness :
  in_int 64 (-42) /\ env_with "MAX_MEMORY_MB" "-42" "MAX_MEMORY_MB" = itoa (-42) /\
  getEnvInt (env_with "MAX_MEMORY_MB" "-42") "MAX_MEMORY_MB" 2048 = -42.
Proof.
  assert (H1 : in_int 64 (-42)) by (unfold in_int; lia).
  assert (H2 : env_with "MAX_MEMORY_MB" "-42" "MAX_MEMORY_MB" = itoa (-42)) by reflexivity.
  split; [exact H1|]. split; [exact H2|]. exact (getEnvInt_roundtrip _ _ 2048 (-42) H1 H2).
Defined.

End Config.
