(* ===== verification/Message.v ===== *)
(** * Message: the immutable event record

    Models [type Message], [NewMessage] and [GenerateId] of
    src/internal/config/config.go (lines 38-62, the file [message.go] of
    package [core] stored after [config.go]).  The clock is an argument:
    each call of [time.Now()] in the source is one argument of the model.
    Go's [time.Time.Format] is library code; it is the section variable
    [format_time]. *)

From S2P Require Import Prelude.

(** JSON values, the dynamic type behind [map[string]interface{}]. *)
#[warnings="-register-all"]
Inductive json : Type :=
| JNull
| JBool (b : bool)
| JNum (n : Z)
| JStr (s : string)
| JArr (xs : list json)
| JObj (fields : list (string * json)).

(** Decidable equality of JSON values (a nested fixpoint, since [json]
    nests [list] and [prod]). *)
Fixpoint json_eq_dec (x y : json) {struct x} : Decision (x = y).
Proof.
  refine (match x, y with
  | JNull, JNull => left _
  | JBool a, JBool b => cast_if (decide (a = b))
  | JNum a, JNum b => cast_if (decide (a = b))
  | JStr a, JStr b => cast_if (decide (a = b))
  | JArr xs, JArr ys =>
      cast_if ((fix go (xs ys : list json) : Decision (xs = ys) :=
         match xs, ys with
         | [], [] => left _
         | x :: xs, y :: ys => cast_if_and (json_eq_dec x y) (go xs ys)
         | _, _ => right _
         end) xs ys)
  | JObj xs, JObj ys =>
      cast_if ((fix go (xs ys : list (string * json)) : Decision (xs = ys) :=
         match xs, ys with
         | [], [] => left _
         | (k, x) :: xs, (l, y) :: ys =>
             cast_if_and3 (decide (k = l)) (json_eq_dec x y) (go xs ys)
         | _, _ => right _
         end) xs ys)
  | _, _ => right _
  end); clear json_eq_dec; try congruence.
Defined.
#[export] Instance json_EqDecision : EqDecision json := json_eq_dec.

Module Message.

(** [type Message struct]; [Data] is [None] for Go's nil map and
    [Timestamp] is the wall clock in nanoseconds. *)
Record t : Type := mk {
  Id : string;
  Topic : string;
  TenantID : string;
  Data : option (list (string * json));
  Timestamp : Z
}.

(** The zero value [Message{}], which fills a fresh ring buffer. *)
Definition zero : t := mk "" "" "" None 0.

#[global] Instance t_EqDecision : EqDecision t.
Proof. solve_decision. Defined.

Section WithClock.
(** [time.Now().Format("20060102-150405.000000")]. *)
Variable format_time : Z -> string.

(** [func GenerateId() string]. *)
Definition GenerateId (now : Z) : string :=
  "msg-" +:+ format_time now.

(** [func NewMessage(topic, tenantID string, data ...) Message]:
    [now_id] is the clock read by [GenerateId], [now_ts] the one
    stored in [Timestamp]. *)
Definition NewMessage (now_id now_ts : Z) (topic tenantID : string)
    (data : option (list (string * json))) : t :=
  mk (GenerateId now_id) topic tenantID data now_ts.
End WithClock.

End Message.
