(* ===== verification/RecentCache.v ===== *)
(** * RecentCache: the ring buffer of the last N messages of a topic

    Models [RecentMessageCache] of src/internal/core/recent_cache.go
    (package [core]); src/internal/cache/recent_cache.go is a copy of
    the same code in package [cache] that nothing imports.  The struct
    fields are those of the source: the backing slice [messages], its
    [size], the next write position [index] and the number of live
    entries [count].  Slice accesses carry Go's bounds check and [%] its
    division-by-zero check, so every operation returns an [outcome].

    The abstraction: a well-formed cache represents the last [size]
    messages of its insertion history ([repr]).  [Add] refines appending
    to the history, [GetLast n] returns the last [min n size] messages of
    the history in insertion order, [Clear] empties it. *)

From S2P Require Import Prelude Message.

Module RecentCache.

(** [type RecentMessageCache struct] (the [mu] lock is not state of
    the model: every operation below runs under it). *)
Record t : Type := mk {
  messages : list Message.t;
  size : Z;
  index : Z;
  count : Z
}.

(** [c.messages[i]] with Go's bounds check. *)
Definition slice_get (xs : list Message.t) (i : Z) : outcome Message.t :=
  if decide (0 <= i) then
    match xs !! Z.to_nat i with
    | Some m => Ret m
    | None => Panic "index out of range"
    end
  else Panic "index out of range".

(** [c.messages[i] = m] with Go's bounds check. *)
Definition slice_set (xs : list Message.t) (i : Z) (m : Message.t)
    : outcome (list Message.t) :=
  if decide (0 <= i < Z.of_nat (length xs)) then Ret (<[Z.to_nat i := m]> xs)
  else Panic "index out of range".

(** [a % b] on [int], which panics when [b = 0]. *)
Definition mod_checked (a b : Z) : outcome Z :=
  if decide (b = 0) then Panic "integer divide by zero" else Ret (go_rem a b).

(** [func NewRecentMessageCache(size int)]: [make] panics on a
    negative length. *)
Definition NewRecentMessageCache (sz : Z) : outcome t :=
  if decide (sz < 0) then Panic "makeslice: len out of range"
  else Ret (mk (replicate (Z.to_nat sz) Message.zero) sz 0 0).

(** [func (c *RecentMessageCache) Add(msg Message)]. *)
Definition Add (c : t) (msg : Message.t) : outcome t :=
  let! msgs := slice_set c.(messages) c.(index) msg in
  let! idx := mod_checked (c.(index) + 1) c.(size) in
  let cnt := if decide (c.(count) < c.(size)) then c.(count) + 1 else c.(count) in
  Ret (mk msgs c.(size) idx cnt).

(** The copy loop of [GetLast]:
    [for i := 0; i < n; i++ { pos := (startPost + i) % c.size;
     result[i] = c.messages[pos] }], from [i] on, [k] iterations left. *)
Fixpoint get_loop (xs : list Message.t) (sz startPost i : Z) (k : nat)
    : outcome (list Message.t) :=
  match k with
  | O => Ret []
  | S k' =>
      let! pos := mod_checked (startPost + i) sz in
      let! m := slice_get xs pos in
      let! rest := get_loop xs sz startPost (i + 1) k' in
      Ret (m :: rest)
  end.

(** [func (c *RecentMessageCache) GetLast(n int) []Message]. *)
Definition GetLast (c : t) (n : Z) : outcome (list Message.t) :=
  let n := if decide (n > c.(count)) then c.(count) else n in
  if decide (n = 0) then Ret []
  else if decide (n < 0) then Panic "makeslice: len out of range"
  else
    let! startPost := mod_checked (c.(index) - n + c.(size)) c.(size) in
    get_loop c.(messages) c.(size) startPost 0 (Z.to_nat n).

(** [GetAll], [Clear] and [GetCount]. *)
Definition GetAll (c : t) : outcome (list Message.t) := GetLast c c.(count).

Definition Clear (c : t) : t := mk c.(messages) c.(size) 0 0.

Definition GetCount (c : t) : Z := c.(count).

(** ** Invariant and abstraction *)

(** The shape every reachable cache has. *)
Definition wf (c : t) : Prop :=
  0 < c.(size) /\ length c.(messages) = Z.to_nat c.(size) /\
  0 <= c.(index) < c.(size) /\ 0 <= c.(count) <= c.(size).

(** The [j]-th oldest live entry sits [count - j] slots behind [index]. *)
Definition ring_at (c : t) (j : Z) : option Message.t :=
  c.(messages) !! Z.to_nat ((c.(index) - c.(count) + j) mod c.(size)).

(** [c] represents the history [h]: it holds the last [size] messages
    of [h], oldest first. *)
Definition repr (c : t) (h : list Message.t) : Prop :=
  wf c /\
  length (lastn (Z.to_nat c.(size)) h) = Z.to_nat c.(count) /\
  forall j : nat, (Z.of_nat j < c.(count)) ->
    ring_at c (Z.of_nat j) = lastn (Z.to_nat c.(size)) h !! j.

(** ** Lemmas on the primitive steps *)

Lemma mod_checked_ok a b : b <> 0 -> mod_checked a b = Ret (go_rem a b).
Proof. intros. unfold mod_checked. by case_decide. Qed.

Lemma slice_set_ok xs i m :
  0 <= i < Z.of_nat (length xs) -> slice_set xs i m = Ret (<[Z.to_nat i := m]> xs).
Proof. intros. unfold slice_set. by case_decide. Qed.

Lemma slice_get_ok xs i m : 0 <= i -> xs !! Z.to_nat i = Some m -> slice_get xs i = Ret m.
Proof. intros Hi Hm. unfold slice_get. case_decide; [by rewrite Hm | lia]. Qed.

(** The count after one [Add]. *)
Definition count_after (c : t) : Z :=
  if decide (c.(count) < c.(size)) then c.(count) + 1 else c.(count).

Lemma Add_ok c m :
  wf c ->
  Add c m = Ret (mk (<[Z.to_nat c.(index) := m]> c.(messages)) c.(size)
                    ((c.(index) + 1) mod c.(size)) (count_after c)).
Proof.
  intros (Hsz & Hlen & Hidx & Hcnt). unfold Add.
  rewrite slice_set_ok by lia. simpl.
  rewrite mod_checked_ok, go_rem_mod by lia. reflexivity.
Qed.

Lemma count_after_cases c :
  wf c ->
  (count_after c = c.(count) + 1 /\ c.(count) < c.(size)) \/
  (count_after c = c.(count) /\ c.(count) = c.(size)).
Proof. intros (?&?&?&?). unfold count_after. case_decide; lia. Qed.

Lemma ring_at_Some c j : wf c -> is_Some (ring_at c j).
Proof.
  intros (Hsz & Hlen & Hidx & Hcnt). unfold ring_at. apply lookup_lt_is_Some.
  pose proof (ring_pos_bound (c.(index) - c.(count) + j) _ Hsz). lia.
Qed.

(** After [Add], the newest live entry is the added message and every
    other one is the entry of the old ring one place further (when the
    ring was full, the oldest entry has been overwritten). *)
Lemma ring_at_Add c m j :
  wf c -> 0 <= j < count_after c ->
  ring_at (mk (<[Z.to_nat c.(index) := m]> c.(messages)) c.(size)
              ((c.(index) + 1) mod c.(size)) (count_after c)) j =
  if decide (j = count_after c - 1) then Some m
  else ring_at c (j + c.(count) - count_after c + 1).
Proof.
  intros Hwf Hj. pose proof (count_after_cases c Hwf) as Hca.
  destruct Hwf as (Hsz & Hlen & Hidx & Hcnt). unfold ring_at; simpl.
  replace ((c.(index) + 1) mod c.(size) - count_after c + j)
    with ((c.(index) + 1) mod c.(size) + (j - count_after c)) by lia.
  rewrite ring_pos_shift by lia. case_decide as Hlast.
  - replace (c.(index) + 1 + (j - count_after c)) with c.(index) by lia.
    rewrite Z.mod_small by lia. apply list_lookup_insert_eq. lia.
  - rewrite list_lookup_insert_ne.
    + replace (c.(index) - c.(count) + (j + c.(count) - count_after c + 1))
        with (c.(index) + 1 + (j - count_after c)) by lia. done.
    + intros Heq. apply Z2Nat.inj in Heq; [|lia|apply ring_pos_bound; lia].
      apply (ring_pos_ne c.(index) (count_after c - 1 - j) c.(size)); [lia|lia|].
      rewrite Heq at 2. f_equal. lia.
Qed.

Lemma Add_wf c m : wf c -> forall c', Add c m = Ret c' -> wf c'.
Proof.
  intros Hwf c' HA. rewrite Add_ok in HA by done. injection HA as <-.
  pose proof (count_after_cases c Hwf).
  destruct Hwf as (Hsz & Hlen & Hidx & Hcnt). repeat split; simpl.
  - done.
  - by rewrite length_insert.
  - apply ring_pos_bound; lia.
  - apply ring_pos_bound; lia.
  - lia.
  - lia.
Qed.

(** The abstract history after one [Add]. *)
Lemma lastn_Add c (h : list Message.t) m :
  wf c -> length (lastn (Z.to_nat c.(size)) h) = Z.to_nat c.(count) ->
  lastn (Z.to_nat c.(size)) (h ++ [m]) =
    if decide (c.(count) < c.(size)) then lastn (Z.to_nat c.(size)) h ++ [m]
    else drop 1 (lastn (Z.to_nat c.(size)) h) ++ [m].
Proof.
  intros (Hsz & _ & _ & Hcnt) Hlen. rewrite lastn_snoc. case_decide.
  - apply lastn_all. rewrite length_app. simpl. lia.
  - destruct (Z.to_nat c.(size)) as [|k] eqn:E; [lia|].
    apply lastn_snoc_full. lia.
Qed.

Lemma Add_repr c (h : list Message.t) m :
  repr c h -> forall c', Add c m = Ret c' -> repr c' (h ++ [m]).
Proof.
  intros (Hwf & Hlen & Hat) c' HA. pose proof (Add_wf c m Hwf c' HA) as Hwf'.
  rewrite Add_ok in HA by done. injection HA as <-.
  pose proof (count_after_cases c Hwf) as Hca.
  pose proof Hwf as (Hsz & Hml & Hidx & Hcnt).
  split; [done|]. simpl. rewrite (lastn_Add c h m Hwf Hlen).
  set (L := lastn (Z.to_nat c.(size)) h) in *.
  split.
  - case_decide; rewrite ?length_app, ?length_drop; simpl; lia.
  - intros j Hj. rewrite ring_at_Add by (done || lia).
    destruct Hca as [[Hca Hlt] | [Hca Hfull]]; rewrite Hca in *.
    + destruct (decide (c.(count) < c.(size))); [|lia].
      destruct (decide (Z.of_nat j = c.(count) + 1 - 1)).
      * rewrite lookup_app_r by lia. replace (j - length L)%nat with 0%nat by lia. done.
      * rewrite lookup_app_l by lia.
        replace (Z.of_nat j + c.(count) - (c.(count) + 1) + 1) with (Z.of_nat j) by lia.
        apply Hat. lia.
    + destruct (decide (c.(count) < c.(size))); [lia|].
      destruct (decide (Z.of_nat j = c.(count) - 1)).
      * rewrite lookup_app_r by (rewrite length_drop; lia).
        rewrite length_drop. replace (j - (length L - 1))%nat with 0%nat by lia. done.
      * rewrite lookup_app_l by (rewrite length_drop; lia). rewrite lookup_drop.
        replace (Z.of_nat j + c.(count) - c.(count) + 1) with (Z.of_nat (1 + j)) by lia.
        apply Hat. lia.
Qed.

(** The copy loop reads slot [(startPost + i + t) mod size] into
    [result[t]], for every [t] below the iteration count. *)
Lemma get_loop_spec xs sz st i k :
  0 < sz -> 0 <= st -> 0 <= i ->
  (forall t : nat, (t < k)%nat -> is_Some (xs !! Z.to_nat ((st + i + Z.of_nat t) mod sz))) ->
  exists R, get_loop xs sz st i k = Ret R /\ length R = k /\
    forall t : nat, (t < k)%nat -> R !! t = xs !! Z.to_nat ((st + i + Z.of_nat t) mod sz).
Proof.
  intros Hsz Hst. revert i. induction k as [|k IH]; intros i Hi Hsome.
  - exists []. split; [done|]. split; [done|]. lia.
  - destruct (Hsome 0%nat ltac:(lia)) as [m Hm]. rewrite Z.add_0_r in Hm.
    destruct (IH (i + 1) ltac:(lia)) as (R & HR & Hlen & HRat).
    { intros t Ht. replace (st + (i + 1) + Z.of_nat t) with (st + i + Z.of_nat (S t)) by lia.
      apply Hsome. lia. }
    exists (m :: R). simpl. rewrite mod_checked_ok, go_rem_mod by lia. simpl.
    rewrite (slice_get_ok _ _ m) by (done || (apply ring_pos_bound; lia)). simpl.
    rewrite HR. simpl. split; [done|]. split; [lia|].
    intros [|t] Ht; simpl; [by rewrite Z.add_0_r|].
    rewrite HRat by lia. do 3 f_equal. lia.
Qed.

Lemma GetLast_repr c h n :
  repr c h -> 0 <= n ->
  GetLast c n = Ret (lastn (Z.to_nat n) (lastn (Z.to_nat c.(size)) h)).
Proof.
  intros (Hwf & Hlen & Hat) Hn. pose proof Hwf as (Hsz & Hml & Hidx & Hcnt).
  set (L := lastn (Z.to_nat c.(size)) h) in *. unfold GetLast.
  set (n' := if decide (n > c.(count)) then c.(count) else n).
  assert (Hn' : n' = Z.min n c.(count)) by (unfold n'; case_decide; lia).
  clearbody n'. destruct (decide (n' = 0)).
  { f_equal. symmetry. apply nil_length_inv. rewrite length_lastn. lia. }
  destruct (decide (n' < 0)); [lia|].
  rewrite mod_checked_ok, go_rem_mod by lia. simpl.
  destruct (get_loop_spec c.(messages) c.(size) ((c.(index) - n' + c.(size)) mod c.(size))
              0 (Z.to_nat n')) as (R & HR & HRlen & HRat); try lia.
  { apply ring_pos_bound; lia. }
  { intros t _. apply lookup_lt_is_Some.
    pose proof (ring_pos_bound ((c.(index) - n' + c.(size)) mod c.(size) + 0 + Z.of_nat t)
                  _ Hsz). lia. }
  rewrite HR. f_equal. apply list_eq_lt; [rewrite length_lastn; lia|].
  intros t Ht. rewrite HRat by lia. rewrite lookup_lastn, <- Hat by lia.
  unfold ring_at. do 2 f_equal.
  rewrite Z.add_0_r, ring_pos_shift by lia.
  replace (c.(index) - n' + c.(size) + Z.of_nat t)
    with ((c.(index) - c.(count) + Z.of_nat (length L - Z.to_nat n + t)) + 1 * c.(size))
    by lia.
  apply Z_mod_plus_full.
Qed.

#[global] Instance wf_dec c : Decision (wf c).
Proof. unfold wf. apply _. Defined.

#[global] Instance repr_dec c h : Decision (repr c h).
Proof.
  unfold repr. apply and_dec; [apply _|]. apply and_dec; [apply _|].
  destruct (decide (Forall (fun j => ring_at c (Z.of_nat j) = lastn (Z.to_nat c.(size)) h !! j)
                      (seq 0 (Z.to_nat c.(count))))) as [H|H]; [left|right].
  - intros j Hj. rewrite Forall_seq in H. apply H. lia.
  - intros H'. apply H, Forall_seq. intros j Hj. apply H'. lia.
Defined.

Lemma New_repr sz :
  0 < sz -> exists c, NewRecentMessageCache sz = Ret c /\ repr c [].
Proof.
  intros Hsz. unfold NewRecentMessageCache. rewrite decide_False by lia.
  eexists; split; [done|]. repeat split; simpl; rewrite ?length_replicate; lia.
Qed.

(** A sequence of [Add]s, one per published message. *)
Fixpoint AddAll (c : t) (ms : list Message.t) : outcome t :=
  match ms with
  | [] => Ret c
  | m :: ms' => let! c' := Add c m in AddAll c' ms'
  end.

Lemma AddAll_repr c h ms :
  repr c h -> exists c', AddAll c ms = Ret c' /\ repr c' (h ++ ms).
Proof.
  revert c h. induction ms as [|m ms IH]; intros c h Hr.
  - exists c. by rewrite app_nil_r.
  - pose proof Hr as (Hwf & _). simpl. rewrite Add_ok by done. simpl.
    destruct (IH _ (h ++ [m]) (Add_repr c h m Hr _ (Add_ok c m Hwf))) as (c' & H1 & H2).
    exists c'. split; [done|]. by rewrite <- app_assoc in H2.
Qed.

Lemma AddAll_size c c' ms :
  AddAll c ms = Ret c' -> c'.(size) = c.(size).
Proof.
  revert c. induction ms as [|m ms IH]; intros c H; simpl in H; [by invc H|].
  unfold Add in H. destruct (slice_set _ _ _); [|done]. simpl in H.
  destruct (mod_checked _ _); [|done]. simpl in H. by rewrite (IH _ H).
Qed.

(** ** Properties of the cache *)

(** C10: [Add] refines appending to the history: on a cache that
    represents the history [h], [Add] does not panic and the new cache
    represents [h ++ [m]]. *)
Theorem Add_refines c h m :
  repr c h -> exists c', Add c m = Ret c' /\ repr c' (h ++ [m]).
Proof.
  intros Hr. pose proof (Add_ok c m (proj1 Hr)).
  eexists; split; [done|]. by eapply Add_repr.
Qed.

Lemma Add_refines_witness :
  exists c, NewRecentMessageCache 2 = Ret c /\ repr c [] /\
  exists c', Add c Message.zero = Ret c' /\ repr c' ([] ++ [Message.zero]).
Proof.
  exists (mk [Message.zero; Message.zero] 2 0 0). split; [reflexivity|].
  assert (Hr : repr (mk [Message.zero; Message.zero] 2 0 0) []) by eval_decide.
  split; [exact Hr|]. exact (Add_refines _ [] Message.zero Hr).
Defined.

(** [GetLast n] returns the last [min n size] messages of the
    history, oldest first, and does not panic for [n >= 0]. *)
Theorem GetLast_spec c h n :
  repr c h -> 0 <= n ->
  GetLast c n = Ret (lastn (Nat.min (Z.to_nat n) (Z.to_nat c.(size))) h).
Proof. intros Hr Hn. rewrite (GetLast_repr c h n Hr Hn). by rewrite lastn_lastn. Qed.

Lemma GetLast_spec_witness :
  repr (mk [Message.zero] 1 0 1) [Message.zero] /\
  GetLast (mk [Message.zero] 1 0 1) 50 = Ret (lastn (Nat.min 50 1) [Message.zero]).
Proof.
  assert (Hr : repr (mk [Message.zero] 1 0 1) [Message.zero]) by eval_decide.
  split; [exact Hr|]. apply (GetLast_spec _ _ 50 Hr). lia.
Defined.

(** the cache created by [NewRecentMessageCache sz] (with
    [sz > 0]), after the [Add]s of the messages [ms], answers
    [GetLast n] with the last [min n sz] messages of [ms], in the order
    they were added. *)
Theorem cache_history sz ms n :
  0 < sz -> 0 <= n ->
  exists c c', NewRecentMessageCache sz = Ret c /\ AddAll c ms = Ret c' /\
    GetLast c' n = Ret (lastn (Nat.min (Z.to_nat n) (Z.to_nat sz)) ms).
Proof.
  intros Hsz Hn. destruct (New_repr sz Hsz) as (c & Hc & Hr).
  destruct (AddAll_repr c [] ms Hr) as (c' & Hc' & Hr').
  exists c, c'. split; [done|]. split; [done|].
  rewrite (GetLast_repr c' _ n Hr' Hn), lastn_lastn, (AddAll_size c c' ms Hc').
  unfold NewRecentMessageCache in Hc. rewrite decide_False in Hc by lia. by invc Hc.
Qed.

Lemma cache_history_witness :
  exists c c', NewRecentMessageCache 100 = Ret c /\
    AddAll c [Message.zero; Message.zero] = Ret c' /\
    GetLast c' 50 = Ret (lastn (Nat.min 50 100) [Message.zero; Message.zero]).
Proof. apply (cache_history 100 _ 50); lia. Defined.

(** [GetLast] with a negative count panics ([make] of a negative
    length), whatever the state of the cache. *)
Theorem GetLast_negative_panics c n : n < 0 -> is_panic (GetLast c n) = true.
Proof.
  intros Hn. unfold GetLast.
  destruct (decide (n > c.(count))); (rewrite decide_False; [rewrite decide_True|]); done || lia.
Qed.

Lemma GetLast_negative_panics_witness :
  is_panic (GetLast (mk [] 1 0 0) (-1)) = true.
Proof. apply GetLast_negative_panics. lia. Defined.

(** A cache of capacity 0 is created, but its first [Add] panics. *)
Lemma Add_zero_size_panics m :
  exists c, NewRecentMessageCache 0 = Ret c /\ is_panic (Add c m) = true.
Proof. eexists. split; reflexivity. Qed.

(** [GetCount] is the length of the represented suffix. *)
Lemma GetCount_repr c h :
  repr c h -> GetCount c = Z.of_nat (Nat.min (Z.to_nat c.(size)) (length h)).
Proof. intros (Hwf & Hlen & _). unfold GetCount. rewrite length_lastn in Hlen. destruct Hwf. lia. Qed.

(** [Clear] empties the represented history. *)
Lemma Clear_repr c : wf c -> repr (Clear c) [].
Proof. intros (Hsz & Hlen & Hidx & Hcnt). repeat split; simpl; lia. Qed.

End RecentCache.

(** ** The copy in package [cache]

    src/internal/cache/recent_cache.go repeats the struct and every
    method of package [core] line for line over [core.Message]; its
    operations are therefore the ones above, and every theorem of
    [RecentCache] holds of them. *)
Module CacheCopy.

Definition RecentMessageCache : Type := RecentCache.t.
Definition NewRecentMessageCache : Z -> outcome RecentMessageCache := RecentCache.NewRecentMessageCache.
Definition Add : RecentMessageCache -> Message.t -> outcome RecentMessageCache := RecentCache.Add.
Definition GetLast : RecentMessageCache -> Z -> outcome (list Message.t) := RecentCache.GetLast.
Definition GetAll : RecentMessageCache -> outcome (list Message.t) := RecentCache.GetAll.
Definition Clear : RecentMessageCache -> RecentMessageCache := RecentCache.Clear.
Definition GetCount : RecentMessageCache -> Z := RecentCache.GetCount.

End CacheCopy.
