(* ===== verification/GoRuntime.v ===== *)
(** * GoRuntime: the Go primitives the delivery core is built on

    Buffered channels of messages ([Chan]) with the semantics of the Go
    specification for non-blocking sends and receives and for [close],
    and the WebSocket connection of github.com/coder/websocket ([Conn])
    as far as the core uses it: [wsjson.Write], [Ping] and [Close].
    These are library code, not code of the repository: the component
    files use them the way the Go source calls them. *)

From S2P Require Import Prelude Message.

(** ** Go channels of messages *)
Module Chan.

(** A [chan Message] made with [make(chan Message, cap)]. *)
Record t : Type := mk { buf : list Message.t; cap : Z; closed : bool }.

(** [make(chan Message, n)] panics for a negative size. *)
Definition make (n : Z) : outcome t :=
  if decide (n < 0) then Panic "makechan: size out of range" else Ret (mk [] n false).

(** [select { case ch <- m: ... default: ... }]: [Some ch'] when the value
    is buffered, [None] when the default branch runs. *)
Definition try_send (ch : t) (m : Message.t) : outcome (option t) :=
  if ch.(closed) then Panic "send on closed channel"
  else if decide (Z.of_nat (length ch.(buf)) < ch.(cap))
  then Ret (Some (mk (ch.(buf) ++ [m]) ch.(cap) false))
  else Ret None.

(** [select { case v, ok := <-ch: ... default: ... }]: [Some (Some m)]
    delivers the oldest buffered value, [Some None] is the zero value of
    a closed and drained channel, [None] the default branch. *)
Definition try_recv (ch : t) : option (option Message.t * t) :=
  match ch.(buf) with
  | m :: rest => Some (Some m, mk rest ch.(cap) ch.(closed))
  | [] => if ch.(closed) then Some (None, ch) else None
  end.

(** [close(ch)]. *)
Definition close (ch : t) : outcome t :=
  if ch.(closed) then Panic "close of closed channel" else Ret (mk ch.(buf) ch.(cap) true).

End Chan.

(** ** The WebSocket connection *)
Module Conn.

(** The frames written to the peer, the pings sent, and the close status
    once [Close] has been called. *)
Record t : Type := mk { written : list Message.t; pings : nat; status : option Z }.

Definition fresh : t := mk [] 0 None.

(** [websocket.StatusNormalClosure]. *)
Definition StatusNormalClosure : Z := 1000.

(** [websocket.StatusInternalError]. *)
Definition StatusInternalError : Z := 1011.

(** [wsjson.Write]: fails on a closed connection, and when the peer does
    not accept the frame within the timeout ([peer_ok = false]). *)
Definition write (c : t) (m : Message.t) (peer_ok : bool) : option t :=
  match c.(status) with
  | Some _ => None
  | None => if peer_ok then Some (mk (c.(written) ++ [m]) c.(pings) None) else None
  end.

(** [conn.Ping]. *)
Definition ping (c : t) (peer_ok : bool) : option t :=
  match c.(status) with
  | Some _ => None
  | None => if peer_ok then Some (mk c.(written) (S c.(pings)) None) else None
  end.

(** [conn.Close(code, reason)]: the first close sets the status; a
    second one returns an error that the caller ignores. *)
Definition close (c : t) (code : Z) : t :=
  match c.(status) with
  | Some _ => c
  | None => mk c.(written) c.(pings) (Some code)
  end.

End Conn.
