(* ===== verification/Subscriber.v ===== *)
(** * Subscriber: the per-client delivery actor

    Models src/internal/core/subscriber.go.  A subscriber owns a
    buffered Go channel (its inbox), a WebSocket connection, a
    cancellable context and three atomic counters.  [SendMessages] is the
    enqueue protocol with its drop strategies ([handleBackPressure]),
    [Close] is the [sync.Once]-guarded shutdown, and [sendLoop] is the
    delivery goroutine, modelled as a step relation [sendLoop_step]
    whose constructors are the cases of its [select].  The channel and
    the connection are the primitives of GoRuntime.v. *)

From S2P Require Import Prelude Message GoRuntime.

Module Subscriber.

(** [type DropStrategy int] with its three constants; any other value
    of the underlying [int] takes the [default] branch of the switch. *)
Inductive DropStrategy : Type :=
| DROP_OLDEST
| DROP_NEWEST
| CIRCUIT_BREAKER
| DropOther (n : Z).

(** The errors [SendMessages] returns (their [fmt.Errorf] texts are
    determined by the constructor and the subscriber id). *)
Inductive error : Type :=
| ErrStillFull (id : string)
| ErrBufferFull (id : string)
| ErrCircuitBreaker (id : string)
| ErrUnknownStrategy (id : string).

(** [type Subscriber struct]: [ctxDone] is the state of [s.ctx.Done()]
    (closed by [s.cancel()] or by the parent request context), [done]
    that of the [done] channel, [closeOnce] that of the [sync.Once]. *)
Record t : Type := mk {
  ID : string;
  TenantID : string;
  Topic : string;
  messageChan : Chan.t;
  conn : Conn.t;
  ctxDone : bool;
  dropStrategy : DropStrategy;
  droppedCount : Z;
  messagesRecieved : Z;
  messagesSent : Z;
  lastActive : Z;
  done : bool;
  closeOnce : bool
}.

(** Field updates. *)
Definition set_chan (s : t) (ch : Chan.t) : t :=
  mk s.(ID) s.(TenantID) s.(Topic) ch s.(conn) s.(ctxDone) s.(dropStrategy)
     s.(droppedCount) s.(messagesRecieved) s.(messagesSent) s.(lastActive) s.(done) s.(closeOnce).
Definition add_dropped (s : t) : t :=
  mk s.(ID) s.(TenantID) s.(Topic) s.(messageChan) s.(conn) s.(ctxDone) s.(dropStrategy)
     (s.(droppedCount) + 1) s.(messagesRecieved) s.(messagesSent) s.(lastActive) s.(done) s.(closeOnce).
Definition add_received (s : t) : t :=
  mk s.(ID) s.(TenantID) s.(Topic) s.(messageChan) s.(conn) s.(ctxDone) s.(dropStrategy)
     s.(droppedCount) (s.(messagesRecieved) + 1) s.(messagesSent) s.(lastActive) s.(done) s.(closeOnce).
Definition delivered (s : t) (c : Conn.t) (now : Z) : t :=
  mk s.(ID) s.(TenantID) s.(Topic) s.(messageChan) c s.(ctxDone) s.(dropStrategy)
     s.(droppedCount) s.(messagesRecieved) (s.(messagesSent) + 1) now s.(done) s.(closeOnce).
Definition set_conn (s : t) (c : Conn.t) : t :=
  mk s.(ID) s.(TenantID) s.(Topic) s.(messageChan) c s.(ctxDone) s.(dropStrategy)
     s.(droppedCount) s.(messagesRecieved) s.(messagesSent) s.(lastActive) s.(done) s.(closeOnce).
Definition cancel_ctx (s : t) : t :=
  mk s.(ID) s.(TenantID) s.(Topic) s.(messageChan) s.(conn) true s.(dropStrategy)
     s.(droppedCount) s.(messagesRecieved) s.(messagesSent) s.(lastActive) s.(done) s.(closeOnce).

(** [func NewSubscriber(id, tenantID, topic, conn, ctx, bufferSize)]:
    [parentDone] is the state of the parent context, [now] the clock. *)
Definition NewSubscriber (id tenantID topic : string) (c : Conn.t) (parentDone : bool)
    (bufferSize now : Z) : outcome t :=
  let! ch := Chan.make bufferSize in
  Ret (mk id tenantID topic ch c parentDone DROP_OLDEST 0 0 0 now false false).

(** [func (s *Subscriber) Close()]: once only, cancel the context, close
    [done], close the connection with a normal status, close the inbox. *)
Definition Close (s : t) : outcome t :=
  if s.(closeOnce) then Ret s
  else
    let! ch := Chan.close s.(messageChan) in
    Ret (mk s.(ID) s.(TenantID) s.(Topic) ch (Conn.close s.(conn) Conn.StatusNormalClosure)
            true s.(dropStrategy) s.(droppedCount) s.(messagesRecieved) s.(messagesSent)
            s.(lastActive) true true).

(** [func (s *Subscriber) handleBackPressure(msg Message) error]. *)
Definition handleBackPressure (s : t) (msg : Message.t) : outcome (t * option error) :=
  match s.(dropStrategy) with
  | DROP_OLDEST =>
      let s1 := match Chan.try_recv s.(messageChan) with
                | Some (_, ch) => add_dropped (set_chan s ch)
                | None => s
                end in
      let! r := Chan.try_send s1.(messageChan) msg in
      match r with
      | Some ch => Ret (set_chan s1 ch, None)
      | None => Ret (add_dropped s1, Some (ErrStillFull s.(ID)))
      end
  | DROP_NEWEST => Ret (add_dropped s, Some (ErrBufferFull s.(ID)))
  | CIRCUIT_BREAKER =>
      if decide (s.(droppedCount) > 100) then
        let! s' := Close s in Ret (s', Some (ErrCircuitBreaker s.(ID)))
      else Ret (s, None)
  | DropOther _ => Ret (add_dropped s, Some (ErrUnknownStrategy s.(ID)))
  end.

(** [func (s *Subscriber) SendMessages(msg Message) error]. *)
Definition SendMessages (s : t) (msg : Message.t) : outcome (t * option error) :=
  let s := add_received s in
  let! r := Chan.try_send s.(messageChan) msg in
  match r with
  | Some ch => Ret (set_chan s ch, None)
  | None => handleBackPressure s msg
  end.

(** [func (s *Subscriber) IsSlow() bool]. *)
Definition IsSlow (s : t) : bool := bool_decide (s.(droppedCount) > 0).

(** [func (s *Subscriber) IsHealthy() bool], at clock [now] (nanoseconds).
    [float64(dropped) / float64(received) > 0.1] is compared exactly,
    as [10 * dropped > received]: the two agree for counters below 2^50. *)
Definition IsHealthy (s : t) (now : Z) : bool :=
  if decide (now - s.(lastActive) > 60 * 1000000000) then false
  else if decide (s.(messagesRecieved) > 0) then
    negb (bool_decide (10 * s.(droppedCount) > s.(messagesRecieved)))
  else true.

(** [func (s *Subscriber) GetMetrics() map[string]int64]. *)
Definition GetMetrics (s : t) : list (string * Z) :=
  [("Messages Recieved", s.(messagesRecieved)); ("Messages Sent", s.(messagesSent));
   ("Messages Dropped", s.(droppedCount))].

(** [func (s *Subscriber) sendLoop()]: one iteration of the [for]/[select]
    loop.  [sendLoop_step now s s' k] holds when a ready case of the
    select takes [s] to [s'], with [k = true] when the loop goes on and
    [k = false] when it returns.  [peer_ok] is the environment's answer
    to a write or a ping. *)
Inductive sendLoop_step (now : Z) : t -> t -> bool -> Prop :=
| LoopDeliver s m rest c' :
    s.(messageChan).(Chan.buf) = m :: rest ->
    Conn.write s.(conn) m true = Some c' ->
    sendLoop_step now s
      (delivered (set_chan s (Chan.mk rest s.(messageChan).(Chan.cap) s.(messageChan).(Chan.closed)))
         c' now) true
| LoopWriteFail s m rest peer_ok s' :
    s.(messageChan).(Chan.buf) = m :: rest ->
    Conn.write s.(conn) m peer_ok = None ->
    Close (set_chan s (Chan.mk rest s.(messageChan).(Chan.cap) s.(messageChan).(Chan.closed)))
      = Ret s' ->
    sendLoop_step now s s' false
| LoopChanClosed s :
    s.(messageChan).(Chan.buf) = [] -> s.(messageChan).(Chan.closed) = true ->
    sendLoop_step now s s false
| LoopPingOk s c' :
    Conn.ping s.(conn) true = Some c' ->
    sendLoop_step now s (set_conn s c') true
| LoopPingFail s peer_ok s' :
    Conn.ping s.(conn) peer_ok = None -> Close s = Ret s' ->
    sendLoop_step now s s' false
| LoopDone s : s.(done) = true -> sendLoop_step now s s false
| LoopCtxDone s : s.(ctxDone) = true -> sendLoop_step now s s false.

(** ** Identity *)

(** No operation changes the identity triple (with or without the
    invariant). *)
Definition ids (s : t) : string * string * string := (s.(ID), s.(TenantID), s.(Topic)).

Lemma Close_ids s s' : Close s = Ret s' -> ids s' = ids s.
Proof.
  unfold Close, Chan.close. destruct s.(closeOnce); [intros H; by invc H|].
  destruct s.(messageChan).(Chan.closed); simpl; [done|]. intros H. by invc H.
Qed.

Lemma SendMessages_ids s m s' e : SendMessages s m = Ret (s', e) -> ids s' = ids s.
Proof.
  unfold SendMessages, handleBackPressure, Chan.try_send. simpl.
  intros H. repeat (case_match; simplify_eq/=; try done); try apply Close_ids in H; try done.
  all: try (apply obind_ret_inv in H as (? & Hc & Hr); apply Close_ids in Hc; invc Hr; done).
Qed.

(** ** Invariant *)

(** Length of the inbox. *)
Definition inbox_len (s : t) : Z := Z.of_nat (length s.(messageChan).(Chan.buf)).

(** Every reachable subscriber: the inbox holds at most its capacity,
    it is closed exactly when the [sync.Once] has run, and then the
    context is cancelled and [done] is closed. *)
Definition inv (s : t) : Prop :=
  0 <= s.(messageChan).(Chan.cap) /\ inbox_len s <= s.(messageChan).(Chan.cap) /\
  s.(messageChan).(Chan.closed) = s.(closeOnce) /\ s.(done) = s.(closeOnce) /\
  (s.(closeOnce) = true -> s.(ctxDone) = true).

(** What no operation changes: the identity triple, the strategy and
    the inbox capacity. *)
Definition frame (s s' : t) : Prop :=
  s'.(ID) = s.(ID) /\ s'.(TenantID) = s.(TenantID) /\ s'.(Topic) = s.(Topic) /\
  s'.(dropStrategy) = s.(dropStrategy) /\
  s'.(messageChan).(Chan.cap) = s.(messageChan).(Chan.cap).

#[global] Instance frame_refl : Reflexive frame.
Proof. intros s. repeat split. Qed.

#[global] Instance frame_trans : Transitive frame.
Proof. intros s1 s2 s3 (?&?&?&?&?) (?&?&?&?&?). repeat split; congruence. Qed.

Lemma try_send_open ch m :
  ch.(Chan.closed) = false ->
  Chan.try_send ch m =
    Ret (if decide (Z.of_nat (length ch.(Chan.buf)) < ch.(Chan.cap))
         then Some (Chan.mk (ch.(Chan.buf) ++ [m]) ch.(Chan.cap) false) else None).
Proof. intros Hc. unfold Chan.try_send. rewrite Hc. by case_decide. Qed.

Lemma try_send_closed ch m :
  ch.(Chan.closed) = true -> Chan.try_send ch m = Panic "send on closed channel".
Proof. intros Hc. unfold Chan.try_send. by rewrite Hc. Qed.

Lemma SendMessages_closed s m :
  s.(messageChan).(Chan.closed) = true -> SendMessages s m = Panic "send on closed channel".
Proof. intros Hc. unfold SendMessages. by rewrite try_send_closed. Qed.

(** [Close] on a subscriber that satisfies [inv] does not panic. *)
Definition close_state (s : t) : t :=
  if s.(closeOnce) then s
  else mk s.(ID) s.(TenantID) s.(Topic)
          (Chan.mk s.(messageChan).(Chan.buf) s.(messageChan).(Chan.cap) true)
          (Conn.close s.(conn) Conn.StatusNormalClosure) true s.(dropStrategy)
          s.(droppedCount) s.(messagesRecieved) s.(messagesSent) s.(lastActive) true true.

Lemma Close_ok s : inv s -> Close s = Ret (close_state s).
Proof.
  intros (_ & _ & Hcl & _). unfold Close, close_state.
  destruct s.(closeOnce) eqn:E; [done|]. unfold Chan.close. by rewrite Hcl.
Qed.

Lemma close_state_inv s : inv s -> inv (close_state s).
Proof.
  intros Hinv. unfold close_state. destruct s.(closeOnce) eqn:E; [done|].
  destruct Hinv as (Hc & Hl & Hcl & Hd). unfold inv, inbox_len in *; simpl.
  split; [lia|]. split; [lia|]. done.
Qed.

Lemma close_state_frame s : frame s (close_state s).
Proof. unfold close_state. destruct s.(closeOnce); repeat split. Qed.

Lemma close_state_closed s : inv s -> (close_state s).(closeOnce) = true.
Proof. intros _. unfold close_state. by destruct s.(closeOnce) eqn:E. Qed.

Lemma close_state_idem s : inv s -> close_state (close_state s) = close_state s.
Proof. intros H. unfold close_state at 1. by rewrite close_state_closed. Qed.

(** [sub_unfold] unfolds the operations and the channel primitives and
    splits every branch; the component's proofs finish with [lia]. *)
Ltac sub_unfold :=
  unfold SendMessages, handleBackPressure, Close, Chan.try_send, Chan.try_recv,
    Chan.close, add_received, add_dropped, set_chan, inv, frame, inbox_len in *;
  simpl in *;
  repeat (case_match || case_decide || match goal with H : obind _ _ = _ |- _ => simpl in H end);
  simplify_eq; simpl in *; rewrite ?length_app in *; simpl in *; destruct_and?.

Lemma SendMessages_inv s m s' e :
  inv s -> SendMessages s m = Ret (s', e) -> inv s' /\ frame s s'.
Proof.
  destruct s as [id ten top [buf cap cl] c cd ds dr rc sn la dn co]. intros Hinv H.
  sub_unfold; repeat split; intros; subst; try lia; try congruence; intuition congruence.
Qed.

Lemma set_chan_tail_inv s m rest :
  inv s -> s.(messageChan).(Chan.buf) = m :: rest ->
  inv (set_chan s (Chan.mk rest s.(messageChan).(Chan.cap) s.(messageChan).(Chan.closed))).
Proof.
  destruct s as [id ten top [buf cap cl] c cd ds dr rc sn la dn co].
  intros (Hc & Hl & Hcl & Hd) Hb. unfold inv, inbox_len in *; simpl in *. subst buf.
  simpl in Hl. split; [lia|]. split; [lia|]. auto.
Qed.

Lemma sendLoop_step_inv now s s' k :
  inv s -> sendLoop_step now s s' k -> inv s' /\ frame s s'.
Proof.
  intros Hinv Hs. destruct Hs as [s m rest c' Hb Hw|s m rest ok s' Hb Hw Hc|s Hb Hc|s c' Hp|s ok s' Hp Hc|s Hd|s Hd].
  - pose proof (set_chan_tail_inv s m rest Hinv Hb) as Hi.
    destruct s; unfold inv, frame, delivered, set_chan, inbox_len in *; simpl in *. intuition.
  - pose proof (set_chan_tail_inv s m rest Hinv Hb) as Hi. rewrite Close_ok in Hc by done.
    invc Hc. split; [by apply close_state_inv|].
    etransitivity; [|apply close_state_frame]. destruct s; repeat split.
  - split; [done|reflexivity].
  - destruct s; unfold inv, frame, set_conn, inbox_len in *; simpl in *. intuition.
  - rewrite Close_ok in Hc by done. invc Hc. split; [by apply close_state_inv|apply close_state_frame].
  - split; [done|reflexivity].
  - split; [done|reflexivity].
Qed.

(** The delivery goroutine: not yet started, running its loop, or
    returned. *)
Inductive LoopState : Type := NotStarted | Running | Exited.

(** Every operation a subscriber undergoes, labelled with the message a
    [SendMessages] call is given: an enqueue by a publisher or by the
    catch-up goroutine, a [Close], [Start], an iteration of [sendLoop],
    or the cancellation of the parent request context. *)
Inductive step : t * LoopState -> option Message.t -> t * LoopState -> Prop :=
| StSend s l m s' e : SendMessages s m = Ret (s', e) -> step (s, l) (Some m) (s', l)
| StClose s l s' : Close s = Ret s' -> step (s, l) None (s', l)
| StStart s : step (s, NotStarted) None (s, Running)
| StLoop now s s' k :
    sendLoop_step now s s' k -> step (s, Running) None (s', if k then Running else Exited)
| StParentCancel s l : step (s, l) None (cancel_ctx s, l).

(** Finite runs, with the messages sent along the run. *)
Inductive steps : t * LoopState -> list Message.t -> t * LoopState -> Prop :=
| steps_refl x : steps x [] x
| steps_cons x o y ms z :
    step x o y -> steps y ms z -> steps x (option_list o ++ ms) z.

Lemma step_inv x o y : inv x.1 -> step x o y -> inv y.1 /\ frame x.1 y.1.
Proof.
  intros Hinv Hs. destruct Hs as [s l m s' e H|s l s' H|s|now s s' k H|s l]; simpl in *.
  - by eapply SendMessages_inv.
  - rewrite Close_ok in H by done. invc H. split; [by apply close_state_inv|apply close_state_frame].
  - split; [done|reflexivity].
  - by eapply sendLoop_step_inv.
  - destruct s; unfold inv, frame, cancel_ctx, inbox_len in *; simpl in *. intuition.
Qed.

Lemma steps_inv x ms y : inv x.1 -> steps x ms y -> inv y.1 /\ frame x.1 y.1.
Proof.
  intros Hinv Hs. induction Hs as [x|x o y ms z Hs1 Hs2 IH]; [split; [done|reflexivity]|].
  destruct (step_inv x o y Hinv Hs1) as [Hi Hf]. destruct (IH Hi) as [Hi' Hf'].
  split; [done|]. by transitivity y.1.
Qed.

Lemma NewSubscriber_inv id ten top c pd n now s :
  NewSubscriber id ten top c pd n now = Ret s ->
  inv s /\ s.(messageChan).(Chan.cap) = n /\ s.(ID) = id /\ s.(TenantID) = ten /\ s.(Topic) = top.
Proof.
  unfold NewSubscriber, Chan.make. case_decide; [done|]. simpl. intros Hs. invc Hs.
  unfold inv, inbox_len. simpl. intuition lia.
Qed.

(** ** Order of delivery *)

(** The frames written to the client followed by the inbox. *)
Definition stream (s : t) : list Message.t := s.(conn).(Conn.written) ++ s.(messageChan).(Chan.buf).

Lemma Conn_close_written c code : (Conn.close c code).(Conn.written) = c.(Conn.written).
Proof. unfold Conn.close. by destruct c.(Conn.status). Qed.

Lemma SendMessages_stream s m s' e :
  SendMessages s m = Ret (s', e) ->
  s'.(conn).(Conn.written) = s.(conn).(Conn.written) /\
  (s'.(messageChan).(Chan.buf) = s.(messageChan).(Chan.buf) \/
   s'.(messageChan).(Chan.buf) = s.(messageChan).(Chan.buf) ++ [m] \/
   s'.(messageChan).(Chan.buf) = tail s.(messageChan).(Chan.buf) ++ [m] \/
   s'.(messageChan).(Chan.buf) = tail s.(messageChan).(Chan.buf)).
Proof.
  destruct s as [id ten top [buf cap cl] c cd ds dr rc sn la dn co]. intros H.
  sub_unfold; rewrite ?Conn_close_written; auto.
Qed.

Lemma Conn_write_written c m ok c' :
  Conn.write c m ok = Some c' -> c'.(Conn.written) = c.(Conn.written) ++ [m].
Proof. unfold Conn.write. intros Hw. repeat case_match; simplify_eq; done. Qed.

Lemma Conn_ping_written c ok c' : Conn.ping c ok = Some c' -> c'.(Conn.written) = c.(Conn.written).
Proof. unfold Conn.ping. intros Hp. repeat case_match; simplify_eq; done. Qed.

Lemma close_state_written s : (close_state s).(conn).(Conn.written) = s.(conn).(Conn.written).
Proof. unfold close_state. destruct s.(closeOnce); simpl; [done|]. by rewrite Conn_close_written. Qed.

Lemma close_state_buf s : (close_state s).(messageChan).(Chan.buf) = s.(messageChan).(Chan.buf).
Proof. unfold close_state. by destruct s.(closeOnce). Qed.

Lemma close_state_stream s : stream (close_state s) = stream s.
Proof. unfold stream. by rewrite close_state_written, close_state_buf. Qed.

Lemma step_stream x o y :
  inv x.1 -> step x o y -> stream y.1 `sublist_of` stream x.1 ++ option_list o.
Proof.
  intros Hinv Hs. destruct Hs as [s l m s' e H|s l s' H|s|now s s' k H|s l]; simpl in *.
  - apply SendMessages_stream in H as [Hc Hb]. unfold stream. rewrite Hc, <- app_assoc.
    apply sublist_app; [done|].
    assert (tail s.(messageChan).(Chan.buf) `sublist_of` s.(messageChan).(Chan.buf)) as Ht.
    { destruct s.(messageChan).(Chan.buf); simpl; [done|]. by apply sublist_cons. }
    destruct Hb as [-> | [-> | [-> | ->]]]; [by apply sublist_inserts_r|done| |].
    + by apply sublist_app.
    + by apply sublist_inserts_r.
  - rewrite Close_ok in H by done. invc H. rewrite close_state_stream, app_nil_r. done.
  - by rewrite app_nil_r.
  - rewrite app_nil_r. destruct H as [s m rest c' Hb Hw|s m rest ok s' Hb Hw Hc|s Hb Hc|s c' Hp|s ok s' Hp Hc|s Hd|s Hd];
      unfold stream in *; simpl.
    + rewrite (Conn_write_written _ _ _ _ Hw), Hb, <- app_assoc. done.
    + rewrite Close_ok in Hc by (eapply set_chan_tail_inv; eauto). invc Hc.
      rewrite close_state_written, close_state_buf. simpl. rewrite Hb.
      apply sublist_app; [done|]. by apply sublist_cons.
    + done.
    + by rewrite (Conn_ping_written _ _ _ Hp).
    + rewrite Close_ok in Hc by done. invc Hc. by rewrite close_state_written, close_state_buf.
    + done.
    + done.
  - rewrite app_nil_r. unfold stream, cancel_ctx. done.
Qed.

Lemma steps_stream x ms y :
  inv x.1 -> steps x ms y -> stream y.1 `sublist_of` stream x.1 ++ ms.
Proof.
  intros Hinv Hs. induction Hs as [x|x o y ms z Hs1 Hs2 IH]; [by rewrite app_nil_r|].
  destruct (step_inv x o y Hinv Hs1) as [Hi _].
  etransitivity; [apply (IH Hi)|]. rewrite app_assoc.
  apply sublist_app; [by apply step_stream|done].
Qed.

(** ** Drop accounting *)

(** Messages received but neither sent, dropped nor in the inbox. *)
Definition acct (s : t) : Z :=
  s.(messagesRecieved) - (s.(messagesSent) + s.(droppedCount) + inbox_len s).

Lemma SendMessages_acct s m s' e :
  inv s -> s.(dropStrategy) <> CIRCUIT_BREAKER -> SendMessages s m = Ret (s', e) ->
  acct s' = acct s.
Proof.
  destruct s as [id ten top [buf cap cl] c cd ds dr rc sn la dn co]. intros Hinv Hds H.
  unfold acct. sub_unfold; lia.
Qed.

Lemma close_state_acct s : acct (close_state s) = acct s.
Proof. unfold acct, inbox_len. by rewrite close_state_buf; unfold close_state; destruct s.(closeOnce). Qed.

Lemma sendLoop_acct now s s' k :
  inv s -> sendLoop_step now s s' k ->
  acct s' = acct s \/ (acct s' = acct s + 1 /\ k = false /\ s'.(closeOnce) = true).
Proof.
  intros Hinv Hs. destruct Hs as [s m rest c' Hb Hw|s m rest ok s' Hb Hw Hc|s Hb Hc|s c' Hp|s ok s' Hp Hc|s Hd|s Hd].
  - left. unfold acct, inbox_len, delivered, set_chan. simpl. rewrite Hb. simpl. lia.
  - right. pose proof (set_chan_tail_inv s m rest Hinv Hb) as Hi.
    rewrite Close_ok in Hc by done. invc Hc. rewrite close_state_acct.
    split; [|split; [done|by apply close_state_closed]].
    unfold acct, inbox_len, set_chan. simpl. rewrite Hb. simpl. lia.
  - by left.
  - left. unfold acct, inbox_len, set_conn. done.
  - left. rewrite Close_ok in Hc by done. invc Hc. apply close_state_acct.
  - by left.
  - by left.
Qed.

(** The invariant of drop accounting: nothing is lost, or exactly the
    message whose write failed, after which the subscriber is closed and
    its loop has returned. *)
Definition acct_inv (x : t * LoopState) : Prop :=
  acct x.1 = 0 \/ (acct x.1 = 1 /\ x.2 = Exited /\ x.1.(closeOnce) = true).

Lemma step_acct_inv x o y :
  inv x.1 -> x.1.(dropStrategy) <> CIRCUIT_BREAKER -> acct_inv x -> step x o y -> acct_inv y.
Proof.
  intros Hinv Hds Ha Hs. destruct Hs as [s l m s' e H|s l s' H|s|now s s' k H|s l]; unfold acct_inv in *; simpl in *.
  - destruct Ha as [Ha | (_ & _ & Hco)].
    + left. rewrite (SendMessages_acct s m s' e Hinv Hds H). done.
    + exfalso. destruct Hinv as (_ & _ & Hcl & _). unfold SendMessages, add_received in H.
      simpl in H. rewrite try_send_closed in H by congruence. done.
  - rewrite Close_ok in H by done. invc H. rewrite close_state_acct.
    destruct Ha as [Ha | (Ha & Hl & Hco)]; [by left|right]. split; [done|]. split; [done|].
    by apply close_state_closed.
  - destruct Ha as [Ha | (_ & Hl & _)]; [by left|done].
  - destruct Ha as [Ha | (_ & Hl & _)]; [|done].
    destruct (sendLoop_acct now s s' k Hinv H) as [Hk | (Hk & -> & Hco)]; [left; lia|].
    right. split; [lia|done].
  - unfold cancel_ctx, acct, inbox_len in *. simpl. done.
Qed.

Lemma steps_acct_inv x ms y :
  inv x.1 -> x.1.(dropStrategy) <> CIRCUIT_BREAKER -> acct_inv x -> steps x ms y -> acct_inv y.
Proof.
  intros Hinv Hds Ha Hs. induction Hs as [x|x o y ms z Hs1 Hs2 IH]; [done|].
  destruct (step_inv x o y Hinv Hs1) as [Hi (_ & _ & _ & Hds' & _)].
  apply IH; [exact Hi|rewrite Hds'; exact Hds|exact (step_acct_inv x o y Hinv Hds Ha Hs1)].
Qed.

(** What every run of a fresh subscriber keeps. *)
Lemma reachable id ten top c pd n now s0 ms y :
  NewSubscriber id ten top c pd n now = Ret s0 -> steps (s0, NotStarted) ms y ->
  inv y.1 /\ frame s0 y.1 /\ s0.(messageChan).(Chan.cap) = n /\ s0.(ID) = id /\
  s0.(TenantID) = ten /\ s0.(Topic) = top /\ s0.(dropStrategy) = DROP_OLDEST /\ stream s0 = c.(Conn.written).
Proof.
  intros Hn Hs. pose proof (NewSubscriber_inv _ _ _ _ _ _ _ _ Hn) as (Hi & Hcap & Hid & Hten & Htop).
  destruct (steps_inv (s0, NotStarted) ms y Hi Hs) as [Hi' Hf].
  do 6 (split; [done|]).
  unfold NewSubscriber, Chan.make in Hn. case_decide; [done|]. invc Hn.
  split; [done|]. apply app_nil_r.
Qed.

(** A concrete subscriber and message for the examples. *)
Definition m1 : Message.t := Message.mk "msg-1" "t1" "default-tenant" (Some []) 0.
Definition sub0 : t := mk "sub-1" "default-tenant" "t1" (Chan.mk [] 2 false) Conn.fresh false
                           DROP_OLDEST 0 0 0 0 false false.

(** ** Properties of the subscriber *)

(** C4: buffer bounds.  In every run of a subscriber created by
    [NewSubscriber] with capacity [n], the inbox never holds more than
    [n] messages, and the identity triple (id, tenant, topic) never
    changes. *)
Theorem inbox_bounded id ten top c pd n now s0 ms s l :
  NewSubscriber id ten top c pd n now = Ret s0 -> steps (s0, NotStarted) ms (s, l) ->
  inbox_len s <= n /\ s.(ID) = id /\ s.(TenantID) = ten /\ s.(Topic) = top.
Proof.
  intros Hn Hs. destruct (reachable _ _ _ _ _ _ _ _ _ _ Hn Hs)
    as ((_ & Hb & _) & (Hid & Hten & Htop & _ & Hcap) & Hn' & Hid0 & Hten0 & Htop0 & _); simpl in *.
  repeat split; congruence || lia.
Qed.

Lemma inbox_bounded_witness :
  NewSubscriber "sub-1" "default-tenant" "t1" Conn.fresh false 2 0 = Ret sub0 /\
  steps (sub0, NotStarted) [m1] (set_chan (add_received sub0) (Chan.mk [m1] 2 false), NotStarted) /\
  inbox_len (set_chan (add_received sub0) (Chan.mk [m1] 2 false)) <= 2 /\
  (set_chan (add_received sub0) (Chan.mk [m1] 2 false)).(ID) = "sub-1" /\
  (set_chan (add_received sub0) (Chan.mk [m1] 2 false)).(TenantID) = "default-tenant" /\
  (set_chan (add_received sub0) (Chan.mk [m1] 2 false)).(Topic) = "t1".
Proof.
  assert (Hn : NewSubscriber "sub-1" "default-tenant" "t1" Conn.fresh false 2 0 = Ret sub0)
    by reflexivity.
  assert (Hs : steps (sub0, NotStarted) [m1]
                 (set_chan (add_received sub0) (Chan.mk [m1] 2 false), NotStarted)).
  { change [m1] with (option_list (Some m1) ++ []).
    eapply steps_cons; [eapply (StSend _ _ _ _ None); reflexivity|apply steps_refl]. }
  split; [exact Hn|]. split; [exact Hs|]. exact (inbox_bounded _ _ _ _ _ _ _ _ _ _ _ Hn Hs).
Defined.

(** C7: delivery order.  In every run of a subscriber created on a fresh
    connection, the messages written to the client followed by those
    still in the inbox form a subsequence of the messages passed to
    [SendMessages], in the order they were passed: nothing is reordered
    or duplicated. *)
Theorem delivery_in_order id ten top pd n now s0 ms s l :
  NewSubscriber id ten top Conn.fresh pd n now = Ret s0 -> steps (s0, NotStarted) ms (s, l) ->
  s.(conn).(Conn.written) ++ s.(messageChan).(Chan.buf) `sublist_of` ms.
Proof.
  intros Hn Hs. destruct (reachable _ _ _ _ _ _ _ _ _ _ Hn Hs) as (_ & _ & _ & _ & _ & _ & _ & H0).
  pose proof (NewSubscriber_inv _ _ _ _ _ _ _ _ Hn) as (Hi & _).
  pose proof (steps_stream (s0, NotStarted) ms (s, l) Hi Hs) as Hst. simpl in Hst.
  rewrite H0 in Hst. exact Hst.
Qed.

(** The run of the examples: [m1] is enqueued, the loop starts and its
    write of [m1] fails. *)
Definition sub_failed : t :=
  close_state (set_chan (add_received sub0) (Chan.mk [] 2 false)).

Lemma run_write_failure : steps (sub0, NotStarted) [m1] (sub_failed, Exited).
Proof.
  change [m1] with (option_list (Some m1) ++ option_list None ++ option_list None ++ []).
  eapply steps_cons; [eapply (StSend _ _ _ _ None); reflexivity|].
  eapply steps_cons; [apply StStart|].
  eapply steps_cons; [eapply (StLoop 0 _ _ false)|apply steps_refl].
  eapply (LoopWriteFail _ _ m1 [] false); reflexivity.
Qed.

Lemma delivery_in_order_witness :
  NewSubscriber "sub-1" "default-tenant" "t1" Conn.fresh false 2 0 = Ret sub0 /\
  steps (sub0, NotStarted) [m1] (sub_failed, Exited) /\
  sub_failed.(conn).(Conn.written) ++ sub_failed.(messageChan).(Chan.buf) `sublist_of` [m1].
Proof.
  assert (Hn : NewSubscriber "sub-1" "default-tenant" "t1" Conn.fresh false 2 0 = Ret sub0)
    by reflexivity.
  split; [exact Hn|]. split; [exact run_write_failure|].
  exact (delivery_in_order _ _ _ _ _ _ _ _ _ _ Hn run_write_failure).
Defined.

(** C3: drop accounting.  In every run of a subscriber created by
    [NewSubscriber], [received = sent + dropped + inbox], except for
    one message: the one whose write to the client failed, after which
    the subscriber is closed and its delivery loop has returned. *)
Theorem drop_accounting id ten top c pd n now s0 ms s l :
  NewSubscriber id ten top c pd n now = Ret s0 -> steps (s0, NotStarted) ms (s, l) ->
  s.(messagesRecieved) = s.(messagesSent) + s.(droppedCount) + inbox_len s \/
  (s.(messagesRecieved) = s.(messagesSent) + s.(droppedCount) + inbox_len s + 1 /\
   l = Exited /\ s.(closeOnce) = true).
Proof.
  intros Hn Hs. destruct (reachable _ _ _ _ _ _ _ _ _ _ Hn Hs) as (_ & _ & _ & _ & _ & _ & Hds & _).
  pose proof (NewSubscriber_inv _ _ _ _ _ _ _ _ Hn) as (Hi & _).
  assert (Ha0 : acct_inv (s0, NotStarted)).
  { left. unfold NewSubscriber, Chan.make in Hn. case_decide; [done|]. by invc Hn. }
  pose proof (steps_acct_inv (s0, NotStarted) ms (s, l) Hi ltac:(simpl; by rewrite Hds) Ha0 Hs) as Ha.
  unfold acct_inv, acct in Ha. simpl in Ha. destruct Ha as [Ha | (Ha & Hl & Hc)]; [left; lia|].
  right. split; [lia|done].
Qed.

Lemma drop_accounting_witness :
  NewSubscriber "sub-1" "default-tenant" "t1" Conn.fresh false 2 0 = Ret sub0 /\
  steps (sub0, NotStarted) [m1] (sub_failed, Exited) /\
  (sub_failed.(messagesRecieved) = sub_failed.(messagesSent) + sub_failed.(droppedCount) + inbox_len sub_failed \/
   (sub_failed.(messagesRecieved) = sub_failed.(messagesSent) + sub_failed.(droppedCount) + inbox_len sub_failed + 1 /\
    Exited = Exited /\ sub_failed.(closeOnce) = true)).
Proof.
  assert (Hn : NewSubscriber "sub-1" "default-tenant" "t1" Conn.fresh false 2 0 = Ret sub0)
    by reflexivity.
  split; [exact Hn|]. split; [exact run_write_failure|].
  exact (drop_accounting _ _ _ _ _ _ _ _ _ _ _ Hn run_write_failure).
Defined.

#[global] Instance inv_dec s : Decision (inv s).
Proof. unfold inv, inbox_len. apply _. Defined.

(** enqueue.  [SendMessages] on an open subscriber whose inbox has
    room counts the message as received and appends it to the inbox;
    it returns no error. *)
Theorem SendMessages_enqueue s m :
  inv s -> s.(closeOnce) = false -> inbox_len s < s.(messageChan).(Chan.cap) ->
  SendMessages s m =
    Ret (set_chan (add_received s)
           (Chan.mk (s.(messageChan).(Chan.buf) ++ [m]) s.(messageChan).(Chan.cap) false), None).
Proof.
  intros (_ & _ & Hcl & _) Hco Hlen. unfold SendMessages.
  rewrite try_send_open by (unfold add_received; simpl; congruence).
  unfold add_received at 1 2 3; simpl. unfold inbox_len in Hlen. by rewrite decide_True.
Qed.

Lemma SendMessages_enqueue_witness :
  inv sub0 /\ sub0.(closeOnce) = false /\ inbox_len sub0 < sub0.(messageChan).(Chan.cap) /\
  SendMessages sub0 m1 =
    Ret (set_chan (add_received sub0)
           (Chan.mk (sub0.(messageChan).(Chan.buf) ++ [m1]) sub0.(messageChan).(Chan.cap) false), None).
Proof.
  assert (Hi : inv sub0) by eval_decide.
  assert (Hc : sub0.(closeOnce) = false) by reflexivity.
  assert (Hl : inbox_len sub0 < sub0.(messageChan).(Chan.cap)) by (vm_compute; reflexivity).
  split; [exact Hi|]. split; [exact Hc|]. split; [exact Hl|].
  exact (SendMessages_enqueue sub0 m1 Hi Hc Hl).
Defined.

(** On a full inbox with the default strategy, [SendMessages] takes
    the oldest message out (one drop) and then has room for the new
    one. *)
Lemma SendMessages_full_oldest s m :
  inv s -> s.(closeOnce) = false -> s.(dropStrategy) = DROP_OLDEST ->
  inbox_len s = s.(messageChan).(Chan.cap) -> 0 < s.(messageChan).(Chan.cap) ->
  SendMessages s m =
    Ret (set_chan (add_dropped (set_chan (add_received s)
                                  (Chan.mk (tail s.(messageChan).(Chan.buf)) s.(messageChan).(Chan.cap) false)))
           (Chan.mk (tail s.(messageChan).(Chan.buf) ++ [m]) s.(messageChan).(Chan.cap) false), None).
Proof.
  destruct s as [id ten top [buf cap cl] c cd ds dr rc sn la dn co].
  intros (Hc & Hl & Hcl & _) Hco Hds Hfull Hpos. simpl in *. subst.
  unfold inbox_len in Hfull. simpl in Hfull.
  destruct buf as [|b buf]; simpl in Hfull; [lia|].
  unfold SendMessages, handleBackPressure, add_received, add_dropped, set_chan. simpl.
  rewrite try_send_open by done. simpl. rewrite decide_False by lia. simpl.
  rewrite try_send_open by done. simpl. rewrite decide_True by lia. reflexivity.
Qed.

(** With the default strategy and a non-zero capacity, a send to an open
    subscriber always leaves the message at the end of its inbox. *)
Lemma SendMessages_oldest_last s m :
  inv s -> s.(closeOnce) = false -> s.(dropStrategy) = DROP_OLDEST -> 0 < s.(messageChan).(Chan.cap) ->
  exists s', SendMessages s m = Ret (s', None) /\ last s'.(messageChan).(Chan.buf) = Some m.
Proof.
  intros Hi Hco Hds Hp. destruct (decide (inbox_len s < s.(messageChan).(Chan.cap))).
  - rewrite SendMessages_enqueue by done. eexists. split; [reflexivity|]. apply last_snoc.
  - rewrite SendMessages_full_oldest by (done || (destruct Hi as (_ & ? & _); lia)).
    eexists. split; [reflexivity|]. apply last_snoc.
Qed.

(** C26: DROP_OLDEST.  When the inbox of an open subscriber with the
    default strategy is full (capacity at least 1), [SendMessages]
    evicts the oldest message, appends the new one, counts one drop and
    one receipt, and returns no error. *)
Theorem drop_oldest_evicts s m :
  inv s -> s.(closeOnce) = false -> s.(dropStrategy) = DROP_OLDEST ->
  inbox_len s = s.(messageChan).(Chan.cap) -> 0 < s.(messageChan).(Chan.cap) ->
  exists s', SendMessages s m = Ret (s', None) /\
    s'.(messageChan).(Chan.buf) = tail s.(messageChan).(Chan.buf) ++ [m] /\
    s'.(droppedCount) = s.(droppedCount) + 1 /\
    s'.(messagesRecieved) = s.(messagesRecieved) + 1 /\
    s'.(messagesSent) = s.(messagesSent) /\ s'.(closeOnce) = false /\ frame s s'.
Proof.
  intros Hi Hco Hds Hfull Hpos. rewrite (SendMessages_full_oldest s m Hi Hco Hds Hfull Hpos).
  eexists. split; [reflexivity|]. simpl. repeat split; done.
Qed.

Definition sub_full : t := mk "sub-1" "default-tenant" "t1" (Chan.mk [m1] 1 false) Conn.fresh false
                               DROP_OLDEST 0 1 0 0 false false.

Lemma drop_oldest_evicts_witness :
  inv sub_full /\ sub_full.(closeOnce) = false /\ sub_full.(dropStrategy) = DROP_OLDEST /\
  inbox_len sub_full = sub_full.(messageChan).(Chan.cap) /\ 0 < sub_full.(messageChan).(Chan.cap) /\
  exists s', SendMessages sub_full m1 = Ret (s', None) /\
    s'.(messageChan).(Chan.buf) = tail sub_full.(messageChan).(Chan.buf) ++ [m1] /\
    s'.(droppedCount) = sub_full.(droppedCount) + 1 /\
    s'.(messagesRecieved) = sub_full.(messagesRecieved) + 1 /\
    s'.(messagesSent) = sub_full.(messagesSent) /\ s'.(closeOnce) = false /\ frame sub_full s'.
Proof.
  assert (Hi : inv sub_full) by eval_decide.
  assert (Hf : inbox_len sub_full = sub_full.(messageChan).(Chan.cap)) by reflexivity.
  assert (Hp : 0 < sub_full.(messageChan).(Chan.cap)) by (vm_compute; reflexivity).
  split; [exact Hi|]. split; [reflexivity|]. split; [reflexivity|]. split; [exact Hf|].
  split; [exact Hp|]. exact (drop_oldest_evicts sub_full m1 Hi eq_refl eq_refl Hf Hp).
Defined.

(** DROP_NEWEST.  When the inbox of an open subscriber with the
    DROP_NEWEST strategy is full, [SendMessages] leaves the inbox as it
    is, counts one receipt and one drop, and returns the buffer-full
    error. *)
Theorem drop_newest_rejects s m :
  inv s -> s.(closeOnce) = false -> s.(dropStrategy) = DROP_NEWEST ->
  inbox_len s = s.(messageChan).(Chan.cap) ->
  SendMessages s m = Ret (add_dropped (add_received s), Some (ErrBufferFull s.(ID))).
Proof.
  intros (_ & _ & Hcl & _) Hco Hds Hfull. unfold SendMessages.
  rewrite try_send_open by (unfold add_received; simpl; congruence).
  unfold add_received at 1 2 3; simpl. unfold inbox_len in Hfull.
  rewrite decide_False by lia. unfold handleBackPressure. simpl. by rewrite Hds.
Qed.

Definition sub_full_newest : t :=
  mk "sub-1" "default-tenant" "t1" (Chan.mk [m1] 1 false) Conn.fresh false DROP_NEWEST 0 1 0 0 false false.

Lemma drop_newest_rejects_witness :
  inv sub_full_newest /\ sub_full_newest.(closeOnce) = false /\
  sub_full_newest.(dropStrategy) = DROP_NEWEST /\
  inbox_len sub_full_newest = sub_full_newest.(messageChan).(Chan.cap) /\
  SendMessages sub_full_newest m1 =
    Ret (add_dropped (add_received sub_full_newest), Some (ErrBufferFull sub_full_newest.(ID))).
Proof.
  assert (Hi : inv sub_full_newest) by eval_decide.
  assert (Hf : inbox_len sub_full_newest = sub_full_newest.(messageChan).(Chan.cap)) by reflexivity.
  do 2 (split; [first [exact Hi | reflexivity]|]). split; [reflexivity|]. split; [exact Hf|].
  exact (drop_newest_rejects sub_full_newest m1 Hi eq_refl eq_refl Hf).
Defined.

(** Sending a sequence of messages, one [SendMessages] after the other. *)
Fixpoint SendAll (s : t) (ms : list Message.t) : outcome (t * list (option error)) :=
  match ms with
  | [] => Ret (s, [])
  | m :: ms' =>
      let! '(s1, e) := SendMessages s m in
      let! '(s2, es) := SendAll s1 ms' in
      Ret (s2, e :: es)
  end.

Lemma SendMessages_circuit_breaker s m :
  inv s -> s.(closeOnce) = false -> s.(dropStrategy) = CIRCUIT_BREAKER -> s.(droppedCount) <= 100 ->
  exists s', SendMessages s m = Ret (s', None) /\ inv s' /\ s'.(closeOnce) = false /\
    s'.(dropStrategy) = CIRCUIT_BREAKER /\ s'.(droppedCount) = s.(droppedCount) /\
    s'.(messagesRecieved) = s.(messagesRecieved) + 1.
Proof.
  destruct s as [id ten top [buf cap cl] c cd ds dr rc sn la dn co].
  intros Hinv Hco Hds Hdr. simpl in *. subst.
  destruct (decide (inbox_len (mk id ten top (Chan.mk buf cap cl) c cd CIRCUIT_BREAKER dr rc sn la dn false)
                    < cap)) as [Hroom|Hfull].
  - eexists. split; [apply SendMessages_enqueue; done|].
    destruct Hinv as (? & ? & ? & ? & ?); unfold inv, inbox_len in *; simpl in *.
    rewrite length_app; simpl. repeat split; simpl; try lia; congruence.
  - eexists. split.
    { destruct Hinv as (_ & _ & Hcl & _). simpl in Hcl. subst cl.
      unfold SendMessages, add_received. simpl. rewrite try_send_open by done. simpl.
      unfold inbox_len in Hfull. simpl in Hfull. rewrite decide_False by lia.
      unfold handleBackPressure. simpl. rewrite decide_False by lia. reflexivity. }
    destruct Hinv as (? & ? & ? & ? & ?); unfold inv, inbox_len in *; simpl in *.
    repeat split; simpl; try lia; congruence.
Qed.

(** C27: the circuit breaker never trips.  For an open subscriber with
    the CIRCUIT_BREAKER strategy and at most 100 drops, every sequence of
    [SendMessages] calls returns no error, never closes the subscriber
    and never increments [droppedCount]: messages arriving at a full
    inbox vanish without being counted, so the [dropped > 100] test
    that should close the subscriber is never reached. *)
Theorem circuit_breaker_never_trips s ms :
  inv s -> s.(closeOnce) = false -> s.(dropStrategy) = CIRCUIT_BREAKER -> s.(droppedCount) <= 100 ->
  exists s', SendAll s ms = Ret (s', replicate (length ms) None) /\ s'.(closeOnce) = false /\
    s'.(droppedCount) = s.(droppedCount) /\
    s'.(messagesRecieved) = s.(messagesRecieved) + Z.of_nat (length ms).
Proof.
  revert s. induction ms as [|m ms IH]; intros s Hinv Hco Hds Hdr.
  - exists s. simpl. repeat split; [done|lia].
  - destruct (SendMessages_circuit_breaker s m Hinv Hco Hds Hdr)
      as (s1 & Hs1 & Hi1 & Hco1 & Hds1 & Hdr1 & Hrc1).
    destruct (IH s1 Hi1 Hco1 Hds1 ltac:(lia)) as (s2 & Hs2 & Hco2 & Hdr2 & Hrc2).
    exists s2. simpl. rewrite Hs1. simpl. rewrite Hs2. simpl.
    repeat split; [done|lia|lia].
Qed.

Definition sub_breaker : t :=
  mk "sub-1" "default-tenant" "t1" (Chan.mk [m1] 1 false) Conn.fresh false CIRCUIT_BREAKER 0 1 0 0 false false.

Lemma circuit_breaker_never_trips_witness :
  inv sub_breaker /\ sub_breaker.(closeOnce) = false /\
  sub_breaker.(dropStrategy) = CIRCUIT_BREAKER /\ sub_breaker.(droppedCount) <= 100 /\
  exists s', SendAll sub_breaker (replicate 101 m1) = Ret (s', replicate (length (replicate 101 m1)) None) /\
    s'.(closeOnce) = false /\ s'.(droppedCount) = sub_breaker.(droppedCount) /\
    s'.(messagesRecieved) = sub_breaker.(messagesRecieved) + Z.of_nat (length (replicate 101 m1)).
Proof.
  assert (Hi : inv sub_breaker) by eval_decide.
  assert (Hd : sub_breaker.(droppedCount) <= 100) by (vm_compute; discriminate).
  split; [exact Hi|]. split; [reflexivity|]. split; [reflexivity|]. split; [exact Hd|].
  exact (circuit_breaker_never_trips sub_breaker (replicate 101 m1) Hi eq_refl eq_refl Hd).
Defined.

(** C21: send after close panics.  Once a subscriber has been closed,
    its inbox channel is closed and the next [SendMessages] panics with
    Go's "send on closed channel", instead of being refused. *)
Theorem send_after_close_panics s s' m :
  inv s -> Close s = Ret s' -> SendMessages s' m = Panic "send on closed channel".
Proof.
  intros Hinv Hc. rewrite Close_ok in Hc by done. invc Hc.
  pose proof (close_state_inv s Hinv) as (_ & _ & Hcl & _). rewrite close_state_closed in Hcl by done.
  by apply SendMessages_closed.
Qed.

Lemma send_after_close_panics_witness :
  inv sub0 /\ Close sub0 = Ret (close_state sub0) /\
  SendMessages (close_state sub0) m1 = Panic "send on closed channel".
Proof.
  assert (Hi : inv sub0) by eval_decide.
  assert (Hc : Close sub0 = Ret (close_state sub0)) by reflexivity.
  split; [exact Hi|]. split; [exact Hc|]. exact (send_after_close_panics sub0 _ m1 Hi Hc).
Defined.

(** C18: idempotent close.  On a subscriber that satisfies the invariant,
    [Close] does not panic and leaves it closed, and a second [Close]
    changes nothing and does not panic either. *)
Theorem Close_idempotent s s' :
  inv s -> Close s = Ret s' -> s'.(closeOnce) = true /\ Close s' = Ret s'.
Proof.
  intros Hinv Hc. rewrite Close_ok in Hc by done. invc Hc.
  split; [by apply close_state_closed|].
  rewrite Close_ok by (by apply close_state_inv). f_equal. by apply close_state_idem.
Qed.

Lemma Close_idempotent_witness :
  inv sub0 /\ Close sub0 = Ret (close_state sub0) /\
  (close_state sub0).(closeOnce) = true /\ Close (close_state sub0) = Ret (close_state sub0).
Proof.
  assert (Hi : inv sub0) by eval_decide.
  assert (Hc : Close sub0 = Ret (close_state sub0)) by reflexivity.
  split; [exact Hi|]. split; [exact Hc|]. exact (Close_idempotent sub0 _ Hi Hc).
Defined.

End Subscriber.
