(* ===== verification/BufferManager.v ===== *)
(** * BufferManager: the adaptive per-subscriber buffer size

    Models [AddaptiveBufferManager] of package [buffer]
    (src/unnamed/part_002).  The manager keeps an [int32] subscriber
    count and an [int32] buffer size, initially [MaxBufferSize]; every
    [ReCalcTime] its monitor goroutine calls [recalculate] with the heap
    size reported by [runtime.ReadMemStats] (an argument of the model).
    Integers keep their Go widths: the subtraction and division are on
    [int64], the result is converted with [int32(...)], and the counter
    updates wrap at 32 bits. *)

From S2P Require Import Prelude.

Module BufferManager.

(** The constants of the package. *)
Definition MinBifferSize : Z := 100.
Definition MaxBufferSize : Z := 1000.
Definition ReCalcTime : Z := 5 * 1000000000.
Definition AvgMessSize : Z := 1024.

(** [type AddaptiveBufferManager struct]; [stopped] is the state of
    [stopChan]. *)
Record t : Type := mk {
  maxTotalMemory : Z;
  suncriberCount : Z;
  bufferSize : Z;
  stopped : bool
}.

(** [func NewAdaptiveBufferManager(maxMemort int64)]. *)
Definition NewAdaptiveBufferManager (maxMemort : Z) : t := mk maxMemort 0 MaxBufferSize false.

(** The buffer size [recalculate] computes from a non-zero count:
    [available = max(0, maxTotalMemory - int64(alloc))], then
    [int32(available / int64(subCount) / AvgMessSize)] clamped to
    [[MinBifferSize, MaxBufferSize]]. *)
Definition buffer_for (maxTotal alloc subCount : Z) : Z :=
  let currentMomory := int64 alloc in
  let availableMemory := int64 (maxTotal - currentMomory) in
  let availableMemory := if decide (availableMemory < 0) then 0 else availableMemory in
  let memoryPerSub := go_div availableMemory subCount in
  let bufferPerSub := int32 (go_div memoryPerSub AvgMessSize) in
  let bufferPerSub := if decide (bufferPerSub < MinBifferSize) then MinBifferSize else bufferPerSub in
  if decide (bufferPerSub > MaxBufferSize) then MaxBufferSize else bufferPerSub.

(** [func (adm *AddaptiveBufferManager) recalculate()], with [alloc] the
    [m.Alloc] of [runtime.ReadMemStats] (a [uint64]). *)
Definition recalculate (adm : t) (alloc : Z) : t :=
  if decide (adm.(suncriberCount) = 0) then adm
  else mk adm.(maxTotalMemory) adm.(suncriberCount)
          (buffer_for adm.(maxTotalMemory) alloc adm.(suncriberCount)) adm.(stopped).

(** [GetBufferSize], [AddNewSubscriber], [OnSubscriberRemoval]. *)
Definition GetBufferSize (adm : t) : Z := adm.(bufferSize).

Definition AddNewSubscriber (adm : t) : t :=
  mk adm.(maxTotalMemory) (int32 (adm.(suncriberCount) + 1)) adm.(bufferSize) adm.(stopped).

Definition OnSubscriberRemoval (adm : t) : t :=
  mk adm.(maxTotalMemory) (int32 (adm.(suncriberCount) - 1)) adm.(bufferSize) adm.(stopped).

(** [func (adm *AddaptiveBufferManager) Stop()]: [close(adm.stopChan)]
    panics the second time. *)
Definition Stop (adm : t) : outcome t :=
  if adm.(stopped) then Panic "close of closed channel"
  else Ret (mk adm.(maxTotalMemory) adm.(suncriberCount) adm.(bufferSize) true).

(** The operations other goroutines perform on the manager: the
    monitor loop's [recalculate] on a tick (while not stopped), the
    subscriber count updates, and [Stop]. *)
Inductive op_step : t -> t -> Prop :=
| OpRecalculate adm alloc :
    adm.(stopped) = false -> 0 <= alloc < 2 ^ 64 -> op_step adm (recalculate adm alloc)
| OpAdd adm : op_step adm (AddNewSubscriber adm)
| OpRemove adm : op_step adm (OnSubscriberRemoval adm)
| OpStop adm adm' : Stop adm = Ret adm' -> op_step adm adm'.

(** The clamp of the spec: [per_sub] limited to [[MIN, MAX]]. *)
Definition clamp (x : Z) : Z := Z.min MaxBufferSize (Z.max MinBifferSize x).

Lemma buffer_for_bounds maxTotal alloc n :
  MinBifferSize <= buffer_for maxTotal alloc n <= MaxBufferSize.
Proof. unfold buffer_for, MinBifferSize, MaxBufferSize. repeat case_decide; lia. Qed.

(** The manager's state: a buffer size within the bounds. *)
Definition bounded (adm : t) : Prop := MinBifferSize <= adm.(bufferSize) <= MaxBufferSize.

Lemma op_step_bounded adm adm' : bounded adm -> op_step adm adm' -> bounded adm'.
Proof.
  intros Hb Hs. destruct Hs as [adm alloc _ _|adm|adm|adm adm' H]; unfold bounded in *.
  - unfold recalculate. case_decide; [done|]. apply buffer_for_bounds.
  - done.
  - done.
  - unfold Stop in H. destruct adm.(stopped); [done|]. by invc H.
Qed.

(** C5: buffer bounds.  In every run of a buffer manager created by
    [NewAdaptiveBufferManager], whatever the configured memory, the heap
    sizes reported and the subscriber count updates, [GetBufferSize]
    returns a size in [[100, 1000]]. *)
Theorem buffer_size_bounded maxMemort adm :
  rtc op_step (NewAdaptiveBufferManager maxMemort) adm ->
  MinBifferSize <= GetBufferSize adm <= MaxBufferSize.
Proof.
  intros Hs. apply (rtc_preserved op_step bounded (NewAdaptiveBufferManager maxMemort) adm
                     op_step_bounded); [|exact Hs].
  unfold bounded, NewAdaptiveBufferManager, MinBifferSize, MaxBufferSize; simpl; lia.
Qed.

Lemma buffer_size_bounded_witness :
  rtc op_step (NewAdaptiveBufferManager 0)
    (recalculate (AddNewSubscriber (NewAdaptiveBufferManager 0)) 4096) /\
  MinBifferSize <= GetBufferSize (recalculate (AddNewSubscriber (NewAdaptiveBufferManager 0)) 4096)
    <= MaxBufferSize.
Proof.
  assert (Hs : rtc op_step (NewAdaptiveBufferManager 0)
                 (recalculate (AddNewSubscriber (NewAdaptiveBufferManager 0)) 4096)).
  { eapply rtc_l; [apply OpAdd|].
    eapply rtc_l; [apply (OpRecalculate _ 4096); [reflexivity|split; vm_compute; congruence]|].
    apply rtc_refl. }
  split; [exact Hs|]. exact (buffer_size_bounded 0 _ Hs).
Defined.

(** With a non-negative heap size and budget in [int64], [buffer_for]
    is the clamp of the [int32] conversion of the exact quotient: the
    [int64] steps do not wrap and Go's truncated division agrees with
    [Z.div] on non-negative operands. *)
Lemma buffer_for_wrapped maxTotal alloc n :
  0 < n -> 0 <= maxTotal < 2 ^ 63 -> 0 <= alloc < 2 ^ 63 ->
  buffer_for maxTotal alloc n = clamp (int32 (Z.max 0 (maxTotal - alloc) / n / AvgMessSize)).
Proof.
  intros Hn Hmax Halloc. unfold buffer_for.
  rewrite (int64_small alloc), (int64_small (_ - alloc)) by lia.
  set (avail := if decide (maxTotal - alloc < 0) then 0 else maxTotal - alloc).
  assert (Havail : avail = Z.max 0 (maxTotal - alloc)) by (unfold avail; case_decide; lia).
  rewrite Havail, (go_div_nonneg (Z.max 0 _)) by lia.
  rewrite go_div_nonneg by (unfold AvgMessSize; try apply Z.div_pos; lia).
  unfold clamp. repeat case_decide; lia.
Qed.

(** C28: the recalculation protocol.  With a positive subscriber count,
    a configured memory and a heap size in [[0, 2^63)], and a
    per-subscriber size below [2^31] messages, [recalculate] stores the
    size of the specification:
    [clamp(max(0, maxTotalMemory - alloc) / count / AvgMessSize)]. *)
Theorem recalculate_spec adm alloc :
  0 < adm.(suncriberCount) -> 0 <= adm.(maxTotalMemory) < 2 ^ 63 -> 0 <= alloc < 2 ^ 63 ->
  Z.max 0 (adm.(maxTotalMemory) - alloc) / adm.(suncriberCount) / AvgMessSize < 2 ^ 31 ->
  GetBufferSize (recalculate adm alloc) =
    clamp (Z.max 0 (adm.(maxTotalMemory) - alloc) / adm.(suncriberCount) / AvgMessSize).
Proof.
  intros Hn Hmax Halloc Hper. unfold recalculate. rewrite decide_False by lia.
  unfold GetBufferSize. simpl. rewrite buffer_for_wrapped by done.
  assert (0 <= Z.max 0 (adm.(maxTotalMemory) - alloc) / adm.(suncriberCount) / AvgMessSize).
  { apply Z.div_pos; [apply Z.div_pos|unfold AvgMessSize]; lia. }
  by rewrite int32_small by lia.
Qed.

Lemma recalculate_spec_witness :
  0 < (mk (2048 * 1024 * 1024) 4 1000 false).(suncriberCount) /\
  0 <= (mk (2048 * 1024 * 1024) 4 1000 false).(maxTotalMemory) < 2 ^ 63 /\
  0 <= 1024 * 1024 * 1024 < 2 ^ 63 /\
  Z.max 0 ((mk (2048 * 1024 * 1024) 4 1000 false).(maxTotalMemory) - 1024 * 1024 * 1024)
    / (mk (2048 * 1024 * 1024) 4 1000 false).(suncriberCount) / AvgMessSize < 2 ^ 31 /\
  GetBufferSize (recalculate (mk (2048 * 1024 * 1024) 4 1000 false) (1024 * 1024 * 1024)) =
    clamp (Z.max 0 ((mk (2048 * 1024 * 1024) 4 1000 false).(maxTotalMemory) - 1024 * 1024 * 1024)
             / (mk (2048 * 1024 * 1024) 4 1000 false).(suncriberCount) / AvgMessSize).
Proof.
  assert (H1 : 0 < (mk (2048 * 1024 * 1024) 4 1000 false).(suncriberCount)) by (simpl; lia).
  assert (H2 : 0 <= (mk (2048 * 1024 * 1024) 4 1000 false).(maxTotalMemory) < 2 ^ 63)
    by (split; vm_compute; congruence).
  assert (H3 : 0 <= 1024 * 1024 * 1024 < 2 ^ 63) by (split; vm_compute; congruence).
  assert (H4 : Z.max 0 ((mk (2048 * 1024 * 1024) 4 1000 false).(maxTotalMemory) - 1024 * 1024 * 1024)
                 / (mk (2048 * 1024 * 1024) 4 1000 false).(suncriberCount) / AvgMessSize < 2 ^ 31)
    by (vm_compute; reflexivity).
  split; [exact H1|]. split; [exact H2|]. split; [exact H3|]. split; [exact H4|].
  exact (recalculate_spec _ _ H1 H2 H3 H4).
Defined.

(** C34: the whole recalculation, both branches, at Go's widths.  With
    no subscriber it returns early and keeps the last size (where the
    specification divides by [max(1, count)]); otherwise the stored
    size is the clamp of the [int32] conversion of the per-subscriber
    message count, which wraps from [2^31] messages on: with 4 TiB
    configured ([MAX_MEMORY_MB=4194304]), an empty heap and one
    subscriber, [2^42 / 1024 = 2^32] becomes [0] and the size [100]
    where the specification gives [1000]. *)
Theorem recalculate_int32_truncation adm alloc :
  0 <= adm.(suncriberCount) -> 0 <= adm.(maxTotalMemory) < 2 ^ 63 -> 0 <= alloc < 2 ^ 63 ->
  GetBufferSize (recalculate adm alloc) =
    (if decide (adm.(suncriberCount) = 0) then GetBufferSize adm
     else clamp (int32 (Z.max 0 (adm.(maxTotalMemory) - alloc) / adm.(suncriberCount) / AvgMessSize))).
Proof.
  intros Hn Hmax Halloc. unfold recalculate. case_decide; [done|].
  unfold GetBufferSize. simpl. apply buffer_for_wrapped; [lia|done|done].
Qed.

Lemma recalculate_int32_truncation_witness :
  0 <= (mk (2 ^ 42) 1 MaxBufferSize false).(suncriberCount) /\
  0 <= (mk (2 ^ 42) 1 MaxBufferSize false).(maxTotalMemory) < 2 ^ 63 /\ 0 <= 0 < 2 ^ 63 /\
  clamp (Z.max 0 (2 ^ 42 - 0) / 1 / AvgMessSize) = MaxBufferSize /\
  GetBufferSize (recalculate (mk (2 ^ 42) 1 MaxBufferSize false) 0) = MinBifferSize.
Proof.
  assert (H1 : 0 <= (mk (2 ^ 42) 1 MaxBufferSize false).(suncriberCount)) by (simpl; lia).
  assert (H2 : 0 <= (mk (2 ^ 42) 1 MaxBufferSize false).(maxTotalMemory) < 2 ^ 63)
    by (split; vm_compute; congruence).
  assert (H3 : 0 <= 0 < 2 ^ 63) by (split; vm_compute; congruence).
  split; [exact H1|]. split; [exact H2|]. split; [exact H3|]. split; [vm_compute; reflexivity|].
  rewrite (recalculate_int32_truncation _ 0 H1 H2 H3). vm_compute. reflexivity.
Defined.

(** The count moves by one per update while it stays within [int32]. *)
Lemma AddNewSubscriber_count adm :
  - 2 ^ 31 <= adm.(suncriberCount) + 1 < 2 ^ 31 ->
  (AddNewSubscriber adm).(suncriberCount) = adm.(suncriberCount) + 1.
Proof. intros H. apply int32_small. exact H. Qed.

Lemma OnSubscriberRemoval_count adm :
  - 2 ^ 31 <= adm.(suncriberCount) - 1 < 2 ^ 31 ->
  (OnSubscriberRemoval adm).(suncriberCount) = adm.(suncriberCount) - 1.
Proof. intros H. apply int32_small. exact H. Qed.

End BufferManager.
