(* ===== verification/Throttler.v ===== *)
(** * Throttler: the adaptive publisher throttle

    Models [AdaptiveThrottler] of package [throttle]
    (src/unnamed/part_003).  The clock is explicit (nanoseconds), and
    so are the two runtime readings: the goroutine count (the CPU proxy)
    and [m.Alloc] (the memory proxy).  [StartThrottling] spawns a
    goroutine that sleeps [ThrottleDuration] and calls
    [StopThrottling]: the pending goroutines are the deadlines in
    [timers].  [ShouldThrottle] takes no lock, so concurrent calls
    interleave: [check] is its body up to the call of
    [StartThrottling], and a run ([step] on [run]: throttler, clock,
    goroutines that decided to throttle and have not yet called
    [StartThrottling]) interleaves checks, armings, subscriber-count
    updates, the clock and the timers, a timer firing at or after its
    deadline; [exec_all] performs a list of such events and is sound
    for [step].  In such a run the throttle can be cleared sooner than
    [ThrottleDuration] after it was armed ([throttle_hysteresis_race]).

    [float64] values are rationals [Q]: the comparisons of the source
    ([>] against the thresholds) are exact comparisons of rationals.
    The values compared are [n / 1000] for an integer [n <= 1000],
    [Alloc / 2^31] and [slow / total]; for counts below 2^50 the
    rounding of [float64] does not change these comparisons with the
    thresholds 0.8 and 0.5. *)

From S2P Require Import Prelude.
From Stdlib Require Import QArith Qround.
Open Scope Z_scope.

Module Throttler.

Definition second : Z := 1000000000.

(** [type Config struct]. *)
Record Config : Type := mkConfig {
  CPUThreshold : Q;
  MemoryThreshold : Q;
  SlowSubThreshold : Q;
  ThrottleDuration : Z;
  CheckInterval : Z;
  MinPublishInterval : Z
}.

(** [func DefaultConfig() Config]. *)
Definition DefaultConfig : Config :=
  mkConfig (80 # 100)%Q (80 # 100)%Q (50 # 100)%Q (5 * second) second (10 * 1000000).

(** [type AdaptiveThrottler struct]; [timers] are the deadlines of the
    goroutines [StartThrottling] has spawned and that have not yet called
    [StopThrottling]. *)
Record t : Type := mk {
  config : Config;
  isThrottling : bool;
  lastCheckTime : Z;
  slowSubCount : Z;
  totalSubCount : Z;
  lastCPUUsage : Z;
  lastMemoryUsage : Z;
  timers : list Z
}.

(** [time.Time.Unix()] of a clock reading. *)
Definition unix (now : Z) : Z := now / second.

(** [func NewAdaptiveThrottler(config Config)]. *)
Definition NewAdaptiveThrottler (cfg : Config) (now : Z) : t :=
  mk cfg false (unix now) 0 0 0 0 [].

(** [func (at *AdaptiveThrottler) getCPUUsage() float64], on the value of
    [runtime.NumGoroutine()]; it also stores [uint64(usage * 1000000)]. *)
Definition getCPUUsage (numGoroutines : Z) : Q :=
  if decide (numGoroutines > 10000) then (9 # 10)%Q
  else if decide (numGoroutines > 5000) then (7 # 10)%Q
  else if decide (numGoroutines > 1000) then (5 # 10)%Q
  else (inject_Z numGoroutines / 1000)%Q.

(** [func (at *AdaptiveThrottler) getMemoryUsage() float64], on [m.Alloc]. *)
Definition getMemoryUsage (alloc : Z) : Q :=
  let usage := (inject_Z alloc / inject_Z (2 * 1024 * 1024 * 1024))%Q in
  if Qlt_le_dec 1 usage then 1%Q else usage.

(** The comparison [x < y] of two [float64]. *)
Definition qlt (x y : Q) : bool := if Qlt_le_dec x y then true else false.

(** [uint64(usage * 1000000)]. *)
Definition scaled (usage : Q) : Z := Qfloor (usage * 1000000)%Q.

Definition set_check (at_ : t) (check cpu mem : Z) : t :=
  mk at_.(config) at_.(isThrottling) check at_.(slowSubCount) at_.(totalSubCount) cpu mem at_.(timers).

(** [func (at *AdaptiveThrottler) StartThrottling()] at clock [now]. *)
Definition StartThrottling (at_ : t) (now : Z) : t :=
  mk at_.(config) true at_.(lastCheckTime) at_.(slowSubCount) at_.(totalSubCount)
     at_.(lastCPUUsage) at_.(lastMemoryUsage) (at_.(timers) ++ [now + at_.(config).(ThrottleDuration)]).

(** [func (at *AdaptiveThrottler) StopThrottling()]. *)
Definition StopThrottling (at_ : t) : t :=
  mk at_.(config) false at_.(lastCheckTime) at_.(slowSubCount) at_.(totalSubCount)
     at_.(lastCPUUsage) at_.(lastMemoryUsage) at_.(timers).

(** The body of [func (at *AdaptiveThrottler) ShouldThrottle() bool] at
    clock [now], with [numGoroutines] goroutines and a heap of [alloc]
    bytes, up to the call of [StartThrottling]: the new state, the
    result, and whether [StartThrottling] is to be called. *)
Definition check (at_ : t) (now numGoroutines alloc : Z) : t * bool * bool :=
  if at_.(isThrottling) then (at_, true, false)
  else if decide (now - at_.(lastCheckTime) * second < at_.(config).(CheckInterval))
  then (at_, at_.(isThrottling), false)
  else
    let cpuUsage := getCPUUsage numGoroutines in
    let memoryUsage := getMemoryUsage alloc in
    let at1 := set_check at_ (unix now) (scaled cpuUsage) (scaled memoryUsage) in
    if decide (at1.(totalSubCount) = 0) then (at1, false, false)
    else
      let slowSubPercentage := (inject_Z at1.(slowSubCount) / inject_Z at1.(totalSubCount))%Q in
      let shouldThrottle :=
        qlt at1.(config).(SlowSubThreshold) slowSubPercentage &&
        (qlt at1.(config).(CPUThreshold) cpuUsage ||
         qlt at1.(config).(MemoryThreshold) memoryUsage) in
      (at1, shouldThrottle, shouldThrottle).

(** [ShouldThrottle] run without interference: the check, then
    [StartThrottling] at the same clock when the check says so. *)
Definition ShouldThrottle (at_ : t) (now numGoroutines alloc : Z) : t * bool :=
  let '(at1, b, start) := check at_ now numGoroutines alloc in
  if start then (StartThrottling at1 now, b) else (at1, b).

(** [func (at *AdaptiveThrottler) ApplyThrottle()]: the delay it sleeps. *)
Definition ApplyThrottle (at_ : t) : Z :=
  if at_.(isThrottling) then at_.(config).(MinPublishInterval) else 0.

(** [func (at *AdaptiveThrottler) UpdateSubscriber(slowCount, totalCOunt int)]. *)
Definition UpdateSubscriber (at_ : t) (slowCount totalCOunt : Z) : t :=
  mk at_.(config) at_.(isThrottling) at_.(lastCheckTime) (int32 slowCount) (int32 totalCOunt)
     at_.(lastCPUUsage) at_.(lastMemoryUsage) at_.(timers).

(** [IsThrottling] and [GetMetrics]. *)
Definition IsThrottling (at_ : t) : bool := at_.(isThrottling).

Definition GetMetrics (at_ : t) : bool * Z * Z * Z * Z :=
  (at_.(isThrottling), at_.(slowSubCount), at_.(totalSubCount), at_.(lastCPUUsage), at_.(lastMemoryUsage)).

(** The goroutine of [StartThrottling] wakes up: [StopThrottling], and
    its timer (between [pre] and [post]) is gone. *)
Definition timer_fired (at_ : t) (pre post : list Z) : t :=
  let at' := StopThrottling at_ in
  mk at'.(config) at'.(isThrottling) at'.(lastCheckTime) at'.(slowSubCount) at'.(totalSubCount)
     at'.(lastCPUUsage) at'.(lastMemoryUsage) (pre ++ post).

(** Concurrent runs of the throttler.  Every publish request calls
    [ShouldThrottle] on the one shared throttler, and the method takes
    no lock: its fields are atomics read and written one at a time.  A
    run interleaves [check] steps of the calling goroutines with the
    [StartThrottling] calls of those that decided to throttle, each a
    later step of its own ([arming] counts the goroutines between their
    decision and that call); with the monitor's [UpdateSubscriber], the
    clock moving forward, and a pending [StopThrottling] goroutine
    waking up at or after its deadline. *)
Record run : Type := mkRun { thr : t; clk : Z; arming : nat }.

Inductive step : run -> run -> Prop :=
| StCheck at_ now p g alloc at1 b :
    0 <= g -> 0 <= alloc -> check at_ now g alloc = (at1, b, false) -> step (mkRun at_ now p) (mkRun at1 now p)
| StDecide at_ now p g alloc at1 b :
    0 <= g -> 0 <= alloc -> check at_ now g alloc = (at1, b, true) -> step (mkRun at_ now p) (mkRun at1 now (S p))
| StArm at_ now p : step (mkRun at_ now (S p)) (mkRun (StartThrottling at_ now) now p)
| StUpdate at_ now p slow total : step (mkRun at_ now p) (mkRun (UpdateSubscriber at_ slow total) now p)
| StTick at_ now now' p : now <= now' -> step (mkRun at_ now p) (mkRun at_ now' p)
| StFire at_ now p pre d post :
    at_.(timers) = pre ++ d :: post -> d <= now -> step (mkRun at_ now p) (mkRun (timer_fired at_ pre post) now p).

(** The events of a run, and a scheduler that performs them in order. *)
Inductive event : Type :=
| EvCheck (g alloc : Z) | EvArm | EvUpdate (slow total : Z) | EvTick (now' : Z) | EvFire (i : nat).

Definition exec (x : run) (ev : event) : option run :=
  match ev with
  | EvCheck g alloc =>
      if decide (0 <= g /\ 0 <= alloc) then
        let '(at1, _, start) := check x.(thr) x.(clk) g alloc in
        Some (mkRun at1 x.(clk) (if start then S x.(arming) else x.(arming)))
      else None
  | EvArm => match x.(arming) with S p => Some (mkRun (StartThrottling x.(thr) x.(clk)) x.(clk) p) | O => None end
  | EvUpdate slow total => Some (mkRun (UpdateSubscriber x.(thr) slow total) x.(clk) x.(arming))
  | EvTick now' => if decide (x.(clk) <= now') then Some (mkRun x.(thr) now' x.(arming)) else None
  | EvFire i =>
      match x.(thr).(timers) !! i with
      | Some d =>
          if decide (d <= x.(clk))
          then Some (mkRun (timer_fired x.(thr) (take i x.(thr).(timers)) (drop (Datatypes.S i) x.(thr).(timers)))
                       x.(clk) x.(arming))
          else None
      | None => None
      end
  end.

Fixpoint exec_all (x : run) (evs : list event) : option run :=
  match evs with
  | [] => Some x
  | ev :: rest => match exec x ev with Some y => exec_all y rest | None => None end
  end.

(** ** Lemmas *)

Lemma qlt_spec x y : qlt x y = true <-> (x < y)%Q.
Proof.
  unfold qlt. destruct (Qlt_le_dec x y) as [H|H]; split; intros Hx; try done.
  exfalso. apply (Qlt_not_le x y Hx H).
Qed.

Lemma run_exec_sound x ev y : exec x ev = Some y -> step x y.
Proof.
  destruct x as [at_ now p]. destruct ev as [g alloc| |slow total|now'|i]; simpl.
  - case_decide as Hga; [|done]. destruct (check at_ now g alloc) as [[at1 b] []] eqn:E;
      intros Hx; invc Hx; [eapply StDecide|eapply StCheck]; eauto; lia.
  - destruct p; [done|]. intros H; invc H. apply StArm.
  - intros H; invc H. apply StUpdate.
  - case_decide as Hle; [|done]. intros Hx; invc Hx. by apply StTick.
  - destruct (at_.(timers) !! i) as [d|] eqn:Hi; [|done]. case_decide as Hle; [|done]. intros Hx; invc Hx.
    eapply StFire; [|done]. symmetry. by apply take_drop_middle.
Qed.

Lemma run_exec_all_sound x evs y : exec_all x evs = Some y -> rtc step x y.
Proof.
  revert x. induction evs as [|ev rest IH]; intros x; simpl; [by intros H; invc H|].
  destruct (exec x ev) as [x1|] eqn:E; [|done]. intros H. eapply rtc_l; [exact (run_exec_sound _ _ _ E)|]. exact (IH _ H).
Qed.

(** The throttler at clock 0 with no goroutine between a decision and
    its [StartThrottling]. *)
Definition run0 : run := mkRun (NewAdaptiveThrottler DefaultConfig 0) 0 0.

(** Three publishers under load (one slow subscriber out of one, 20000
    goroutines).  A checks at 10.9 s and stores [lastCheckTime = 10];
    B checks at 11.0 s, which passes the one-second interval against
    the truncated time, before A has armed; A arms at 11.0 s (timer at
    16.0 s) and B at 11.1 s (a second timer at 16.1 s); A's timer clears
    the flag at 16.0 s, and C checks and decides at once. *)
Definition race_prefix : list event :=
  [EvUpdate 1 1; EvTick (109 * second / 10); EvCheck 20000 0; EvTick (11 * second); EvCheck 20000 0;
   EvArm; EvTick (111 * second / 10); EvArm; EvTick (16 * second); EvFire 0; EvCheck 20000 0].

(** C's [StartThrottling] at 16.0 s, then B's timer at 16.1 s. *)
Definition race_suffix : list event := [EvTick (161 * second / 10); EvFire 0].

(** C33: the throttle's hysteresis does not hold.  The specification
    asks that, once armed, the throttle stay armed for
    [ThrottleDuration].  From a fresh throttler there is a run in which
    a [StartThrottling] call arms it (the flag goes from [false] to
    [true]) at clock [now], and later in the run, before
    [now + ThrottleDuration], the flag is [false] again: the timer of
    an earlier, redundant arming by a concurrent [ShouldThrottle] call
    clears it. *)
Theorem throttle_hysteresis_race :
  exists at1 now p y,
    rtc step run0 (mkRun at1 now (S p)) /\ at1.(isThrottling) = false /\
    rtc step (mkRun (StartThrottling at1 now) now p) y /\
    y.(clk) < now + DefaultConfig.(ThrottleDuration) /\ y.(thr).(isThrottling) = false.
Proof.
  destruct (exec_all run0 race_prefix) as [[at1 now [|p]]|] eqn:E; pose proof E as E'; vm_compute in E';
    try discriminate.
  injection E' as Hat Hnow Hp.
  destruct (exec_all (mkRun (StartThrottling at1 now) now p) race_suffix) as [y|] eqn:F; pose proof F as F';
    subst at1 now p; vm_compute in F'; [|discriminate].
  injection F' as Hy. subst y. do 4 eexists. split; [exact (run_exec_all_sound _ _ _ E)|]. split; [reflexivity|].
  split; [exact (run_exec_all_sound _ _ _ F)|]. split; vm_compute; reflexivity.
Qed.

(** A throttler with one slow subscriber out of one, right after its
    creation at clock 0. *)
Definition at_loaded : t := UpdateSubscriber (NewAdaptiveThrottler DefaultConfig 0) 1 1.

(** C29: the throttle decision.  A [ShouldThrottle] call on a throttler
    that is not throttling, at least [CheckInterval] after the last
    check, returns [true] exactly when there are subscribers, the slow
    fraction exceeds [SlowSubThreshold], and the CPU or the memory
    signal exceeds its threshold; it arms the throttle exactly then and
    records the check time. *)
Theorem ShouldThrottle_decision at_ now g alloc at' b :
  at_.(isThrottling) = false ->
  at_.(lastCheckTime) * second + at_.(config).(CheckInterval) <= now ->
  ShouldThrottle at_ now g alloc = (at', b) ->
  (b = true <->
     at_.(totalSubCount) <> 0 /\
     (at_.(config).(SlowSubThreshold) < inject_Z at_.(slowSubCount) / inject_Z at_.(totalSubCount))%Q /\
     ((at_.(config).(CPUThreshold) < getCPUUsage g)%Q \/
      (at_.(config).(MemoryThreshold) < getMemoryUsage alloc)%Q)) /\
  at'.(isThrottling) = b /\ at'.(lastCheckTime) = unix now.
Proof.
  intros Hf Hint H. unfold ShouldThrottle, check in H. rewrite Hf, decide_False in H by lia.
  simpl in H. case_decide as Ht.
  - invc H. split; [split; [done|intros (? & _); done]|]. simpl. by split.
  - destruct (qlt _ _ && (qlt _ _ || qlt _ _)) eqn:E; invc H; simpl.
    + apply andb_true_iff in E as [E1 E2]. apply orb_true_iff in E2. rewrite qlt_spec in E1.
      rewrite !qlt_spec in E2. split; [split; [done|]|]; auto.
    + split; [|done]. split; [done|]. intros (_ & E1 & E2).
      apply qlt_spec in E1. rewrite <- !qlt_spec in E2. rewrite E1 in E. simpl in E.
      destruct E2 as [E2|E2]; rewrite E2 in E; [done|]. by rewrite orb_true_r in E.
Qed.

Lemma ShouldThrottle_decision_witness :
  at_loaded.(isThrottling) = false /\
  at_loaded.(lastCheckTime) * second + at_loaded.(config).(CheckInterval) <= 2 * second /\
  ShouldThrottle at_loaded (2 * second) 20000 0 =
    (StartThrottling (set_check at_loaded 2 900000 0) (2 * second), true) /\
  ((true = true <->
     at_loaded.(totalSubCount) <> 0 /\
     (at_loaded.(config).(SlowSubThreshold) < inject_Z at_loaded.(slowSubCount) / inject_Z at_loaded.(totalSubCount))%Q /\
     ((at_loaded.(config).(CPUThreshold) < getCPUUsage 20000)%Q \/
      (at_loaded.(config).(MemoryThreshold) < getMemoryUsage 0)%Q)) /\
   (StartThrottling (set_check at_loaded 2 900000 0) (2 * second)).(isThrottling) = true /\
   (StartThrottling (set_check at_loaded 2 900000 0) (2 * second)).(lastCheckTime) = unix (2 * second)).
Proof.
  assert (H1 : at_loaded.(isThrottling) = false) by reflexivity.
  assert (H2 : at_loaded.(lastCheckTime) * second + at_loaded.(config).(CheckInterval) <= 2 * second)
    by (vm_compute; discriminate).
  assert (H3 : ShouldThrottle at_loaded (2 * second) 20000 0 =
                 (StartThrottling (set_check at_loaded 2 900000 0) (2 * second), true))
    by (vm_compute; reflexivity).
  split; [exact H1|]. split; [exact H2|]. split; [exact H3|].
  exact (ShouldThrottle_decision _ _ _ _ _ _ H1 H2 H3).
Defined.

(** the load signals lie in [[0, 1]], the contract the
    specification puts on them: the CPU proxy for every goroutine
    count, the memory proxy for every heap size. *)
Theorem usage_in_unit g alloc :
  0 <= g -> 0 <= alloc ->
  (0 <= getCPUUsage g <= 1)%Q /\ (0 <= getMemoryUsage alloc <= 1)%Q.
Proof.
  intros Hg Ha. split.
  - unfold getCPUUsage. repeat case_decide; unfold Qle; simpl; lia.
  - unfold getMemoryUsage. destruct (Qlt_le_dec 1 _) as [H|H].
    + unfold Qle; simpl; lia.
    + split; [|exact H]. unfold Qle; simpl; lia.
Qed.

Lemma usage_in_unit_witness :
  0 <= 900 /\ 0 <= 2 ^ 32 /\
  (0 <= getCPUUsage 900 <= 1)%Q /\ (0 <= getMemoryUsage (2 ^ 32) <= 1)%Q.
Proof.
  assert (H1 : 0 <= 900) by lia. assert (H2 : 0 <= 2 ^ 32) by lia.
  split; [exact H1|]. split; [exact H2|]. exact (usage_in_unit 900 (2 ^ 32) H1 H2).
Defined.

(** C37: The CPU proxy is not monotone in the goroutine count: with
    the default configuration the CPU condition of the throttle holds
    exactly for 801 to 1000 goroutines and for more than 10000, so
    1001 to 10000 goroutines (read as 0.5 or 0.7) fall below the 0.8
    threshold that 900 goroutines (read as 0.9) exceed. *)
Theorem cpu_proxy_not_monotone g :
  qlt DefaultConfig.(CPUThreshold) (getCPUUsage g) = bool_decide (800 < g <= 1000 \/ 10000 < g).
Proof.
  apply Bool.eq_iff_eq_true. rewrite qlt_spec, bool_decide_eq_true.
  unfold getCPUUsage. repeat case_decide; unfold Qlt; simpl; lia.
Qed.

(** C36: The last check time is kept in whole seconds: after a check at
    clock [t] (in nanoseconds) with a one-second check interval, a call
    at the next whole second [(unix t + 1) * second], which comes only
    [second - t mod second] after the check, checks again (the stored
    check time moves to that second), where the specification returns
    the cached decision for a full second. *)
Theorem check_interval_truncated at_ t g alloc :
  at_.(isThrottling) = false -> at_.(config).(CheckInterval) = second ->
  at_.(lastCheckTime) = unix t -> 0 <= t ->
  let now := (unix t + 1) * second in
  now - t = second - t mod second /\
  (fst (ShouldThrottle at_ now g alloc)).(lastCheckTime) = unix now.
Proof.
  intros Hth Hci Hlc Ht now. unfold unix, second in *. subst now. split.
  - pose proof (Z.div_mod t 1000000000). lia.
  - unfold ShouldThrottle, check. rewrite Hth, decide_False by (rewrite Hlc, Hci; unfold unix, second; lia).
    case_decide; [reflexivity|]. cbn. destruct (qlt _ _ && _); reflexivity.
Qed.

Lemma check_interval_truncated_witness :
  let at1 := fst (ShouldThrottle (UpdateSubscriber (NewAdaptiveThrottler DefaultConfig 0) 1 2) (109 * second / 10) 20000 0) in
  at1.(isThrottling) = false /\ at1.(config).(CheckInterval) = second /\
  at1.(lastCheckTime) = unix (109 * second / 10) /\ 0 <= 109 * second / 10 /\
  (unix (109 * second / 10) + 1) * second - 109 * second / 10 = second / 10 /\
  (fst (ShouldThrottle at1 ((unix (109 * second / 10) + 1) * second) 20000 0)).(lastCheckTime)
    = unix ((unix (109 * second / 10) + 1) * second).
Proof.
  intros at1.
  assert (H1 : at1.(isThrottling) = false) by (vm_compute; reflexivity).
  assert (H2 : at1.(config).(CheckInterval) = second) by (vm_compute; reflexivity).
  assert (H3 : at1.(lastCheckTime) = unix (109 * second / 10)) by (vm_compute; reflexivity).
  assert (H4 : 0 <= 109 * second / 10) by (vm_compute; discriminate).
  destruct (check_interval_truncated at1 (109 * second / 10) 20000 0 H1 H2 H3 H4) as [Hd Hl].
  split; [exact H1|]. split; [exact H2|]. split; [exact H3|]. split; [exact H4|].
  split; [rewrite Hd; vm_compute; reflexivity|exact Hl].
Defined.

End Throttler.
