(* ===== verification/Topic.v ===== *)
(** * Topic: fan-out, catch-up and the subscriber set of one topic

    Models [Topic] of src/internal/core/topic.go (lines 1-167).  A topic
    holds [*Subscriber] pointers: the subscribers live in a shared store
    (a [gmap] from pointers to subscriber states) that every topic, every
    snapshot and the subscribe handler's goroutine refer to, so a
    pointer that a publisher has copied into its snapshot still denotes
    the same subscriber after it is unsubscribed.

    A topic calls five operations of its subscribers; the class
    [SubscriberApi] states them with the laws the topic's theorems use,
    and the instance [subscriber_api] discharges them for the subscriber
    of Subscriber.v (with its delivery goroutine's state).

    [Publish] fans out on a snapshot of the map's values.  The source
    starts one goroutine per subscriber and waits for all of them; each
    touches only its own subscriber, so the model sends in the snapshot's
    order and [fanout_order_independent] shows that every order gives the same store
    (or a panic in every order).  [Subscribe] starts the catch-up
    goroutine [sendRecentMessages], whose body is a separate definition
    that the system model runs as its own step. *)

From S2P Require Import Prelude Message RecentCache GoRuntime Subscriber.

(** The subscriber operations a topic relies on: [sub_Send] returns the
    new state and whether [SendMessages] returned an error. *)
Class SubscriberApi (S : Type) := {
  sub_ID : S -> string;
  sub_TenantID : S -> string;
  sub_Send : S -> Message.t -> outcome (S * bool);
  sub_Close : S -> outcome S;
  sub_Start : S -> S;
  sub_IsSlow : S -> bool;
  sub_Send_ids : forall s m s' e, sub_Send s m = Ret (s', e) ->
    sub_ID s' = sub_ID s /\ sub_TenantID s' = sub_TenantID s;
  sub_Close_ids : forall s s', sub_Close s = Ret s' ->
    sub_ID s' = sub_ID s /\ sub_TenantID s' = sub_TenantID s;
  sub_Start_ids : forall s, sub_ID (sub_Start s) = sub_ID s /\ sub_TenantID (sub_Start s) = sub_TenantID s
}.

(** The subscriber of Subscriber.v, paired with the state of its
    delivery goroutine, implements the interface. *)
Definition sub_send (x : Subscriber.t * Subscriber.LoopState) (m : Message.t)
    : outcome ((Subscriber.t * Subscriber.LoopState) * bool) :=
  let! '(s', e) := Subscriber.SendMessages x.1 m in
  Ret ((s', x.2), match e with Some _ => true | None => false end).

Definition sub_close (x : Subscriber.t * Subscriber.LoopState)
    : outcome (Subscriber.t * Subscriber.LoopState) :=
  let! s' := Subscriber.Close x.1 in Ret (s', x.2).

(** [func (s *Subscriber) Start()]: [go s.sendLoop()]. *)
Definition sub_start (x : Subscriber.t * Subscriber.LoopState) : Subscriber.t * Subscriber.LoopState :=
  match x.2 with
  | Subscriber.NotStarted => (x.1, Subscriber.Running)
  | _ => x
  end.

Lemma sub_send_ids x m x' e : sub_send x m = Ret (x', e) ->
  x'.1.(Subscriber.ID) = x.1.(Subscriber.ID) /\ x'.1.(Subscriber.TenantID) = x.1.(Subscriber.TenantID).
Proof.
  unfold sub_send. destruct (Subscriber.SendMessages x.1 m) as [[s' e']|] eqn:He; simpl; [|done].
  intros Hr. invc Hr. apply Subscriber.SendMessages_ids in He. unfold Subscriber.ids in He. simpl. by simplify_eq.
Qed.

Lemma sub_close_ids x x' : sub_close x = Ret x' ->
  x'.1.(Subscriber.ID) = x.1.(Subscriber.ID) /\ x'.1.(Subscriber.TenantID) = x.1.(Subscriber.TenantID).
Proof.
  unfold sub_close. destruct (Subscriber.Close x.1) as [s'|] eqn:He; simpl; [|done].
  intros Hr. invc Hr. apply Subscriber.Close_ids in He. unfold Subscriber.ids in He. simpl. by simplify_eq.
Qed.

Lemma sub_start_ids x :
  (sub_start x).1.(Subscriber.ID) = x.1.(Subscriber.ID) /\
  (sub_start x).1.(Subscriber.TenantID) = x.1.(Subscriber.TenantID).
Proof. unfold sub_start. by destruct x.2. Qed.

#[export] Instance subscriber_api : SubscriberApi (Subscriber.t * Subscriber.LoopState) := {|
  sub_ID x := x.1.(Subscriber.ID);
  sub_TenantID x := x.1.(Subscriber.TenantID);
  sub_Send := sub_send;
  sub_Close := sub_close;
  sub_Start := sub_start;
  sub_IsSlow x := Subscriber.IsSlow x.1;
  sub_Send_ids := sub_send_ids;
  sub_Close_ids := sub_close_ids;
  sub_Start_ids := sub_start_ids
|}.

Module Topic.

(** [type Topic struct] (the [subMutex] is not state: the operations
    below are the critical sections it delimits). *)
Record t : Type := mk {
  name : string;
  tenantID : string;
  subscribers : gmap string positive;
  recentCache : RecentCache.t;
  messagesPublished : Z;
  totalSubscribers : Z;
  createdAt : Z
}.

(** The errors of [Subscribe] and [Unsubscribe]. *)
Inductive error : Type :=
| ErrTenantMismatch (subID subTenant topicTenant : string)
| ErrNotFound (subID : string).

(** [func NewTopic(name, tenantID string, cahcheSize int)] at clock [now]. *)
Definition NewTopic (name tenantID : string) (cahcheSize now : Z) : outcome t :=
  let! c := RecentCache.NewRecentMessageCache cahcheSize in
  Ret (mk name tenantID ∅ c 0 0 now).

(** [func (t *Topic) getSubscribersSnapshot() []*Subscriber]: the values
    of the map, in the map's iteration order. *)
Definition getSubscribersSnapshot (tp : t) : list positive := (map_to_list tp.(subscribers)).*2.

Section WithApi.
Context {Sub : Type} `{!SubscriberApi Sub}.

(** The fan-out of [Publish]: [s.SendMessages(msg)] for each pointer of
    the snapshot; errors are printed and ignored, a panic aborts. *)
Fixpoint fanout (h : gmap positive Sub) (refs : list positive) (msg : Message.t)
    : outcome (gmap positive Sub) :=
  match refs with
  | [] => Ret h
  | r :: rs =>
      match h !! r with
      | Some s => let! '(s', _) := sub_Send s msg in fanout (<[r := s']> h) rs msg
      | None => Panic "invalid memory address or nil pointer dereference"
      end
  end.

(** [func (t *Topic) Publish(msg Message) error]: always returns nil
    when it returns. *)
Definition Publish (h : gmap positive Sub) (tp : t) (msg : Message.t)
    : outcome (gmap positive Sub * t) :=
  let! c := RecentCache.Add tp.(recentCache) msg in
  let tp' := mk tp.(name) tp.(tenantID) tp.(subscribers) c (tp.(messagesPublished) + 1)
                tp.(totalSubscribers) tp.(createdAt) in
  let snap := getSubscribersSnapshot tp' in
  match snap with
  | [] => Ret (h, tp')
  | _ => let! h' := fanout h snap msg in Ret (h', tp')
  end.

(** The loop of [sendRecentMessages]: send each message in order and
    return at the first error. *)
Fixpoint send_each (h : gmap positive Sub) (r : positive) (msgs : list Message.t)
    : outcome (gmap positive Sub) :=
  match msgs with
  | [] => Ret h
  | m :: ms =>
      match h !! r with
      | Some s =>
          let! '(s', err) := sub_Send s m in
          if err then Ret (<[r := s']> h) else send_each (<[r := s']> h) r ms
      | None => Panic "invalid memory address or nil pointer dereference"
      end
  end.

(** [func (t *Topic) sendRecentMessages(sub *Subscriber)]: the body of
    the catch-up goroutine. *)
Definition sendRecentMessages (h : gmap positive Sub) (tp : t) (r : positive)
    : outcome (gmap positive Sub) :=
  let! recent := RecentCache.GetLast tp.(recentCache) 50 in
  send_each h r recent.

(** [func (t *Topic) Subscribe(sub *Subscriber) error]: the tenant check,
    the insertion under the write lock, the count, and [sub.Start()]; the
    catch-up goroutine it spawns is [sendRecentMessages]. *)
Definition Subscribe (h : gmap positive Sub) (tp : t) (r : positive)
    : outcome (gmap positive Sub * t * option error) :=
  match h !! r with
  | None => Panic "invalid memory address or nil pointer dereference"
  | Some s =>
      if decide (tp.(tenantID) <> sub_TenantID s) then
        Ret (h, tp, Some (ErrTenantMismatch (sub_ID s) (sub_TenantID s) tp.(tenantID)))
      else
        let tp' := mk tp.(name) tp.(tenantID) (<[sub_ID s := r]> tp.(subscribers)) tp.(recentCache)
                      tp.(messagesPublished) (tp.(totalSubscribers) + 1) tp.(createdAt) in
        Ret (<[r := sub_Start s]> h, tp', None)
  end.

(** [func (t *Topic) Unsubscribe(subscriberID string) error]: remove
    under the write lock, then close. *)
Definition Unsubscribe (h : gmap positive Sub) (tp : t) (subscriberID : string)
    : outcome (gmap positive Sub * t * option error) :=
  match tp.(subscribers) !! subscriberID with
  | None => Ret (h, tp, Some (ErrNotFound subscriberID))
  | Some r =>
      let tp' := mk tp.(name) tp.(tenantID) (delete subscriberID tp.(subscribers)) tp.(recentCache)
                    tp.(messagesPublished) tp.(totalSubscribers) tp.(createdAt) in
      match h !! r with
      | None => Panic "invalid memory address or nil pointer dereference"
      | Some s => let! s' := sub_Close s in Ret (<[r := s']> h, tp', None)
      end
  end.

(** [GetSubscriberCount] and [GetSlowSubscriberCount]. *)
Definition GetSubscriberCount (tp : t) : Z := Z.of_nat (size tp.(subscribers)).

Definition GetSlowSubscriberCount (h : gmap positive Sub) (tp : t) : Z :=
  Z.of_nat (length (filter (fun r => default false (sub_IsSlow <$> h !! r) = true)
                           (getSubscribersSnapshot tp))).

End WithApi.

(** [GetTenantID], [GetName] and [GetMetrics]. *)
Definition GetTenantID (tp : t) : string := tp.(tenantID).
Definition GetName (tp : t) : string := tp.(name).

Definition GetMetrics (tp : t) : string * string * Z * Z * Z * Z :=
  (tp.(name), tp.(tenantID), tp.(messagesPublished), Z.of_nat (size tp.(subscribers)),
   tp.(totalSubscribers), tp.(createdAt)).

(** ** Fan-out *)

Section FanoutLemmas.
Context {Sub : Type} `{!SubscriberApi Sub}.
Implicit Types (h : gmap positive Sub) (refs : list positive).

(** Sending to two different subscribers commutes. *)
Lemma fanout_swap h x y l msg :
  x <> y -> fanout h (y :: x :: l) msg ≈ₒ fanout h (x :: y :: l) msg.
Proof.
  intros Hxy. simpl.
  destruct (h !! y) as [sy|] eqn:Hy; destruct (h !! x) as [sx|] eqn:Hx; simpl.
  - destruct (sub_Send sy msg) as [[sy' ey]|] eqn:Ey; destruct (sub_Send sx msg) as [[sx' ex]|] eqn:Ex;
      simpl; rewrite ?lookup_insert_ne, ?Hx, ?Hy by congruence; simpl; rewrite ?Ex, ?Ey; simpl; try done.
    rewrite insert_insert_ne by congruence. reflexivity.
  - destruct (sub_Send sy msg) as [[sy' ey]|]; simpl; [|done].
    rewrite lookup_insert_ne, Hx by congruence. done.
  - destruct (sub_Send sx msg) as [[sx' ex]|]; simpl; [|done].
    rewrite lookup_insert_ne, Hy by congruence. done.
  - done.
Qed.

Lemma fanout_perm_gen refs refs' msg :
  refs ≡ₚ refs' -> NoDup refs -> forall h, fanout h refs msg ≈ₒ fanout h refs' msg.
Proof.
  induction 1 as [|x l l' Hp IH|x y l|l l' l'' Hp1 IH1 Hp2 IH2]; intros Hnd h.
  - reflexivity.
  - apply NoDup_cons in Hnd as [_ Hnd]. simpl. destruct (h !! x); [|done].
    destruct (sub_Send _ msg) as [[s' e]|]; simpl; [by apply IH|done].
  - apply NoDup_cons in Hnd as [Hy Hnd]. apply fanout_swap. intros ->. apply Hy. by left.
  - etransitivity; [by apply IH1|]. apply IH2. by rewrite <- Hp1.
Qed.

(** What a fan-out that returns did: every pointer of the snapshot got
    exactly one [SendMessages], every other subscriber is untouched. *)
Lemma fanout_spec h refs msg h' :
  NoDup refs -> fanout h refs msg = Ret h' ->
  (forall r, r ∈ refs -> exists s s' e, h !! r = Some s /\ sub_Send s msg = Ret (s', e) /\ h' !! r = Some s') /\
  (forall r, r ∉ refs -> h' !! r = h !! r).
Proof.
  revert h. induction refs as [|x l IH]; intros h Hnd Hf.
  - simpl in Hf. invc Hf. split; [intros r Hr; set_solver|done].
  - apply NoDup_cons in Hnd as [Hx Hnd]. simpl in Hf.
    destruct (h !! x) as [s|] eqn:Hs; [|done].
    destruct (sub_Send s msg) as [[s' e]|] eqn:He; simpl in Hf; [|done].
    destruct (IH _ Hnd Hf) as [Hin Hout]. split.
    + intros r Hr. apply elem_of_cons in Hr as [->|Hr].
      * exists s, s', e. split; [done|]. split; [done|]. rewrite Hout by done. apply lookup_insert_eq.
      * destruct (Hin r Hr) as (s1 & s1' & e1 & H1 & H2 & H3). exists s1, s1', e1.
        rewrite lookup_insert_ne in H1 by (intros ->; contradiction). done.
    + intros r Hr. rewrite Hout by set_solver. apply lookup_insert_ne. set_solver.
Qed.

(** A fan-out keeps the identity of every subscriber in the store. *)
Lemma fanout_ids h refs msg h' :
  fanout h refs msg = Ret h' ->
  forall r s, h !! r = Some s -> exists s', h' !! r = Some s' /\ sub_ID s' = sub_ID s /\
    sub_TenantID s' = sub_TenantID s.
Proof.
  revert h. induction refs as [|x l IH]; intros h Hf r s Hr; simpl in Hf.
  - invc Hf. eauto.
  - destruct (h !! x) as [sx|] eqn:Hx; [|done].
    destruct (sub_Send sx msg) as [[sx' e]|] eqn:He; simpl in Hf; [|done].
    destruct (decide (r = x)) as [->|Hne].
    + rewrite Hx in Hr. invc Hr. destruct (IH _ Hf x sx') as (s2 & H2 & Hi2 & Ht2); [apply lookup_insert_eq|].
      destruct (sub_Send_ids _ _ _ _ He). exists s2. split; [done|]. split; congruence.
    + apply (IH _ Hf r s). by rewrite lookup_insert_ne.
Qed.

End FanoutLemmas.

(** ** The subscriber set *)

Section TopicLemmas.
Context {Sub : Type} `{!SubscriberApi Sub}.
Implicit Types (h : gmap positive Sub) (tp : t).

(** Every entry of the map points into the store, at a subscriber whose
    id is the key and whose tenant is the topic's. *)
Definition wf h tp : Prop :=
  forall id r, tp.(subscribers) !! id = Some r ->
    exists s, h !! r = Some s /\ sub_ID s = id /\ sub_TenantID s = tp.(tenantID).

Lemma elem_of_snapshot tp r :
  r ∈ getSubscribersSnapshot tp <-> exists id, tp.(subscribers) !! id = Some r.
Proof.
  unfold getSubscribersSnapshot. rewrite list_elem_of_fmap. split.
  - intros ([id r'] & -> & Hin). apply elem_of_map_to_list in Hin. eauto.
  - intros (id & Hid). exists (id, r). split; [done|]. by apply elem_of_map_to_list.
Qed.

Lemma snapshot_NoDup h tp : wf h tp -> NoDup (getSubscribersSnapshot tp).
Proof.
  intros Hwf. apply NoDup_fmap_2_strong; [|apply NoDup_map_to_list].
  intros [k1 r1] [k2 r2] H1 H2 Heq. simpl in Heq. subst r2.
  apply elem_of_map_to_list in H1, H2.
  destruct (Hwf _ _ H1) as (s1 & Hs1 & Hid1 & _). destruct (Hwf _ _ H2) as (s2 & Hs2 & Hid2 & _).
  rewrite Hs1 in Hs2. invc Hs2. by subst.
Qed.

(** The store after a step keeps every subscriber, with its identity. *)
Definition keeps_ids h h' : Prop :=
  forall r s, h !! r = Some s -> exists s', h' !! r = Some s' /\ sub_ID s' = sub_ID s /\
    sub_TenantID s' = sub_TenantID s.

Lemma wf_keeps_ids h h' tp : wf h tp -> keeps_ids h h' -> wf h' tp.
Proof.
  intros Hwf Hk id r Hid. destruct (Hwf _ _ Hid) as (s & Hs & Hi & Ht).
  destruct (Hk _ _ Hs) as (s' & Hs' & Hi' & Ht'). exists s'. split; [done|]. split; congruence.
Qed.

Lemma keeps_ids_insert h r s s' :
  h !! r = Some s -> sub_ID s' = sub_ID s -> sub_TenantID s' = sub_TenantID s ->
  keeps_ids h (<[r := s']> h).
Proof.
  intros Hs Hi Ht r' s0 Hr'. destruct (decide (r' = r)) as [->|Hne].
  - rewrite Hs in Hr'. invc Hr'. exists s'. by rewrite lookup_insert_eq.
  - exists s0. by rewrite lookup_insert_ne.
Qed.

Lemma keeps_ids_fresh h r s : h !! r = None -> keeps_ids h (<[r := s]> h).
Proof. intros Hr r' s0 H0. exists s0. rewrite lookup_insert_ne; [done|]. intros ->. congruence. Qed.

Lemma send_each_ids h r msgs h' : send_each h r msgs = Ret h' -> keeps_ids h h'.
Proof.
  revert h. induction msgs as [|m ms IH]; intros h Hs; simpl in Hs.
  - invc Hs. intros r' s Hr'. eauto.
  - destruct (h !! r) as [s|] eqn:Hr; [|done].
    destruct (sub_Send s m) as [[s' err]|] eqn:He; simpl in Hs; [|done].
    destruct (sub_Send_ids _ _ _ _ He) as [Hi Ht].
    assert (Hk := keeps_ids_insert h r s s' Hr Hi Ht).
    destruct err; [invc Hs; done|].
    intros r' s0 H0. destruct (Hk _ _ H0) as (s1 & H1 & Hi1 & Ht1).
    destruct (IH _ Hs _ _ H1) as (s2 & H2 & Hi2 & Ht2). exists s2. split; [done|]. split; congruence.
Qed.

Lemma Publish_tp h tp msg h' tp' :
  Publish h tp msg = Ret (h', tp') ->
  tp'.(subscribers) = tp.(subscribers) /\ tp'.(tenantID) = tp.(tenantID) /\
  tp'.(messagesPublished) = tp.(messagesPublished) + 1 /\
  RecentCache.Add tp.(recentCache) msg = Ret tp'.(recentCache) /\
  (getSubscribersSnapshot tp = [] /\ h' = h \/ fanout h (getSubscribersSnapshot tp) msg = Ret h').
Proof.
  unfold Publish, getSubscribersSnapshot. destruct (RecentCache.Add _ _) as [c|]; simpl; [|done].
  destruct ((map_to_list (subscribers tp)).*2) as [|r rs] eqn:Hsnap.
  - intros Hr. invc Hr. simpl. repeat split; auto.
  - destruct (fanout h (r :: rs) msg) as [h1|] eqn:Hf; simpl; [|done]. intros Hr. invc Hr.
    simpl. repeat split; auto.
Qed.

Lemma wf_ext h tp tp' :
  tp'.(subscribers) = tp.(subscribers) -> tp'.(tenantID) = tp.(tenantID) -> wf h tp -> wf h tp'.
Proof. intros Hs Ht Hwf id r Hid. rewrite Hs in Hid. rewrite Ht. by apply Hwf. Qed.

(** The invariant in a decidable form: a map whose every entry satisfies
    [wf_at]. *)
Definition wf_at h tp (id : string) (r : positive) : Prop :=
  match h !! r with
  | Some s => sub_ID s = id /\ sub_TenantID s = tp.(tenantID)
  | None => False
  end.

Lemma wf_alt h tp : wf h tp <-> map_Forall (wf_at h tp) tp.(subscribers).
Proof.
  split.
  - intros Hwf id r Hid. destruct (Hwf _ _ Hid) as (s & Hs & Hi & Ht). unfold wf_at. by rewrite Hs.
  - intros Hf id r Hid. specialize (Hf _ _ Hid). unfold wf_at in Hf.
    destruct (h !! r) as [s|]; [|done]. eauto.
Qed.

#[global] Instance wf_at_dec h tp id r : Decision (wf_at h tp id r).
Proof. unfold wf_at. destruct (h !! r); apply _. Defined.

#[global] Instance wf_dec h tp : Decision (wf h tp).
Proof.
  destruct (decide (map_Forall (wf_at h tp) tp.(subscribers))) as [H|H]; [left|right]; by rewrite wf_alt.
Defined.

Lemma Publish_keeps h tp msg h' tp' : Publish h tp msg = Ret (h', tp') -> keeps_ids h h'.
Proof.
  intros HP. destruct (Publish_tp _ _ _ _ _ HP) as (_ & _ & _ & _ & [[_ ->]|Hf]).
  - intros r s Hr. eauto.
  - exact (fanout_ids _ _ _ _ Hf).
Qed.

(** A publish touches only the subscribers of the topic. *)
Lemma Publish_frame h tp msg h' tp' :
  wf h tp -> Publish h tp msg = Ret (h', tp') ->
  forall r, (forall id, tp.(subscribers) !! id <> Some r) -> h' !! r = h !! r.
Proof.
  intros Hwf HP r Hr. destruct (Publish_tp _ _ _ _ _ HP) as (_ & _ & _ & _ & [[_ ->]|Hf]); [done|].
  apply (fanout_spec _ _ _ _ (snapshot_NoDup _ _ Hwf) Hf). rewrite elem_of_snapshot.
  intros [id Hid]. by apply (Hr id).
Qed.

Lemma Subscribe_keeps h tp r h' tp' e : Subscribe h tp r = Ret (h', tp', e) ->
  keeps_ids h h' /\ tp'.(tenantID) = tp.(tenantID) /\ tp'.(name) = tp.(name).
Proof.
  unfold Subscribe. destruct (h !! r) as [s|] eqn:Hr; [|done].
  destruct (decide _); intros HS; invc HS; [split; [intros ???; eauto|done]|].
  destruct (sub_Start_ids s) as [Hi Ht]. split; [|done]. exact (keeps_ids_insert _ _ _ _ Hr Hi Ht).
Qed.

Lemma Unsubscribe_keeps h tp id h' tp' e : Unsubscribe h tp id = Ret (h', tp', e) ->
  keeps_ids h h' /\ tp'.(tenantID) = tp.(tenantID) /\ tp'.(name) = tp.(name).
Proof.
  unfold Unsubscribe. destruct (subscribers tp !! id) as [r|]; [|intros HU; invc HU; split; [intros ???; eauto|done]].
  destruct (h !! r) as [s|] eqn:Hr; [|done]. destruct (sub_Close s) as [s'|] eqn:Hc; simpl; [|done].
  intros HU. invc HU. destruct (sub_Close_ids _ _ Hc) as [Hi Ht]. split; [|done].
  exact (keeps_ids_insert _ _ _ _ Hr Hi Ht).
Qed.

Lemma Publish_name h tp msg h' tp' :
  Publish h tp msg = Ret (h', tp') -> tp'.(name) = tp.(name).
Proof.
  unfold Publish. destruct (RecentCache.Add _ _) as [c|]; simpl; [|done].
  destruct (getSubscribersSnapshot _); [intros Hr; by invc Hr|].
  destruct (fanout _ _ _); simpl; [|done]. intros Hr. by invc Hr.
Qed.

(** A subscriber of the topic's tenant is inserted under its ID. *)
Lemma Subscribe_ok h tp r s :
  h !! r = Some s -> tp.(tenantID) = sub_TenantID s ->
  exists tp', Subscribe h tp r = Ret (<[r := sub_Start s]> h, tp', None) /\
    tp'.(subscribers) = <[sub_ID s := r]> tp.(subscribers) /\
    tp'.(tenantID) = tp.(tenantID) /\ tp'.(name) = tp.(name).
Proof.
  intros Hr Ht. unfold Subscribe. rewrite Hr, decide_False by tauto. eauto.
Qed.

Lemma Unsubscribe_cases h tp id h' tp' e :
  Unsubscribe h tp id = Ret (h', tp', e) ->
  (tp.(subscribers) !! id = None /\ h' = h /\ tp' = tp /\ e = Some (ErrNotFound id)) \/
  (exists r, tp.(subscribers) !! id = Some r /\ tp'.(subscribers) = delete id tp.(subscribers) /\
     tp'.(tenantID) = tp.(tenantID) /\ tp'.(name) = tp.(name) /\ e = None).
Proof.
  unfold Unsubscribe. destruct (subscribers tp !! id) as [r|] eqn:Hid; [|intros HU; invc HU; by left].
  destruct (h !! r) as [s|]; [|done]. destruct (sub_Close s); simpl; [|done].
  intros HU. invc HU. right. eauto 10.
Qed.

(** A publish whose first send panics panics. *)
Lemma Publish_first_panics h tp msg r rs x why :
  getSubscribersSnapshot tp = r :: rs -> h !! r = Some x -> sub_Send x msg = Panic why ->
  is_panic (Publish h tp msg) = true.
Proof.
  intros Hsnap Hx Hs. unfold Publish. destruct (RecentCache.Add _ _); simpl; [|done].
  unfold getSubscribersSnapshot in *. simpl. rewrite Hsnap. simpl. by rewrite Hx, Hs.
Qed.

Lemma Subscribe_result h tp r h' tp' e :
  Subscribe h tp r = Ret (h', tp', e) ->
  tp'.(recentCache) = tp.(recentCache) /\ tp'.(tenantID) = tp.(tenantID) /\ tp'.(name) = tp.(name) /\
  exists s, h !! r = Some s /\
    ((e = None /\ sub_TenantID s = tp.(tenantID) /\ h' = <[r := sub_Start s]> h /\
      tp'.(subscribers) = <[sub_ID s := r]> tp.(subscribers)) \/
     (e <> None /\ h' = h /\ tp' = tp)).
Proof.
  unfold Subscribe. destruct (h !! r) as [s|] eqn:Hr; [|done].
  destruct (decide (tenantID tp <> sub_TenantID s)) as [Hne|Heq]; intros HS; invc HS.
  - split; [done|]. split; [done|]. split; [done|]. exists s. split; [done|]. by right.
  - apply dec_stable in Heq. simpl. split; [done|]. split; [done|]. split; [done|].
    exists s. split; [done|]. left. auto.
Qed.

Lemma Unsubscribe_cache h tp id h' tp' e :
  Unsubscribe h tp id = Ret (h', tp', e) -> tp'.(recentCache) = tp.(recentCache).
Proof.
  unfold Unsubscribe. destruct (subscribers tp !! id) as [r|]; [|intros HU; by invc HU].
  destruct (h !! r); [|done]. destruct (sub_Close _); simpl; [|done]. intros HU. by invc HU.
Qed.

Lemma Publish_wf h tp msg h' tp' : wf h tp -> Publish h tp msg = Ret (h', tp') -> wf h' tp'.
Proof.
  intros Hwf HP. destruct (Publish_tp _ _ _ _ _ HP) as (Hs & Ht & _ & _ & Hf).
  apply (wf_ext _ tp); [done|done|]. destruct Hf as [[_ ->]|Hf]; [done|].
  exact (wf_keeps_ids _ _ _ Hwf (fanout_ids _ _ _ _ Hf)).
Qed.

Lemma Subscribe_wf h tp r h' tp' e : wf h tp -> Subscribe h tp r = Ret (h', tp', e) -> wf h' tp'.
Proof.
  intros Hwf. unfold Subscribe. destruct (h !! r) as [s|] eqn:Hr; [|done].
  destruct (decide (tenantID tp <> sub_TenantID s)) as [_|Hten]; intros HS; invc HS; [done|].
  apply dec_stable in Hten. destruct (sub_Start_ids s) as [Hi Ht].
  intros id r' Hid; simpl in Hid |- *. destruct (decide (id = sub_ID s)) as [->|Hne].
  - rewrite lookup_insert_eq in Hid. invc Hid. exists (sub_Start s). rewrite lookup_insert_eq.
    split; [done|]. split; congruence.
  - rewrite lookup_insert_ne in Hid by done.
    exact (wf_keeps_ids _ _ _ Hwf (keeps_ids_insert _ _ _ _ Hr Hi Ht) id r' Hid).
Qed.

Lemma Unsubscribe_wf h tp id h' tp' e : wf h tp -> Unsubscribe h tp id = Ret (h', tp', e) -> wf h' tp'.
Proof.
  intros Hwf. unfold Unsubscribe. destruct (subscribers tp !! id) as [r|] eqn:Hid; [|intros HU; by invc HU].
  destruct (h !! r) as [s|] eqn:Hr; [|done]. destruct (sub_Close s) as [s'|] eqn:Hc; simpl; [|done].
  intros HU. invc HU. destruct (sub_Close_ids _ _ Hc) as [Hi Ht].
  intros id' r' Hid'. simpl in Hid'. apply lookup_delete_Some in Hid' as [_ Hid'].
  exact (wf_keeps_ids _ _ _ Hwf (keeps_ids_insert _ _ _ _ Hr Hi Ht) id' r' Hid').
Qed.

Lemma sendRecentMessages_wf h tp r h' : wf h tp -> sendRecentMessages h tp r = Ret h' -> wf h' tp.
Proof.
  intros Hwf. unfold sendRecentMessages. destruct (RecentCache.GetLast _ _) as [recent|]; simpl; [|done].
  intros Hs. exact (wf_keeps_ids _ _ _ Hwf (send_each_ids _ _ _ _ Hs)).
Qed.

(** the topic invariant holds after every operation of the topic: the
    map keys each subscriber by its own ID and holds only subscribers of
    the topic's tenant, which the tenant check of [Subscribe] ensures. *)
Theorem topic_wf_preserved h tp :
  wf h tp ->
  (forall msg h' tp', Publish h tp msg = Ret (h', tp') -> wf h' tp') /\
  (forall r h' tp' e, Subscribe h tp r = Ret (h', tp', e) -> wf h' tp') /\
  (forall id h' tp' e, Unsubscribe h tp id = Ret (h', tp', e) -> wf h' tp') /\
  (forall r h', sendRecentMessages h tp r = Ret h' -> wf h' tp).
Proof.
  intros Hwf. split; [|split; [|split]]; intros *.
  - by apply Publish_wf. - by apply Subscribe_wf. - by apply Unsubscribe_wf. - by apply sendRecentMessages_wf.
Qed.

(** Every subscriber of the topic gets one [SendMessages msg], whose
    result is stored back at its pointer. *)
Lemma Publish_sends h tp msg h' tp' :
  wf h tp -> Publish h tp msg = Ret (h', tp') ->
  forall id r, tp.(subscribers) !! id = Some r ->
    exists s s' e, h !! r = Some s /\ sub_Send s msg = Ret (s', e) /\ h' !! r = Some s'.
Proof.
  intros Hwf HP id r Hid. destruct (Publish_tp _ _ _ _ _ HP) as (_ & _ & _ & _ & [[Hnil ->]|Hf]).
  - exfalso. assert (Hin : r ∈ getSubscribersSnapshot tp) by (apply elem_of_snapshot; eauto).
    rewrite Hnil in Hin. set_solver.
  - destruct (fanout_spec _ _ _ _ (snapshot_NoDup _ _ Hwf) Hf) as [Hin _].
    apply Hin, elem_of_snapshot. eauto.
Qed.

(** C8: what [Publish] does when it returns: the message is added to the
    cache, the count grows by one, the subscriber map is unchanged, every
    subscriber of the topic receives exactly one [SendMessages msg], and
    no other subscriber of the store is touched. *)
Theorem Publish_delivers h tp msg h' tp' :
  wf h tp -> Publish h tp msg = Ret (h', tp') ->
  RecentCache.Add tp.(recentCache) msg = Ret tp'.(recentCache) /\
  tp'.(messagesPublished) = tp.(messagesPublished) + 1 /\ tp'.(subscribers) = tp.(subscribers) /\
  (forall id r, tp.(subscribers) !! id = Some r ->
     exists s s' e, h !! r = Some s /\ sub_Send s msg = Ret (s', e) /\ h' !! r = Some s') /\
  (forall r, (forall id, tp.(subscribers) !! id <> Some r) -> h' !! r = h !! r).
Proof.
  intros Hwf HP. destruct (Publish_tp _ _ _ _ _ HP) as (Hs & _ & Hn & Hc & _).
  split; [done|]. split; [done|]. split; [done|].
  split; [exact (Publish_sends _ _ _ _ _ Hwf HP)|exact (Publish_frame _ _ _ _ _ Hwf HP)].
Qed.

(** C23: the order in which the goroutines of [Publish] run does not
    matter: sending along any permutation of the snapshot gives the same
    store, or panics whichever order is taken. *)
Theorem fanout_order_independent h tp msg refs :
  wf h tp -> refs ≡ₚ getSubscribersSnapshot tp ->
  fanout h refs msg ≈ₒ fanout h (getSubscribersSnapshot tp) msg.
Proof.
  intros Hwf Hp. apply fanout_perm_gen; [done|]. rewrite Hp. by apply (snapshot_NoDup h).
Qed.

(** C9: the catch-up goroutine sends the last [min 50 size] messages of
    the topic's history, oldest first, stopping at the first error. *)
Theorem sendRecentMessages_refines h tp r hist :
  RecentCache.repr tp.(recentCache) hist ->
  sendRecentMessages h tp r =
    send_each h r (lastn (Nat.min 50 (Z.to_nat tp.(recentCache).(RecentCache.size))) hist).
Proof.
  intros Hr. unfold sendRecentMessages. rewrite (RecentCache.GetLast_repr _ hist 50 Hr) by lia.
  simpl. by rewrite lastn_lastn.
Qed.

(** [Subscribe] of a subscriber of another tenant returns the
    tenant-mismatch error and changes nothing. *)
Theorem Subscribe_tenant_mismatch h tp r s :
  h !! r = Some s -> sub_TenantID s <> tp.(tenantID) ->
  Subscribe h tp r = Ret (h, tp, Some (ErrTenantMismatch (sub_ID s) (sub_TenantID s) tp.(tenantID))).
Proof. intros Hr Hne. unfold Subscribe. rewrite Hr. rewrite decide_True by congruence. done. Qed.

(** C25: [Unsubscribe] of a subscribed ID closes that subscriber and removes
    it; a second [Unsubscribe] of the same ID returns the not-found error
    and changes nothing. *)
Theorem Unsubscribe_removes h tp id r s s' :
  tp.(subscribers) !! id = Some r -> h !! r = Some s -> sub_Close s = Ret s' ->
  exists tp', Unsubscribe h tp id = Ret (<[r := s']> h, tp', None) /\
    tp'.(subscribers) = delete id tp.(subscribers) /\
    Unsubscribe (<[r := s']> h) tp' id = Ret (<[r := s']> h, tp', Some (ErrNotFound id)).
Proof.
  intros Hid Hr Hc. unfold Unsubscribe. rewrite Hid, Hr, Hc. simpl.
  eexists. split; [reflexivity|]. split; [done|]. simpl. by rewrite lookup_delete_eq.
Qed.

End TopicLemmas.

(** C35: A second [Subscribe] with an ID already in the map replaces the map
    entry without closing the subscriber it pointed to: that subscriber
    is no longer reachable from the topic, is never closed by the topic,
    and stays in the store as it was. *)
Lemma Subscribe_orphans_duplicate `{!SubscriberApi Sub} (h : gmap positive Sub) tp r s r0 h' tp' :
  wf h tp -> h !! r = Some s -> tp.(subscribers) !! sub_ID s = Some r0 -> r0 <> r ->
  Subscribe h tp r = Ret (h', tp', None) ->
  (forall id, tp'.(subscribers) !! id <> Some r0) /\ h' !! r0 = h !! r0.
Proof.
  intros Hwf Hr Hr0 Hne. unfold Subscribe. rewrite Hr.
  destruct (decide (tenantID tp <> sub_TenantID s)); intros HS; invc HS. simpl. split.
  - intros id Hid. destruct (decide (id = sub_ID s)) as [->|Hid'].
    + rewrite lookup_insert_eq in Hid. congruence.
    + rewrite lookup_insert_ne in Hid by done.
      destruct (Hwf _ _ Hid) as (s1 & Hs1 & Hi1 & _). destruct (Hwf _ _ Hr0) as (s2 & Hs2 & Hi2 & _).
      congruence.
  - by rewrite lookup_insert_ne.
Qed.

(** ** Predicates of the store that the topic operations preserve

    A property [P r x] of the subscriber [x] at pointer [r] that every
    [SendMessages], [Close] and [Start] preserves is preserved by the
    operations of a topic; System.v instantiates [P] with the
    subscriber invariant and the tenant and topic of what it holds. *)

Section Preserve.
Context {Sub : Type} `{!SubscriberApi Sub}.
Variable P : positive -> Sub -> Prop.
Implicit Types (h : gmap positive Sub).

Definition store_P h : Prop := forall r x, h !! r = Some x -> P r x.

Lemma store_P_insert h r x : store_P h -> P r x -> store_P (<[r := x]> h).
Proof.
  intros Hh Hx r' x' Hr'. destruct (decide (r' = r)) as [->|Hne].
  - rewrite lookup_insert_eq in Hr'. by invc Hr'.
  - rewrite lookup_insert_ne in Hr' by done. by apply Hh.
Qed.

Lemma fanout_preserves h refs msg h' :
  (forall r x x' e, r ∈ refs -> P r x -> sub_Send x msg = Ret (x', e) -> P r x') ->
  store_P h -> fanout h refs msg = Ret h' -> store_P h'.
Proof.
  revert h. induction refs as [|r rs IH]; intros h HP Hh Hf; simpl in Hf; [by invc Hf|].
  destruct (h !! r) as [x|] eqn:Hr; [|done]. destruct (sub_Send x msg) as [[x' e]|] eqn:Hs; simpl in Hf; [|done].
  apply (IH (<[r := x']> h)); [intros; eapply HP; eauto; set_solver| |exact Hf].
  apply store_P_insert; [done|]. eapply HP; [set_solver|by apply Hh|exact Hs].
Qed.

Lemma send_each_preserves h r msgs h' :
  (forall m x x' e, m ∈ msgs -> P r x -> sub_Send x m = Ret (x', e) -> P r x') ->
  store_P h -> send_each h r msgs = Ret h' -> store_P h'.
Proof.
  revert h. induction msgs as [|m ms IH]; intros h HP Hh Hs; simpl in Hs; [by invc Hs|].
  destruct (h !! r) as [x|] eqn:Hr; [|done]. destruct (sub_Send x m) as [[x' e]|] eqn:He; simpl in Hs; [|done].
  assert (Hh' : store_P (<[r := x']> h)).
  { apply store_P_insert; [done|]. apply (HP m x x' e); [set_solver|by apply Hh|exact He]. }
  destruct e; [by invc Hs|]. apply (IH _ (fun m' x0 x0' e0 Hm => HP m' x0 x0' e0 ltac:(set_solver)) Hh' Hs).
Qed.

Lemma Publish_preserves h tp msg h' tp' :
  (forall r x x' e, r ∈ getSubscribersSnapshot tp -> P r x -> sub_Send x msg = Ret (x', e) -> P r x') ->
  store_P h -> Publish h tp msg = Ret (h', tp') -> store_P h'.
Proof.
  intros HP Hh HPub. destruct (Publish_tp _ _ _ _ _ HPub) as (_ & _ & _ & _ & [[_ ->]|Hf]); [done|].
  exact (fanout_preserves _ _ _ _ HP Hh Hf).
Qed.

Lemma Subscribe_preserves h tp r h' tp' e :
  (forall x, h !! r = Some x -> P r x -> P r (sub_Start x)) ->
  store_P h -> Subscribe h tp r = Ret (h', tp', e) -> store_P h'.
Proof.
  intros HP Hh. unfold Subscribe. destruct (h !! r) as [x|] eqn:Hr; [|done].
  destruct (decide _); intros HS; invc HS; [done|].
  apply store_P_insert; [done|]. apply HP; [done|by apply Hh].
Qed.

Lemma Unsubscribe_preserves h tp id h' tp' e :
  (forall r x x', P r x -> sub_Close x = Ret x' -> P r x') ->
  store_P h -> Unsubscribe h tp id = Ret (h', tp', e) -> store_P h'.
Proof.
  intros HP Hh. unfold Unsubscribe. destruct (subscribers tp !! id) as [r|]; [|intros HU; by invc HU].
  destruct (h !! r) as [x|] eqn:Hr; [|done]. destruct (sub_Close x) as [x'|] eqn:Hc; simpl; [|done].
  intros HU. invc HU. apply store_P_insert; [done|]. eapply HP; [by apply Hh|exact Hc].
Qed.

End Preserve.

(** ** Concrete topics *)

Definition sub_a : Subscriber.t * Subscriber.LoopState := (Subscriber.sub0, Subscriber.Running).
Definition sub_b : Subscriber.t * Subscriber.LoopState :=
  (Subscriber.mk "sub-2" "default-tenant" "t1" (Chan.mk [] 2 false) Conn.fresh false
     Subscriber.DROP_OLDEST 0 0 0 0 false false, Subscriber.Running).
Definition sub_other : Subscriber.t * Subscriber.LoopState :=
  (Subscriber.mk "sub-3" "other-tenant" "t1" (Chan.mk [] 2 false) Conn.fresh false
     Subscriber.DROP_OLDEST 0 0 0 0 false false, Subscriber.NotStarted).
Definition store0 : gmap positive (Subscriber.t * Subscriber.LoopState) :=
  <[3%positive := sub_other]> (<[2%positive := sub_b]> {[1%positive := sub_a]}).
Definition cache0 : RecentCache.t := RecentCache.mk (replicate 100 Message.zero) 100 0 0.
Definition topic0 : t := mk "t1" "default-tenant" {["sub-1" := 1%positive]} cache0 0 1 0.
Definition topic2 : t :=
  mk "t1" "default-tenant" (<["sub-2" := 2%positive]> {["sub-1" := 1%positive]}) cache0 0 2 0.

Lemma topic_wf_preserved_witness :
  wf store0 topic0 /\
  (forall msg h' tp', Publish store0 topic0 msg = Ret (h', tp') -> wf h' tp') /\
  (forall r h' tp' e, Subscribe store0 topic0 r = Ret (h', tp', e) -> wf h' tp') /\
  (forall id h' tp' e, Unsubscribe store0 topic0 id = Ret (h', tp', e) -> wf h' tp') /\
  (forall r h', sendRecentMessages store0 topic0 r = Ret h' -> wf h' topic0).
Proof.
  assert (Hwf : wf store0 topic0) by eval_decide.
  split; [exact Hwf|]. exact (topic_wf_preserved store0 topic0 Hwf).
Defined.

Lemma Publish_delivers_witness :
  exists h' tp', wf store0 topic2 /\ Publish store0 topic2 Subscriber.m1 = Ret (h', tp') /\
  RecentCache.Add topic2.(recentCache) Subscriber.m1 = Ret tp'.(recentCache) /\
  tp'.(messagesPublished) = topic2.(messagesPublished) + 1 /\ tp'.(subscribers) = topic2.(subscribers) /\
  (forall id r, topic2.(subscribers) !! id = Some r ->
     exists s s' e, store0 !! r = Some s /\ sub_Send s Subscriber.m1 = Ret (s', e) /\ h' !! r = Some s') /\
  (forall r, (forall id, topic2.(subscribers) !! id <> Some r) -> h' !! r = store0 !! r).
Proof.
  assert (Hwf : wf store0 topic2) by eval_decide.
  destruct (Publish store0 topic2 Subscriber.m1) as [[h' tp']|] eqn:HP; [|vm_compute in HP; discriminate].
  exists h', tp'. split; [exact Hwf|]. split; [reflexivity|].
  exact (Publish_delivers store0 topic2 Subscriber.m1 h' tp' Hwf HP).
Defined.

Lemma fanout_order_independent_witness :
  wf store0 topic2 /\ [2%positive; 1%positive] ≡ₚ getSubscribersSnapshot topic2 /\
  fanout store0 [2%positive; 1%positive] Subscriber.m1 ≈ₒ
    fanout store0 (getSubscribersSnapshot topic2) Subscriber.m1.
Proof.
  assert (Hwf : wf store0 topic2) by eval_decide.
  assert (Hp : [2%positive; 1%positive] ≡ₚ getSubscribersSnapshot topic2) by eval_decide.
  split; [exact Hwf|]. split; [exact Hp|].
  exact (fanout_order_independent store0 topic2 Subscriber.m1 _ Hwf Hp).
Defined.

Lemma sendRecentMessages_refines_witness :
  RecentCache.repr cache0 [] /\
  sendRecentMessages store0 topic0 1%positive =
    send_each store0 1%positive (lastn (Nat.min 50 (Z.to_nat cache0.(RecentCache.size))) []).
Proof.
  assert (Hr : RecentCache.repr cache0 []) by eval_decide.
  split; [exact Hr|]. exact (sendRecentMessages_refines store0 topic0 1%positive [] Hr).
Defined.

Lemma Subscribe_tenant_mismatch_witness :
  store0 !! 3%positive = Some sub_other /\ sub_TenantID sub_other <> topic0.(tenantID) /\
  Subscribe store0 topic0 3%positive =
    Ret (store0, topic0, Some (ErrTenantMismatch "sub-3" "other-tenant" "default-tenant")).
Proof.
  assert (H1 : store0 !! 3%positive = Some sub_other) by reflexivity.
  assert (H2 : sub_TenantID sub_other <> topic0.(tenantID)) by eval_decide.
  split; [exact H1|]. split; [exact H2|].
  exact (Subscribe_tenant_mismatch store0 topic0 3%positive sub_other H1 H2).
Defined.

Lemma Unsubscribe_removes_witness :
  exists tp', Unsubscribe store0 topic0 "sub-1" =
      Ret (<[1%positive := (Subscriber.close_state Subscriber.sub0, Subscriber.Running)]> store0, tp', None) /\
    tp'.(subscribers) = delete "sub-1" topic0.(subscribers) /\
    Unsubscribe (<[1%positive := (Subscriber.close_state Subscriber.sub0, Subscriber.Running)]> store0) tp' "sub-1" =
      Ret (<[1%positive := (Subscriber.close_state Subscriber.sub0, Subscriber.Running)]> store0, tp',
           Some (ErrNotFound "sub-1")).
Proof.
  assert (H1 : topic0.(subscribers) !! "sub-1" = Some 1%positive) by reflexivity.
  assert (H2 : store0 !! 1%positive = Some sub_a) by reflexivity.
  assert (H3 : sub_Close sub_a = Ret (Subscriber.close_state Subscriber.sub0, Subscriber.Running))
    by reflexivity.
  exact (Unsubscribe_removes store0 topic0 "sub-1" 1%positive sub_a _ H1 H2 H3).
Defined.

(** A second subscriber that reuses the ID ["sub-1"]. *)
Definition sub_dup : Subscriber.t * Subscriber.LoopState :=
  (Subscriber.mk "sub-1" "default-tenant" "t1" (Chan.mk [] 2 false) Conn.fresh false
     Subscriber.DROP_OLDEST 0 0 0 0 false false, Subscriber.NotStarted).
Definition store_dup : gmap positive (Subscriber.t * Subscriber.LoopState) := <[4%positive := sub_dup]> store0.

Lemma Subscribe_orphans_duplicate_witness :
  exists h' tp', wf store_dup topic0 /\ Subscribe store_dup topic0 4%positive = Ret (h', tp', None) /\
    (forall id, tp'.(subscribers) !! id <> Some 1%positive) /\ h' !! 1%positive = store_dup !! 1%positive.
Proof.
  assert (Hwf : wf store_dup topic0) by eval_decide.
  assert (Hr : store_dup !! 4%positive = Some sub_dup) by reflexivity.
  assert (Hr0 : topic0.(subscribers) !! sub_ID sub_dup = Some 1%positive) by reflexivity.
  assert (Hne : 1%positive <> 4%positive) by discriminate.
  destruct (Subscribe store_dup topic0 4%positive) as [[[h' tp'] [e|]]|] eqn:HS; [vm_compute in HS; discriminate| |vm_compute in HS; discriminate].
  exists h', tp'. split; [exact Hwf|]. split; [reflexivity|].
  exact (Subscribe_orphans_duplicate store_dup topic0 4%positive sub_dup 1%positive h' tp' Hwf Hr Hr0 Hne HS).
Defined.

End Topic.
