(* ===== verification/TopicManager.v ===== *)
(** * TopicManager: the tenant-scoped topic registry

    Models [TopicManager] of src/internal/core/topic.go (lines 179-387):
    the registry of topics keyed by ["tenant:name"], the funnelling of
    [Publish] and [Subscribe] through [getOrCreateTopic], the
    buffer-manager bookkeeping of [Subscribe] and [Unsubscribe], the
    aggregate counts, one tick of [monitoLoop] and [ShutDown].

    Topics are never removed from the registry, so the registry holds the
    topics themselves; the subscribers stay in the shared store of
    Topic.v.  The double-checked locking of [getOrCreateTopic] is one
    atomic step: both probes and the insertion happen in one critical
    section or the second probe finds the topic the first one missed;
    the lock operations themselves are modelled in Locking.v. *)

From Stdlib Require Import Ascii.
From S2P Require Import Prelude Message RecentCache GoRuntime Subscriber BufferManager Throttler Topic.

Module TopicManager.

(** [type TopicManager struct]; [shutDownClosed] records that
    [shutDownChan] is closed, which [shutDownOnce] makes the same as
    "ShutDown has run". *)
Record t : Type := mk {
  bufferManager : BufferManager.t;
  throttler : Throttler.t;
  topics : gmap string Topic.t;
  shutDownClosed : bool
}.

(** The errors the manager returns on its own. *)
Inductive error : Type :=
| ErrTenantMismatch
| ErrTopicNotFound (topicKey : string)
| ErrTopic (e : Topic.error).

(** [func NewTopicManager(buffer, throttle)]; the [monitoLoop] goroutine
    it starts is [monitor_tick]. *)
Definition NewTopicManager (buffer : BufferManager.t) (throttle : Throttler.t) : t :=
  mk buffer throttle ∅ false.

(** [func (tm *TopicManager) makeTopicKey(tenantID, topicName string)]:
    [fmt.Sprintf("%s:%s", tenantID, topicName)]. *)
Definition makeTopicKey (tenantID topicName : string) : string :=
  tenantID +:+ ":" +:+ topicName.

Definition set_topic (tm : t) (key : string) (tp : Topic.t) : t :=
  mk tm.(bufferManager) tm.(throttler) (<[key := tp]> tm.(topics)) tm.(shutDownClosed).

Definition set_bufferManager (tm : t) (bm : BufferManager.t) : t :=
  mk bm tm.(throttler) tm.(topics) tm.(shutDownClosed).

(** [func (tm *TopicManager) getOrCreateTopic(tenant_id, topic_name)]:
    the existing topic, or a new one with a cache of 100 created at
    [now]; the error it returns is always nil. *)
Definition getOrCreateTopic (tm : t) (tenant_id topic_name : string) (now : Z)
    : outcome (t * string * Topic.t) :=
  let topicKey := makeTopicKey tenant_id topic_name in
  match tm.(topics) !! topicKey with
  | Some topic => Ret (tm, topicKey, topic)
  | None =>
      let! topic := Topic.NewTopic topic_name tenant_id 100 now in
      Ret (set_topic tm topicKey topic, topicKey, topic)
  end.

(** [func (tm *TopicManager) GetTopic(tenant_id, topic_name)]. *)
Definition GetTopic (tm : t) (tenant_id topic_name : string) : Topic.t + error :=
  let topicKey := makeTopicKey tenant_id topic_name in
  match tm.(topics) !! topicKey with
  | Some topic => inl topic
  | None => inr (ErrTopicNotFound topicKey)
  end.

(** [GetAllTopics] and [GetTopicCount]. *)
Definition GetAllTopics (tm : t) : list Topic.t := (map_to_list tm.(topics)).*2.

Definition GetTopicCount (tm : t) : Z := Z.of_nat (size tm.(topics)).

(** [GetTotalSubscriberCount]: the sum of the topics' counts. *)
Definition GetTotalSubscriberCount (tm : t) : Z :=
  sum_values Topic.GetSubscriberCount tm.(topics).

Section WithApi.
Context {Sub : Type} `{!SubscriberApi Sub}.
Implicit Types (h : gmap positive Sub) (tm : t).

(** [func (tm *TopicManager) Publish(tenant_id, topic_name, msg)]. *)
Definition Publish h tm (tenant_id topic_name : string) (msg : Message.t) (now : Z)
    : outcome (gmap positive Sub * t) :=
  let! '(tm1, key, topic) := getOrCreateTopic tm tenant_id topic_name now in
  let! '(h', topic') := Topic.Publish h topic msg in
  Ret (h', set_topic tm1 key topic').

(** [func (tm *TopicManager) Subscribe(tenant_id, topic_name,
    subscriberID, sub)]: the tenant check, get-or-create, the buffer
    manager's count, then the topic's [Subscribe] (whose error is
    returned after the count has been raised). *)
Definition Subscribe h tm (tenant_id topic_name subscriberID : string) (r : positive) (now : Z)
    : outcome (gmap positive Sub * t * option error) :=
  match h !! r with
  | None => Panic "invalid memory address or nil pointer dereference"
  | Some s =>
      if decide (sub_TenantID s <> tenant_id) then Ret (h, tm, Some ErrTenantMismatch)
      else
        let! '(tm1, key, topic) := getOrCreateTopic tm tenant_id topic_name now in
        let tm2 := set_bufferManager tm1 (BufferManager.AddNewSubscriber tm1.(bufferManager)) in
        let! '(h', topic', e) := Topic.Subscribe h topic r in
        Ret (h', set_topic tm2 key topic', ErrTopic <$> e)
  end.

(** [func (tm *TopicManager) Unsubscribe(tenant_id, topic_name,
    subscriberID)]: the count is lowered only when the topic found the
    subscriber. *)
Definition Unsubscribe h tm (tenant_id topic_name subscriberID : string)
    : outcome (gmap positive Sub * t * option error) :=
  let topicKey := makeTopicKey tenant_id topic_name in
  match tm.(topics) !! topicKey with
  | None => Ret (h, tm, Some (ErrTopicNotFound topicKey))
  | Some topic =>
      let! '(h', topic', e) := Topic.Unsubscribe h topic subscriberID in
      let tm1 := set_topic tm topicKey topic' in
      match e with
      | Some e => Ret (h', tm1, Some (ErrTopic e))
      | None => Ret (h', set_bufferManager tm1 (BufferManager.OnSubscriberRemoval tm1.(bufferManager)), None)
      end
  end.

(** [GetSlowSubscriberCount]: the sum of the topics' slow counts. *)
Definition GetSlowSubscriberCount h tm : Z :=
  sum_values (Topic.GetSlowSubscriberCount h) tm.(topics).

(** One iteration of [monitoLoop]: on a tick the counts are pushed into
    the throttler; once [shutDownChan] is closed the loop has returned. *)
Definition monitor_tick h tm : option t :=
  if tm.(shutDownClosed) then None
  else Some (mk tm.(bufferManager)
                (Throttler.UpdateSubscriber tm.(throttler) (GetSlowSubscriberCount h tm)
                   (GetTotalSubscriberCount tm))
                tm.(topics) tm.(shutDownClosed)).

(** The inner loops of [ShutDown]: [subs.Close()] on each subscriber of
    each snapshot. *)
Fixpoint close_all h (refs : list positive) : outcome (gmap positive Sub) :=
  match refs with
  | [] => Ret h
  | r :: rs =>
      match h !! r with
      | Some s => let! s' := sub_Close s in close_all (<[r := s']> h) rs
      | None => Panic "invalid memory address or nil pointer dereference"
      end
  end.

(** The pointers [ShutDown] closes, topic by topic. *)
Definition all_subscribers tm : list positive :=
  mjoin (Topic.getSubscribersSnapshot <$> GetAllTopics tm).

(** [func (tm *TopicManager) ShutDown()]: once only, close the channel
    (which stops [monitoLoop]) and every subscriber of every topic. *)
Definition ShutDown h tm : outcome (gmap positive Sub * t) :=
  if tm.(shutDownClosed) then Ret (h, tm)
  else
    let! h' := close_all h (all_subscribers tm) in
    Ret (h', mk tm.(bufferManager) tm.(throttler) tm.(topics) true).

(** [func (tm *TopicManager) GetMetrics()]: the topic count, the two
    sums, every topic's metrics and the throttler's. *)
Definition GetMetrics h tm :=
  (GetTopicCount tm, GetTotalSubscriberCount tm, GetSlowSubscriberCount h tm,
   Topic.GetMetrics <$> GetAllTopics tm, Throttler.GetMetrics tm.(throttler)).

End WithApi.

(** ** The registry invariant *)

(** A tenant ID without the separator of [makeTopicKey]. *)
Fixpoint no_colon (s : string) : bool :=
  match s with
  | EmptyString => true
  | String c s' => if decide (c = ":"%char) then false else no_colon s'
  end.

(** Different (tenant, name) pairs get different keys when the tenants
    have no colon. *)
Lemma makeTopicKey_inj a b a' b' :
  no_colon a = true -> no_colon a' = true -> makeTopicKey a b = makeTopicKey a' b' -> a = a' /\ b = b'.
Proof.
  unfold makeTopicKey. revert a'.
  induction a as [|c a IH]; intros [|c' a'] Ha Ha' Heq;
    rewrite ?string_app_nil, ?string_app_cons in Heq; simpl in Ha, Ha'; simplify_eq.
  - done.
  - destruct (decide (c' = ":"%char)); [discriminate|].
    edestruct IH as [-> ->]; [exact Ha|exact Ha'|eassumption|done].
Qed.

(** ** The subscriber-count ledger *)

(** The buffer manager counts exactly the subscribers of all topics. *)
Definition ledger (tm : t) : Prop :=
  tm.(bufferManager).(BufferManager.suncriberCount) = GetTotalSubscriberCount tm.

(** No topic has a subscriber with this ID (the subscribe handler draws
    IDs with [uuid.New]). *)
Definition fresh_id (tm : t) (id : string) : Prop :=
  forall k tp, tm.(topics) !! k = Some tp -> tp.(Topic.subscribers) !! id = None.

#[global] Instance fresh_id_dec tm id : Decision (fresh_id tm id).
Proof.
  destruct (decide (map_Forall (fun _ tp => tp.(Topic.subscribers) !! id = None) tm.(topics))) as [H|H];
    [left|right]; exact H.
Defined.

Lemma total_nonneg tm : 0 <= GetTotalSubscriberCount tm.
Proof. apply sumZ_nonneg. intros tp. unfold Topic.GetSubscriberCount. lia. Qed.

Lemma total_bm tm bm : GetTotalSubscriberCount (set_bufferManager tm bm) = GetTotalSubscriberCount tm.
Proof. reflexivity. Qed.

Lemma total_topics tm tm' :
  tm'.(topics) = tm.(topics) -> GetTotalSubscriberCount tm' = GetTotalSubscriberCount tm.
Proof. unfold GetTotalSubscriberCount. by intros ->. Qed.

Lemma total_set tm k tp tp' :
  tm.(topics) !! k = Some tp \/ tm.(topics) !! k = None /\ tp.(Topic.subscribers) = ∅ ->
  GetTotalSubscriberCount (set_topic tm k tp') =
    GetTotalSubscriberCount tm - Topic.GetSubscriberCount tp + Topic.GetSubscriberCount tp'.
Proof.
  unfold GetTotalSubscriberCount, set_topic. simpl. intros [Hk|[Hk Hs]].
  - by apply sum_values_insert.
  - rewrite sum_values_insert_new by done. unfold Topic.GetSubscriberCount.
    rewrite Hs, map_size_empty. simpl. lia.
Qed.

Section Invariant.
Context {Sub : Type} `{!SubscriberApi Sub}.
Implicit Types (h : gmap positive Sub) (tm : t).

(** Every topic sits at the key of its own tenant and name and satisfies
    the topic invariant. *)
Definition tm_wf h tm : Prop :=
  forall k tp, tm.(topics) !! k = Some tp ->
    k = makeTopicKey tp.(Topic.tenantID) tp.(Topic.name) /\ Topic.wf h tp.

(** Every tenant in the registry is colon-free. *)
Definition colon_free tm : Prop :=
  forall k tp, tm.(topics) !! k = Some tp -> no_colon tp.(Topic.tenantID) = true.

Lemma set_topic_id tm k tp : tm.(topics) !! k = Some tp -> set_topic tm k tp = tm.
Proof. intros Hk. destruct tm. unfold set_topic. simpl in *. by rewrite insert_id. Qed.

Lemma tm_wf_alt h tm :
  tm_wf h tm <-> map_Forall (fun k tp => k = makeTopicKey tp.(Topic.tenantID) tp.(Topic.name) /\ Topic.wf h tp)
                   tm.(topics).
Proof. done. Qed.

#[global] Instance tm_wf_dec h tm : Decision (tm_wf h tm).
Proof.
  destruct (decide (map_Forall (fun k tp => k = makeTopicKey tp.(Topic.tenantID) tp.(Topic.name) /\
                                  Topic.wf h tp) tm.(topics))) as [H|H]; [left|right]; by rewrite tm_wf_alt.
Defined.

#[global] Instance colon_free_dec tm : Decision (colon_free tm).
Proof.
  destruct (decide (map_Forall (fun k tp => no_colon tp.(Topic.tenantID) = true) tm.(topics))) as [H|H];
    [left|right]; exact H.
Defined.

Lemma getOrCreateTopic_spec tm tenant name now tm1 key tp :
  getOrCreateTopic tm tenant name now = Ret (tm1, key, tp) ->
  key = makeTopicKey tenant name /\ tm1 = set_topic tm key tp /\
  (tm.(topics) !! key = Some tp \/
   tm.(topics) !! key = None /\ tp.(Topic.tenantID) = tenant /\ tp.(Topic.name) = name /\
   tp.(Topic.subscribers) = ∅).
Proof.
  unfold getOrCreateTopic. destruct (topics tm !! _) as [tp0|] eqn:Hk.
  - intros Hr. invc Hr. split; [done|]. split; [|by left]. by rewrite set_topic_id.
  - unfold Topic.NewTopic, RecentCache.NewRecentMessageCache. rewrite decide_False by lia. simpl.
    intros Hr. invc Hr. split; [done|]. split; [done|]. by right.
Qed.

Lemma getOrCreateTopic_ok tm tenant name now : exists r, getOrCreateTopic tm tenant name now = Ret r.
Proof.
  unfold getOrCreateTopic, Topic.NewTopic, RecentCache.NewRecentMessageCache.
  destruct (topics tm !! _); [eauto|]. rewrite decide_False by lia. simpl. eauto.
Qed.

Lemma tm_wf_keeps h h' tm : tm_wf h tm -> Topic.keeps_ids h h' -> tm_wf h' tm.
Proof.
  intros Hwf Hk k tp Htp. destruct (Hwf _ _ Htp) as [Hkey Htw]. split; [done|].
  exact (Topic.wf_keeps_ids _ _ _ Htw Hk).
Qed.

Lemma tm_wf_set h tm key tp :
  tm_wf h tm -> Topic.wf h tp -> key = makeTopicKey tp.(Topic.tenantID) tp.(Topic.name) ->
  tm_wf h (set_topic tm key tp).
Proof.
  intros Hwf Htw Hkey k tp' Hk. unfold set_topic in Hk. simpl in Hk.
  destruct (decide (k = key)) as [->|Hne].
  - rewrite lookup_insert_eq in Hk. by invc Hk.
  - rewrite lookup_insert_ne in Hk by done. by apply Hwf.
Qed.

(** The topic [getOrCreateTopic] hands out satisfies the topic
    invariant, and belongs to the caller's tenant when the tenants have
    no colon. *)
Lemma getOrCreateTopic_wf h tm tenant name now tm1 key tp :
  tm_wf h tm -> getOrCreateTopic tm tenant name now = Ret (tm1, key, tp) ->
  Topic.wf h tp /\ key = makeTopicKey tp.(Topic.tenantID) tp.(Topic.name) /\
  (colon_free tm -> no_colon tenant = true -> tp.(Topic.tenantID) = tenant /\ tp.(Topic.name) = name).
Proof.
  intros Hwf Hg. destruct (getOrCreateTopic_spec _ _ _ _ _ _ _ Hg) as (Hkey & _ & [Hk|(_ & Ht & Hn & Hs)]).
  - destruct (Hwf _ _ Hk) as [Hkey' Htw]. split; [done|]. split; [done|].
    intros Hcol Hten. rewrite Hkey in Hkey'.
    destruct (makeTopicKey_inj _ _ _ _ Hten (Hcol _ _ Hk) Hkey') as [-> ->]. done.
  - split; [intros id r; rewrite Hs, lookup_empty; done|]. by rewrite Ht, Hn.
Qed.

Lemma set_topic_twice tm k a b : set_topic (set_topic tm k a) k b = set_topic tm k b.
Proof. destruct tm. unfold set_topic. simpl. by rewrite insert_insert_eq. Qed.

Lemma set_topic_bm tm k a b c :
  set_topic (set_bufferManager (set_topic tm k a) b) k c = set_topic (set_bufferManager tm b) k c.
Proof. destruct tm. unfold set_topic, set_bufferManager. simpl. by rewrite insert_insert_eq. Qed.

Lemma tm_wf_bm h tm bm : tm_wf h tm -> tm_wf h (set_bufferManager tm bm).
Proof. done. Qed.

Lemma Publish_cases h tm tenant name msg now h' tm' :
  Publish h tm tenant name msg now = Ret (h', tm') ->
  exists key tp tp', getOrCreateTopic tm tenant name now = Ret (set_topic tm key tp, key, tp) /\
    Topic.Publish h tp msg = Ret (h', tp') /\ tm' = set_topic tm key tp'.
Proof.
  unfold Publish. destruct (getOrCreateTopic tm tenant name now) as [[[tm1 key] tp]|] eqn:Hg; simpl; [|done].
  destruct (Topic.Publish h tp msg) as [[h1 tp1]|] eqn:HTP; simpl; [|done]. intros HP. invc HP.
  destruct (getOrCreateTopic_spec _ _ _ _ _ _ _ Hg) as (_ & -> & _).
  exists key, tp, tp1. rewrite set_topic_twice. auto.
Qed.

Lemma Subscribe_cases h tm tenant name id r now h' tm' e :
  Subscribe h tm tenant name id r now = Ret (h', tm', e) ->
  (exists s, h !! r = Some s /\ sub_TenantID s <> tenant /\ h' = h /\ tm' = tm /\ e = Some ErrTenantMismatch) \/
  (exists s key tp tp' e0, h !! r = Some s /\ sub_TenantID s = tenant /\
    getOrCreateTopic tm tenant name now = Ret (set_topic tm key tp, key, tp) /\
    Topic.Subscribe h tp r = Ret (h', tp', e0) /\
    tm' = set_topic (set_bufferManager tm (BufferManager.AddNewSubscriber tm.(bufferManager))) key tp' /\
    e = ErrTopic <$> e0).
Proof.
  unfold Subscribe. destruct (h !! r) as [s|] eqn:Hr; [|done].
  destruct (decide (sub_TenantID s <> tenant)) as [Hne|Heq].
  { intros HS. invc HS. left. eauto 10. }
  apply dec_stable in Heq.
  destruct (getOrCreateTopic tm tenant name now) as [[[tm1 key] tp]|] eqn:Hg; simpl; [|done].
  destruct (Topic.Subscribe h tp r) as [[[h1 tp1] e1]|] eqn:HTS; simpl; [|done]. intros HS. invc HS.
  destruct (getOrCreateTopic_spec _ _ _ _ _ _ _ Hg) as (_ & -> & _).
  right. exists s, key, tp, tp1, e1. rewrite set_topic_bm. destruct tm; auto 10.
Qed.

Lemma Unsubscribe_tm_cases h tm tenant name id h' tm' e :
  Unsubscribe h tm tenant name id = Ret (h', tm', e) ->
  (tm.(topics) !! makeTopicKey tenant name = None /\ h' = h /\ tm' = tm /\
     e = Some (ErrTopicNotFound (makeTopicKey tenant name))) \/
  (exists tp tp' e0, tm.(topics) !! makeTopicKey tenant name = Some tp /\
     Topic.Unsubscribe h tp id = Ret (h', tp', e0) /\
     ((e0 = None /\ e = None /\ tm' = set_bufferManager (set_topic tm (makeTopicKey tenant name) tp')
                                   (BufferManager.OnSubscriberRemoval tm.(bufferManager))) \/
      (exists e1, e0 = Some e1 /\ e = Some (ErrTopic e1) /\ tm' = set_topic tm (makeTopicKey tenant name) tp'))).
Proof.
  unfold Unsubscribe. destruct (topics tm !! _) as [tp|] eqn:Hk; [|intros HU; invc HU; by left].
  destruct (Topic.Unsubscribe h tp id) as [[[h1 tp1] e1]|] eqn:HTU; simpl; [|done].
  intros HU. right. exists tp, tp1, e1.
  destruct e1 as [e1|]; invc HU; (split; [done|]); (split; [done|]); [right; eauto|left; auto].
Qed.

Lemma Publish_tm_wf h tm tenant name msg now h' tm' :
  tm_wf h tm -> Publish h tm tenant name msg now = Ret (h', tm') -> tm_wf h' tm'.
Proof.
  intros Hwf HP. destruct (Publish_cases _ _ _ _ _ _ _ _ HP) as (key & tp & tp' & Hg & HTP & ->).
  destruct (getOrCreateTopic_wf _ _ _ _ _ _ _ _ Hwf Hg) as (Htw & Hkey & _).
  destruct (Topic.Publish_tp _ _ _ _ _ HTP) as (_ & Ht & _).
  apply tm_wf_set.
  - exact (tm_wf_keeps _ _ _ Hwf (Topic.Publish_keeps _ _ _ _ _ HTP)).
  - exact (Topic.Publish_wf _ _ _ _ _ Htw HTP).
  - by rewrite Ht, (Topic.Publish_name _ _ _ _ _ HTP).
Qed.

Lemma Subscribe_tm_wf h tm tenant name id r now h' tm' e :
  tm_wf h tm -> Subscribe h tm tenant name id r now = Ret (h', tm', e) -> tm_wf h' tm'.
Proof.
  intros Hwf HS. destruct (Subscribe_cases _ _ _ _ _ _ _ _ _ _ HS)
    as [(s & _ & _ & -> & -> & _)|(s & key & tp & tp' & e0 & _ & _ & Hg & HTS & -> & _)]; [done|].
  destruct (getOrCreateTopic_wf _ _ _ _ _ _ _ _ Hwf Hg) as (Htw & Hkey & _).
  destruct (Topic.Subscribe_keeps _ _ _ _ _ _ HTS) as (Hk & Ht & Hn).
  apply tm_wf_set.
  - exact (tm_wf_keeps _ _ _ (tm_wf_bm _ _ _ Hwf) Hk).
  - exact (Topic.Subscribe_wf _ _ _ _ _ _ Htw HTS).
  - by rewrite Ht, Hn.
Qed.

Lemma Unsubscribe_tm_wf h tm tenant name id h' tm' e :
  tm_wf h tm -> Unsubscribe h tm tenant name id = Ret (h', tm', e) -> tm_wf h' tm'.
Proof.
  intros Hwf HU. destruct (Unsubscribe_tm_cases _ _ _ _ _ _ _ _ HU)
    as [(_ & -> & -> & _)|(tp & tp' & e0 & Hk & HTU & Hcase)]; [done|].
  destruct (Hwf _ _ Hk) as [Hkey Htw].
  destruct (Topic.Unsubscribe_keeps _ _ _ _ _ _ HTU) as (Hks & Ht & Hn).
  assert (Hset : tm_wf h' (set_topic tm (makeTopicKey tenant name) tp')).
  { apply tm_wf_set.
    - exact (tm_wf_keeps _ _ _ Hwf Hks).
    - exact (Topic.Unsubscribe_wf _ _ _ _ _ _ Htw HTU).
    - by rewrite Ht, Hn. }
  destruct Hcase as [(_ & _ & ->)|(e1 & _ & _ & ->)]; [apply tm_wf_bm|]; exact Hset.
Qed.

Lemma close_all_keeps h refs h' : close_all h refs = Ret h' -> Topic.keeps_ids h h'.
Proof.
  revert h. induction refs as [|r rs IH]; intros h Hc; simpl in Hc.
  - invc Hc. intros r s Hr. eauto.
  - destruct (h !! r) as [s|] eqn:Hr; [|done]. destruct (sub_Close s) as [s'|] eqn:Hcl; simpl in Hc; [|done].
    destruct (sub_Close_ids _ _ Hcl) as [Hi Ht].
    intros r' s0 H0. destruct (Topic.keeps_ids_insert _ _ _ _ Hr Hi Ht _ _ H0) as (s1 & H1 & Hi1 & Ht1).
    destruct (IH _ Hc _ _ H1) as (s2 & H2 & Hi2 & Ht2). exists s2. split; [done|]. split; congruence.
Qed.

(** C24: the registry invariant holds after every operation of the
    manager: each topic is stored under the key of its own tenant and
    name, and maps each subscriber ID to a subscriber with that ID and
    the topic's tenant. *)
Theorem tm_wf_preserved h tm :
  tm_wf h tm ->
  (forall tenant name msg now h' tm', Publish h tm tenant name msg now = Ret (h', tm') -> tm_wf h' tm') /\
  (forall tenant name id r now h' tm' e, Subscribe h tm tenant name id r now = Ret (h', tm', e) -> tm_wf h' tm') /\
  (forall tenant name id h' tm' e, Unsubscribe h tm tenant name id = Ret (h', tm', e) -> tm_wf h' tm') /\
  (forall h' tm', ShutDown h tm = Ret (h', tm') -> tm_wf h' tm') /\
  (forall tm', monitor_tick h tm = Some tm' -> tm_wf h tm').
Proof.
  intros Hwf. split; [|split; [|split; [|split]]]; intros *.
  - by apply Publish_tm_wf.
  - by apply Subscribe_tm_wf.
  - by apply Unsubscribe_tm_wf.
  - unfold ShutDown. destruct (shutDownClosed tm); [intros Hs; by invc Hs|].
    destruct (close_all h _) as [h1|] eqn:Hc; simpl; [|done]. intros Hs. invc Hs.
    exact (tm_wf_keeps _ _ _ Hwf (close_all_keeps _ _ _ Hc)).
  - unfold monitor_tick. destruct (shutDownClosed tm); [done|]. intros Hm. by invc Hm.
Qed.

(** C1: tenant isolation.  When tenant IDs contain no colon, a publish by
    a tenant changes no subscriber of another tenant. *)
Theorem tenant_isolation h tm tenant name msg now h' tm' :
  tm_wf h tm -> colon_free tm -> no_colon tenant = true ->
  Publish h tm tenant name msg now = Ret (h', tm') ->
  forall r s, h !! r = Some s -> h' !! r <> h !! r -> sub_TenantID s = tenant.
Proof.
  intros Hwf Hcol Hten HP r s Hr Hch.
  destruct (Publish_cases _ _ _ _ _ _ _ _ HP) as (key & tp & tp' & Hg & HTP & _).
  destruct (getOrCreateTopic_wf _ _ _ _ _ _ _ _ Hwf Hg) as (Htw & _ & Hten').
  rewrite <- (proj1 (Hten' Hcol Hten)).
  destruct (decide (r ∈ Topic.getSubscribersSnapshot tp)) as [Hin|Hin].
  - apply Topic.elem_of_snapshot in Hin as [id Hid].
    destruct (Htw _ _ Hid) as (s0 & Hs0 & _ & Ht0). congruence.
  - exfalso. apply Hch. apply (Topic.Publish_frame _ _ _ _ _ Htw HTP).
    intros id Hid. apply Hin, Topic.elem_of_snapshot. eauto.
Qed.

(** How [Subscribe] moves the count and the registry: a refused
    subscriber changes nothing, an accepted one adds one to both. *)
Lemma Subscribe_total h tm tenant name id r now s h' tm' e :
  tm_wf h tm -> colon_free tm -> no_colon tenant = true ->
  h !! r = Some s -> fresh_id tm (sub_ID s) ->
  Subscribe h tm tenant name id r now = Ret (h', tm', e) ->
  (sub_TenantID s <> tenant /\ tm' = tm /\ e = Some ErrTenantMismatch) \/
  (sub_TenantID s = tenant /\ e = None /\
   tm'.(bufferManager) = BufferManager.AddNewSubscriber tm.(bufferManager) /\
   GetTotalSubscriberCount tm' = GetTotalSubscriberCount tm + 1).
Proof.
  intros Hwf Hcol Hten Hr Hfresh HS.
  destruct (Subscribe_cases _ _ _ _ _ _ _ _ _ _ HS)
    as [(s' & Hr' & Hne & -> & -> & ->)|(s' & key & tp & tp' & e0 & Hr' & Ht & Hg & HTS & -> & ->)];
    rewrite Hr in Hr'; invc Hr'; [by left|].
  destruct (getOrCreateTopic_wf _ _ _ _ _ _ _ _ Hwf Hg) as (_ & _ & Hten'). specialize (Hten' Hcol Hten).
  destruct (Topic.Subscribe_ok h tp r s' Hr) as (tp'' & HTS' & Hsubs & _); [by rewrite (proj1 Hten')|].
  rewrite HTS' in HTS. invc HTS.
  destruct (getOrCreateTopic_spec _ _ _ _ _ _ _ Hg) as (_ & _ & Hcase).
  assert (Hnone : tp.(Topic.subscribers) !! sub_ID s' = None).
  { destruct Hcase as [Hk|(_ & _ & _ & Hs)]; [exact (Hfresh _ _ Hk)|]. rewrite Hs. apply lookup_empty. }
  right. do 3 (split; [done|]).
  rewrite (total_set (set_bufferManager tm (BufferManager.AddNewSubscriber (bufferManager tm))) key tp tp')
    by (destruct Hcase as [?|(? & _ & _ & ?)]; eauto).
  unfold Topic.GetSubscriberCount. rewrite Hsubs, map_size_insert_None by done. rewrite total_bm. lia.
Qed.

(** How [Unsubscribe] moves them: nothing changes, or both lose one. *)
Lemma Unsubscribe_total h tm tenant name id h' tm' e :
  Unsubscribe h tm tenant name id = Ret (h', tm', e) ->
  tm' = tm \/
  (tm'.(bufferManager) = BufferManager.OnSubscriberRemoval tm.(bufferManager) /\
   GetTotalSubscriberCount tm' = GetTotalSubscriberCount tm - 1).
Proof.
  intros HU. destruct (Unsubscribe_tm_cases _ _ _ _ _ _ _ _ HU)
    as [(_ & -> & -> & _)|(tp & tp' & e0 & Hk & HTU & Hcase)]; [by left|].
  destruct (Topic.Unsubscribe_cases _ _ _ _ _ _ HTU) as [(_ & _ & -> & ->)|(r & Hid & Hsubs & _ & _ & ->)].
  - destruct Hcase as [(? & _)|(e1 & _ & _ & ->)]; [discriminate|]. left. by rewrite set_topic_id.
  - destruct Hcase as [(_ & _ & ->)|(e1 & ? & _)]; [|discriminate]. right. split; [done|].
    rewrite total_bm, (total_set tm _ tp) by (left; exact Hk).
    unfold Topic.GetSubscriberCount. rewrite Hsubs, map_size_delete_Some by eauto. 
    assert (0 < size tp.(Topic.subscribers))%nat.
    { apply Nat.neq_0_lt_0. intros Hz. apply map_size_empty_inv in Hz. rewrite Hz in Hid. done. }
    lia.
Qed.

(** [Publish] moves neither: it replaces a topic by one with the same
    subscribers, or registers a topic without any. *)
Lemma Publish_total h tm tenant name msg now h' tm' :
  Publish h tm tenant name msg now = Ret (h', tm') ->
  tm'.(bufferManager) = tm.(bufferManager) /\ GetTotalSubscriberCount tm' = GetTotalSubscriberCount tm.
Proof.
  intros HP. destruct (Publish_cases _ _ _ _ _ _ _ _ HP) as (key & tp & tp' & Hg & HTP & ->).
  destruct (getOrCreateTopic_spec _ _ _ _ _ _ _ Hg) as (_ & _ & Hcase).
  destruct (Topic.Publish_tp _ _ _ _ _ HTP) as (Hs & _).
  split; [done|]. rewrite (total_set tm key tp tp') by (destruct Hcase as [?|(? & _ & _ & ?)]; eauto).
  unfold Topic.GetSubscriberCount. rewrite Hs. lia.
Qed.

Lemma Subscribe_ledger h tm tenant name id r now s h' tm' e :
  tm_wf h tm -> colon_free tm -> no_colon tenant = true -> ledger tm ->
  GetTotalSubscriberCount tm + 1 < 2 ^ 31 ->
  h !! r = Some s -> fresh_id tm (sub_ID s) ->
  Subscribe h tm tenant name id r now = Ret (h', tm', e) ->
  ledger tm' /\ (e = None <-> sub_TenantID s = tenant).
Proof.
  intros Hwf Hcol Hten Hl Hb Hr Hfresh HS.
  destruct (Subscribe_total _ _ _ _ _ _ _ _ _ _ _ Hwf Hcol Hten Hr Hfresh HS)
    as [(Hne & -> & ->)|(Ht & -> & Hbm & Htot)]; [split; [done|]; split; [discriminate|contradiction]|].
  split; [|done]. unfold ledger in *. rewrite Hbm, Htot. pose proof (total_nonneg tm).
  unfold BufferManager.AddNewSubscriber. simpl. rewrite Hl, int32_small; lia.
Qed.

Lemma Unsubscribe_ledger h tm tenant name id h' tm' e :
  ledger tm -> GetTotalSubscriberCount tm < 2 ^ 31 ->
  Unsubscribe h tm tenant name id = Ret (h', tm', e) -> ledger tm'.
Proof.
  intros Hl Hb HU. destruct (Unsubscribe_total _ _ _ _ _ _ _ _ HU) as [->|[Hbm Htot]]; [done|].
  unfold ledger in *. rewrite Hbm, Htot. pose proof (total_nonneg tm').
  unfold BufferManager.OnSubscriberRemoval. simpl. rewrite Hl, int32_small; lia.
Qed.

(** C6: the subscriber-count ledger.  With colon-free tenants and fresh
    subscriber IDs, [Subscribe] and [Unsubscribe] keep the buffer
    manager's count equal to the number of subscribers of all topics,
    and [Subscribe] succeeds exactly for a subscriber of the caller's
    tenant. *)
Theorem subscriber_ledger h tm tenant name :
  tm_wf h tm -> colon_free tm -> no_colon tenant = true -> ledger tm ->
  GetTotalSubscriberCount tm + 1 < 2 ^ 31 ->
  (forall id r now s h' tm' e, h !! r = Some s -> fresh_id tm (sub_ID s) ->
     Subscribe h tm tenant name id r now = Ret (h', tm', e) ->
     ledger tm' /\ (e = None <-> sub_TenantID s = tenant)) /\
  (forall id h' tm' e, Unsubscribe h tm tenant name id = Ret (h', tm', e) -> ledger tm').
Proof.
  intros Hwf Hcol Hten Hl Hb. split; intros *.
  - by apply Subscribe_ledger.
  - apply Unsubscribe_ledger; [done|lia].
Qed.

Lemma close_all_preserves (P : positive -> Sub -> Prop) h refs h' :
  (forall r x x', P r x -> sub_Close x = Ret x' -> P r x') ->
  Topic.store_P P h -> close_all h refs = Ret h' -> Topic.store_P P h'.
Proof.
  intros HP. revert h. induction refs as [|r rs IH]; intros h Hh Hc; simpl in Hc; [by invc Hc|].
  destruct (h !! r) as [x|] eqn:Hr; [|done]. destruct (sub_Close x) as [x'|] eqn:Hcl; simpl in Hc; [|done].
  apply (IH _ (Topic.store_P_insert _ _ _ _ Hh (HP _ _ _ (Hh _ _ Hr) Hcl)) Hc).
Qed.

End Invariant.

(** ** Shutdown, with the subscribers of Subscriber.v *)

Section Concrete.
Implicit Types (h : gmap positive (Subscriber.t * Subscriber.LoopState)) (tm : t).

(** Every subscriber of the store satisfies the subscriber invariant. *)
Definition store_inv h : Prop := forall r x, h !! r = Some x -> Subscriber.inv x.1.

Definition closed_at h (r : positive) : Prop :=
  exists x, h !! r = Some x /\ x.1.(Subscriber.closeOnce) = true.

#[global] Instance store_inv_dec h : Decision (store_inv h).
Proof.
  destruct (decide (map_Forall (fun r x => Subscriber.inv x.1) h)) as [H|H]; [left|right]; exact H.
Defined.

Lemma sub_close_ok x : Subscriber.inv x.1 -> sub_close x = Ret (Subscriber.close_state x.1, x.2).
Proof. intros Hi. unfold sub_close. by rewrite Subscriber.Close_ok. Qed.

Lemma store_inv_close h r x :
  store_inv h -> h !! r = Some x -> store_inv (<[r := (Subscriber.close_state x.1, x.2)]> h).
Proof.
  intros Hh Hr r' x' Hr'. destruct (decide (r' = r)) as [->|Hne].
  - rewrite lookup_insert_eq in Hr'. invc Hr'. apply Subscriber.close_state_inv. exact (Hh _ _ Hr).
  - rewrite lookup_insert_ne in Hr' by done. exact (Hh _ _ Hr').
Qed.

(** [close_all] returns when every pointer is in the store, and leaves
    every pointer it was given closed. *)
Lemma close_all_closes h refs :
  store_inv h -> Forall (fun r => is_Some (h !! r)) refs ->
  exists h', close_all h refs = Ret h' /\ store_inv h' /\ Forall (closed_at h') refs /\
    forall r, closed_at h r -> closed_at h' r.
Proof.
  revert h. induction refs as [|r rs IH]; intros h Hh Hin; simpl.
  { exists h. split; [done|]. split; [done|]. split; [constructor|done]. }
  apply Forall_cons in Hin as [[x Hx] Hin]. rewrite Hx, sub_close_ok by exact (Hh _ _ Hx). simpl.
  set (h1 := <[r := (Subscriber.close_state x.1, x.2)]> h).
  assert (Hcl1 : forall r', closed_at h r' -> closed_at h1 r').
  { intros r' (x' & Hx' & Hc'). destruct (decide (r' = r)) as [->|Hne].
    - rewrite Hx in Hx'. invc Hx'. exists (Subscriber.close_state x'.1, x'.2).
      split; [apply lookup_insert_eq|]. apply Subscriber.close_state_closed, (Hh _ _ Hx).
    - exists x'. unfold h1. by rewrite lookup_insert_ne. }
  destruct (IH h1) as (h' & Hc & Hh' & Hall & Hmono).
  - exact (store_inv_close _ _ _ Hh Hx).
  - eapply Forall_impl; [exact Hin|]. intros r' [x' Hx']. unfold h1.
    destruct (decide (r' = r)) as [->|Hne]; [rewrite lookup_insert_eq|rewrite lookup_insert_ne]; eauto.
  - exists h'. split; [done|]. split; [done|]. split; [|eauto].
    constructor; [|done]. apply Hmono. exists (Subscriber.close_state x.1, x.2).
    split; [apply lookup_insert_eq|]. apply Subscriber.close_state_closed, (Hh _ _ Hx).
Qed.

Lemma elem_of_all_subscribers tm r :
  r ∈ all_subscribers tm <-> exists k tp id, tm.(topics) !! k = Some tp /\ tp.(Topic.subscribers) !! id = Some r.
Proof.
  unfold all_subscribers, GetAllTopics. rewrite list_elem_of_join. split.
  - intros (l & Hr & Hl). apply list_elem_of_fmap in Hl as (tp & -> & Htp).
    apply list_elem_of_fmap in Htp as ([k tp'] & -> & Hk). apply elem_of_map_to_list in Hk.
    apply Topic.elem_of_snapshot in Hr as [id Hid]. eauto.
  - intros (k & tp & id & Hk & Hid). exists (Topic.getSubscribersSnapshot tp).
    split; [apply Topic.elem_of_snapshot; eauto|].
    apply list_elem_of_fmap. exists tp. split; [done|].
    apply list_elem_of_fmap. exists (k, tp). split; [done|]. by apply elem_of_map_to_list.
Qed.

Lemma all_subscribers_in_store h tm :
  tm_wf h tm -> Forall (fun r => is_Some (h !! r)) (all_subscribers tm).
Proof.
  intros Hwf. apply Forall_forall. intros r Hr. apply elem_of_all_subscribers in Hr as (k & tp & id & Hk & Hid).
  destruct (Hwf _ _ Hk) as [_ Htw]. destruct (Htw _ _ Hid) as (s & Hs & _). eauto.
Qed.

(** What [ShutDown] does the first time: it returns, keeps the topics,
    closes the channel and every subscriber of every topic. *)
Lemma ShutDown_spec h tm :
  tm_wf h tm -> store_inv h -> tm.(shutDownClosed) = false ->
  exists h', ShutDown h tm = Ret (h', mk tm.(bufferManager) tm.(throttler) tm.(topics) true) /\
    store_inv h' /\ tm_wf h' tm /\
    forall k tp id r, tm.(topics) !! k = Some tp -> tp.(Topic.subscribers) !! id = Some r -> closed_at h' r.
Proof.
  intros Hwf Hh Hsd.
  destruct (close_all_closes h _ Hh (all_subscribers_in_store _ _ Hwf)) as (h' & Hc & Hh' & Hall & _).
  exists h'. unfold ShutDown. rewrite Hsd, Hc. split; [done|]. split; [done|].
  split; [exact (tm_wf_keeps _ _ _ Hwf (close_all_keeps _ _ _ Hc))|].
  intros k tp id r Hk Hid. eapply Forall_forall; [exact Hall|]. apply elem_of_all_subscribers. eauto 10.
Qed.

Lemma sub_send_closed x m :
  Subscriber.inv x.1 -> x.1.(Subscriber.closeOnce) = true -> sub_send x m = Panic "send on closed channel".
Proof.
  intros (_ & _ & Hcl & _) Hc. unfold sub_send. rewrite Subscriber.SendMessages_closed; [done|congruence].
Qed.

(** C19: [ShutDown] returns; it stops [monitoLoop] and closes every
    subscriber of every topic, and a second [ShutDown] changes nothing. *)
Theorem ShutDown_closes_all h tm :
  tm_wf h tm -> store_inv h -> tm.(shutDownClosed) = false ->
  exists h' tm', ShutDown h tm = Ret (h', tm') /\ tm'.(topics) = tm.(topics) /\
    monitor_tick h' tm' = None /\
    (forall k tp id r, tm.(topics) !! k = Some tp -> tp.(Topic.subscribers) !! id = Some r -> closed_at h' r) /\
    ShutDown h' tm' = Ret (h', tm').
Proof.
  intros Hwf Hh Hsd. destruct (ShutDown_spec h tm Hwf Hh Hsd) as (h' & Hs & _ & _ & Hall).
  eexists h', _. split; [exact Hs|]. split; [done|]. split; [done|]. split; [exact Hall|]. done.
Qed.

(** C20: a publish to a topic that has a subscriber, after [ShutDown],
    panics: the fan-out sends on the closed channel of the first
    subscriber of the snapshot ([ShutDown] does not refuse later
    publishes). *)
Theorem publish_after_shutdown_panics h tm h' tm' tenant name msg now tp id r :
  tm_wf h tm -> store_inv h -> tm.(shutDownClosed) = false -> ShutDown h tm = Ret (h', tm') ->
  tm.(topics) !! makeTopicKey tenant name = Some tp -> tp.(Topic.subscribers) !! id = Some r ->
  is_panic (Publish h' tm' tenant name msg now) = true.
Proof.
  intros Hwf Hh Hsd Hs Hk Hid. destruct (ShutDown_spec h tm Hwf Hh Hsd) as (h1 & Hs1 & Hh1 & _ & Hall).
  rewrite Hs1 in Hs. invc Hs. unfold Publish, getOrCreateTopic. simpl. rewrite Hk. simpl.
  destruct (Topic.getSubscribersSnapshot tp) as [|r0 rs] eqn:Hsnap.
  { exfalso. assert (Hin : r ∈ Topic.getSubscribersSnapshot tp) by (apply Topic.elem_of_snapshot; eauto).
    rewrite Hsnap in Hin. set_solver. }
  assert (Hin : r0 ∈ Topic.getSubscribersSnapshot tp) by (rewrite Hsnap; left).
  apply Topic.elem_of_snapshot in Hin as [id0 Hid0].
  destruct (Hall _ _ _ _ Hk Hid0) as (x & Hx & Hc).
  apply is_panic_obind. exact (Topic.Publish_first_panics _ _ _ _ _ _ _ Hsnap Hx (sub_send_closed _ _ (Hh1 _ _ Hx) Hc)).
Qed.

End Concrete.

(** ** Concrete registries *)

Definition bm0 : BufferManager.t := BufferManager.NewAdaptiveBufferManager (2048 * 1024 * 1024).
Definition th0 : Throttler.t := Throttler.NewAdaptiveThrottler Throttler.DefaultConfig 0.

(** One subscriber of ["default-tenant"] on topic ["t1"], counted by the
    buffer manager. *)
Definition storeA : gmap positive (Subscriber.t * Subscriber.LoopState) := {[1%positive := Topic.sub_a]}.
Definition topicA : Topic.t := Topic.mk "t1" "default-tenant" {["sub-1" := 1%positive]} Topic.cache0 0 1 0.
Definition tmA : t :=
  mk (BufferManager.AddNewSubscriber bm0) th0 {[makeTopicKey "default-tenant" "t1" := topicA]} false.

Lemma tm_wf_preserved_witness :
  tm_wf storeA tmA /\
  (forall tenant name msg now h' tm', Publish storeA tmA tenant name msg now = Ret (h', tm') -> tm_wf h' tm') /\
  (forall tenant name id r now h' tm' e, Subscribe storeA tmA tenant name id r now = Ret (h', tm', e) -> tm_wf h' tm') /\
  (forall tenant name id h' tm' e, Unsubscribe storeA tmA tenant name id = Ret (h', tm', e) -> tm_wf h' tm') /\
  (forall h' tm', ShutDown storeA tmA = Ret (h', tm') -> tm_wf h' tm') /\
  (forall tm', monitor_tick storeA tmA = Some tm' -> tm_wf storeA tm').
Proof.
  assert (Hwf : tm_wf storeA tmA) by eval_decide.
  split; [exact Hwf|]. exact (tm_wf_preserved storeA tmA Hwf).
Defined.

Lemma tenant_isolation_witness :
  exists h' tm', tm_wf storeA tmA /\ colon_free tmA /\ no_colon "default-tenant" = true /\
    Publish storeA tmA "default-tenant" "t1" Subscriber.m1 0 = Ret (h', tm') /\
    forall r s, storeA !! r = Some s -> h' !! r <> storeA !! r -> sub_TenantID s = "default-tenant".
Proof.
  assert (Hwf : tm_wf storeA tmA) by eval_decide.
  assert (Hcol : colon_free tmA) by eval_decide.
  assert (Hten : no_colon "default-tenant" = true) by reflexivity.
  destruct (Publish storeA tmA "default-tenant" "t1" Subscriber.m1 0) as [[h' tm']|] eqn:HP;
    [|vm_compute in HP; discriminate].
  exists h', tm'. split; [exact Hwf|]. split; [exact Hcol|]. split; [exact Hten|]. split; [reflexivity|].
  exact (tenant_isolation storeA tmA _ _ _ _ h' tm' Hwf Hcol Hten HP).
Defined.

Lemma subscriber_ledger_witness :
  tm_wf storeA tmA /\ colon_free tmA /\ ledger tmA /\ GetTotalSubscriberCount tmA + 1 < 2 ^ 31 /\
  (forall id r now s h' tm' e, storeA !! r = Some s -> fresh_id tmA (sub_ID s) ->
     Subscribe storeA tmA "default-tenant" "t1" id r now = Ret (h', tm', e) ->
     ledger tm' /\ (e = None <-> sub_TenantID s = "default-tenant")) /\
  (forall id h' tm' e, Unsubscribe storeA tmA "default-tenant" "t1" id = Ret (h', tm', e) -> ledger tm').
Proof.
  assert (Hwf : tm_wf storeA tmA) by eval_decide.
  assert (Hcol : colon_free tmA) by eval_decide.
  assert (Hl : ledger tmA) by reflexivity.
  assert (Hb : GetTotalSubscriberCount tmA + 1 < 2 ^ 31) by (vm_compute; reflexivity).
  split; [exact Hwf|]. split; [exact Hcol|]. split; [exact Hl|]. split; [exact Hb|].
  exact (subscriber_ledger storeA tmA "default-tenant" "t1" Hwf Hcol eq_refl Hl Hb).
Defined.

Lemma ShutDown_closes_all_witness :
  tm_wf storeA tmA /\ store_inv storeA /\ tmA.(shutDownClosed) = false /\
  exists h' tm', ShutDown storeA tmA = Ret (h', tm') /\ tm'.(topics) = tmA.(topics) /\
    monitor_tick h' tm' = None /\
    (forall k tp id r, tmA.(topics) !! k = Some tp -> tp.(Topic.subscribers) !! id = Some r -> closed_at h' r) /\
    ShutDown h' tm' = Ret (h', tm').
Proof.
  assert (Hwf : tm_wf storeA tmA) by eval_decide.
  assert (Hh : store_inv storeA) by eval_decide.
  assert (Hsd : tmA.(shutDownClosed) = false) by reflexivity.
  split; [exact Hwf|]. split; [exact Hh|]. split; [exact Hsd|].
  exact (ShutDown_closes_all storeA tmA Hwf Hh Hsd).
Defined.

Lemma publish_after_shutdown_panics_witness :
  exists h' tm', ShutDown storeA tmA = Ret (h', tm') /\
    is_panic (Publish h' tm' "default-tenant" "t1" Subscriber.m1 0) = true.
Proof.
  assert (Hwf : tm_wf storeA tmA) by eval_decide.
  assert (Hh : store_inv storeA) by eval_decide.
  assert (Hsd : tmA.(shutDownClosed) = false) by reflexivity.
  assert (Hk : tmA.(topics) !! makeTopicKey "default-tenant" "t1" = Some topicA) by reflexivity.
  assert (Hid : topicA.(Topic.subscribers) !! "sub-1" = Some 1%positive) by reflexivity.
  destruct (ShutDown storeA tmA) as [[h' tm']|] eqn:Hs; [|vm_compute in Hs; discriminate].
  exists h', tm'. split; [reflexivity|].
  exact (publish_after_shutdown_panics storeA tmA h' tm' _ _ Subscriber.m1 0 _ _ _ Hwf Hh Hsd Hs Hk Hid).
Defined.

(** ** What the registry key does with a colon in a tenant ID *)

(** Tenant ["a:b"] has topic ["c"], with one subscriber; tenant ["a"]
    publishes to its topic ["b:c"]. *)
Definition sub_ab : Subscriber.t * Subscriber.LoopState :=
  (Subscriber.mk "sub-1" "a:b" "c" (Chan.mk [] 2 false) Conn.fresh false
     Subscriber.DROP_OLDEST 0 0 0 0 false false, Subscriber.Running).
Definition sub_a2 : Subscriber.t * Subscriber.LoopState :=
  (Subscriber.mk "sub-2" "a" "b:c" (Chan.mk [] 2 false) Conn.fresh false
     Subscriber.DROP_OLDEST 0 0 0 0 false false, Subscriber.NotStarted).
Definition storeX : gmap positive (Subscriber.t * Subscriber.LoopState) :=
  <[2%positive := sub_a2]> {[1%positive := sub_ab]}.
Definition topicX : Topic.t := Topic.mk "c" "a:b" {["sub-1" := 1%positive]} Topic.cache0 0 1 0.
Definition tmX : t := mk (BufferManager.AddNewSubscriber bm0) th0 {[makeTopicKey "a:b" "c" := topicX]} false.
Definition msg_a : Message.t := Message.mk "msg-1" "b:c" "a" (Some []) 0.

Lemma string_app_assoc x y z : x +:+ (y +:+ z) = (x +:+ y) +:+ z.
Proof. induction x as [|c x IH]; [done|]. rewrite !string_app_cons. by rewrite IH. Qed.

(** The key of tenant [a] and topic ["b:c"] is the key of tenant
    ["a:b"] and topic [c]. *)
Lemma makeTopicKey_colon a b c : makeTopicKey a (b +:+ ":" +:+ c) = makeTopicKey (a +:+ ":" +:+ b) c.
Proof. unfold makeTopicKey. rewrite !string_app_assoc. done. Qed.

Lemma string_app_ne_self a s : s <> "" -> a +:+ s <> a.
Proof.
  intros Hs. induction a as [|c a IH]; [done|]. rewrite string_app_cons. intros H. injection H. exact IH.
Qed.

Section Collision.
Context {Sub : Type} `{!SubscriberApi Sub}.
Implicit Types (h : gmap positive Sub).

(** C30: a tenant ID with a colon shares its keys with another tenant:
    when tenant ["a:b"] has a topic [c], a publish of tenant [a] to its
    topic ["b:c"] is sent to every subscriber of that topic, all of
    tenant ["a:b"], not [a]. *)
Theorem publish_cross_tenant h tm a b c msg now h' tm' k tp id r :
  tm_wf h tm -> tm.(topics) !! k = Some tp ->
  tp.(Topic.tenantID) = a +:+ ":" +:+ b -> tp.(Topic.name) = c -> tp.(Topic.subscribers) !! id = Some r ->
  Publish h tm a (b +:+ ":" +:+ c) msg now = Ret (h', tm') ->
  exists s s' e, h !! r = Some s /\ sub_TenantID s = a +:+ ":" +:+ b /\ sub_TenantID s <> a /\
    sub_Send s msg = Ret (s', e) /\ h' !! r = Some s'.
Proof.
  intros Hwf Hk Ht Hn Hid HP. destruct (Hwf _ _ Hk) as [Hkey Htw].
  rewrite Ht, Hn, <- makeTopicKey_colon in Hkey. subst k.
  destruct (Publish_cases _ _ _ _ _ _ _ _ HP) as (key & tp0 & tp' & Hg & HTP & _).
  destruct (getOrCreateTopic_spec _ _ _ _ _ _ _ Hg) as (-> & _ & [Hk0|(Hk0 & _)]); rewrite Hk in Hk0; invc Hk0.
  destruct (Topic.Publish_sends _ _ _ _ _ Htw HTP _ _ Hid) as (s & s' & e & Hs & Hsend & Hs').
  destruct (Htw _ _ Hid) as (s0 & Hs0 & _ & Hten). rewrite Hs in Hs0. invc Hs0.
  exists s0, s', e. rewrite Hten, Ht. repeat split; try done.
  apply string_app_ne_self. discriminate.
Qed.

(** C31: the ledger leaks on such a collision: a subscriber of tenant
    [a] subscribing to ["b:c"] passes the manager's tenant check and
    raises the buffer manager's count, then the topic of tenant
    ["a:b"] refuses it, and the number of subscribers of the registry
    stays as it was. *)
Theorem ledger_leak_on_collision h tm a b c id r now s tp h' tm' e :
  tm.(topics) !! makeTopicKey (a +:+ ":" +:+ b) c = Some tp -> tp.(Topic.tenantID) = a +:+ ":" +:+ b ->
  h !! r = Some s -> sub_TenantID s = a ->
  Subscribe h tm a (b +:+ ":" +:+ c) id r now = Ret (h', tm', e) ->
  e = Some (ErrTopic (Topic.ErrTenantMismatch (sub_ID s) a (a +:+ ":" +:+ b))) /\
  tm'.(bufferManager) = BufferManager.AddNewSubscriber tm.(bufferManager) /\
  GetTotalSubscriberCount tm' = GetTotalSubscriberCount tm.
Proof.
  intros Hk Ht Hr Hs HS. rewrite <- makeTopicKey_colon in Hk.
  destruct (Subscribe_cases _ _ _ _ _ _ _ _ _ _ HS)
    as [(s' & Hr' & Hne & _)|(s' & key & tp0 & tp' & e0 & Hr' & _ & Hg & HTS & -> & ->)];
    rewrite Hr in Hr'; invc Hr'; [done|].
  destruct (getOrCreateTopic_spec _ _ _ _ _ _ _ Hg) as (-> & _ & [Hk0|(Hk0 & _)]); rewrite Hk in Hk0; invc Hk0.
  rewrite (Topic.Subscribe_tenant_mismatch h tp0 r s') in HTS by
    (done || (rewrite Ht; intros Heq; apply (string_app_ne_self (sub_TenantID s') (":" +:+ b)); [discriminate|done])).
  invc HTS. rewrite Ht. split; [done|]. split; [done|].
  rewrite (total_set (set_bufferManager tm _) _ _ _ (or_introl Hk)), total_bm. lia.
Qed.

End Collision.

Lemma publish_cross_tenant_witness :
  tm_wf storeX tmX /\ tmX.(topics) !! makeTopicKey "a:b" "c" = Some topicX /\
  exists h' tm', Publish storeX tmX "a" ("b" +:+ ":" +:+ "c") msg_a 0 = Ret (h', tm') /\
    exists s s' e, storeX !! 1%positive = Some s /\ sub_TenantID s = "a" +:+ ":" +:+ "b" /\ sub_TenantID s <> "a" /\
      sub_Send s msg_a = Ret (s', e) /\ h' !! 1%positive = Some s'.
Proof.
  assert (Hwf : tm_wf storeX tmX) by eval_decide.
  assert (Hk : tmX.(topics) !! makeTopicKey "a:b" "c" = Some topicX) by reflexivity.
  split; [exact Hwf|]. split; [exact Hk|].
  destruct (Publish storeX tmX "a" ("b" +:+ ":" +:+ "c") msg_a 0) as [[h' tm']|m] eqn:E;
    pose proof E as E'; vm_compute in E'; [|discriminate].
  exists h', tm'. split; [reflexivity|].
  exact (publish_cross_tenant _ _ "a" "b" "c" _ _ _ _ _ _ "sub-1" 1%positive Hwf Hk eq_refl eq_refl eq_refl E).
Defined.

Lemma ledger_leak_on_collision_witness :
  ledger tmX /\
  exists h' tm' e, Subscribe storeX tmX "a" ("b" +:+ ":" +:+ "c") "sub-2" 2%positive 0 = Ret (h', tm', e) /\
    e = Some (ErrTopic (Topic.ErrTenantMismatch "sub-2" "a" ("a" +:+ ":" +:+ "b"))) /\
    tm'.(bufferManager) = BufferManager.AddNewSubscriber tmX.(bufferManager) /\
    GetTotalSubscriberCount tm' = GetTotalSubscriberCount tmX.
Proof.
  split; [reflexivity|].
  destruct (Subscribe storeX tmX "a" ("b" +:+ ":" +:+ "c") "sub-2" 2%positive 0) as [[[h' tm'] e]|m] eqn:E;
    pose proof E as E'; vm_compute in E'; [|discriminate].
  exists h', tm', e. split; [reflexivity|].
  exact (ledger_leak_on_collision storeX tmX "a" "b" "c" "sub-2" 2%positive 0 sub_a2 topicX h' tm' e
           eq_refl eq_refl eq_refl eq_refl E).
Defined.

End TopicManager.
