(* ===== verification/Registry.v ===== *)
(** * Registry: the topic manager against its abstract specification

    What [TopicManager] promises its callers is a two-level map: for
    each tenant and topic name, the set of IDs of the topic's
    subscribers.  The code keeps one flat map keyed by
    [makeTopicKey tenant name] (topic.go lines 204-206).  [abs] is the
    two-level map, [publish_spec], [subscribe_spec] and
    [unsubscribe_spec] its operations, and [refines tm A] says that
    the registry of [tm] shows the map [A] to every colon-free tenant.
    [registry_refines] is the simulation: each of [Publish],
    [Subscribe] and [Unsubscribe] takes a registry refining [A] to one
    refining the specified update of [A]. *)

From S2P Require Import Prelude Message Topic TopicManager.

Module Registry.

(** The abstract registry. *)
Abbreviation abs := (gmap (string * string) (gset string)).

(** A publish creates the topic when it is missing. *)
Definition publish_spec (A : abs) (tenant name : string) : abs :=
  <[(tenant, name) := default ∅ (A !! (tenant, name))]> A.

(** A subscription adds the ID, creating the topic when it is missing. *)
Definition subscribe_spec (A : abs) (tenant name id : string) : abs :=
  <[(tenant, name) := {[id]} ∪ default ∅ (A !! (tenant, name))]> A.

(** An unsubscription removes the ID from an existing topic. *)
Definition unsubscribe_spec (A : abs) (tenant name id : string) : abs :=
  match A !! (tenant, name) with
  | Some s => <[(tenant, name) := s ∖ {[id]}]> A
  | None => A
  end.

(** What the registry shows a tenant for a topic name. *)
Definition view (tm : TopicManager.t) (tenant name : string) : option (gset string) :=
  (fun tp => dom tp.(Topic.subscribers)) <$> tm.(TopicManager.topics) !! TopicManager.makeTopicKey tenant name.

Definition refines (tm : TopicManager.t) (A : abs) : Prop :=
  forall tenant name, TopicManager.no_colon tenant = true -> view tm tenant name = A !! (tenant, name).

Lemma refines_empty bm th : refines (TopicManager.NewTopicManager bm th) ∅.
Proof. intros tenant name _. unfold view. simpl. by rewrite !lookup_empty. Qed.

Lemma refines_topics tm tm' A :
  tm'.(TopicManager.topics) = tm.(TopicManager.topics) -> refines tm A -> refines tm' A.
Proof. intros Ht HR tenant name Hn. unfold view. rewrite Ht. exact (HR _ _ Hn). Qed.

(** Storing a topic at the key of a colon-free tenant changes what that
    tenant sees for that name, and nothing else. *)
Lemma refines_set tm A tenant name tp s :
  refines tm A -> TopicManager.no_colon tenant = true -> dom tp.(Topic.subscribers) = s ->
  refines (TopicManager.set_topic tm (TopicManager.makeTopicKey tenant name) tp) (<[(tenant, name) := s]> A).
Proof.
  intros HR Hn Hs tenant' name' Hn'. unfold view, TopicManager.set_topic. simpl.
  destruct (decide ((tenant', name') = (tenant, name))) as [Heq|Hne].
  - invc Heq. rewrite lookup_insert_eq. simpl. by rewrite lookup_insert_eq.
  - rewrite (lookup_insert_ne A) by done. rewrite lookup_insert_ne; [exact (HR _ _ Hn')|].
    intros Hk. apply Hne. destruct (TopicManager.makeTopicKey_inj _ _ _ _ Hn Hn' Hk) as [-> ->]. done.
Qed.

(** Subscribing an ID that is not yet in a topic and unsubscribing it
    again leaves the specification as a publish leaves it: the topic
    exists with its former members. *)
Lemma subscribe_unsubscribe_spec A tenant name id :
  id ∉ default ∅ (A !! (tenant, name)) ->
  unsubscribe_spec (subscribe_spec A tenant name id) tenant name id = publish_spec A tenant name.
Proof.
  intros Hid. unfold unsubscribe_spec, subscribe_spec, publish_spec.
  rewrite lookup_insert_eq, insert_insert_eq. f_equal. set_solver.
Qed.

(** An ID no topic of the registry holds is in no set of the
    specification the registry refines. *)
Lemma refines_fresh tm A tenant name id :
  refines tm A -> TopicManager.no_colon tenant = true -> TopicManager.fresh_id tm id ->
  id ∉ default ∅ (A !! (tenant, name)).
Proof.
  intros HR Hn Hf. rewrite <- (HR tenant name Hn). unfold view.
  destruct (TopicManager.topics tm !! _) as [tp|] eqn:Hk; simpl; [|set_solver].
  apply not_elem_of_dom. exact (Hf _ _ Hk).
Qed.

Section WithApi.
Context {Sub : Type} `{!SubscriberApi Sub}.
Implicit Types (h : gmap positive Sub).

Lemma Publish_refines h tm A tenant name msg now h' tm' :
  refines tm A -> TopicManager.no_colon tenant = true ->
  TopicManager.Publish h tm tenant name msg now = Ret (h', tm') -> refines tm' (publish_spec A tenant name).
Proof.
  intros HR Hn HP. destruct (TopicManager.Publish_cases _ _ _ _ _ _ _ _ HP) as (key & tp & tp' & Hg & HTP & ->).
  destruct (TopicManager.getOrCreateTopic_spec _ _ _ _ _ _ _ Hg) as (-> & _ & Hcase).
  destruct (Topic.Publish_tp _ _ _ _ _ HTP) as (Hs & _).
  apply refines_set; [done|done|]. rewrite Hs. specialize (HR tenant name Hn). unfold view in HR.
  destruct Hcase as [Hk|(Hk & _ & _ & He)]; rewrite Hk in HR; simpl in HR; rewrite <- HR; simpl; [done|].
  by rewrite He, dom_empty_L.
Qed.

Lemma Subscribe_refines h tm A tenant name id r now s h' tm' e :
  TopicManager.tm_wf h tm -> TopicManager.colon_free tm -> refines tm A -> TopicManager.no_colon tenant = true ->
  h !! r = Some s -> TopicManager.Subscribe h tm tenant name id r now = Ret (h', tm', e) ->
  refines tm' (if decide (sub_TenantID s = tenant) then subscribe_spec A tenant name (sub_ID s) else A).
Proof.
  intros Hwf Hcol HR Hn Hr HS.
  destruct (TopicManager.Subscribe_cases _ _ _ _ _ _ _ _ _ _ HS)
    as [(s' & Hr' & Hne & _ & -> & _)|(s' & key & tp & tp' & e0 & Hr' & Ht & Hg & HTS & -> & _)];
    rewrite Hr in Hr'; invc Hr'; [by rewrite decide_False|].
  rewrite decide_True by done.
  destruct (TopicManager.getOrCreateTopic_wf _ _ _ _ _ _ _ _ Hwf Hg) as (_ & _ & Hf).
  destruct (Hf Hcol Hn) as [Htt _].
  destruct (TopicManager.getOrCreateTopic_spec _ _ _ _ _ _ _ Hg) as (-> & _ & Hcase).
  destruct (Topic.Subscribe_ok h tp r s' Hr) as (tp'' & HS' & Hs'' & _); [by rewrite Htt|].
  rewrite HTS in HS'. invc HS'.
  apply refines_set; [|done|].
  - apply (refines_topics tm); [done|exact HR].
  - rewrite Hs'', dom_insert_L. f_equal. specialize (HR (sub_TenantID s') name Hn). unfold view in HR.
    destruct Hcase as [Hk|(Hk & _ & _ & He)]; rewrite Hk in HR; simpl in HR; rewrite <- HR; simpl; [done|].
    by rewrite He, dom_empty_L.
Qed.

Lemma Unsubscribe_refines h tm A tenant name id h' tm' e :
  refines tm A -> TopicManager.no_colon tenant = true ->
  TopicManager.Unsubscribe h tm tenant name id = Ret (h', tm', e) -> refines tm' (unsubscribe_spec A tenant name id).
Proof.
  intros HR Hn HU. pose proof (HR tenant name Hn) as Hv. unfold view in Hv. unfold unsubscribe_spec.
  destruct (TopicManager.Unsubscribe_tm_cases _ _ _ _ _ _ _ _ HU)
    as [(Hk & -> & -> & _)|(tp & tp' & e0 & Hk & HTU & Hcase)].
  { rewrite Hk in Hv. simpl in Hv. by rewrite <- Hv. }
  rewrite Hk in Hv. simpl in Hv. rewrite <- Hv.
  assert (Hset : refines (TopicManager.set_topic tm (TopicManager.makeTopicKey tenant name) tp')
                   (<[(tenant, name) := dom tp.(Topic.subscribers) ∖ {[id]}]> A)).
  { apply refines_set; [done|done|].
    destruct (Topic.Unsubscribe_cases _ _ _ _ _ _ HTU) as [(Hid & _ & -> & _)|(r & _ & Hs & _)].
    - apply set_eq. intros x. rewrite elem_of_difference, elem_of_singleton. split; [|tauto].
      intros Hx. split; [done|]. intros ->. apply elem_of_dom in Hx as [? Hx]. congruence.
    - by rewrite Hs, dom_delete_L. }
  destruct Hcase as [(_ & _ & ->)|(e1 & _ & _ & ->)]; [|exact Hset].
  apply (refines_topics _ _ _ eq_refl Hset).
Qed.

(** C11: the flat registry keyed by ["tenant:name"] implements the
    two-level map of tenants and topic names to subscriber IDs, for
    tenants without a colon: from a registry refining [A], [Publish]
    gives one refining [publish_spec A], [Subscribe] of a subscriber of
    the caller's tenant one refining [subscribe_spec A] (and a refused
    subscriber leaves [A]), and [Unsubscribe] one refining
    [unsubscribe_spec A]. *)
Theorem registry_refines h tm A tenant name :
  TopicManager.tm_wf h tm -> TopicManager.colon_free tm -> refines tm A -> TopicManager.no_colon tenant = true ->
  (forall msg now h' tm', TopicManager.Publish h tm tenant name msg now = Ret (h', tm') ->
     refines tm' (publish_spec A tenant name)) /\
  (forall id r now s h' tm' e, h !! r = Some s -> TopicManager.Subscribe h tm tenant name id r now = Ret (h', tm', e) ->
     refines tm' (if decide (sub_TenantID s = tenant) then subscribe_spec A tenant name (sub_ID s) else A)) /\
  (forall id h' tm' e, TopicManager.Unsubscribe h tm tenant name id = Ret (h', tm', e) ->
     refines tm' (unsubscribe_spec A tenant name id)).
Proof.
  intros Hwf Hcol HR Hn. split; [|split].
  - intros *. exact (Publish_refines _ _ _ _ _ _ _ _ _ HR Hn).
  - intros * Hr. exact (Subscribe_refines _ _ _ _ _ _ _ _ _ _ _ _ Hwf Hcol HR Hn Hr).
  - intros *. exact (Unsubscribe_refines _ _ _ _ _ _ _ _ _ HR Hn).
Qed.

End WithApi.

(** The registry of [TopicManager.tmA] and the map it refines. *)
Definition A0 : abs := <[("default-tenant", "t1") := {["sub-1"]}]> ∅.

Lemma registry_refines_witness :
  TopicManager.tm_wf TopicManager.storeA TopicManager.tmA /\ TopicManager.colon_free TopicManager.tmA /\
  refines TopicManager.tmA A0 /\
  (forall id h' tm' e,
     TopicManager.Unsubscribe TopicManager.storeA TopicManager.tmA "default-tenant" "t1" id = Ret (h', tm', e) ->
     refines tm' (unsubscribe_spec A0 "default-tenant" "t1" id)).
Proof.
  assert (Hwf : TopicManager.tm_wf TopicManager.storeA TopicManager.tmA) by eval_decide.
  assert (Hcol : TopicManager.colon_free TopicManager.tmA) by eval_decide.
  assert (HR : refines TopicManager.tmA A0).
  { apply (refines_set (TopicManager.NewTopicManager TopicManager.bm0 TopicManager.th0) ∅ _ _ TopicManager.topicA);
      [apply refines_empty|reflexivity|vm_compute; reflexivity]. }
  split; [exact Hwf|]. split; [exact Hcol|]. split; [exact HR|].
  exact (proj2 (proj2 (registry_refines _ _ _ "default-tenant" "t1" Hwf Hcol HR eq_refl))).
Defined.

End Registry.
