(* ===== verification/Locking.v ===== *)
(** * Locking: the topic manager's [sync.RWMutex] and who takes it

    [TopicManager] guards its registry with [mu sync.RWMutex]
    (src/internal/core/topic.go).  This file models the lock and the
    sequence of lock operations each method performs, and runs the
    methods as goroutines over one lock.

    [RWMutex] follows the documented semantics of Go's [sync.RWMutex]:
    [RLock] blocks while a writer holds the lock or waits for it (a
    waiting writer excludes new readers), [Lock] first excludes other
    writers and announces itself ([ILock]), then waits until the
    readers already inside have left ([IAwait]).  The lock is library
    code; the programs [*_locks] are read off the source.

    Two results: [GetMetrics] read-locks [mu] and, still holding it,
    calls [GetTotalSubscriberCount], which read-locks it again; with a
    [getOrCreateTopic] that creates a topic in between, both block for
    ever and so does every later user of the registry
    ([metrics_deadlock]).  Every other method takes [mu] in
    non-nested sections ([locks_of_sections]), and any number of
    goroutines running calls of these methods always finish
    ([methods_terminate]). *)

From S2P Require Import Prelude.

Module RWMutex.

Inductive wstate : Type := NoWriter | Pending | Active.

#[global] Instance wstate_eq_dec : EqDecision wstate.
Proof. solve_decision. Defined.

(** The readers inside and the state of the writer. *)
Record t : Type := mk { readers : nat; writer : wstate }.

Definition unlocked : t := mk 0 NoWriter.

(** The lock operations: [Lock] is [ILock] (announce) then [IAwait]
    (wait for the readers inside). *)
Inductive instr : Type := IRLock | IRUnlock | ILock | IAwait | IUnlock.

#[global] Instance instr_eq_dec : EqDecision instr.
Proof. solve_decision. Defined.

(** [Some m'] when the operation proceeds, [None] while it blocks.
    ([RUnlock] without a reader inside, a fatal error in Go, does not
    occur in the programs below.) *)
Definition exec_instr (m : t) (i : instr) : option t :=
  match i with
  | IRLock => match m.(writer) with NoWriter => Some (mk (S m.(readers)) NoWriter) | _ => None end
  | IRUnlock => Some (mk (m.(readers) - 1) m.(writer))
  | ILock => match m.(writer) with NoWriter => Some (mk m.(readers) Pending) | _ => None end
  | IAwait => if decide (m.(readers) = 0%nat) then Some (mk 0 Active) else None
  | IUnlock => Some (mk m.(readers) NoWriter)
  end.

End RWMutex.

Import RWMutex.

Module Locks.

(** The lock operations of the methods of [TopicManager] on [tm.mu]. *)
Definition read_section : list instr := [IRLock; IRUnlock].
Definition write_section : list instr := [ILock; IAwait; IUnlock].

(** [GetTotalSubscriberCount], [GetSlowSubscriberCount],
    [GetTopicCount], [GetTopic] and the lookup of [Unsubscribe]: one
    read section each. *)
Definition GetTotalSubscriberCount_locks : list instr := read_section.
Definition GetSlowSubscriberCount_locks : list instr := read_section.
Definition GetTopicCount_locks : list instr := read_section.
Definition GetTopic_locks : list instr := read_section.
Definition Unsubscribe_locks : list instr := read_section.

(** [getOrCreateTopic]: the read-locked lookup, and when the key is
    missing the write-locked creation. *)
Definition getOrCreateTopic_locks (exists_ : bool) : list instr :=
  if exists_ then read_section else read_section ++ write_section.

(** One tick of [monitoLoop]. *)
Definition monitor_locks : list instr := GetTotalSubscriberCount_locks ++ GetSlowSubscriberCount_locks.

(** [ShutDown]: the write-locked closing loop. *)
Definition ShutDown_locks : list instr := write_section.

(** [GetMetrics]: [RLock], then the two counters while holding it, then
    the deferred [RUnlock]. *)
Definition GetMetrics_locks : list instr :=
  [IRLock] ++ GetTotalSubscriberCount_locks ++ GetSlowSubscriberCount_locks ++ [IRUnlock].

(** The methods of [TopicManager] that take [tm.mu], with what decides
    their path: whether the key already exists for [getOrCreateTopic]
    (and so for [Publish] and [Subscribe]), and whether [Subscribe]
    passes its tenant check, which comes before any locking. *)
Inductive method : Type :=
| MPublish (exists_ : bool)
| MSubscribe (tenant_ok exists_ : bool)
| MUnsubscribe
| MGetTopic
| MGetTopicCount
| MGetTotalSubscriberCount
| MGetSlowSubscriberCount
| MMonitorTick
| MShutDown
| MGetMetrics.

(** The lock operations of a call of each method. *)
Definition locks_of (m : method) : list instr :=
  match m with
  | MPublish b => getOrCreateTopic_locks b
  | MSubscribe ok b => if ok then getOrCreateTopic_locks b else []
  | MUnsubscribe => Unsubscribe_locks
  | MGetTopic => GetTopic_locks
  | MGetTopicCount => GetTopicCount_locks
  | MGetTotalSubscriberCount => GetTotalSubscriberCount_locks
  | MGetSlowSubscriberCount => GetSlowSubscriberCount_locks
  | MMonitorTick => monitor_locks
  | MShutDown => ShutDown_locks
  | MGetMetrics => GetMetrics_locks
  end.

End Locks.

Module LockSys.

(** The lock and the remaining lock operations of each goroutine. *)
Record t : Type := mk { mutex : RWMutex.t; threads : list (list instr) }.

Definition init (ts : list (list instr)) : t := mk unlocked ts.

(** Goroutine [i] performs its next operation. *)
Definition step_at (S : t) (i : nat) : option t :=
  match S.(threads) !! i with
  | Some (x :: rest) =>
      match exec_instr S.(mutex) x with
      | Some m' => Some (mk m' (<[i := rest]> S.(threads)))
      | None => None
      end
  | _ => None
  end.

Inductive step : t -> t -> Prop :=
| Step S i S' : step_at S i = Some S' -> step S S'.

Definition finished (S : t) : Prop := Forall (fun p => p = []) S.(threads).

(** No goroutine can move. *)
Definition stuck (S : t) : Prop := forall i, step_at S i = None.

Definition stuck_b (S : t) : bool :=
  forallb (fun i => match step_at S i with None => true | Some _ => false end) (seq 0 (length S.(threads))).

(** Runs the goroutines in the order [sched] names them. *)
Fixpoint run (S : t) (sched : list nat) : option t :=
  match sched with
  | [] => Some S
  | i :: rest => match step_at S i with Some S' => run S' rest | None => None end
  end.

End LockSys.

Module LockProofs.
Import LockSys.

Lemma run_sound S sched S' : run S sched = Some S' -> rtc step S S'.
Proof.
  revert S. induction sched as [|i rest IH]; intros S Hr; simpl in Hr; [by invc Hr|].
  destruct (step_at S i) as [S1|] eqn:E; [|done].
  eapply rtc_l; [by econstructor|]. exact (IH _ Hr).
Qed.

Lemma stuck_b_spec S : stuck_b S = true -> stuck S.
Proof.
  unfold stuck_b. rewrite forallb_forall. intros H i.
  destruct (decide (i < length S.(threads))%nat) as [Hi|Hi].
  - specialize (H i ltac:(apply in_seq; lia)). by destruct (step_at S i).
  - unfold step_at. rewrite lookup_ge_None_2; [done|lia].
Qed.

(** C15: [GetMetrics] read-locks [tm.mu] twice: when [getOrCreateTopic]
    creating a topic asks for the write lock between the two read
    locks, [GetMetrics] waits for the writer and the writer for
    [GetMetrics]; neither finishes, and the lock they leave lets no
    further [RLock] or [Lock] through, so every later publish, subscription,
    unsubscription and monitor tick blocks as well. *)
Theorem metrics_deadlock :
  exists S, rtc step (init [Locks.GetMetrics_locks; Locks.getOrCreateTopic_locks false]) S /\
    ~ finished S /\ stuck S /\ exec_instr S.(mutex) IRLock = None /\ exec_instr S.(mutex) ILock = None.
Proof.
  destruct (run (init [Locks.GetMetrics_locks; Locks.getOrCreateTopic_locks false]) [0; 1; 1; 1]%nat)
    as [S|] eqn:E; [|vm_compute in E; discriminate].
  exists S. split; [exact (run_sound _ _ _ E)|]. vm_compute in E. invc E.
  split; [unfold finished; simpl; rewrite Forall_cons; intros [H _]; discriminate|].
  split; [apply stuck_b_spec; vm_compute; reflexivity|]. split; reflexivity.
Qed.

(** ** Non-nested sections always finish *)

(** A program made of read sections and write sections. *)
Inductive sections : list instr -> Prop :=
| SecNil : sections []
| SecRead p : sections p -> sections (IRLock :: IRUnlock :: p)
| SecWrite p : sections p -> sections (ILock :: IAwait :: IUnlock :: p).

(** Where a goroutine running sections can be: between sections, inside
    a read section, waiting as a writer, or holding the write lock. *)
Definition pos_ok (p : list instr) : Prop :=
  sections p \/ (exists q, p = IRUnlock :: q /\ sections q) \/
  (exists q, p = IAwait :: IUnlock :: q /\ sections q) \/ (exists q, p = IUnlock :: q /\ sections q).

Definition in_read (p : list instr) : nat := match p with IRUnlock :: _ => 1 | _ => 0 end.
Definition pending (p : list instr) : nat := match p with IAwait :: _ => 1 | _ => 0 end.
Definition active (p : list instr) : nat := match p with IUnlock :: _ => 1 | _ => 0 end.

(** The lock counts the goroutines inside read sections, and its
    writer state is that of the one goroutine waiting for or holding
    the write lock. *)
Definition linv (S : LockSys.t) : Prop :=
  Forall pos_ok S.(threads) /\ S.(mutex).(readers) = sum_list_with in_read S.(threads) /\
  match S.(mutex).(writer) with
  | NoWriter => sum_list_with pending S.(threads) = 0%nat /\ sum_list_with active S.(threads) = 0%nat
  | Pending => sum_list_with pending S.(threads) = 1%nat /\ sum_list_with active S.(threads) = 0%nat
  | Active => sum_list_with pending S.(threads) = 0%nat /\ sum_list_with active S.(threads) = 1%nat /\
              S.(mutex).(readers) = 0%nat
  end.

Lemma sum_insert {A} (f : A -> nat) (l : list A) i x y :
  l !! i = Some x -> (sum_list_with f (<[i := y]> l) + f x = sum_list_with f l + f y)%nat.
Proof.
  revert i. induction l as [|a l IH]; intros [|i] Hi; simpl in *; try done.
  - invc Hi. lia.
  - specialize (IH _ Hi). lia.
Qed.

Lemma sum_le {A} (f : A -> nat) (l : list A) i x : l !! i = Some x -> (f x <= sum_list_with f l)%nat.
Proof.
  revert i. induction l as [|a l IH]; intros [|i] Hi; simpl in *; try done.
  - invc Hi. lia.
  - specialize (IH _ Hi). lia.
Qed.

Lemma sum_zero {A} (f : A -> nat) (l : list A) : Forall (fun p => f p = 0%nat) l -> sum_list_with f l = 0%nat.
Proof. induction 1; simpl; lia. Qed.

Lemma sections_head p : sections p -> in_read p = 0%nat /\ pending p = 0%nat /\ active p = 0%nat.
Proof. by destruct 1. Qed.

Lemma linv_init ts : Forall sections ts -> linv (init ts).
Proof.
  intros Hs. assert (H0 : forall f, (forall p, sections p -> f p = 0%nat) -> sum_list_with f ts = 0%nat).
  { intros f Hf. apply sum_zero. eapply Forall_impl; [exact Hs|]. exact Hf. }
  split; [eapply Forall_impl; [exact Hs|]; intros p Hp; by left|].
  simpl. split; [symmetry; apply H0; apply sections_head|].
  split; apply H0; apply sections_head.
Qed.

Lemma linv_step S S' : linv S -> step S S' -> linv S'.
Proof.
  intros Hinv Hs. invc Hs. destruct S as [[rd w] ts]. destruct Hinv as (Hpos & Hr & Hw). unfold step_at in H.
  simpl in *.
  destruct (ts !! i) as [[|x rest]|] eqn:Hi; try done.
  destruct (exec_instr (RWMutex.mk rd w) x) as [m'|] eqn:Hx; [|done]. invc H.
  pose proof (proj1 (Forall_lookup _ _) Hpos _ _ Hi) as Hp.
  pose proof (sum_insert in_read _ _ _ rest Hi) as Sr. pose proof (sum_insert pending _ _ _ rest Hi) as Sp.
  pose proof (sum_insert active _ _ _ rest Hi) as Sa.
  pose proof (sum_le in_read _ _ _ Hi) as Lr. pose proof (sum_le pending _ _ _ Hi) as Lp.
  pose proof (sum_le active _ _ _ Hi) as La.
  assert (Hpos' : forall q, pos_ok q -> Forall pos_ok (<[i := q]> (ts)))
    by (intros q Hq; by apply Forall_insert).
  destruct Hp as [Hp|[(q & Hq & Hp)|[(q & Hq & Hp)|(q & Hq & Hp)]]]; [inversion Hp; subst| | |]; simplify_eq.
  - destruct w; invc Hx; simpl in *; (split; [apply Hpos'; right; left; eauto|]); cbn in *; lia.
  - destruct w; invc Hx; simpl in *; (split; [apply Hpos'; right; right; left; eauto|]); cbn in *; lia.
  - invc Hx. pose proof (sections_head _ Hp) as (H1 & H2 & H3).
    split; [apply Hpos'; by left|]. cbn in *. destruct w; lia.
  - simpl in Hx. case_decide; invc Hx. pose proof (sections_head _ Hp) as (H1 & H2 & H3).
    split; [apply Hpos'; right; right; right; eauto|]. cbn in *. destruct w; lia.
  - invc Hx. pose proof (sections_head _ Hp) as (H1 & H2 & H3).
    split; [apply Hpos'; by left|]. cbn in *. destruct w; lia.
Qed.


Lemma step_of S i x rest m' :
  S.(threads) !! i = Some (x :: rest) -> exec_instr S.(mutex) x = Some m' -> exists S', step S S'.
Proof. intros Hi Hx. eexists. econstructor. unfold step_at. rewrite Hi, Hx. reflexivity. Qed.

Lemma no_head (f : list instr -> nat) ts :
  ~ Exists (fun p => f p = 1%nat) ts -> (forall p, f p = 0%nat \/ f p = 1%nat) -> sum_list_with f ts = 0%nat.
Proof.
  intros Hn Hf. apply sum_zero, Forall_forall. intros p Hp. destruct (Hf p) as [H|H]; [done|].
  exfalso. apply Hn, Exists_exists. eauto.
Qed.

Lemma Exists_at {A} (P : A -> Prop) l : Exists P l -> exists i x, l !! i = Some x /\ P x.
Proof. intros HP. apply Exists_exists in HP as (x & Hin & Hx). apply list_elem_of_lookup_1 in Hin as (i & Hi). eauto. Qed.

Lemma Exists_of {A} (P : A -> Prop) l i x : l !! i = Some x -> P x -> Exists P l.
Proof. intros Hi Hx. apply Exists_exists. exists x. split; [by eapply list_elem_of_lookup_2|done]. Qed.

(** A goroutine inside a read section can leave it, a waiting writer
    can enter when no reader is inside, the writer can leave, and when
    none of these is the case the lock is free. *)
Lemma linv_progress S : linv S -> ~ finished S -> exists S', step S S'.
Proof.
  destruct S as [[rd w] ts]. intros (Hpos & Hr & Hw) Hnf. unfold finished in Hnf. simpl in *.
  destruct (decide (Exists (fun p => in_read p = 1%nat) ts)) as [Hex|Hn1].
  { destruct (Exists_at _ _ Hex) as (i & [|[] q] & Hi & Hp); try discriminate. eapply step_of; [exact Hi|reflexivity]. }
  assert (Hr0 : rd = 0%nat) by (rewrite Hr; apply no_head; [done|intros [|[] ?]; simpl; lia]).
  destruct (decide (Exists (fun p => pending p = 1%nat) ts)) as [Hex|Hn2].
  { destruct (Exists_at _ _ Hex) as (i & [|[] q] & Hi & Hp); try discriminate.
    eapply step_of; [exact Hi|]. simpl. by rewrite decide_True. }
  destruct (decide (Exists (fun p => active p = 1%nat) ts)) as [Hex|Hn3].
  { destruct (Exists_at _ _ Hex) as (i & [|[] q] & Hi & Hp); try discriminate. eapply step_of; [exact Hi|reflexivity]. }
  assert (Hp0 : sum_list_with pending ts = 0%nat) by (apply no_head; [done|intros [|[] ?]; simpl; lia]).
  assert (Ha0 : sum_list_with active ts = 0%nat) by (apply no_head; [done|intros [|[] ?]; simpl; lia]).
  assert (w = NoWriter) as -> by (destruct w; [done|lia|lia]).
  apply not_Forall_Exists in Hnf; [|intros x; apply _]. destruct (Exists_at _ _ Hnf) as (i & p & Hi & Hp).
  destruct (proj1 (Forall_lookup _ _) Hpos _ _ Hi) as [Hs|[(q & -> & _)|[(q & -> & _)|(q & -> & _)]]].
  - destruct Hs as [|q|q]; [exfalso; apply Hp; reflexivity| |]; (eapply step_of; [exact Hi|reflexivity]).
  - exfalso. apply Hn1. exact (Exists_of _ _ _ _ Hi eq_refl).
  - exfalso. apply Hn2. exact (Exists_of _ _ _ _ Hi eq_refl).
  - exfalso. apply Hn3. exact (Exists_of _ _ _ _ Hi eq_refl).
Qed.

(** Each step uses up one lock operation. *)
Definition measure (S : LockSys.t) : nat := sum_list_with length S.(threads).

Lemma step_measure S S' : step S S' -> (measure S' < measure S)%nat.
Proof.
  intros Hs. invc Hs. unfold step_at in H. destruct (threads S !! i) as [[|x rest]|] eqn:Hi; try done.
  destruct (exec_instr _ x); [|done]. invc H. unfold measure. simpl.
  pose proof (sum_insert length _ _ _ rest Hi). simpl in *. lia.
Qed.

Lemma step_acc S : Acc (fun b a => step a b) S.
Proof.
  remember (measure S) as n eqn:E. revert S E. induction n as [n IH] using lt_wf_ind.
  intros S ->. constructor. intros S' Hs. exact (IH _ (step_measure _ _ Hs) _ eq_refl).
Qed.

Lemma GetMetrics_nested : ~ sections Locks.GetMetrics_locks.
Proof. intros H. inversion H. Qed.

(** Goroutines whose lock operations are non-nested sections finish
    under every schedule: no schedule is infinite, and a schedule can
    only stop when every goroutine is done. *)
Lemma sections_terminate_gen ts :
  Forall sections ts ->
  Acc (fun b a => step a b) (init ts) /\ (forall S, rtc step (init ts) S -> stuck S -> finished S).
Proof.
  intros Hs. split; [apply step_acc|]. intros S Hr Hst.
  assert (Hinv : linv S).
  { apply (rtc_preserved step linv (init ts) S); [intros a b Ha Hab; exact (linv_step _ _ Ha Hab)|by apply linv_init|done]. }
  destruct (decide (finished S)) as [|Hnf]; [done|].
  destruct (linv_progress _ Hinv Hnf) as (S' & Hs'). invc Hs'. by rewrite Hst in H.
Qed.

(** Every method but [GetMetrics] takes [tm.mu] in non-nested
    sections. *)
Lemma locks_of_sections m : m <> Locks.MGetMetrics -> sections (Locks.locks_of m).
Proof.
  intros Hm. destruct m as [[]|[] []| | | | | | | |]; simpl; try done;
    repeat constructor.
Qed.

(** C16: any number of goroutines, each running one call of a method of
    [TopicManager] other than [GetMetrics] ([Publish], [Subscribe] on
    either path, [Unsubscribe], the getters, a monitor tick,
    [ShutDown]), finish under every schedule of their operations on
    [tm.mu]: no schedule is infinite, and a schedule stops only when
    every call has released the lock and returned. *)
Theorem methods_terminate ms :
  Forall (fun m => m <> Locks.MGetMetrics) ms ->
  Acc (fun b a => step a b) (init (Locks.locks_of <$> ms)) /\
  (forall S, rtc step (init (Locks.locks_of <$> ms)) S -> stuck S -> finished S).
Proof.
  intros Hms. apply sections_terminate_gen. apply Forall_fmap.
  eapply Forall_impl; [exact Hms|]. intros m Hm. exact (locks_of_sections m Hm).
Qed.

Lemma methods_terminate_witness :
  Forall (fun m => m <> Locks.MGetMetrics)
    [Locks.MMonitorTick; Locks.MPublish false; Locks.MShutDown; Locks.MUnsubscribe; Locks.MSubscribe true true] /\
  Acc (fun b a => step a b)
    (init (Locks.locks_of <$> [Locks.MMonitorTick; Locks.MPublish false; Locks.MShutDown; Locks.MUnsubscribe;
                               Locks.MSubscribe true true])).
Proof.
  assert (H : Forall (fun m => m <> Locks.MGetMetrics)
    [Locks.MMonitorTick; Locks.MPublish false; Locks.MShutDown; Locks.MUnsubscribe; Locks.MSubscribe true true])
    by (repeat constructor; discriminate).
  split; [exact H|exact (proj1 (methods_terminate _ H))].
Defined.

End LockProofs.
