(* ===== verification/Handlers.v ===== *)
(** * Handlers: the HTTP publish, WebSocket subscribe and health adapters

    Models [PublishHandler.ServeHTTP] and [SubscriberHandler.ServeHTTP]
    of src/internal/handlers/publish.go (lines 1-157; the file holds
    publish.go and subscribe.go).  The JSON decoding of the body and the
    WebSocket upgrade are library calls: the model takes their results
    as inputs ([body] is [None] when [Decode] fails, [accept_ok] says
    whether [websocket.Accept] succeeded).

    [main] (src/unnamed/part_001) hands the same throttler to the
    publish handler and to the topic manager, and the same buffer
    manager to the subscribe handler and to the topic manager: the
    handlers therefore read and update [tm.(throttler)] and
    [tm.(bufferManager)], the one copy of each.

    The subscribe handler blocks between [TopicManager.Subscribe] and
    [TopicManager.Unsubscribe] until the subscriber's context is done;
    it is split into [subscribe_start] and [subscribe_finish], which the
    system model of System.v runs as two steps.  The handler waits on
    [subscriber.Context().Done()]; subscriber.go defines no [Context]
    method, and the model reads the subscriber's own context, the one
    [Close] cancels.

    [publish_roundtrip] follows a publish answered 200 through the
    manager, the topic's fan-out and each subscriber's enqueue protocol
    to the message left in the subscribers' inboxes.
    [subscription_lifecycle] composes the two halves with the
    registry's specification of Registry.v: a subscription followed by
    its end leaves the registry as a publish would.

    [HealthHandler.ServeHTTP] (src/internal/handlers/health.go) reads
    the topic and subscriber counts of the shared topic manager; the
    clock, the goroutine count and the memory statistics are inputs. *)

From S2P Require Import Prelude Message RecentCache GoRuntime Subscriber BufferManager Throttler Topic TopicManager Registry.
From Stdlib Require Import QArith.
Open Scope Z_scope.

Module PublishHandler.

(** [type Publishrequest struct]. *)
Record Publishrequest : Type := mkReq {
  Topic : string;
  Data : option (list (string * json))
}.

(** [type PublishResponse struct] with the status code it is sent with. *)
Record PublishResponse : Type := mkResp {
  status : Z;
  Success : bool;
  MessageId : string;
  Error : string
}.

(** What [ServeHTTP] reads of the request: the method, the
    ["tenantId"] context value when it is a string, and the decoded
    body. *)
Record request : Type := mkRequest {
  Method : string;
  tenantCtx : option string;
  body : option Publishrequest
}.

(** [respondError] and [respondSuccess]. *)
Definition respondError (message : string) (statusCode : Z) : PublishResponse :=
  mkResp statusCode false "" message.

Definition respondSuccess (messageID : string) : PublishResponse :=
  mkResp 200 true messageID "".

(** [tenant_id, ok := r.Context().Value("tenantId").(string)], with the
    default when it is absent or empty. *)
Definition resolve_tenant (ctx : option string) : string :=
  match ctx with
  | Some tenant_id => if decide (tenant_id = "") then "default-tenant" else tenant_id
  | None => "default-tenant"
  end.

Section WithClock.
Variable format_time : Z -> string.

(** [func (h *PublishHandler) ServeHTTP(w, r)] at clock [now], with
    [numGoroutines] goroutines and [alloc] bytes of heap for the
    throttler's probes: the new store and manager, the response, and
    the time the handler slept in [ApplyThrottle]. *)
Definition ServeHTTP (h : gmap positive (Subscriber.t * Subscriber.LoopState)) (tm : TopicManager.t)
    (r : request) (now numGoroutines alloc : Z)
    : outcome (gmap positive (Subscriber.t * Subscriber.LoopState) * TopicManager.t * PublishResponse * Z) :=
  if decide (r.(Method) <> "POST") then Ret (h, tm, respondError "Method Not Allowed" 405, 0)
  else
    let tenant_id := resolve_tenant r.(tenantCtx) in
    match r.(body) with
    | None => Ret (h, tm, respondError "Invalid request Body" 400, 0)
    | Some req =>
        if decide (req.(Topic) = "") then Ret (h, tm, respondError "Topic Needed" 400, 0)
        else match req.(Data) with
        | None => Ret (h, tm, respondError "DAta Needed" 400, 0)
        | Some data =>
            let '(th, throttle) := Throttler.ShouldThrottle tm.(TopicManager.throttler) now numGoroutines alloc in
            let delay := if throttle then Throttler.ApplyThrottle th else 0 in
            let tm1 := TopicManager.mk tm.(TopicManager.bufferManager) th tm.(TopicManager.topics)
                         tm.(TopicManager.shutDownClosed) in
            let msg := Message.NewMessage format_time (now + delay) (now + delay) req.(Topic) tenant_id (Some data) in
            let! '(h', tm') := TopicManager.Publish h tm1 tenant_id req.(Topic) msg (now + delay) in
            Ret (h', tm', respondSuccess msg.(Message.Id), delay)
        end
    end.

End WithClock.

(** ** What a publish request does to the manager and what it answers *)

(** The manager after a publish has the same buffer manager and the
    same number of subscribers. *)
Lemma ServeHTTP_total fmt h tm r now g a h' tm' resp d :
  ServeHTTP fmt h tm r now g a = Ret (h', tm', resp, d) ->
  tm'.(TopicManager.bufferManager) = tm.(TopicManager.bufferManager) /\
  TopicManager.GetTotalSubscriberCount tm' = TopicManager.GetTotalSubscriberCount tm.
Proof.
  unfold ServeHTTP. destruct (decide _); [intros Hr; by invc Hr|].
  destruct (body r) as [req|]; [|intros Hr; by invc Hr].
  destruct (decide _); [intros Hr; by invc Hr|].
  destruct (Data req) as [data|]; [|intros Hr; by invc Hr].
  destruct (Throttler.ShouldThrottle _ _ _ _) as [th throttle].
  intros Hr. destruct (obind_ret_inv _ _ _ Hr) as ([h1 tm1] & HP & Hr'). invc Hr'.
  destruct (TopicManager.Publish_total _ _ _ _ _ _ _ _ HP) as [-> ->]. split; [done|].
  by apply TopicManager.total_topics.
Qed.

Lemma GenerateId_ne fmt now : Message.GenerateId fmt now <> "".
Proof. unfold Message.GenerateId. rewrite string_app_cons. discriminate. Qed.

(** The answer section 6 of the specification asks for, from the
    request alone: 405 to a method other than POST, 400 to a body that
    does not decode or lacks the topic or the data (in the order the
    handler checks them, with its texts), and success otherwise. *)
Definition publish_error (r : request) : option (Z * string) :=
  if decide (r.(Method) <> "POST") then Some (405, "Method Not Allowed")
  else match r.(body) with
       | None => Some (400, "Invalid request Body")
       | Some req =>
           if decide (req.(Topic) = "") then Some (400, "Topic Needed")
           else match req.(Data) with
                | None => Some (400, "DAta Needed")
                | Some _ => None
                end
       end.

(** C17: the publish handler answers each request as the interface
    requires: a request [publish_error] refuses gets that status and
    text, with [success] false and no message ID, and leaves the store,
    the manager and the clock as they were; every other request gets
    200 with [success], a non-empty message ID and no error.  (The 500
    answer of the source follows a non-nil error of
    [TopicManager.Publish], whose Go body only ever returns nil.) *)
Theorem publish_response_spec fmt h tm r now g a h' tm' resp d :
  ServeHTTP fmt h tm r now g a = Ret (h', tm', resp, d) ->
  match publish_error r with
  | Some (code, text) => resp = respondError text code /\ h' = h /\ tm' = tm /\ d = 0
  | None => resp.(status) = 200 /\ resp.(Success) = true /\ resp.(MessageId) <> "" /\ resp.(Error) = ""
  end.
Proof.
  unfold ServeHTTP, publish_error. destruct (decide _); [intros Hr; by invc Hr|].
  destruct (body r) as [req|]; [|intros Hr; by invc Hr].
  destruct (decide _); [intros Hr; by invc Hr|].
  destruct (Data req) as [data|]; [|intros Hr; by invc Hr].
  destruct (Throttler.ShouldThrottle _ _ _ _) as [th throttle].
  intros Hr. destruct (obind_ret_inv _ _ _ Hr) as ([h1 tm1] & HP & Hr'). invc Hr'.
  simpl. repeat split; [apply GenerateId_ne].
Qed.

(** A successful publish request reached [TopicManager.Publish] with
    the message the handler built, on the manager whose throttler the
    handler updated. *)
Lemma ServeHTTP_ok fmt h tm r now g a h' tm' resp d :
  ServeHTTP fmt h tm r now g a = Ret (h', tm', resp, d) -> resp.(status) = 200 ->
  exists req data th msg,
    r.(body) = Some req /\ req.(Data) = Some data /\ msg.(Message.Id) = resp.(MessageId) /\
    msg.(Message.Topic) = req.(Topic) /\ msg.(Message.TenantID) = resolve_tenant r.(tenantCtx) /\
    msg.(Message.Data) = Some data /\
    TopicManager.Publish h (TopicManager.mk tm.(TopicManager.bufferManager) th tm.(TopicManager.topics)
                             tm.(TopicManager.shutDownClosed))
      (resolve_tenant r.(tenantCtx)) req.(Topic) msg (now + d) = Ret (h', tm').
Proof.
  unfold ServeHTTP. destruct (decide _); [intros Hr; by invc Hr|].
  destruct (body r) as [req|]; [|intros Hr; by invc Hr].
  destruct (decide _); [intros Hr; by invc Hr|].
  destruct (Data req) as [data|] eqn:Hd; [|intros Hr; by invc Hr].
  destruct (Throttler.ShouldThrottle _ _ _ _) as [th throttle].
  intros Hr _. destruct (obind_ret_inv _ _ _ Hr) as ([h1 tm1] & HP & Hr'). invc Hr'.
  match type of HP with TopicManager.Publish _ _ _ _ ?m _ = _ => exists req, data, th, m end.
  do 6 (split; [done|]). exact HP.
Qed.

(** C13: the publish round trip.  When the publish handler answers 200,
    the message it built carries the returned message ID, the
    requested topic and data and the caller's tenant, and every open
    subscriber of that topic with the default strategy and a non-zero
    inbox ends the request with that message last in its inbox. *)
Theorem publish_roundtrip fmt h tm r now g a h' tm' resp d :
  TopicManager.tm_wf h tm -> ServeHTTP fmt h tm r now g a = Ret (h', tm', resp, d) -> resp.(status) = 200 ->
  exists req data msg,
    r.(body) = Some req /\ req.(Data) = Some data /\ msg.(Message.Id) = resp.(MessageId) /\
    msg.(Message.Topic) = req.(Topic) /\ msg.(Message.TenantID) = resolve_tenant r.(tenantCtx) /\
    msg.(Message.Data) = Some data /\
    forall tp id x s l,
      tm.(TopicManager.topics) !! TopicManager.makeTopicKey (resolve_tenant r.(tenantCtx)) req.(Topic) = Some tp ->
      tp.(Topic.subscribers) !! id = Some x -> h !! x = Some (s, l) -> Subscriber.inv s ->
      s.(Subscriber.closeOnce) = false -> s.(Subscriber.dropStrategy) = Subscriber.DROP_OLDEST ->
      0 < s.(Subscriber.messageChan).(Chan.cap) ->
      exists y, h' !! x = Some y /\ last y.1.(Subscriber.messageChan).(Chan.buf) = Some msg.
Proof.
  intros Hwf Hr H200.
  destruct (ServeHTTP_ok _ _ _ _ _ _ _ _ _ _ _ Hr H200) as (req & data & th & msg & Hb & Hd & Hid & Ht & Hten & Hdata & HP).
  exists req, data, msg. do 6 (split; [done|]).
  intros tp id x s l Hk Hx Hs Hi Hco Hds Hcap.
  destruct (TopicManager.Publish_cases _ _ _ _ _ _ _ _ HP) as (key & tp0 & tp' & Hg & HTP & _).
  destruct (TopicManager.getOrCreateTopic_spec _ _ _ _ _ _ _ Hg) as (-> & _ & [Hk0|(Hk0 & _)]);
    simpl in Hk0; rewrite Hk in Hk0; invc Hk0.
  destruct (Topic.Publish_sends _ _ _ _ _ (proj2 (Hwf _ _ Hk)) HTP _ _ Hx) as (s0 & y & e & Hs0 & Hsend & Hy).
  rewrite Hs in Hs0. invc Hs0.
  destruct (Subscriber.SendMessages_oldest_last s msg Hi Hco Hds Hcap) as (s' & Hsm & Hlast).
  unfold sub_Send in Hsend; simpl in Hsend. unfold sub_send in Hsend. simpl in Hsend.
  rewrite Hsm in Hsend. simpl in Hsend. invc Hsend. eauto.
Qed.

(** A publish request on an empty server. *)
Definition tm_w : TopicManager.t := TopicManager.NewTopicManager TopicManager.bm0 TopicManager.th0.
Definition rq_w : request := mkRequest "POST" None (Some (mkReq "t1" (Some []))).

(** A request with an empty topic is refused with 400. *)
Definition rq_bad : request := mkRequest "POST" None (Some (mkReq "" (Some []))).

Lemma publish_response_spec_witness :
  exists h' tm' resp d, ServeHTTP (fun _ => "20250101-000000.000000") ∅ tm_w rq_bad 0 10 0 = Ret (h', tm', resp, d) /\
    resp = respondError "Topic Needed" 400 /\ h' = ∅ /\ tm' = tm_w /\ d = 0.
Proof.
  destruct (ServeHTTP (fun _ => "20250101-000000.000000") ∅ tm_w rq_bad 0 10 0) as [[[[h' tm'] resp] d]|] eqn:E;
    [|vm_compute in E; discriminate].
  exists h', tm', resp, d. split; [reflexivity|]. exact (publish_response_spec _ _ _ _ _ _ _ _ _ _ _ E).
Defined.

(** A publish to topic [t1] of the default tenant, which has one
    subscriber with an empty inbox. *)
Lemma publish_roundtrip_witness :
  exists h' tm' resp d,
    ServeHTTP (fun _ => "20250101-000000.000000") TopicManager.storeA TopicManager.tmA rq_w 0 10 0
      = Ret (h', tm', resp, d) /\ resp.(status) = 200 /\
    exists y msg, h' !! 1%positive = Some y /\ last y.1.(Subscriber.messageChan).(Chan.buf) = Some msg /\
      msg.(Message.Id) = resp.(MessageId) /\ msg.(Message.TenantID) = "default-tenant".
Proof.
  assert (Hwf : TopicManager.tm_wf TopicManager.storeA TopicManager.tmA) by eval_decide.
  destruct (ServeHTTP (fun _ => "20250101-000000.000000") TopicManager.storeA TopicManager.tmA rq_w 0 10 0)
    as [[[[h' tm'] resp] d]|] eqn:E; pose proof E as E'; vm_compute in E'; [|discriminate].
  injection E' as _ _ Hresp _.
  assert (H200 : resp.(status) = 200) by (rewrite <- Hresp; reflexivity).
  exists h', tm', resp, d. split; [reflexivity|]. split; [exact H200|].
  destruct (publish_roundtrip _ _ _ _ _ _ _ _ _ _ _ Hwf E H200)
    as (req & data & msg & Hb & _ & Hid & _ & Hten & _ & Hall).
  simpl in Hb. invc Hb.
  destruct (Hall TopicManager.topicA "sub-1" 1%positive Subscriber.sub0 Subscriber.Running)
    as (y & Hy & Hl); [reflexivity|reflexivity|reflexivity|eval_decide|reflexivity|reflexivity|reflexivity|].
  exists y, msg. split; [exact Hy|]. split; [exact Hl|]. split; [exact Hid|exact Hten].
Defined.

End PublishHandler.

Module SubscribeHandler.

(** What [ServeHTTP] reads of the request. *)
Record request : Type := mkRequest {
  tenantCtx : option string;
  topicParam : string
}.

(** How the first half of the handler ends: an HTTP error before the
    upgrade, a refused subscription (the connection closed with
    [StatusInternalError]), or a live subscription whose handler now
    waits. *)
Inductive result : Type :=
| HttpError (status : Z) (message : string)
| SubscribeFailed (err : TopicManager.error)
| Subscribed (tenant_id topic subscriberID : string) (r : positive).

(** [ServeHTTP] up to the wait: the subscriber gets the fresh pointer
    [r], the ID [subscriberID] drawn by [uuid.New], the connection [c],
    and the request's context ([ctxDone]). *)
Definition subscribe_start (h : gmap positive (Subscriber.t * Subscriber.LoopState)) (tm : TopicManager.t)
    (rq : request) (accept_ok : bool) (subscriberID : string) (r : positive) (c : Conn.t)
    (ctxDone : bool) (now : Z)
    : outcome (gmap positive (Subscriber.t * Subscriber.LoopState) * TopicManager.t * result) :=
  let tenant_id := PublishHandler.resolve_tenant rq.(tenantCtx) in
  let topic := rq.(topicParam) in
  if decide (topic = "") then Ret (h, tm, HttpError 400 "Topic parameter is required")
  else if negb accept_ok then Ret (h, tm, HttpError 500 "Failed to upgrade connection")
  else
    let bufferSize := BufferManager.GetBufferSize tm.(TopicManager.bufferManager) in
    let! subscriber := Subscriber.NewSubscriber subscriberID tenant_id topic c ctxDone bufferSize now in
    let h1 := <[r := (subscriber, Subscriber.NotStarted)]> h in
    let! '(h2, tm2, e) := TopicManager.Subscribe h1 tm tenant_id topic subscriberID r now in
    match e with
    | Some err =>
        match h2 !! r with
        | Some (s, l) =>
            Ret (<[r := (Subscriber.set_conn s (Conn.close s.(Subscriber.conn) Conn.StatusInternalError), l)]> h2,
                 tm2, SubscribeFailed err)
        | None => Panic "invalid memory address or nil pointer dereference"
        end
    | None => Ret (h2, tm2, Subscribed tenant_id topic subscriberID r)
    end.

(** The rest of [ServeHTTP], once the subscriber's context is done:
    [Unsubscribe], whose error the handler ignores. *)
Definition subscribe_finish (h : gmap positive (Subscriber.t * Subscriber.LoopState)) (tm : TopicManager.t)
    (tenant_id topic subscriberID : string)
    : outcome (gmap positive (Subscriber.t * Subscriber.LoopState) * TopicManager.t) :=
  let! '(h', tm', _) := TopicManager.Unsubscribe h tm tenant_id topic subscriberID in
  Ret (h', tm').

(** ** What a subscription does to the count and the registry *)

Lemma subscribe_start_total h tm rq accept id r c cd now h' tm' res :
  TopicManager.tm_wf h tm -> TopicManager.colon_free tm ->
  TopicManager.no_colon (PublishHandler.resolve_tenant rq.(tenantCtx)) = true ->
  h !! r = None -> TopicManager.fresh_id tm id ->
  subscribe_start h tm rq accept id r c cd now = Ret (h', tm', res) ->
  tm' = tm \/
  (tm'.(TopicManager.bufferManager) = BufferManager.AddNewSubscriber tm.(TopicManager.bufferManager) /\
   TopicManager.GetTotalSubscriberCount tm' = TopicManager.GetTotalSubscriberCount tm + 1).
Proof.
  intros Hwf Hcol Hnc Hr Hf. unfold subscribe_start.
  destruct (decide _); [intros H; invc H; by left|].
  destruct accept; simpl; [|intros H; invc H; by left].
  intros H. destruct (obind_ret_inv _ _ _ H) as (s & Hn & H1).
  destruct (obind_ret_inv _ _ _ H1) as ([[h2 tm2] e] & HS & H2).
  pose proof (Subscriber.NewSubscriber_inv _ _ _ _ _ _ _ _ Hn) as (_ & _ & Hid & Hten & _).
  pose proof (TopicManager.tm_wf_keeps _ _ _ Hwf (Topic.keeps_ids_fresh _ _ (s, Subscriber.NotStarted) Hr)) as Hwf1.
  assert (Hf' : TopicManager.fresh_id tm (sub_ID (s, Subscriber.NotStarted))) by (cbn; by rewrite Hid).
  destruct (TopicManager.Subscribe_total _ _ _ _ _ _ _ _ _ _ _ Hwf1 Hcol Hnc (lookup_insert_eq _ _ _) Hf' HS)
    as [(Hne & _)|(_ & -> & Hbm & Ht)]; [by cbn in Hne|].
  simpl in H2. invc H2. by right.
Qed.

Lemma subscribe_finish_total h tm tenant topic id h' tm' :
  subscribe_finish h tm tenant topic id = Ret (h', tm') ->
  tm' = tm \/
  (tm'.(TopicManager.bufferManager) = BufferManager.OnSubscriberRemoval tm.(TopicManager.bufferManager) /\
   TopicManager.GetTotalSubscriberCount tm' = TopicManager.GetTotalSubscriberCount tm - 1).
Proof.
  unfold subscribe_finish. intros H. destruct (obind_ret_inv _ _ _ H) as ([[h1 tm1] e] & HU & H1). invc H1.
  exact (TopicManager.Unsubscribe_total _ _ _ _ _ _ _ _ HU).
Qed.

(** A handler that reaches the wait has created its subscriber and
    registered it, under the caller's tenant and the requested topic. *)
Lemma subscribe_start_subscribed h tm rq accept id r c cd now h' tm' tenant topic id' r' :
  subscribe_start h tm rq accept id r c cd now = Ret (h', tm', Subscribed tenant topic id' r') ->
  tenant = PublishHandler.resolve_tenant rq.(tenantCtx) /\ topic = rq.(topicParam) /\ id' = id /\ r' = r /\
  exists s, Subscriber.NewSubscriber id tenant topic c cd
              (BufferManager.GetBufferSize tm.(TopicManager.bufferManager)) now = Ret s /\
    TopicManager.Subscribe (<[r := (s, Subscriber.NotStarted)]> h) tm tenant topic id r now = Ret (h', tm', None).
Proof.
  unfold subscribe_start. destruct (decide _); [by intros H; invc H|].
  destruct accept; simpl; [|by intros H; invc H].
  intros H. destruct (obind_ret_inv _ _ _ H) as (s & Hn & H1).
  destruct (obind_ret_inv _ _ _ H1) as ([[h2 tm2] e] & HS & H2).
  destruct e as [err|]; [destruct (h2 !! r) as [[? ?]|]; simpl in H2; discriminate|].
  simpl in H2. invc H2. eauto 10.
Qed.

(** C12: the life of a subscription through the subscribe handler, in
    the terms of the registry's specification: from a registry
    refining [A], with colon-free tenants and a fresh pointer and ID,
    the handler that reaches the wait has added the subscriber's ID to
    its tenant's topic, and once the subscriber's context is done and
    the handler has unsubscribed, the registry refines what a publish
    leaves: the topic exists, with its former members only. *)
Theorem subscription_lifecycle h tm A rq accept id r c cd now h1 tm1 tenant topic id' r' h2 tm2 :
  TopicManager.tm_wf h tm -> TopicManager.colon_free tm -> Registry.refines tm A ->
  TopicManager.no_colon (PublishHandler.resolve_tenant rq.(tenantCtx)) = true ->
  h !! r = None -> TopicManager.fresh_id tm id ->
  subscribe_start h tm rq accept id r c cd now = Ret (h1, tm1, Subscribed tenant topic id' r') ->
  subscribe_finish h1 tm1 tenant topic id' = Ret (h2, tm2) ->
  Registry.refines tm1 (Registry.subscribe_spec A tenant topic id) /\
  Registry.refines tm2 (Registry.publish_spec A tenant topic).
Proof.
  intros Hwf Hcol HR Hnc Hr Hf Hst Hfin.
  destruct (subscribe_start_subscribed _ _ _ _ _ _ _ _ _ _ _ _ _ _ _ Hst) as (-> & -> & -> & -> & s & Hn & HS).
  pose proof (Subscriber.NewSubscriber_inv _ _ _ _ _ _ _ _ Hn) as (_ & _ & Hid & Hten & _).
  pose proof (TopicManager.tm_wf_keeps _ _ _ Hwf (Topic.keeps_ids_fresh _ _ (s, Subscriber.NotStarted) Hr)) as Hwf1.
  pose proof (Registry.Subscribe_refines _ _ _ _ _ _ _ _ _ _ _ _ Hwf1 Hcol HR Hnc (lookup_insert_eq _ _ _) HS) as H1.
  cbn in H1. rewrite Hten, Hid, decide_True in H1 by done.
  split; [exact H1|].
  destruct (obind_ret_inv _ _ _ Hfin) as ([[h3 tm3] e] & HU & H3). invc H3.
  rewrite <- (Registry.subscribe_unsubscribe_spec A _ _ _ (Registry.refines_fresh _ _ _ _ _ HR Hnc Hf)).
  exact (Registry.Unsubscribe_refines _ _ _ _ _ _ _ _ _ H1 Hnc HU).
Qed.

(** A subscription to topic [t1] on an empty server, then its end. *)
Definition h_w : gmap positive (Subscriber.t * Subscriber.LoopState) := ∅.
Definition rq_w : request := mkRequest None "t1".

Lemma subscription_lifecycle_witness :
  exists h1 tm1 h2 tm2,
    subscribe_start h_w PublishHandler.tm_w rq_w true "sub-1" 1 Conn.fresh false 0
      = Ret (h1, tm1, Subscribed "default-tenant" "t1" "sub-1" 1) /\
    subscribe_finish h1 tm1 "default-tenant" "t1" "sub-1" = Ret (h2, tm2) /\
    Registry.refines tm2 (Registry.publish_spec ∅ "default-tenant" "t1").
Proof.
  assert (Hwf : TopicManager.tm_wf h_w PublishHandler.tm_w) by eval_decide.
  assert (Hcol : TopicManager.colon_free PublishHandler.tm_w) by eval_decide.
  assert (Hf : TopicManager.fresh_id PublishHandler.tm_w "sub-1") by eval_decide.
  destruct (subscribe_start h_w PublishHandler.tm_w rq_w true "sub-1" 1 Conn.fresh false 0)
    as [[[h1 tm1] res]|m] eqn:E; pose proof E as E'; vm_compute in E'; [|discriminate].
  injection E' as Hh1 Htm1 Hres. subst res.
  destruct (subscribe_finish h1 tm1 "default-tenant" "t1" "sub-1") as [[h2 tm2]|m] eqn:F.
  2: { subst h1 tm1. vm_compute in F. discriminate. }
  exists h1, tm1, h2, tm2. split; [reflexivity|]. split; [exact F|].
  exact (proj2 (subscription_lifecycle h_w PublishHandler.tm_w ∅ rq_w true "sub-1" 1 Conn.fresh false 0 h1 tm1 _ _ _ _ h2 tm2
                  Hwf Hcol (Registry.refines_empty _ _) eq_refl eq_refl Hf E F)).
Defined.

End SubscribeHandler.

Module HealthHandler.

(** The fields of [runtime.MemStats] the handler reads. *)
Record MemStats : Type := mkMemStats {
  Alloc : Z;
  TotalAlloc : Z;
  Sys : Z;
  NumGC : Z
}.

(** The ["memory"] map: [float64(x) / 1024 / 1024] for the three sizes
    (exact quotients: the rounding of [float64] is not modelled) and
    the GC count. *)
Record memory : Type := mkMemory {
  alloc_mb : Q;
  total_alloc_mb : Q;
  sys_mb : Q;
  num_gc : Z
}.

(** [type HealthResponse struct]; [Timestamp] is the clock in
    nanoseconds. *)
Record HealthResponse : Type := mkHealth {
  Status : string;
  Timestamp : Z;
  Uptime : string;
  Topics : Z;
  Subscribers : Z;
  Goroutines : Z;
  Memory : memory
}.

(** [type HealthHandler struct]: the shared [*TopicManager] is passed
    to [ServeHTTP]; the handler's own state is its start time. *)
Record t : Type := mk { startTime : Z }.

(** [func NewHealthHandler(tm)] at clock [now]. *)
Definition NewHealthHandler (now : Z) : t := mk now.

Definition mb (x : Z) : Q := (inject_Z x / 1024 / 1024)%Q.

Section WithDuration.
(** [time.Duration.String]. *)
Variable duration_string : Z -> string.

(** [func (h *HealthHandler) ServeHTTP(w, r)]: the status code and the
    response; [now_ts] and [now_up] are the two readings of the clock,
    [numGoroutine] the value of [runtime.NumGoroutine()] and [m] the
    statistics [runtime.ReadMemStats] fills. *)
Definition ServeHTTP (h : t) (tm : TopicManager.t) (now_ts now_up numGoroutine : Z) (m : MemStats)
    : Z * HealthResponse :=
  (200, mkHealth "healthy" now_ts (duration_string (now_up - h.(startTime)))
          (TopicManager.GetTopicCount tm) (TopicManager.GetTotalSubscriberCount tm) numGoroutine
          (mkMemory (mb m.(Alloc)) (mb m.(TotalAlloc)) (mb m.(Sys)) m.(NumGC))).

End WithDuration.

End HealthHandler.
