(* ===== verification/System.v ===== *)
(** * System: the server as an interleaving of its goroutines

    [main] (src/unnamed/part_001, lines 20-100) loads the configuration,
    creates the buffer manager, the throttler and the topic manager,
    serves HTTP until a signal, then calls [server.Shutdown],
    [topicManager.ShutDown] and [bufferManager.Stop].  The state of the
    whole process is a record: the shared store of subscribers, the
    topic manager (with the buffer manager and throttler it shares with
    the handlers), the catch-up goroutines started by [Topic.Subscribe]
    that have not run yet, the subscribe handlers blocked on their
    subscriber's context, the clock, the phase of [main], and whether a
    goroutine has panicked (which ends the process).

    [sys_step] interleaves the goroutines, each of the following being
    one atomic step: a publish request, the first half of a
    subscribe request, a catch-up goroutine, one iteration of a
    delivery loop, a client disconnect, the second half of a subscribe
    handler, a tick of [monitoLoop], a recalculation of the buffer
    manager, a throttle timer, the clock, and the shutdown sequence of
    [main].  This is coarser than Go: a publish request holds no lock
    across [ShouldThrottle], [getOrCreateTopic] and the fan-out, so other
    goroutines may run in between.  The theorems of this file are
    invariants of the states between operations (the commit points of
    the specification), which the coarser steps reach; the race that
    the finer interleaving of concurrent [ShouldThrottle] calls allows
    is shown on the throttler's own run ([Throttler.step]).
    [tenant_ok] restricts the tenants requests may carry (the theorems
    take the colon-free ones).

    The server's [Shutdown] stops new requests but does not wait for the
    hijacked WebSocket connections, whose handlers go on running. *)

From S2P Require Import Prelude Config Message RecentCache GoRuntime Subscriber BufferManager Throttler Topic TopicManager Handlers.

Module System.

Notation SubC := (Subscriber.t * Subscriber.LoopState)%type.

(** Where [main] is: serving, after [server.Shutdown], after
    [topicManager.ShutDown], returned (the process has exited). *)
Inductive phase : Type := Serving | ServerClosed | ManagerShutDown | Exited.

#[global] Instance phase_eq_dec : EqDecision phase.
Proof. solve_decision. Defined.

Record sys : Type := mk {
  store : gmap positive SubC;
  tm : TopicManager.t;
  catchups : list (string * positive);
  waiting : list (string * string * string * positive);
  clock : Z;
  stage : phase;
  crashed : option string
}.

Definition set_store (S : sys) (h : gmap positive SubC) : sys :=
  mk h S.(tm) S.(catchups) S.(waiting) S.(clock) S.(stage) S.(crashed).

Definition set_tm (S : sys) (t : TopicManager.t) : sys :=
  mk S.(store) t S.(catchups) S.(waiting) S.(clock) S.(stage) S.(crashed).

Definition crash (S : sys) (why : string) : sys :=
  mk S.(store) S.(tm) S.(catchups) S.(waiting) S.(clock) S.(stage) (Some why).

(** [main] up to [ListenAndServe], with the environment [e], at clock
    [t0]. *)
Definition main_init (e : Config.env) (t0 : Z) : sys :=
  let config := Config.LoadConfig e in
  let bufferManager := BufferManager.NewAdaptiveBufferManager config.(Config.MaxMemory) in
  let adaptiveThrottler := Throttler.NewAdaptiveThrottler Throttler.DefaultConfig t0 in
  mk ∅ (TopicManager.NewTopicManager bufferManager adaptiveThrottler) [] [] t0 Serving None.

(** What a finished first half of a subscribe handler leaves running:
    its catch-up goroutine and the blocked handler. *)
Definition started_catchup (res : SubscribeHandler.result) : list (string * positive) :=
  match res with
  | SubscribeHandler.Subscribed tenant topic _ r => [(TopicManager.makeTopicKey tenant topic, r)]
  | _ => []
  end.

Definition started_wait (res : SubscribeHandler.result) : list (string * string * string * positive) :=
  match res with
  | SubscribeHandler.Subscribed tenant topic id r => [(tenant, topic, id, r)]
  | _ => []
  end.

Definition set_throttler (t : TopicManager.t) (th : Throttler.t) : TopicManager.t :=
  TopicManager.mk t.(TopicManager.bufferManager) th t.(TopicManager.topics) t.(TopicManager.shutDownClosed).

Section Steps.
Variable format_time : Z -> string.
Variable tenant_ok : string -> bool.

Inductive sys_step : sys -> sys -> Prop :=
| SysPublish S rq g alloc h' tm' resp delay :
    S.(crashed) = None -> S.(stage) = Serving -> 0 <= g -> 0 <= alloc ->
    tenant_ok (PublishHandler.resolve_tenant rq.(PublishHandler.tenantCtx)) = true ->
    PublishHandler.ServeHTTP format_time S.(store) S.(tm) rq S.(clock) g alloc = Ret (h', tm', resp, delay) ->
    sys_step S (mk h' tm' S.(catchups) S.(waiting) (S.(clock) + delay) S.(stage) None)
| SysPublishPanic S rq g alloc why :
    S.(crashed) = None -> S.(stage) = Serving -> 0 <= g -> 0 <= alloc ->
    tenant_ok (PublishHandler.resolve_tenant rq.(PublishHandler.tenantCtx)) = true ->
    PublishHandler.ServeHTTP format_time S.(store) S.(tm) rq S.(clock) g alloc = Panic why ->
    sys_step S (crash S why)
| SysSubscribe S rq accept id ptr h' tm' res :
    S.(crashed) = None -> S.(stage) = Serving -> S.(store) !! ptr = None ->
    TopicManager.fresh_id S.(tm) id ->
    tenant_ok (PublishHandler.resolve_tenant rq.(SubscribeHandler.tenantCtx)) = true ->
    SubscribeHandler.subscribe_start S.(store) S.(tm) rq accept id ptr Conn.fresh false S.(clock)
      = Ret (h', tm', res) ->
    sys_step S (mk h' tm' (S.(catchups) ++ started_catchup res) (S.(waiting) ++ started_wait res)
                  S.(clock) S.(stage) None)
| SysSubscribePanic S rq accept id ptr why :
    S.(crashed) = None -> S.(stage) = Serving -> S.(store) !! ptr = None ->
    TopicManager.fresh_id S.(tm) id ->
    tenant_ok (PublishHandler.resolve_tenant rq.(SubscribeHandler.tenantCtx)) = true ->
    SubscribeHandler.subscribe_start S.(store) S.(tm) rq accept id ptr Conn.fresh false S.(clock) = Panic why ->
    sys_step S (crash S why)
| SysCatchup S pre key r post tp h' :
    S.(crashed) = None -> S.(stage) <> Exited -> S.(catchups) = pre ++ (key, r) :: post ->
    S.(tm).(TopicManager.topics) !! key = Some tp -> Topic.sendRecentMessages S.(store) tp r = Ret h' ->
    sys_step S (mk h' S.(tm) (pre ++ post) S.(waiting) S.(clock) S.(stage) None)
| SysCatchupPanic S pre key r post tp why :
    S.(crashed) = None -> S.(stage) <> Exited -> S.(catchups) = pre ++ (key, r) :: post ->
    S.(tm).(TopicManager.topics) !! key = Some tp -> Topic.sendRecentMessages S.(store) tp r = Panic why ->
    sys_step S (crash S why)
| SysLoop S r s s' k :
    S.(crashed) = None -> S.(stage) <> Exited -> S.(store) !! r = Some (s, Subscriber.Running) ->
    Subscriber.sendLoop_step S.(clock) s s' k ->
    sys_step S (set_store S (<[r := (s', if k then Subscriber.Running else Subscriber.Exited)]> S.(store)))
| SysCancel S r s l :
    S.(crashed) = None -> S.(stage) <> Exited -> S.(store) !! r = Some (s, l) ->
    sys_step S (set_store S (<[r := (Subscriber.cancel_ctx s, l)]> S.(store)))
| SysFinish S pre tenant topic id r post x h' tm' :
    S.(crashed) = None -> S.(stage) <> Exited -> S.(waiting) = pre ++ (tenant, topic, id, r) :: post ->
    S.(store) !! r = Some x -> x.1.(Subscriber.ctxDone) = true ->
    SubscribeHandler.subscribe_finish S.(store) S.(tm) tenant topic id = Ret (h', tm') ->
    sys_step S (mk h' tm' S.(catchups) (pre ++ post) S.(clock) S.(stage) None)
| SysFinishPanic S pre tenant topic id r post x why :
    S.(crashed) = None -> S.(stage) <> Exited -> S.(waiting) = pre ++ (tenant, topic, id, r) :: post ->
    S.(store) !! r = Some x -> x.1.(Subscriber.ctxDone) = true ->
    SubscribeHandler.subscribe_finish S.(store) S.(tm) tenant topic id = Panic why ->
    sys_step S (crash S why)
| SysMonitor S tm' :
    S.(crashed) = None -> S.(stage) <> Exited -> TopicManager.monitor_tick S.(store) S.(tm) = Some tm' ->
    sys_step S (set_tm S tm')
| SysRecalc S alloc :
    S.(crashed) = None -> S.(stage) <> Exited -> 0 <= alloc < 2 ^ 64 ->
    S.(tm).(TopicManager.bufferManager).(BufferManager.stopped) = false ->
    sys_step S (set_tm S (TopicManager.set_bufferManager S.(tm)
                            (BufferManager.recalculate S.(tm).(TopicManager.bufferManager) alloc)))
| SysTimer S pre d post :
    S.(crashed) = None -> S.(stage) <> Exited ->
    S.(tm).(TopicManager.throttler).(Throttler.timers) = pre ++ d :: post -> d <= S.(clock) ->
    sys_step S (set_tm S (set_throttler S.(tm) (Throttler.timer_fired S.(tm).(TopicManager.throttler) pre post)))
| SysTick S dt :
    S.(crashed) = None -> S.(stage) <> Exited -> 0 <= dt ->
    sys_step S (mk S.(store) S.(tm) S.(catchups) S.(waiting) (S.(clock) + dt) S.(stage) None)
| SysSignal S :
    S.(crashed) = None -> S.(stage) = Serving ->
    sys_step S (mk S.(store) S.(tm) S.(catchups) S.(waiting) S.(clock) ServerClosed None)
| SysShutDown S h' tm' :
    S.(crashed) = None -> S.(stage) = ServerClosed -> TopicManager.ShutDown S.(store) S.(tm) = Ret (h', tm') ->
    sys_step S (mk h' tm' S.(catchups) S.(waiting) S.(clock) ManagerShutDown None)
| SysShutDownPanic S why :
    S.(crashed) = None -> S.(stage) = ServerClosed -> TopicManager.ShutDown S.(store) S.(tm) = Panic why ->
    sys_step S (crash S why)
| SysStop S bm' :
    S.(crashed) = None -> S.(stage) = ManagerShutDown ->
    BufferManager.Stop S.(tm).(TopicManager.bufferManager) = Ret bm' ->
    sys_step S (mk S.(store) (TopicManager.set_bufferManager S.(tm) bm') S.(catchups) S.(waiting) S.(clock)
                  Exited None).

(** ** An executable scheduler

    [exec S ev] runs the event [ev] (which goroutine moves, with the
    choices the environment makes) when its guard holds; [exec_sound]
    shows that it only takes steps of [sys_step]. *)

Inductive event : Type :=
| EvPublish (rq : PublishHandler.request) (g alloc : Z)
| EvSubscribe (rq : SubscribeHandler.request) (accept : bool) (id : string) (ptr : positive)
| EvCatchup (i : nat)
| EvDeliver (r : positive)
| EvWriteFail (r : positive) (peer_ok : bool)
| EvChanClosed (r : positive)
| EvPingOk (r : positive)
| EvPingFail (r : positive) (peer_ok : bool)
| EvLoopDone (r : positive)
| EvLoopCtxDone (r : positive)
| EvCancel (r : positive)
| EvFinish (i : nat)
| EvMonitor
| EvRecalc (alloc : Z)
| EvTimer (i : nat)
| EvTick (dt : Z)
| EvSignal
| EvShutDown
| EvStop.

Definition after (S : sys) (m : outcome sys) : option sys :=
  match m with Ret S' => Some S' | Panic why => Some (crash S why) end.

(** A delivery-loop iteration of the subscriber at [r]. *)
Definition exec_loop (S : sys) (r : positive) (f : Subscriber.t -> option (Subscriber.t * bool)) : option sys :=
  match S.(store) !! r with
  | Some (s, Subscriber.Running) =>
      match f s with
      | Some (s', k) => Some (set_store S (<[r := (s', if k then Subscriber.Running else Subscriber.Exited)]> S.(store)))
      | None => None
      end
  | _ => None
  end.

Definition head_rest (s : Subscriber.t) : option (Message.t * Subscriber.t) :=
  match s.(Subscriber.messageChan).(Chan.buf) with
  | m :: rest =>
      Some (m, Subscriber.set_chan s (Chan.mk rest s.(Subscriber.messageChan).(Chan.cap)
                                        s.(Subscriber.messageChan).(Chan.closed)))
  | [] => None
  end.

Definition exec (S : sys) (ev : event) : option sys :=
  if decide (S.(crashed) <> None) then None else
  match ev with
  | EvPublish rq g alloc =>
      if decide (S.(stage) = Serving /\ 0 <= g /\ 0 <= alloc /\
                 tenant_ok (PublishHandler.resolve_tenant rq.(PublishHandler.tenantCtx)) = true) then
        after S (let! '(h', tm', _, delay) := PublishHandler.ServeHTTP format_time S.(store) S.(tm) rq S.(clock) g alloc in
                 Ret (mk h' tm' S.(catchups) S.(waiting) (S.(clock) + delay) S.(stage) None))
      else None
  | EvSubscribe rq accept id ptr =>
      if decide (S.(stage) = Serving /\ S.(store) !! ptr = None /\ TopicManager.fresh_id S.(tm) id /\
                 tenant_ok (PublishHandler.resolve_tenant rq.(SubscribeHandler.tenantCtx)) = true) then
        after S (let! '(h', tm', res) := SubscribeHandler.subscribe_start S.(store) S.(tm) rq accept id ptr Conn.fresh false S.(clock) in
                 Ret (mk h' tm' (S.(catchups) ++ started_catchup res) (S.(waiting) ++ started_wait res)
                        S.(clock) S.(stage) None))
      else None
  | EvCatchup i =>
      if decide (S.(stage) <> Exited) then
        match S.(catchups) !! i with
        | Some (key, r) =>
            match S.(tm).(TopicManager.topics) !! key with
            | Some tp =>
                after S (let! h' := Topic.sendRecentMessages S.(store) tp r in
                         Ret (mk h' S.(tm) (take i S.(catchups) ++ drop (Nat.succ i) S.(catchups)) S.(waiting)
                                S.(clock) S.(stage) None))
            | None => None
            end
        | None => None
        end
      else None
  | EvDeliver r =>
      if decide (S.(stage) <> Exited) then
        exec_loop S r (fun s => match head_rest s with
                                | Some (m, s1) =>
                                    match Conn.write s.(Subscriber.conn) m true with
                                    | Some c' => Some (Subscriber.delivered s1 c' S.(clock), true)
                                    | None => None
                                    end
                                | None => None
                                end)
      else None
  | EvWriteFail r peer_ok =>
      if decide (S.(stage) <> Exited) then
        exec_loop S r (fun s => match head_rest s with
                                | Some (m, s1) =>
                                    match Conn.write s.(Subscriber.conn) m peer_ok with
                                    | None => match Subscriber.Close s1 with Ret s' => Some (s', false) | Panic _ => None end
                                    | Some _ => None
                                    end
                                | None => None
                                end)
      else None
  | EvChanClosed r =>
      if decide (S.(stage) <> Exited) then
        exec_loop S r (fun s => if decide (s.(Subscriber.messageChan).(Chan.buf) = [] /\
                                           s.(Subscriber.messageChan).(Chan.closed) = true)
                                then Some (s, false) else None)
      else None
  | EvPingOk r =>
      if decide (S.(stage) <> Exited) then
        exec_loop S r (fun s => match Conn.ping s.(Subscriber.conn) true with
                                | Some c' => Some (Subscriber.set_conn s c', true)
                                | None => None
                                end)
      else None
  | EvPingFail r peer_ok =>
      if decide (S.(stage) <> Exited) then
        exec_loop S r (fun s => match Conn.ping s.(Subscriber.conn) peer_ok with
                                | None => match Subscriber.Close s with Ret s' => Some (s', false) | Panic _ => None end
                                | Some _ => None
                                end)
      else None
  | EvLoopDone r =>
      if decide (S.(stage) <> Exited) then
        exec_loop S r (fun s => if s.(Subscriber.done) then Some (s, false) else None)
      else None
  | EvLoopCtxDone r =>
      if decide (S.(stage) <> Exited) then
        exec_loop S r (fun s => if s.(Subscriber.ctxDone) then Some (s, false) else None)
      else None
  | EvCancel r =>
      if decide (S.(stage) <> Exited) then
        match S.(store) !! r with
        | Some (s, l) => Some (set_store S (<[r := (Subscriber.cancel_ctx s, l)]> S.(store)))
        | None => None
        end
      else None
  | EvFinish i =>
      if decide (S.(stage) <> Exited) then
        match S.(waiting) !! i with
        | Some (tenant, topic, id, r) =>
            match S.(store) !! r with
            | Some x =>
                if x.1.(Subscriber.ctxDone) then
                  after S (let! '(h', tm') := SubscribeHandler.subscribe_finish S.(store) S.(tm) tenant topic id in
                           Ret (mk h' tm' S.(catchups) (take i S.(waiting) ++ drop (Nat.succ i) S.(waiting))
                                  S.(clock) S.(stage) None))
                else None
            | None => None
            end
        | None => None
        end
      else None
  | EvMonitor =>
      if decide (S.(stage) <> Exited) then set_tm S <$> TopicManager.monitor_tick S.(store) S.(tm) else None
  | EvRecalc alloc =>
      if decide (S.(stage) <> Exited /\ 0 <= alloc < 2 ^ 64 /\
                 S.(tm).(TopicManager.bufferManager).(BufferManager.stopped) = false) then
        Some (set_tm S (TopicManager.set_bufferManager S.(tm)
                          (BufferManager.recalculate S.(tm).(TopicManager.bufferManager) alloc)))
      else None
  | EvTimer i =>
      match S.(tm).(TopicManager.throttler).(Throttler.timers) !! i with
      | Some d =>
          if decide (S.(stage) <> Exited /\ d <= S.(clock)) then
            let ts := S.(tm).(TopicManager.throttler).(Throttler.timers) in
            Some (set_tm S (set_throttler S.(tm)
                              (Throttler.timer_fired S.(tm).(TopicManager.throttler) (take i ts) (drop (Nat.succ i) ts))))
          else None
      | None => None
      end
  | EvTick dt =>
      if decide (S.(stage) <> Exited /\ 0 <= dt) then
        Some (mk S.(store) S.(tm) S.(catchups) S.(waiting) (S.(clock) + dt) S.(stage) None)
      else None
  | EvSignal =>
      if decide (S.(stage) = Serving) then
        Some (mk S.(store) S.(tm) S.(catchups) S.(waiting) S.(clock) ServerClosed None)
      else None
  | EvShutDown =>
      if decide (S.(stage) = ServerClosed) then
        after S (let! '(h', tm') := TopicManager.ShutDown S.(store) S.(tm) in
                 Ret (mk h' tm' S.(catchups) S.(waiting) S.(clock) ManagerShutDown None))
      else None
  | EvStop =>
      if decide (S.(stage) = ManagerShutDown) then
        match BufferManager.Stop S.(tm).(TopicManager.bufferManager) with
        | Ret bm' => Some (mk S.(store) (TopicManager.set_bufferManager S.(tm) bm') S.(catchups) S.(waiting)
                              S.(clock) Exited None)
        | Panic _ => None
        end
      else None
  end.

Fixpoint exec_all (S : sys) (evs : list event) : option sys :=
  match evs with
  | [] => Some S
  | ev :: evs' => S' ← exec S ev; exec_all S' evs'
  end.

Lemma exec_loop_inv S r f S' :
  exec_loop S r f = Some S' ->
  exists s s' k, S.(store) !! r = Some (s, Subscriber.Running) /\ f s = Some (s', k) /\
    S' = set_store S (<[r := (s', if k then Subscriber.Running else Subscriber.Exited)]> S.(store)).
Proof.
  unfold exec_loop. destruct (S.(store) !! r) as [[s []]|] eqn:Hr; try done.
  destruct (f s) as [[s' k]|] eqn:Hf; [|done]. intros HS. invc HS. eauto 10.
Qed.

Lemma head_rest_inv s m s1 :
  head_rest s = Some (m, s1) ->
  exists rest, s.(Subscriber.messageChan).(Chan.buf) = m :: rest /\
    s1 = Subscriber.set_chan s (Chan.mk rest s.(Subscriber.messageChan).(Chan.cap)
                                  s.(Subscriber.messageChan).(Chan.closed)).
Proof. unfold head_rest. destruct (Chan.buf _) as [|m' rest]; intros H; invc H. eauto. Qed.

(** A loop event whose guard holds is a [sysLoop] step. *)
Lemma exec_loop_step S r f S' :
  S.(crashed) = None -> S.(stage) <> Exited ->
  (forall s s' k, f s = Some (s', k) -> Subscriber.sendLoop_step S.(clock) s s' k) ->
  exec_loop S r f = Some S' -> sys_step S S'.
Proof.
  intros Hc Hst Hf HS. destruct (exec_loop_inv _ _ _ _ HS) as (s & s' & k & Hr & Hfs & ->).
  eapply SysLoop; eauto.
Qed.

Ltac exec_guard := repeat match goal with
  | H : context [decide ?P] |- _ => destruct (decide P); [|done]
  end.

Lemma exec_sound S ev S' : exec S ev = Some S' -> sys_step S S'.
Proof.
  unfold exec. destruct (decide (S.(crashed) <> None)) as [|Hc]; [done|]. apply dec_stable in Hc.
  destruct ev as [rq g alloc|rq accept id ptr|i|r|r peer_ok|r|r|r peer_ok|r|r|r|i| |alloc|i|dt| | | ].
  - destruct (decide _) as [(Hst & Hg & Ha & Ht)|]; [|done].
    destruct (PublishHandler.ServeHTTP _ _ _ _ _ _ _) as [[[[h' tm'] resp] delay]|why] eqn:E; simpl;
      intros HS; invc HS; [eapply (SysPublish S rq g alloc)|eapply (SysPublishPanic S rq g alloc)]; eauto.
  - destruct (decide _) as [(Hst & Hp & Hf & Ht)|]; [|done].
    destruct (SubscribeHandler.subscribe_start _ _ _ _ _ _ _ _ _) as [[[h' tm'] res]|why] eqn:E; simpl;
      intros HS; invc HS; [eapply (SysSubscribe S rq accept id ptr)|eapply (SysSubscribePanic S rq accept id ptr)]; eauto.
  - destruct (decide _) as [Hst|]; [|done].
    destruct (S.(catchups) !! i) as [[key r]|] eqn:Hi; [|done].
    destruct (S.(tm).(TopicManager.topics) !! key) as [tp|] eqn:Hk; [|done].
    pose proof (eq_sym (take_drop_middle _ _ _ Hi)) as Hsplit.
    destruct (Topic.sendRecentMessages _ _ _) as [h'|why] eqn:E; simpl; intros HS; invc HS;
      [eapply (SysCatchup S _ key r _ tp)|eapply (SysCatchupPanic S _ key r _ tp)]; eauto.
  - destruct (decide _) as [Hst|]; [|done]. apply exec_loop_step; [done|done|].
    intros s s' k Hf. destruct (head_rest s) as [[m s1]|] eqn:Hh; [|done].
    destruct (head_rest_inv _ _ _ Hh) as (rest & Hb & ->).
    destruct (Conn.write _ _ _) as [c'|] eqn:Hw; [|done]. invc Hf. by eapply Subscriber.LoopDeliver.
  - destruct (decide _) as [Hst|]; [|done]. apply exec_loop_step; [done|done|].
    intros s s' k Hf. destruct (head_rest s) as [[m s1]|] eqn:Hh; [|done].
    destruct (head_rest_inv _ _ _ Hh) as (rest & Hb & ->).
    destruct (Conn.write _ _ _) as [c'|] eqn:Hw; [done|].
    destruct (Subscriber.Close _) as [s2|] eqn:Hcl; [|done]. invc Hf. by eapply Subscriber.LoopWriteFail.
  - destruct (decide _) as [Hst|]; [|done]. apply exec_loop_step; [done|done|].
    intros s s' k Hf. destruct (decide _) as [[Hb Hcl]|]; [|done]. invc Hf. by apply Subscriber.LoopChanClosed.
  - destruct (decide _) as [Hst|]; [|done]. apply exec_loop_step; [done|done|].
    intros s s' k Hf. destruct (Conn.ping _ _) as [c'|] eqn:Hp; [|done]. invc Hf. by apply Subscriber.LoopPingOk.
  - destruct (decide _) as [Hst|]; [|done]. apply exec_loop_step; [done|done|].
    intros s s' k Hf. destruct (Conn.ping _ _) as [c'|] eqn:Hp; [done|].
    destruct (Subscriber.Close _) as [s2|] eqn:Hcl; [|done]. invc Hf. by eapply Subscriber.LoopPingFail.
  - destruct (decide _) as [Hst|]; [|done]. apply exec_loop_step; [done|done|].
    intros s s' k Hf. destruct (Subscriber.done s) eqn:Hd; [|done]. invc Hf. by apply Subscriber.LoopDone.
  - destruct (decide _) as [Hst|]; [|done]. apply exec_loop_step; [done|done|].
    intros s s' k Hf. destruct (Subscriber.ctxDone s) eqn:Hd; [|done]. invc Hf. by apply Subscriber.LoopCtxDone.
  - destruct (decide _) as [Hst|]; [|done].
    destruct (S.(store) !! r) as [[s l]|] eqn:Hr; [|done]. intros HS. invc HS. by eapply SysCancel.
  - destruct (decide _) as [Hst|]; [|done].
    destruct (S.(waiting) !! i) as [[[[tenant topic] id] r]|] eqn:Hi; [|done].
    destruct (S.(store) !! r) as [x|] eqn:Hr; [|done]. destruct (x.1.(Subscriber.ctxDone)) eqn:Hd; [|done].
    pose proof (eq_sym (take_drop_middle _ _ _ Hi)) as Hsplit.
    destruct (SubscribeHandler.subscribe_finish _ _ _ _ _) as [[h' tm']|why] eqn:E; simpl; intros HS; invc HS;
      [eapply (SysFinish S _ tenant topic id r _ x)|eapply (SysFinishPanic S _ tenant topic id r _ x)]; eauto.
  - destruct (decide _) as [Hst|]; [|done].
    destruct (TopicManager.monitor_tick _ _) as [tm'|] eqn:E; simpl; intros HS; invc HS. by eapply SysMonitor.
  - destruct (decide _) as [(Hst & Ha & Hs)|]; [|done]. intros HS. invc HS. by apply SysRecalc.
  - destruct (S.(tm).(TopicManager.throttler).(Throttler.timers) !! i) as [d|] eqn:Hi; [|done].
    destruct (decide _) as [(Hst & Hd)|]; [|done]. intros HS. invc HS.
    eapply SysTimer; eauto. symmetry. by apply take_drop_middle.
  - destruct (decide _) as [(Hst & Hd)|]; [|done]. intros HS. invc HS. by apply SysTick.
  - destruct (decide _) as [Hst|]; [|done]. intros HS. invc HS. by apply SysSignal.
  - destruct (decide _) as [Hst|]; [|done].
    destruct (TopicManager.ShutDown _ _) as [[h' tm']|why] eqn:E; simpl; intros HS; invc HS;
      [eapply SysShutDown|eapply SysShutDownPanic]; eauto.
  - destruct (decide _) as [Hst|]; [|done].
    destruct (BufferManager.Stop _) as [bm'|] eqn:E; intros HS; invc HS. by eapply SysStop.
Qed.

Lemma exec_all_sound S evs S' : exec_all S evs = Some S' -> rtc sys_step S S'.
Proof.
  revert S. induction evs as [|ev evs IH]; intros S HS; simpl in HS; [invc HS; done|].
  destruct (exec S ev) as [S1|] eqn:E; simpl in HS; [|done].
  eapply rtc_l; [exact (exec_sound _ _ _ E)|]. by apply IH.
Qed.

End Steps.

(** ** Tenant and topic isolation, end to end

    [sys_inv] is what every reachable state satisfies when requests
    carry colon-free tenants: the registry invariant of TopicManager.v,
    every subscriber of a topic has the topic's name as its [Topic],
    every cache holds a history of messages of its topic's tenant and
    name, every subscriber's stream (written frames and inbox) holds
    only messages of its own tenant and topic, and every pending
    catch-up goroutine serves a subscriber of its topic. *)

Section Isolation.
Implicit Types (h : gmap positive SubC) (S : sys).

Definition matches (s : Subscriber.t) (m : Message.t) : Prop :=
  m.(Message.TenantID) = s.(Subscriber.TenantID) /\ m.(Message.Topic) = s.(Subscriber.Topic).

Definition tp_matches (tp : Topic.t) (m : Message.t) : Prop :=
  m.(Message.TenantID) = tp.(Topic.tenantID) /\ m.(Message.Topic) = tp.(Topic.name).

Definition sub_ok (x : SubC) : Prop :=
  Subscriber.inv x.1 /\ Forall (matches x.1) (Subscriber.stream x.1).

Definition topic_fields h (topics : gmap string Topic.t) : Prop :=
  forall k tp id r, topics !! k = Some tp -> tp.(Topic.subscribers) !! id = Some r ->
    exists x, h !! r = Some x /\ x.1.(Subscriber.Topic) = tp.(Topic.name).

Definition caches_ok (topics : gmap string Topic.t) : Prop :=
  forall k tp, topics !! k = Some tp ->
    exists hist, RecentCache.repr tp.(Topic.recentCache) hist /\ Forall (tp_matches tp) hist.

Definition catchups_ok h (topics : gmap string Topic.t) (cs : list (string * positive)) : Prop :=
  forall k r, (k, r) ∈ cs -> exists tp x, topics !! k = Some tp /\ h !! r = Some x /\
    x.1.(Subscriber.TenantID) = tp.(Topic.tenantID) /\ x.1.(Subscriber.Topic) = tp.(Topic.name).

Record sys_inv S : Prop := {
  si_wf : TopicManager.tm_wf S.(store) S.(tm);
  si_colon : TopicManager.colon_free S.(tm);
  si_topic : topic_fields S.(store) S.(tm).(TopicManager.topics);
  si_cache : caches_ok S.(tm).(TopicManager.topics);
  si_subs : forall r x, S.(store) !! r = Some x -> sub_ok x;
  si_catchup : catchups_ok S.(store) S.(tm).(TopicManager.topics) S.(catchups)
}.

Lemma matches_frame s s' m : Subscriber.frame s s' -> matches s m -> matches s' m.
Proof. intros (Hi & Ht & Htop & _) [H1 H2]. split; congruence. Qed.

(** A subscriber operation given a message of its tenant and topic keeps
    the subscriber invariant and the shape of its stream. *)
Lemma step_ok x o y :
  sub_ok x -> Subscriber.step x o y -> (forall m, o = Some m -> matches x.1 m) ->
  sub_ok y /\ Subscriber.frame x.1 y.1.
Proof.
  intros [Hi Hf] Hs Ho. destruct (Subscriber.step_inv _ _ _ Hi Hs) as [Hi' Hfr].
  split; [split; [done|]|done].
  apply (Forall_sublist_of _ _ _ (Subscriber.step_stream _ _ _ Hi Hs)).
  apply Forall_app. split.
  - eapply Forall_impl; [exact Hf|]. intros m. by apply matches_frame.
  - destruct o as [m|]; simpl; [|done]. constructor; [|done]. apply (matches_frame x.1); [done|]. by apply Ho.
Qed.

Lemma sub_send_ok x m x' e :
  sub_ok x -> matches x.1 m -> sub_send x m = Ret (x', e) -> sub_ok x' /\ Subscriber.frame x.1 x'.1.
Proof.
  intros Hx Hm. unfold sub_send. destruct (Subscriber.SendMessages x.1 m) as [[s' e']|] eqn:E; simpl; [|done].
  intros Hr. invc Hr. destruct x as [s l].
  apply (step_ok (s, l) (Some m) (s', l)); [done|by eapply Subscriber.StSend|]. intros ? Hs. by invc Hs.
Qed.

Lemma sub_close_ok' x x' : sub_ok x -> sub_close x = Ret x' -> sub_ok x' /\ Subscriber.frame x.1 x'.1.
Proof.
  intros Hx. unfold sub_close. destruct (Subscriber.Close x.1) as [s'|] eqn:E; simpl; [|done].
  intros Hr. invc Hr. destruct x as [s l].
  apply (step_ok (s, l) None (s', l)); [done|by apply Subscriber.StClose|done].
Qed.

Lemma sub_start_fst x : (sub_start x).1 = x.1.
Proof. unfold sub_start. by destruct x.2. Qed.

(** What a store holds after an operation, relative to the store [h0]
    before it: subscribers that satisfy the invariant and keep the
    identity they had in [h0]. *)
Definition PS h0 (r : positive) (x : SubC) : Prop :=
  sub_ok x /\ forall x0, h0 !! r = Some x0 -> Subscriber.frame x0.1 x.1.

Lemma PS_init h : (forall r x, h !! r = Some x -> sub_ok x) -> Topic.store_P (PS h) h.
Proof. intros Hh r x Hr. split; [by apply (Hh r)|]. intros x0 Hx0. rewrite Hr in Hx0. invc Hx0. reflexivity. Qed.

Lemma PS_send h0 r x x' m e :
  PS h0 r x -> matches x.1 m -> sub_send x m = Ret (x', e) -> PS h0 r x'.
Proof.
  intros [Hx Hf] Hm Hs. destruct (sub_send_ok _ _ _ _ Hx Hm Hs) as [Hx' Hfr].
  split; [done|]. intros x0 Hx0. etransitivity; [by apply Hf|exact Hfr].
Qed.

Lemma PS_close h0 r x x' : PS h0 r x -> sub_close x = Ret x' -> PS h0 r x'.
Proof.
  intros [Hx Hf] Hs. destruct (sub_close_ok' _ _ Hx Hs) as [Hx' Hfr].
  split; [done|]. intros x0 Hx0. etransitivity; [by apply Hf|exact Hfr].
Qed.

Lemma PS_start h0 r x : PS h0 r x -> PS h0 r (sub_start x).
Proof. unfold PS, sub_ok. by rewrite sub_start_fst. Qed.

(** A subscriber framed by its original state still has its tenant and
    topic. *)
Lemma PS_fields h0 h' r x0 :
  Topic.keeps_ids h0 h' -> Topic.store_P (PS h0) h' -> h0 !! r = Some x0 ->
  exists x, h' !! r = Some x /\ Subscriber.frame x0.1 x.1.
Proof.
  intros Hk HP Hr. destruct (Hk _ _ Hr) as (x & Hx & _). exists x. split; [done|].
  by apply (proj2 (HP _ _ Hx)).
Qed.

Lemma topic_fields_transport h0 h' topics :
  Topic.keeps_ids h0 h' -> Topic.store_P (PS h0) h' -> topic_fields h0 topics -> topic_fields h' topics.
Proof.
  intros Hk HP Ht k tp id r Hk' Hid. destruct (Ht _ _ _ _ Hk' Hid) as (x0 & Hx0 & Htop).
  destruct (PS_fields _ _ _ _ Hk HP Hx0) as (x & Hx & (_ & _ & Htop' & _)). exists x. split; [done|]. congruence.
Qed.

Lemma catchups_transport h0 h' topics cs :
  Topic.keeps_ids h0 h' -> Topic.store_P (PS h0) h' -> catchups_ok h0 topics cs -> catchups_ok h' topics cs.
Proof.
  intros Hk HP Hc k r Hin. destruct (Hc _ _ Hin) as (tp & x0 & Htp & Hx0 & Hten & Htop).
  destruct (PS_fields _ _ _ _ Hk HP Hx0) as (x & Hx & (_ & Hten' & Htop' & _)).
  exists tp, x. repeat split; congruence.
Qed.

Lemma catchups_sub h topics cs cs' : catchups_ok h topics cs -> (forall e, e ∈ cs' -> e ∈ cs) -> catchups_ok h topics cs'.
Proof. intros Hc Hsub k r Hin. apply Hc, Hsub, Hin. Qed.

(** A new store that keeps the identities and satisfies [PS], under the
    same registry and fewer catch-ups, keeps the invariant. *)
Lemma sys_inv_store S h' t' cs w c st cr :
  sys_inv S -> t'.(TopicManager.topics) = S.(tm).(TopicManager.topics) ->
  Topic.keeps_ids S.(store) h' -> Topic.store_P (PS S.(store)) h' ->
  (forall e, e ∈ cs -> e ∈ S.(catchups)) ->
  sys_inv (mk h' t' cs w c st cr).
Proof.
  intros [Hwf Hcol Htop Hcache Hsubs Hcu] Ht Hk HP Hcs. constructor; simpl; rewrite ?Ht.
  - intros k tp Hk'. rewrite Ht in Hk'. exact (TopicManager.tm_wf_keeps _ _ _ Hwf Hk _ _ Hk').
  - intros k tp Hk'. rewrite Ht in Hk'. exact (Hcol _ _ Hk').
  - exact (topic_fields_transport _ _ _ Hk HP Htop).
  - done.
  - intros r x Hr. exact (proj1 (HP _ _ Hr)).
  - apply (catchups_sub _ _ S.(catchups)); [|done]. exact (catchups_transport _ _ _ _ Hk HP Hcu).
Qed.

(** The invariant reads only the store, the registry and the catch-ups. *)
Lemma sys_inv_same S S' :
  S'.(store) = S.(store) -> S'.(tm).(TopicManager.topics) = S.(tm).(TopicManager.topics) ->
  S'.(catchups) = S.(catchups) -> sys_inv S -> sys_inv S'.
Proof.
  intros Hs Ht Hc [Hwf Hcol Htop Hcache Hsubs Hcu]. constructor; rewrite ?Hs, ?Ht, ?Hc; try done.
  - intros k tp Hk. rewrite Ht in Hk. exact (Hwf _ _ Hk).
  - intros k tp Hk. rewrite Ht in Hk. exact (Hcol _ _ Hk).
Qed.

Lemma sys_inv_update S r x y :
  sys_inv S -> S.(store) !! r = Some x -> sub_ok y -> Subscriber.frame x.1 y.1 ->
  sys_inv (set_store S (<[r := y]> S.(store))).
Proof.
  intros Hinv Hr Hy Hfr. pose proof Hfr as (Hi & Ht & _).
  apply (sys_inv_store S); [done|done| | |done].
  - exact (Topic.keeps_ids_insert _ _ _ _ Hr Hi Ht).
  - apply Topic.store_P_insert; [apply PS_init, Hinv|]. split; [done|]. intros x0 Hx0.
    rewrite Hr in Hx0. by invc Hx0.
Qed.

Lemma loop_inv S r s s' k :
  sys_inv S -> S.(store) !! r = Some (s, Subscriber.Running) -> Subscriber.sendLoop_step S.(clock) s s' k ->
  sys_inv (set_store S (<[r := (s', if k then Subscriber.Running else Subscriber.Exited)]> S.(store))).
Proof.
  intros Hinv Hr Hs. destruct (step_ok (s, Subscriber.Running) None (s', if k then Subscriber.Running else Subscriber.Exited))
    as [Hy Hfr]; [exact (si_subs _ Hinv _ _ Hr)|by eapply Subscriber.StLoop|done|].
  exact (sys_inv_update _ _ _ _ Hinv Hr Hy Hfr).
Qed.

Lemma cancel_inv S r s l :
  sys_inv S -> S.(store) !! r = Some (s, l) -> sys_inv (set_store S (<[r := (Subscriber.cancel_ctx s, l)]> S.(store))).
Proof.
  intros Hinv Hr. destruct (step_ok (s, l) None (Subscriber.cancel_ctx s, l)) as [Hy Hfr];
    [exact (si_subs _ Hinv _ _ Hr)|apply Subscriber.StParentCancel|done|].
  exact (sys_inv_update _ _ _ _ Hinv Hr Hy Hfr).
Qed.

Lemma catchup_inv S pre key r post tp h' :
  sys_inv S -> S.(catchups) = pre ++ (key, r) :: post -> S.(tm).(TopicManager.topics) !! key = Some tp ->
  Topic.sendRecentMessages S.(store) tp r = Ret h' ->
  sys_inv (mk h' S.(tm) (pre ++ post) S.(waiting) S.(clock) S.(stage) S.(crashed)).
Proof.
  intros Hinv Hcs Hk Hs.
  assert (Hin : (key, r) ∈ S.(catchups)) by (rewrite Hcs; set_solver).
  destruct (si_catchup _ Hinv _ _ Hin) as (tp0 & x0 & Hk0 & Hx0 & Hten & Htop). rewrite Hk in Hk0. invc Hk0.
  destruct (si_cache _ Hinv _ _ Hk) as (hist & Hrepr & Hhist).
  unfold Topic.sendRecentMessages in Hs. rewrite (RecentCache.GetLast_repr _ hist 50 Hrepr) in Hs by lia.
  simpl in Hs. apply (sys_inv_store S); [done|done| | |].
  - exact (Topic.send_each_ids _ _ _ _ Hs).
  - refine (Topic.send_each_preserves (PS S.(store)) _ _ _ _ _ (PS_init _ (si_subs _ Hinv)) Hs).
    intros m x x' e Hm HP HS. apply (PS_send _ r x x' m e HP); [|exact HS].
    assert (Hmt : tp_matches tp0 m).
    { eapply Forall_forall; [|exact Hm]. by do 2 apply Forall_lastn. }
    destruct HP as [_ Hfr]. destruct (Hfr _ Hx0) as (_ & Hten' & Htop' & _). destruct Hmt as [H1 H2].
    split; congruence.
  - intros e He. rewrite Hcs. set_solver.
Qed.

(** Replacing the topic at [key] by one with the same tenant and name,
    whose new entries point at subscribers of its topic, keeps the
    registry's part of the invariant. *)
Lemma registry_replace h topics cs key tp tp' :
  (topics !! key = Some tp \/ (topics !! key = None /\ tp.(Topic.subscribers) = ∅)) ->
  tp'.(Topic.tenantID) = tp.(Topic.tenantID) -> tp'.(Topic.name) = tp.(Topic.name) ->
  (forall id r, tp'.(Topic.subscribers) !! id = Some r ->
     tp.(Topic.subscribers) !! id = Some r \/ exists x, h !! r = Some x /\ x.1.(Subscriber.Topic) = tp.(Topic.name)) ->
  topic_fields h topics -> catchups_ok h topics cs ->
  topic_fields h (<[key := tp']> topics) /\ catchups_ok h (<[key := tp']> topics) cs.
Proof.
  intros Hcase Hten Hname Hsubs Ht Hc. split.
  - intros k tp0 id r Hk Hid. destruct (decide (k = key)) as [->|Hne].
    + rewrite lookup_insert_eq in Hk. invc Hk. rewrite Hname.
      destruct (Hsubs _ _ Hid) as [Hold|Hnew]; [|done].
      destruct Hcase as [Hk|[_ Hs]]; [exact (Ht _ _ _ _ Hk Hold)|].
      by rewrite Hs, lookup_empty in Hold.
    + rewrite lookup_insert_ne in Hk by done. exact (Ht _ _ _ _ Hk Hid).
  - intros k r Hin. destruct (Hc _ _ Hin) as (tp0 & x & Hk & Hx & H1 & H2).
    destruct (decide (k = key)) as [->|Hne].
    + destruct Hcase as [Hk'|[Hk' _]]; rewrite Hk' in Hk; [|done]. invc Hk.
      exists tp', x. rewrite lookup_insert_eq. repeat split; congruence.
    + exists tp0, x. rewrite lookup_insert_ne by done. auto.
Qed.

Lemma caches_replace topics key tp' hist :
  caches_ok topics -> RecentCache.repr tp'.(Topic.recentCache) hist -> Forall (tp_matches tp') hist ->
  caches_ok (<[key := tp']> topics).
Proof.
  intros Hc Hr Hf k tp0 Hk. destruct (decide (k = key)) as [->|Hne].
  - rewrite lookup_insert_eq in Hk. invc Hk. eauto.
  - rewrite lookup_insert_ne in Hk by done. exact (Hc _ _ Hk).
Qed.

Lemma colon_replace t t' key tp' :
  TopicManager.colon_free t -> t'.(TopicManager.topics) = <[key := tp']> t.(TopicManager.topics) ->
  TopicManager.no_colon tp'.(Topic.tenantID) = true -> TopicManager.colon_free t'.
Proof.
  intros Hc Ht Hn k tp0 Hk. rewrite Ht in Hk. destruct (decide (k = key)) as [->|Hne].
  - rewrite lookup_insert_eq in Hk. by invc Hk.
  - rewrite lookup_insert_ne in Hk by done. exact (Hc _ _ Hk).
Qed.

(** A topic [getOrCreateTopic] creates has an empty history. *)
Lemma getOrCreateTopic_cache t tenant name now t1 key tp :
  TopicManager.getOrCreateTopic t tenant name now = Ret (t1, key, tp) -> t.(TopicManager.topics) !! key = None ->
  RecentCache.repr tp.(Topic.recentCache) [].
Proof.
  intros Hg Hk. destruct (TopicManager.getOrCreateTopic_spec _ _ _ _ _ _ _ Hg) as (-> & _).
  destruct (RecentCache.New_repr 100) as (c & Hc & Hr); [lia|].
  unfold TopicManager.getOrCreateTopic, Topic.NewTopic in Hg. rewrite Hk, Hc in Hg. simpl in Hg. by invc Hg.
Qed.

(** The invariant only reads the manager's registry. *)
Lemma registry_inv h t t1 :
  t1.(TopicManager.topics) = t.(TopicManager.topics) ->
  TopicManager.tm_wf h t -> TopicManager.colon_free t -> TopicManager.tm_wf h t1 /\ TopicManager.colon_free t1.
Proof. intros Ht Hwf Hc. split; intros k tp Hk; rewrite Ht in Hk; [exact (Hwf _ _ Hk)|exact (Hc _ _ Hk)]. Qed.

(** The topic [getOrCreateTopic] hands out is the registered one, or a
    new one with no subscribers and an empty history. *)
Lemma getOrCreateTopic_registry t tenant name now t1 key tp :
  caches_ok t.(TopicManager.topics) -> TopicManager.getOrCreateTopic t tenant name now = Ret (t1, key, tp) ->
  (t.(TopicManager.topics) !! key = Some tp \/
   (t.(TopicManager.topics) !! key = None /\ tp.(Topic.subscribers) = ∅)) /\
  exists hist, RecentCache.repr tp.(Topic.recentCache) hist /\ Forall (tp_matches tp) hist.
Proof.
  intros Hcache Hg. destruct (TopicManager.getOrCreateTopic_spec _ _ _ _ _ _ _ Hg) as (_ & _ & [Hk|(Hk & _ & _ & Hs)]).
  - split; [by left|]. exact (Hcache _ _ Hk).
  - split; [by right|]. exists []. split; [exact (getOrCreateTopic_cache _ _ _ _ _ _ _ Hg Hk)|done].
Qed.

(** A registry step: the topic at [key] is replaced by one with the same
    tenant and name, whose new entries point at subscribers of its
    topic, over a store that keeps the identities and [PS]; new
    catch-ups are queued for registered subscribers. *)
Lemma sys_inv_replace S h' t' key tp tp' hist cs w c st :
  sys_inv S ->
  (S.(tm).(TopicManager.topics) !! key = Some tp \/
   (S.(tm).(TopicManager.topics) !! key = None /\ tp.(Topic.subscribers) = ∅)) ->
  tp'.(Topic.tenantID) = tp.(Topic.tenantID) -> tp'.(Topic.name) = tp.(Topic.name) ->
  (forall id r, tp'.(Topic.subscribers) !! id = Some r -> tp.(Topic.subscribers) !! id = Some r \/
     exists x, S.(store) !! r = Some x /\ x.1.(Subscriber.Topic) = tp.(Topic.name)) ->
  t'.(TopicManager.topics) = <[key := tp']> S.(tm).(TopicManager.topics) ->
  TopicManager.tm_wf h' t' -> TopicManager.no_colon tp.(Topic.tenantID) = true ->
  Topic.keeps_ids S.(store) h' -> Topic.store_P (PS S.(store)) h' ->
  RecentCache.repr tp'.(Topic.recentCache) hist -> Forall (tp_matches tp') hist ->
  catchups_ok h' t'.(TopicManager.topics) cs ->
  sys_inv (mk h' t' (S.(catchups) ++ cs) w c st None).
Proof.
  intros [Hwf Hcol Htop Hcache Hsubs Hcu] Hcase Htt Htn Hs Ht' Hwf' Hnc Hk HPS Hh Hhf Hcs.
  destruct (registry_replace _ _ _ _ _ _ Hcase Htt Htn Hs Htop Hcu) as [Htf Hcf].
  rewrite Ht' in Hcs. constructor; simpl; rewrite ?Ht'.
  - exact Hwf'.
  - apply (colon_replace S.(tm) t' key tp' Hcol Ht'). by rewrite Htt.
  - exact (topic_fields_transport _ _ _ Hk HPS Htf).
  - exact (caches_replace _ _ _ _ Hcache Hh Hhf).
  - intros r x Hx. exact (proj1 (HPS _ _ Hx)).
  - intros k r Hin. apply elem_of_app in Hin as [Hin|Hin]; [|exact (Hcs _ _ Hin)].
    exact (catchups_transport _ _ _ _ Hk HPS Hcf _ _ Hin).
Qed.

Lemma catchups_nil h topics : catchups_ok h topics [].
Proof. intros k r Hin. by apply elem_of_nil in Hin. Qed.

(** [TopicManager.Publish] of a message of the caller's (colon-free)
    tenant and topic keeps the invariant. *)
Lemma manager_publish_inv S t1 tenant name msg now h' tm' w c st :
  sys_inv S -> t1.(TopicManager.topics) = S.(tm).(TopicManager.topics) -> TopicManager.no_colon tenant = true ->
  msg.(Message.TenantID) = tenant -> msg.(Message.Topic) = name ->
  TopicManager.Publish S.(store) t1 tenant name msg now = Ret (h', tm') ->
  sys_inv (mk h' tm' S.(catchups) w c st None).
Proof.
  intros Hinv Ht1 Hten Hmt Hmn HP.
  destruct (registry_inv _ _ _ Ht1 (si_wf _ Hinv) (si_colon _ Hinv)) as [Hwf1 Hcol1].
  pose proof (TopicManager.Publish_tm_wf _ _ _ _ _ _ _ _ Hwf1 HP) as Hwf'.
  destruct (TopicManager.Publish_cases _ _ _ _ _ _ _ _ HP) as (key & tp & tp' & Hg & HTP & ->).
  destruct (TopicManager.getOrCreateTopic_wf _ _ _ _ _ _ _ _ Hwf1 Hg) as (Htw & _ & Hf).
  destruct (Hf Hcol1 Hten) as [Htt Htn].
  pose proof (si_cache _ Hinv) as Hcache. rewrite <- Ht1 in Hcache.
  destruct (getOrCreateTopic_registry _ _ _ _ _ _ _ Hcache Hg) as [Hcase (hist & Hr & Hhf)].
  rewrite Ht1 in Hcase.
  destruct (Topic.Publish_tp _ _ _ _ _ HTP) as (Hs & Htt' & _ & HA & _).
  pose proof (Topic.Publish_name _ _ _ _ _ HTP) as Htn'.
  assert (HPS : Topic.store_P (PS S.(store)) h').
  { refine (Topic.Publish_preserves (PS S.(store)) _ _ _ _ _ _ (PS_init _ (si_subs _ Hinv)) HTP).
    intros r x x' e Hin HPx HS. apply (PS_send _ r x x' msg e HPx); [|exact HS].
    apply Topic.elem_of_snapshot in Hin as [id Hid]. destruct (Htw _ _ Hid) as (x0 & Hx0 & _ & Hten0).
    destruct Hcase as [Hk'|[_ He]]; [|by rewrite He, lookup_empty in Hid].
    destruct (si_topic _ Hinv _ _ _ _ Hk' Hid) as (x1 & Hx1 & Htop1). rewrite Hx0 in Hx1. invc Hx1.
    destruct HPx as [_ Hfr]. destruct (Hfr _ Hx0) as (_ & H1 & H2 & _). simpl in Hten0.
    split; congruence. }
  rewrite <- (app_nil_r S.(catchups)).
  apply (sys_inv_replace S _ _ key tp tp' (hist ++ [msg])); try done.
  - intros id r. rewrite Hs. auto.
  - simpl. by rewrite Ht1.
  - by rewrite Htt.
  - exact (Topic.Publish_keeps _ _ _ _ _ HTP).
  - exact (RecentCache.Add_repr _ _ _ Hr _ HA).
  - apply Forall_app. split.
    + eapply Forall_impl; [exact Hhf|]. intros m [H1 H2]. split; congruence.
    + constructor; [|done]. split; congruence.
  - apply catchups_nil.
Qed.

(** A publish request keeps the invariant. *)
Lemma publish_inv fmt S rq g alloc h' tm' resp delay :
  sys_inv S -> TopicManager.no_colon (PublishHandler.resolve_tenant rq.(PublishHandler.tenantCtx)) = true ->
  PublishHandler.ServeHTTP fmt S.(store) S.(tm) rq S.(clock) g alloc = Ret (h', tm', resp, delay) ->
  sys_inv (mk h' tm' S.(catchups) S.(waiting) (S.(clock) + delay) S.(stage) None).
Proof.
  intros Hinv Hten. unfold PublishHandler.ServeHTTP.
  destruct (decide _); [intros Hr; invc Hr; by apply (sys_inv_same S)|].
  destruct (PublishHandler.body rq) as [req|]; [|intros Hr; invc Hr; by apply (sys_inv_same S)].
  destruct (decide _); [intros Hr; invc Hr; by apply (sys_inv_same S)|].
  destruct (PublishHandler.Data req) as [data|]; [|intros Hr; invc Hr; by apply (sys_inv_same S)].
  destruct (Throttler.ShouldThrottle _ _ _ _) as [th throttle].
  intros Hr. destruct (obind_ret_inv _ _ _ Hr) as ([h1 tm1] & HP & Hr'). invc Hr'.
  refine (manager_publish_inv _ _ _ _ _ _ _ _ _ _ _ Hinv _ Hten _ _ HP); reflexivity.
Qed.

(** Inserting a new subscriber at a free pointer. *)
Lemma sys_inv_fresh S r x :
  sys_inv S -> S.(store) !! r = None -> sub_ok x ->
  sys_inv (mk (<[r := x]> S.(store)) S.(tm) S.(catchups) S.(waiting) S.(clock) S.(stage) S.(crashed)).
Proof.
  intros Hinv Hr Hx. apply (sys_inv_store S); [done|done| | |done].
  - exact (Topic.keeps_ids_fresh _ _ _ Hr).
  - apply Topic.store_P_insert; [apply PS_init, Hinv|]. split; [done|]. intros x0 Hx0. congruence.
Qed.

(** [TopicManager.Subscribe] of a subscriber of the caller's colon-free
    tenant and of the requested topic succeeds, and keeps the invariant
    with the subscriber's catch-up pending. *)
Lemma manager_subscribe_inv S r s tenant name now h' tm' e w c st :
  sys_inv S -> S.(store) !! r = Some (s, Subscriber.NotStarted) ->
  s.(Subscriber.TenantID) = tenant -> s.(Subscriber.Topic) = name -> TopicManager.no_colon tenant = true ->
  TopicManager.Subscribe S.(store) S.(tm) tenant name s.(Subscriber.ID) r now = Ret (h', tm', e) ->
  e = None /\ sys_inv (mk h' tm' (S.(catchups) ++ [(TopicManager.makeTopicKey tenant name, r)]) w c st None).
Proof.
  intros Hinv Hr Hten Htn Hnc HS.
  pose proof (TopicManager.Subscribe_tm_wf _ _ _ _ _ _ _ _ _ _ (si_wf _ Hinv) HS) as Hwf'.
  destruct (TopicManager.Subscribe_cases _ _ _ _ _ _ _ _ _ _ HS)
    as [(s' & Hr' & Hne & _)|(s' & key & tp & tp' & e0 & Hr' & _ & Hg & HTS & -> & ->)];
    rewrite Hr in Hr'; invc Hr'; [done|].
  destruct (TopicManager.getOrCreateTopic_wf _ _ _ _ _ _ _ _ (si_wf _ Hinv) Hg) as (_ & _ & Hf).
  destruct (Hf (si_colon _ Hinv) Hnc) as [Htt Htn'].
  destruct (TopicManager.getOrCreateTopic_spec _ _ _ _ _ _ _ Hg) as (Hkey & _ & _).
  destruct (getOrCreateTopic_registry _ _ _ _ _ _ _ (si_cache _ Hinv) Hg) as [Hcase (hist & Hh & Hhf)].
  destruct (Topic.Subscribe_ok _ tp r _ Hr) as (tp'' & HS' & Hs'' & Ht'' & Hn''); [done|].
  rewrite HTS in HS'. invc HS'.
  destruct (Topic.Subscribe_result _ _ _ _ _ _ HTS) as (Hc' & _).
  split; [done|]. eapply (sys_inv_replace S _ _ _ tp tp'' hist); try done.
  - intros id r'. rewrite Hs''. destruct (decide (id = s.(Subscriber.ID))) as [->|Hne].
    + rewrite lookup_insert_eq. intros Hr2. invc Hr2. right. eexists. split; [exact Hr|]. simpl. congruence.
    + rewrite lookup_insert_ne by done. auto.
  - by rewrite Htt.
  - exact (proj1 (Topic.Subscribe_keeps _ _ _ _ _ _ HTS)).
  - refine (Topic.Subscribe_preserves (PS S.(store)) _ _ _ _ _ _ _ (PS_init _ (si_subs _ Hinv)) HTS).
    intros x _. apply PS_start.
  - by rewrite Hc'.
  - eapply Forall_impl; [exact Hhf|]. intros m [H1 H2]. split; congruence.
  - intros k r' Hin. apply list_elem_of_singleton in Hin. invc Hin.
    exists tp'', (sub_start (s, Subscriber.NotStarted)). simpl. rewrite !lookup_insert_eq, ?sub_start_fst.
    repeat split; congruence.
Qed.

(** [TopicManager.Unsubscribe] keeps the invariant. *)
Lemma manager_unsubscribe_inv S tenant name id h' tm' e w c st :
  sys_inv S -> TopicManager.Unsubscribe S.(store) S.(tm) tenant name id = Ret (h', tm', e) ->
  sys_inv (mk h' tm' S.(catchups) w c st None).
Proof.
  intros Hinv HU. pose proof (TopicManager.Unsubscribe_tm_wf _ _ _ _ _ _ _ _ (si_wf _ Hinv) HU) as Hwf'.
  destruct (TopicManager.Unsubscribe_tm_cases _ _ _ _ _ _ _ _ HU)
    as [(_ & -> & -> & _)|(tp & tp' & e0 & Hk & HTU & Hcase)]; [by apply (sys_inv_same S)|].
  assert (Ht' : tm'.(TopicManager.topics) = <[TopicManager.makeTopicKey tenant name := tp']> S.(tm).(TopicManager.topics))
    by (destruct Hcase as [(_ & _ & ->)|(e1 & _ & _ & ->)]; reflexivity).
  destruct (Topic.Unsubscribe_keeps _ _ _ _ _ _ HTU) as (Hks & Htt & Htn).
  pose proof (Topic.Unsubscribe_cache _ _ _ _ _ _ HTU) as Hc'.
  destruct (si_cache _ Hinv _ _ Hk) as (hist & Hh & Hhf).
  rewrite <- (app_nil_r S.(catchups)).
  eapply (sys_inv_replace S _ _ _ tp tp' hist); try done.
  - by left.
  - intros id' r Hid'. left. destruct (Topic.Unsubscribe_cases _ _ _ _ _ _ HTU)
      as [(_ & _ & -> & _)|(r0 & _ & Hs & _)]; [done|].
    rewrite Hs in Hid'. exact (proj2 (proj1 (lookup_delete_Some _ _ _ _) Hid')).
  - exact (si_colon _ Hinv _ _ Hk).
  - refine (Topic.Unsubscribe_preserves (PS S.(store)) _ _ _ _ _ _ _ (PS_init _ (si_subs _ Hinv)) HTU).
    intros r x x' HP Hc. exact (PS_close _ _ _ _ HP Hc).
  - by rewrite Hc'.
  - eapply Forall_impl; [exact Hhf|]. intros m [H1 H2]. split; congruence.
  - apply catchups_nil.
Qed.

(** [TopicManager.ShutDown] keeps the invariant. *)
Lemma manager_shutdown_inv S h' tm' w c st :
  sys_inv S -> TopicManager.ShutDown S.(store) S.(tm) = Ret (h', tm') ->
  sys_inv (mk h' tm' S.(catchups) w c st None).
Proof.
  intros Hinv. unfold TopicManager.ShutDown. destruct (TopicManager.shutDownClosed _).
  - intros Hr. invc Hr. by apply (sys_inv_same S).
  - intros Hr. destruct (obind_ret_inv _ _ _ Hr) as (h1 & Hc & Hr'). invc Hr'.
    apply (sys_inv_store S); [done|done| |exact (TopicManager.close_all_preserves (PS S.(store)) _ _ _
      (fun r x x' HP Hc => PS_close _ _ _ _ HP Hc) (PS_init _ (si_subs _ Hinv)) Hc)|done].
    exact (TopicManager.close_all_keeps _ _ _ Hc).
Qed.

(** The subscriber [NewSubscriber] makes on a fresh connection has an
    empty stream. *)
Lemma NewSubscriber_ok id ten top pd n now s :
  Subscriber.NewSubscriber id ten top Conn.fresh pd n now = Ret s -> sub_ok (s, Subscriber.NotStarted).
Proof.
  intros Hn. split; [exact (proj1 (Subscriber.NewSubscriber_inv _ _ _ _ _ _ _ _ Hn))|].
  unfold Subscriber.NewSubscriber, Chan.make in Hn. case_decide; [done|]. simpl in Hn. invc Hn. by constructor.
Qed.

(** The first half of the subscribe handler keeps the invariant: it
    either changes nothing or registers the new subscriber and queues
    its catch-up. *)
Lemma subscribe_inv S rq accept id ptr h' tm' res :
  sys_inv S -> S.(store) !! ptr = None ->
  TopicManager.no_colon (PublishHandler.resolve_tenant rq.(SubscribeHandler.tenantCtx)) = true ->
  SubscribeHandler.subscribe_start S.(store) S.(tm) rq accept id ptr Conn.fresh false S.(clock) = Ret (h', tm', res) ->
  sys_inv (mk h' tm' (S.(catchups) ++ started_catchup res) (S.(waiting) ++ started_wait res) S.(clock) S.(stage) None).
Proof.
  intros Hinv Hp Hnc. unfold SubscribeHandler.subscribe_start.
  destruct (decide _); [intros Hr; invc Hr; apply (sys_inv_same S); simpl; rewrite ?app_nil_r; done|].
  destruct accept; simpl; [|intros Hr; invc Hr; apply (sys_inv_same S); simpl; rewrite ?app_nil_r; done].
  intros Hr. destruct (obind_ret_inv _ _ _ Hr) as (s & Hn & Hr1).
  destruct (obind_ret_inv _ _ _ Hr1) as ([[h2 tm2] e] & HS & Hr2).
  pose proof (Subscriber.NewSubscriber_inv _ _ _ _ _ _ _ _ Hn) as (_ & _ & Hid & Hten & Htop).
  pose proof (sys_inv_fresh S ptr _ Hinv Hp (NewSubscriber_ok _ _ _ _ _ _ _ Hn)) as Hinv1.
  rewrite <- Hid in HS.
  assert (Hs1 : (<[ptr := (s, Subscriber.NotStarted)]> S.(store)) !! ptr = Some (s, Subscriber.NotStarted))
    by (by rewrite lookup_insert_eq).
  destruct (manager_subscribe_inv _ ptr s _ _ _ _ _ _ [] 0 Serving Hinv1 Hs1 Hten Htop Hnc HS) as [-> _].
  simpl in Hr2. invc Hr2. simpl.
  exact (proj2 (manager_subscribe_inv _ ptr s _ _ _ _ _ _ _ _ _ Hinv1 Hs1 Hten Htop Hnc HS)).
Qed.

Lemma monitor_tick_topics h t t' :
  TopicManager.monitor_tick h t = Some t' -> t'.(TopicManager.topics) = t.(TopicManager.topics).
Proof. unfold TopicManager.monitor_tick. destruct (TopicManager.shutDownClosed t); [done|]. intros Hm. by invc Hm. Qed.

(** Every step of the server keeps the invariant, when tenants are
    colon-free. *)
Lemma sys_step_inv fmt S S' : sys_step fmt TopicManager.no_colon S S' -> sys_inv S -> sys_inv S'.
Proof.
  intros Hs Hinv. destruct Hs; try (by apply (sys_inv_same S)).
  - exact (publish_inv _ _ _ _ _ _ _ _ _ Hinv H3 H4).
  - exact (subscribe_inv _ _ _ _ _ _ _ _ Hinv H1 H3 H4).
  - refine (sys_inv_same _ _ _ _ _ (catchup_inv _ _ _ _ _ _ _ Hinv H1 H2 H3)); done.
  - exact (loop_inv _ _ _ _ _ Hinv H1 H2).
  - exact (cancel_inv _ _ _ _ Hinv H1).
  - unfold SubscribeHandler.subscribe_finish in H4. destruct (obind_ret_inv _ _ _ H4) as ([[h1 t1] e] & HU & Hr).
    invc Hr. exact (manager_unsubscribe_inv _ _ _ _ _ _ _ _ _ _ Hinv HU).
  - apply (sys_inv_same S); [done| |done|done]. exact (monitor_tick_topics _ _ _ H1).
  - exact (manager_shutdown_inv _ _ _ _ _ _ Hinv H1).
Qed.

Lemma main_init_inv e t0 : sys_inv (main_init e t0).
Proof.
  unfold main_init, TopicManager.NewTopicManager. constructor; simpl.
  - intros k tp Hk. simpl in Hk. by rewrite lookup_empty in Hk.
  - intros k tp Hk. simpl in Hk. by rewrite lookup_empty in Hk.
  - intros k tp id r Hk. by rewrite lookup_empty in Hk.
  - intros k tp Hk. by rewrite lookup_empty in Hk.
  - intros r x Hr. by rewrite lookup_empty in Hr.
  - apply catchups_nil.
Qed.

Lemma reachable_inv fmt e t0 S : rtc (sys_step fmt TopicManager.no_colon) (main_init e t0) S -> sys_inv S.
Proof. apply rtc_preserved; [intros a b Ha Hab; exact (sys_step_inv _ _ _ Hab Ha)|apply main_init_inv]. Qed.

End Isolation.

(** ** The subscriber count

    The buffer manager's count, which sizes every new inbox, follows
    the registry: it is the number of registered subscribers, wrapped
    to [int32] as [AddNewSubscriber] and [OnSubscriberRemoval] wrap it. *)

Section Ledger.

Definition ledger32 (t : TopicManager.t) : Prop :=
  t.(TopicManager.bufferManager).(BufferManager.suncriberCount) = int32 (TopicManager.GetTotalSubscriberCount t).

Lemma ledger32_same t t' :
  t'.(TopicManager.bufferManager).(BufferManager.suncriberCount) =
    t.(TopicManager.bufferManager).(BufferManager.suncriberCount) ->
  TopicManager.GetTotalSubscriberCount t' = TopicManager.GetTotalSubscriberCount t -> ledger32 t -> ledger32 t'.
Proof. unfold ledger32. intros -> ->. done. Qed.

Lemma ledger32_add t t' :
  t'.(TopicManager.bufferManager) = BufferManager.AddNewSubscriber t.(TopicManager.bufferManager) ->
  TopicManager.GetTotalSubscriberCount t' = TopicManager.GetTotalSubscriberCount t + 1 -> ledger32 t -> ledger32 t'.
Proof. unfold ledger32. intros -> -> Hl. simpl. rewrite Hl. apply wrap_add. lia. Qed.

Lemma ledger32_remove t t' :
  t'.(TopicManager.bufferManager) = BufferManager.OnSubscriberRemoval t.(TopicManager.bufferManager) ->
  TopicManager.GetTotalSubscriberCount t' = TopicManager.GetTotalSubscriberCount t - 1 -> ledger32 t -> ledger32 t'.
Proof. unfold ledger32. intros -> -> Hl. simpl. rewrite Hl. unfold int32. rewrite <- !Z.add_opp_r. apply wrap_add. lia. Qed.

Lemma ledger32_keep t t' :
  t'.(TopicManager.bufferManager).(BufferManager.suncriberCount) =
    t.(TopicManager.bufferManager).(BufferManager.suncriberCount) ->
  t'.(TopicManager.topics) = t.(TopicManager.topics) -> ledger32 t -> ledger32 t'.
Proof. intros Hc Ht. apply ledger32_same; [done|]. by apply TopicManager.total_topics. Qed.

Lemma sys_step_ledger fmt S S' :
  sys_step fmt TopicManager.no_colon S S' -> sys_inv S -> ledger32 S.(tm) -> ledger32 S'.(tm).
Proof.
  intros Hs Hinv Hl. destruct Hs; simpl; try exact Hl.
  - destruct (PublishHandler.ServeHTTP_total _ _ _ _ _ _ _ _ _ _ _ H4) as [Hbm Ht].
    apply (ledger32_same (tm S)); [by rewrite Hbm|done|done].
  - destruct (SubscribeHandler.subscribe_start_total _ _ _ _ _ _ _ _ _ _ _ _
                (si_wf _ Hinv) (si_colon _ Hinv) H3 H1 H2 H4) as [->|[Hbm Ht]]; [done|].
    exact (ledger32_add _ _ Hbm Ht Hl).
  - destruct (SubscribeHandler.subscribe_finish_total _ _ _ _ _ _ _ H4) as [->|[Hbm Ht]]; [done|].
    exact (ledger32_remove _ _ Hbm Ht Hl).
  - unfold TopicManager.monitor_tick in H1. destruct (TopicManager.shutDownClosed _); [done|]. by invc H1.
  - apply (ledger32_keep (tm S)); [|done|done]. simpl. unfold BufferManager.recalculate. by case_decide.
  - unfold TopicManager.ShutDown in H1. destruct (TopicManager.shutDownClosed _); [by invc H1|].
    destruct (obind_ret_inv _ _ _ H1) as (h1 & _ & H2). by invc H2.
  - apply (ledger32_keep (tm S)); [|done|done]. simpl. unfold BufferManager.Stop in H1.
    destruct (BufferManager.stopped _); [done|]. by invc H1.
Qed.

Lemma reachable_ledger fmt e t0 S :
  rtc (sys_step fmt TopicManager.no_colon) (main_init e t0) S -> sys_inv S /\ ledger32 S.(tm).
Proof.
  apply (rtc_preserved _ (fun S => sys_inv S /\ ledger32 S.(tm))).
  - intros a b [Ha Hl] Hab. split; [exact (sys_step_inv _ _ _ Hab Ha)|exact (sys_step_ledger _ _ _ Hab Ha Hl)].
  - split; [apply main_init_inv|reflexivity].
Qed.

End Ledger.

(** ** Executions of the server *)

(** Every variable unset, clock at 0, a fixed rendering of the clock. *)
Definition env0 : Config.env := fun _ => "".
Definition fmt0 : Z -> string := fun _ => "20250101-000000.000000".
Definition init0 : sys := main_init env0 0.

Definition rq_sub : SubscribeHandler.request := SubscribeHandler.mkRequest None "t1".
Definition rq_pub : PublishHandler.request :=
  PublishHandler.mkRequest "POST" None (Some (PublishHandler.mkReq "t1" (Some []))).

(** A subscriber joins ["default-tenant:t1"]; a message is published;
    the client stops reading, so the write of that message fails and
    [sendLoop] closes the subscriber; a second publish arrives before
    the handler has unsubscribed it. *)
Definition run_transport_failure : list event :=
  [EvSubscribe rq_sub true "sub-1" 1%positive; EvPublish rq_pub 10 0; EvWriteFail 1%positive false;
   EvPublish rq_pub 10 0].

(** A subscriber joins, a message is published, the server is signalled
    and [main] runs [ShutDown] before the catch-up goroutine of the
    subscription has run. *)
Definition run_shutdown : list event :=
  [EvSubscribe rq_sub true "sub-1" 1%positive; EvPublish rq_pub 10 0; EvSignal; EvShutDown; EvCatchup 0].

(** A message is published after the subscriber has joined the topic
    and before its catch-up goroutine reads the cache. *)
Definition run_catchup_late : list event :=
  [EvSubscribe rq_sub true "sub-1" 1%positive; EvPublish rq_pub 10 0; EvCatchup 0].

Lemma exec_all_reach S evs (P : sys -> Prop) :
  match exec_all fmt0 TopicManager.no_colon S evs with Some S' => P S' | None => False end ->
  exists S', rtc (sys_step fmt0 TopicManager.no_colon) S S' /\ P S'.
Proof.
  destruct (exec_all fmt0 TopicManager.no_colon S evs) as [S'|] eqn:E; [|done].
  intros HP. exists S'. split; [exact (exec_all_sound _ _ _ _ _ E)|exact HP].
Qed.

(** The message [rq_pub] creates at clock 0. *)
Definition m_pub : Message.t := Message.NewMessage fmt0 0 0 "t1" "default-tenant" (Some []).

(** C22: the server process panics, with colon-free tenants and no
    misuse: when a client stops reading, [sendLoop] closes its
    subscriber while the subscriber is still in its topic, and the
    next publish to the topic sends on the closed channel; and a
    graceful shutdown that closes a subscriber before its catch-up
    goroutine has run makes that goroutine send on the closed channel. *)
Theorem reachable_crashes :
  (exists S, rtc (sys_step fmt0 TopicManager.no_colon) init0 S /\ S.(crashed) = Some "send on closed channel") /\
  (exists S, rtc (sys_step fmt0 TopicManager.no_colon) init0 S /\ S.(stage) = ManagerShutDown /\
     S.(crashed) = Some "send on closed channel").
Proof.
  split.
  - apply (exec_all_reach init0 run_transport_failure (fun S => S.(crashed) = Some "send on closed channel")).
    vm_compute. reflexivity.
  - apply (exec_all_reach init0 run_shutdown
             (fun S => S.(stage) = ManagerShutDown /\ S.(crashed) = Some "send on closed channel")).
    vm_compute. split; reflexivity.
Qed.

(** C32: catch-up and live delivery overlap: a message published between
    the insertion of a subscriber and the run of its catch-up goroutine
    reaches the subscriber's inbox twice. *)
Theorem catchup_duplicates :
  exists S x, rtc (sys_step fmt0 TopicManager.no_colon) init0 S /\ S.(crashed) = None /\
    S.(store) !! 1%positive = Some x /\ Subscriber.stream x.1 = [m_pub; m_pub].
Proof.
  destruct (exec_all_reach init0 run_catchup_late
              (fun S => S.(crashed) = None /\ exists x, S.(store) !! 1%positive = Some x /\
                        Subscriber.stream x.1 = [m_pub; m_pub])) as (S & Hr & Hc & x & Hx & Hs).
  { vm_compute. split; [reflexivity|]. eexists. split; reflexivity. }
  exists S, x. auto.
Qed.

(** C2: isolation of the whole server: in every state the server reaches
    from [main] under any interleaving of its goroutines, with tenants
    that contain no colon, every message written to a client or waiting
    in a subscriber's inbox carries that subscriber's tenant and topic,
    and every registered subscriber has the ID it is registered under
    and the tenant and topic of its topic. *)
Theorem system_isolation fmt e t0 S :
  rtc (sys_step fmt TopicManager.no_colon) (main_init e t0) S ->
  (forall r x, S.(store) !! r = Some x ->
     Forall (fun m => m.(Message.TenantID) = x.1.(Subscriber.TenantID) /\ m.(Message.Topic) = x.1.(Subscriber.Topic))
       (Subscriber.stream x.1)) /\
  (forall k tp id r, S.(tm).(TopicManager.topics) !! k = Some tp -> tp.(Topic.subscribers) !! id = Some r ->
     exists x, S.(store) !! r = Some x /\ x.1.(Subscriber.ID) = id /\
       x.1.(Subscriber.TenantID) = tp.(Topic.tenantID) /\ x.1.(Subscriber.Topic) = tp.(Topic.name)).
Proof.
  intros Hr. destruct (reachable_inv _ _ _ _ Hr) as [Hwf _ Htop _ Hsubs _]. split.
  - intros r x Hx. exact (proj2 (Hsubs _ _ Hx)).
  - intros k tp id r Hk Hid. destruct (Hwf _ _ Hk) as [_ Htw]. destruct (Htw _ _ Hid) as (x & Hx & Hi & Ht).
    destruct (Htop _ _ _ _ Hk Hid) as (x' & Hx' & Htp). rewrite Hx in Hx'. invc Hx'. eauto.
Qed.

(** The state [run_catchup_late] reaches, and its subscriber. *)
Definition S_late : sys :=
  match exec_all fmt0 TopicManager.no_colon init0 run_catchup_late with Some S0 => S0 | None => init0 end.
Definition x_late : SubC :=
  match S_late.(store) !! 1%positive with Some x => x | None => Topic.sub_a end.

Lemma system_isolation_witness :
  rtc (sys_step fmt0 TopicManager.no_colon) init0 S_late /\ S_late.(store) !! 1%positive = Some x_late /\
  Subscriber.stream x_late.1 = [m_pub; m_pub] /\
  Forall (fun m => m.(Message.TenantID) = x_late.1.(Subscriber.TenantID) /\
                   m.(Message.Topic) = x_late.1.(Subscriber.Topic)) (Subscriber.stream x_late.1).
Proof.
  assert (Hrun : exec_all fmt0 TopicManager.no_colon init0 run_catchup_late = Some S_late)
    by (vm_compute; reflexivity).
  pose proof (exec_all_sound _ _ _ _ _ Hrun) as Hr.
  assert (Hx : S_late.(store) !! 1%positive = Some x_late) by (vm_compute; reflexivity).
  split; [exact Hr|]. split; [exact Hx|]. split; [vm_compute; reflexivity|].
  exact (proj1 (system_isolation fmt0 env0 0 S_late Hr) _ _ Hx).
Defined.

(** C14: in every state the server reaches from [main] with colon-free
    tenants (and the distinct subscriber IDs [uuid.New] draws), the
    subscriber count by which the buffer manager sizes new inboxes is
    the number of subscribers the health endpoint reports, wrapped to
    [int32]: a publish, the catch-ups, the delivery loops, the monitor,
    the recalculation, shutdown and [Stop] leave both unchanged, a
    subscription raises both and a finished handler lowers both. *)
Theorem health_ledger fmt e t0 S :
  rtc (sys_step fmt TopicManager.no_colon) (main_init e t0) S ->
  forall dur hh now_ts now_up g m,
    S.(tm).(TopicManager.bufferManager).(BufferManager.suncriberCount) =
      int32 (HealthHandler.ServeHTTP dur hh S.(tm) now_ts now_up g m).2.(HealthHandler.Subscribers).
Proof. intros Hr *. exact (proj2 (reachable_ledger _ _ _ _ Hr)). Qed.

Lemma health_ledger_witness :
  rtc (sys_step fmt0 TopicManager.no_colon) init0 S_late /\
  S_late.(tm).(TopicManager.bufferManager).(BufferManager.suncriberCount) = 1 /\
  (HealthHandler.ServeHTTP (fun _ => "1s") (HealthHandler.NewHealthHandler 0) S_late.(tm) 5 5 12
     (HealthHandler.mkMemStats 0 0 0 0)).2.(HealthHandler.Subscribers) = 1 /\
  S_late.(tm).(TopicManager.bufferManager).(BufferManager.suncriberCount) =
    int32 (HealthHandler.ServeHTTP (fun _ => "1s") (HealthHandler.NewHealthHandler 0) S_late.(tm) 5 5 12
             (HealthHandler.mkMemStats 0 0 0 0)).2.(HealthHandler.Subscribers).
Proof.
  assert (Hrun : exec_all fmt0 TopicManager.no_colon init0 run_catchup_late = Some S_late)
    by (vm_compute; reflexivity).
  pose proof (exec_all_sound _ _ _ _ _ Hrun) as Hr.
  split; [exact Hr|]. split; [vm_compute; reflexivity|]. split; [vm_compute; reflexivity|].
  exact (health_ledger fmt0 env0 0 S_late Hr _ _ _ _ _ _).
Defined.

End System.
